(** * DataSelector: selection ledger, zoom history and export

    A shallow embedding of the two widget families of the repository:

    - the fixed-axis pair [PlotForDataSelector] / [UIforSelector], and
    - the variable-axis class [DataSelector],

    restricted to the state they keep (selection sets, the by-date ledger,
    zoom history, axis limits) and the computations on it.  D3 selections,
    SVG attributes and text boxes are presentation only and are left out;
    whenever a DOM call can throw (for instance [Array.from(undefined)] in
    [updateTextBoxes]) the throw is kept.

    Numbers are exact rationals; [NaN] is kept as a separate value, the
    infinities are not represented.  Dates are instants in whole
    milliseconds, as [Date] objects are. *)

From Stdlib Require Import ZArith QArith Qround Qabs Lia Lqa Ascii String Sorted.
From stdpp Require Import base list strings gmap.

Open Scope Z_scope.

(** ** Exceptions *)

Inductive JSError := TypeError | RangeError.

(** A computation over a mutable state [S].  A throw keeps the state that
    was reached when it happened: the handlers of the widget are not
    transactional. *)
Inductive Outcome (S A : Type) :=
  | Ok (a : A) (s : S)
  | Throw (e : JSError) (s : S).
Arguments Ok {S A} a s.
Arguments Throw {S A} e s.

Definition M (S A : Type) : Type := S -> Outcome S A.

Definition ret {S A} (a : A) : M S A := fun s => Ok a s.
Definition throw {S A} (e : JSError) : M S A := fun s => Throw e s.
Definition bind {S A B} (m : M S A) (k : A -> M S B) : M S B :=
  fun s => match m s with
           | Ok a s' => k a s'
           | Throw e s' => Throw e s'
           end.
Definition get {S} : M S S := fun s => Ok s s.
Definition gets {S A} (f : S -> A) : M S A := fun s => Ok (f s) s.
Definition modify {S} (f : S -> S) : M S unit := fun s => Ok tt (f s).

Declare Scope js_scope.
Delimit Scope js_scope with js.
Notation "x <- m ;; k" := (bind m (fun x => k))
  (at level 100, m at next level, k at level 200, right associativity) : js_scope.
Notation "m ;;; k" := (bind m (fun _ => k))
  (at level 100, k at level 200, right associativity) : js_scope.

Definition out_state {S A} (o : Outcome S A) : S :=
  match o with Ok _ s => s | Throw _ s => s end.

Definition succeeded {S A} (o : Outcome S A) : bool :=
  match o with Ok _ _ => true | Throw _ _ => false end.

(** [for (let x of xs) body(x)] over a snapshot of the iterated collection. *)
Fixpoint for_of {S A} (xs : list A) (body : A -> M S unit) : M S unit :=
  match xs with
  | [] => ret tt
  | x :: rest => bind (body x) (fun _ => for_of rest body)
  end.

(** Run a computation inside a component of a larger state. *)
Definition zoom_in {S T A} (proj : S -> T) (inj : T -> S -> S) (m : M T A) : M S A :=
  fun s => match m (proj s) with
           | Ok a t => Ok a (inj t s)
           | Throw e t => Throw e (inj t s)
           end.

(** ** Dates *)

(** A [Date] object: a time value in whole milliseconds since the epoch, or
    the invalid date (time value [NaN]). *)
Inductive Date := Instant (ms : Z) | InvalidDate.

Definition maxTime : Z := 8640000000000000.

(** Truncation toward zero, [ToIntegerOrInfinity] on a finite number. *)
Definition Qtrunc (q : Q) : Z :=
  if Qle_bool 0 q then Qfloor q else Qceiling q.

(** [TimeClip]: what [new Date(t)] keeps of a finite number [t]. *)
Definition TimeClip (t : Q) : Date :=
  if Qle_bool (Qabs t) (inject_Z maxTime) then Instant (Qtrunc t) else InvalidDate.

(** [new Date(t)] for a number that may be [NaN] ([None]). *)
Definition Date_of_number (t : option Q) : Date :=
  match t with Some q => TimeClip q | None => InvalidDate end.

(** [date.valueOf()], [None] standing for [NaN]. *)
Definition valueOf (d : Date) : option Q :=
  match d with Instant ms => Some (inject_Z ms) | InvalidDate => None end.

(** Calendar fields of a day number (days since 1970-01-01), proleptic
    Gregorian calendar, as [YearFromTime], [MonthFromTime] and
    [DateFromTime] give them. *)
Definition civil_from_days (days : Z) : Z * Z * Z :=
  let z := days + 719468 in
  let era := z / 146097 in
  let doe := z - era * 146097 in
  let yoe := (doe - doe / 1460 + doe / 36524 - doe / 146096) / 365 in
  let y := yoe + era * 400 in
  let doy := doe - (365 * yoe + yoe / 4 - yoe / 100) in
  let mp := (5 * doy + 2) / 153 in
  let d := doy - (153 * mp + 2) / 5 + 1 in
  let m := if mp <? 10 then mp + 3 else mp - 9 in
  (if m <=? 2 then y + 1 else y, m, d).

Definition digit (n : Z) : ascii :=
  ascii_of_N (48 + Z.to_N (n mod 10)).

(** Decimal digits of [n], zero padded to [w] places. *)
Fixpoint pad (w : nat) (n : Z) : string :=
  match w with
  | O => EmptyString
  | S w' => pad w' (n / 10) +:+ String (digit n) EmptyString
  end.

(** The year of an ISO string: four digits from 0 to 9999, otherwise a sign
    and six digits. *)
Definition iso_year (y : Z) : string :=
  if (0 <=? y) && (y <=? 9999) then pad 4 y
  else if y <? 0 then "-" +:+ pad 6 (- y)
  else "+" +:+ pad 6 y.

(** [date.toISOString()]: [YYYY-MM-DDTHH:mm:ss.sssZ]; a [RangeError] on the
    invalid date. *)
Definition toISOString (d : Date) : JSError + string :=
  match d with
  | InvalidDate => inl RangeError
  | Instant ms =>
      let day := ms / 86400000 in
      let t := ms mod 86400000 in
      let '(y, m, dd) := civil_from_days day in
      inr (iso_year y +:+ "-" +:+ pad 2 m +:+ "-" +:+ pad 2 dd +:+ "T"
           +:+ pad 2 (t / 3600000) +:+ ":" +:+ pad 2 (t / 60000 mod 60) +:+ ":"
           +:+ pad 2 (t / 1000 mod 60) +:+ "." +:+ pad 3 (t mod 1000) +:+ "Z")
  end.

(** [str.replace('T', " ")]: the first occurrence only. *)
Fixpoint replace_first (c r : ascii) (s : string) : string :=
  match s with
  | EmptyString => EmptyString
  | String a rest => if Ascii.eqb a c then String r rest
                     else String a (replace_first c r rest)
  end.

(** [str.slice(0, -n)]. *)
Definition slice_to_end (n : nat) (s : string) : string :=
  String.substring 0 (String.length s - n) s.

(** ** Values that reach the axis code

    [updateAxes] and [createScales] receive [null], [Date] objects, numbers
    and, from the input boxes, strings. *)
Inductive JsVal :=
  | JUndefined
  | JNull
  | JNaN
  | JNum (q : Q)
  | JStr (s : string)
  | JDate (d : Date).

Definition of_number (n : option Q) : JsVal :=
  match n with Some q => JNum q | None => JNaN end.

(** [!v] *)
Definition falsy (v : JsVal) : bool :=
  match v with
  | JUndefined | JNull | JNaN => true
  | JNum q => Qeq_bool q 0
  | JStr s => String.eqb s EmptyString
  | JDate _ => false
  end.

(** [v == null] *)
Definition is_nullish (v : JsVal) : bool :=
  match v with JUndefined | JNull => true | _ => false end.

(** [a === b] on the values a limits object holds in its y fields.  Two
    [Date] objects are compared by identity, which the model does not
    track; no caller compares dates with [===]. *)
Definition strict_eq (a b : JsVal) : bool :=
  match a, b with
  | JUndefined, JUndefined => true
  | JNull, JNull => true
  | JNum p, JNum q => Qeq_bool p q
  | JStr s, JStr t => String.eqb s t
  | _, _ => false
  end.

(** ** Set and Map objects

    A [Set] of strings keeps its members in insertion order without
    repetition; a [Map] with string keys keeps its entries in insertion
    order, [set] on a present key replacing the value in place. *)

Abbreviation JSSet := (list string) (only parsing).

Definition set_has (x : string) (s : JSSet) : bool := bool_decide (x ∈ s).
Definition set_add (x : string) (s : JSSet) : JSSet :=
  if decide (x ∈ s) then s else s ++ [x].
Definition set_delete (x : string) (s : JSSet) : JSSet :=
  filter (fun y => y ≠ x) s.

Abbreviation JSMap V := (list (string * V)) (only parsing).

Fixpoint map_get {V} (k : string) (m : JSMap V) : option V :=
  match m with
  | [] => None
  | (k', v) :: rest => if decide (k' = k) then Some v else map_get k rest
  end.

Fixpoint map_set {V} (k : string) (v : V) (m : JSMap V) : JSMap V :=
  match m with
  | [] => [(k, v)]
  | (k', v') :: rest =>
      if decide (k' = k) then (k, v) :: rest else (k', v') :: map_set k v rest
  end.

Definition map_delete {V} (k : string) (m : JSMap V) : JSMap V :=
  filter (fun p => p.1 ≠ k) m.

Definition map_keys {V} (m : JSMap V) : list string := m.*1.

(** ** Date keys *)

(** [formatISODate(date, salt)].  [salt] is [Some t] for a truthy salt whose
    string form is [t], and [None] for a missing or falsy one.  A [date]
    that is not a [Date] object has no [toISOString]. *)
Definition formatISODate (date : JsVal) (salt : option string) : JSError + string :=
  match date with
  | JDate d =>
      match toISOString d with
      | inl e => inl e
      | inr iso =>
          let base := slice_to_end 8 (replace_first "T" " " iso) in
          match salt with
          | Some t => if decide (t = EmptyString) then inr base else inr (base +:+ " " +:+ t)
          | None => inr base
          end
      end
  | _ => inl TypeError
  end.

(** ** Selection state

    Both families keep the same five fields and run the same code on them
    ([UIforSelector.commitSelections] and [DataSelector.commitSelections]
    are the same text, and so on), so the selection state is described
    once.  The per-compound sets are objects: [selectedDates] holds a
    reference to one of them, so they live in a store and are named by
    address.  The sets inside [selectionsByDate] are only ever reached
    through the map and are kept by value. *)
Record Sel := mkSel {
  heap : gmap nat JSSet;
  next_addr : nat;
  selectionsByCompound : gmap string nat;
  selectionsByDate : JSMap JSSet;
  previousCompound : option string;
  selectedDates : option nat;
}.

Definition set_at (a : nat) (s : Sel) : JSSet := default [] (heap s !! a).

Definition with_set (a : nat) (f : JSSet -> JSSet) (s : Sel) : Sel :=
  mkSel (<[a := f (set_at a s)]> (heap s)) (next_addr s) (selectionsByCompound s)
        (selectionsByDate s) (previousCompound s) (selectedDates s).

Definition with_ledger (f : JSMap JSSet -> JSMap JSSet) (s : Sel) : Sel :=
  mkSel (heap s) (next_addr s) (selectionsByCompound s)
        (f (selectionsByDate s)) (previousCompound s) (selectedDates s).

Definition with_selectedDates (r : option nat) (s : Sel) : Sel :=
  mkSel (heap s) (next_addr s) (selectionsByCompound s)
        (selectionsByDate s) (previousCompound s) r.

Definition with_previousCompound (c : option string) (s : Sel) : Sel :=
  mkSel (heap s) (next_addr s) (selectionsByCompound s)
        (selectionsByDate s) c (selectedDates s).

(** [new Set()] *)
Definition new_Set : M Sel nat :=
  fun s => Ok (next_addr s)
              (mkSel (<[next_addr s := []]> (heap s)) (S (next_addr s))
                     (selectionsByCompound s) (selectionsByDate s)
                     (previousCompound s) (selectedDates s)).

(** [selectionsByCompound.set(c, a)] *)
Definition bind_compound (c : string) (a : nat) (s : Sel) : Sel :=
  mkSel (heap s) (next_addr s) (<[c := a]> (selectionsByCompound s))
        (selectionsByDate s) (previousCompound s) (selectedDates s).

(** The state the field initialisers of the constructors leave. *)
Definition Sel_constructed : Sel := mkSel ∅ 0 ∅ [] None None.

Local Open Scope js_scope.

(** [updateTextBoxes(newTextSet)]: [Array.from(undefined)] throws; the rest
    writes text, a date-key missing from the ledger being shown with
    count 0. *)
Definition updateTextBoxes (newTextSet : option nat) : M Sel unit :=
  match newTextSet with
  | None => throw TypeError
  | Some _ => ret tt
  end.

(** One round of the loop of [commitSelections]. *)
Definition commit_one (compound : string) (compoundSet : option nat) (d : string)
  : M Sel unit :=
  modify (with_ledger (fun m =>
            match map_get d m with
            | None => map_set d [] m
            | Some _ => m
            end)) ;;;
  modify (with_ledger (fun m =>
            map_set d (set_add compound (default [] (map_get d m))) m)) ;;;
  match compoundSet with
  | None => throw TypeError
  | Some ca => modify (with_set ca (set_add d))
  end.

(** [commitSelections(compound)].  The loop runs over [selectedDates]; the
    only set written during the loop is [compoundSet], and when that is
    the iterated object every [add] finds its member present, so iterating
    a snapshot is iterating the live set. *)
Definition commitSelections (compound : string) : M Sel unit :=
  compoundSet <- gets (fun s => selectionsByCompound s !! compound) ;;
  sd <- gets selectedDates ;;
  match sd with
  | None => throw TypeError
  | Some a =>
      ds <- gets (set_at a) ;;
      for_of ds (commit_one compound compoundSet) ;;;
      updateTextBoxes compoundSet
  end.

(** [commitSelections(this.previousCompound)].  With [previousCompound]
    undefined there is no per-compound set to add to and the call throws;
    that happens only when the compound list is empty. *)
Definition commitPrevious : M Sel unit :=
  pc <- gets previousCompound ;;
  match pc with
  | Some c => commitSelections c
  | None => throw TypeError
  end.

(** [updateClicked(item, removeOnDupe)]; [date] and [salt] are the fields
    of the datum bound to the clicked item. *)
Definition updateClicked (date : JsVal) (salt : option string) (removeOnDupe : bool)
  : M Sel unit :=
  match formatISODate date salt with
  | inl e => throw e
  | inr selectedDate =>
      sd <- gets selectedDates ;;
      match sd with
      | None => throw TypeError
      | Some a =>
          present <- gets (fun s => set_has selectedDate (set_at a s)) ;;
          (if present && removeOnDupe then
             modify (with_set a (set_delete selectedDate)) ;;;
             entry <- gets (fun s => map_get selectedDate (selectionsByDate s)) ;;
             match entry with
             | None => throw TypeError
             | Some cs =>
                 pc <- gets previousCompound ;;
                 let cs' := match pc with
                            | Some c => set_delete c cs
                            | None => cs
                            end in
                 if decide (length cs' = 0%nat)
                 then modify (with_ledger (map_delete selectedDate))
                 else modify (with_ledger (map_set selectedDate cs'))
             end
           else
             modify (with_set a (set_add selectedDate))) ;;;
          commitPrevious
      end
  end.

(** The loop body of [cleanPlot]. *)
Definition clean_one (compound : string) (d : string) : M Sel unit :=
  entry <- gets (fun s => map_get d (selectionsByDate s)) ;;
  match entry with
  | None => ret tt
  | Some cs =>
      let cs' := set_delete compound cs in
      if decide (length cs' = 0%nat)
      then modify (with_ledger (map_delete d))
      else modify (with_ledger (map_set d cs'))
  end.

(** [cleanPlot(compound)] up to its closing [render(compound)]. *)
Definition cleanPlot_sets (compound : string) : M Sel unit :=
  compoundSet <- gets (fun s => selectionsByCompound s !! compound) ;;
  match compoundSet with
  | None => throw TypeError
  | Some ca =>
      ds <- gets (set_at ca) ;;
      for_of ds (clean_one compound) ;;;
      modify (with_set ca (fun _ => []))
  end.

(** The first statement of [render(compound)]:
    [this.selectedDates = this.selectionsByCompound.get(compound)]. *)
Definition render_select (compound : option string) : M Sel unit :=
  modify (fun s => with_selectedDates
                     (match compound with
                      | Some c => selectionsByCompound s !! c
                      | None => None
                      end) s).

(** The last statement of [render]: [updateTextBoxes(this.selectedDates)]. *)
Definition render_text : M Sel unit :=
  sd <- gets selectedDates ;;
  updateTextBoxes sd.

(** The selection part of [initVars], up to its closing [render]. *)
Definition initVars_sets (compounds : list string) : M Sel unit :=
  for_of compounds (fun c => a <- new_Set ;; modify (bind_compound c a)) ;;;
  modify (with_ledger (fun _ => [])) ;;;
  a <- new_Set ;;
  modify (with_selectedDates (Some a)) ;;;
  modify (with_previousCompound (head compounds)).

(** ** Numbers, data and limits *)

(** The two conversions the browser does on the text of an input box; both
    depend on its locale and time zone and are taken as given. *)
Record Browser := mkBrowser {
  Number_parse : string -> option Q;   (* [Number(s)], [None] for [NaN] *)
  Date_parse : string -> Date;         (* [new Date(s)] *)
}.

Definition Qlt_bool (a b : Q) : bool := negb (Qle_bool b a).

(** [ToNumber], [None] standing for [NaN]. *)
Definition ToNumber (B : Browser) (v : JsVal) : option Q :=
  match v with
  | JUndefined | JNaN => None
  | JNull => Some 0%Q
  | JNum q => Some q
  | JStr s => Number_parse B s
  | JDate d => valueOf d
  end.

(** [new Date(v)] *)
Definition new_Date (B : Browser) (v : JsVal) : Date :=
  match v with
  | JUndefined | JNaN => InvalidDate
  | JNull => Instant 0
  | JNum q => TimeClip q
  | JStr s => Date_parse B s
  | JDate d => d
  end.

(** [a >= b] and [a <= b] where at most one side is a string: both sides
    go through [ToNumber], and a [NaN] makes the comparison false. *)
Definition js_ge (B : Browser) (a b : JsVal) : bool :=
  match ToNumber B a, ToNumber B b with
  | Some p, Some q => Qle_bool q p
  | _, _ => false
  end.
Definition js_le (B : Browser) (a b : JsVal) : bool := js_ge B b a.

(** One element of a fetched JSON array: its numeric fields, and the text
    appended to its date-key when the configured salt field is truthy. *)
Record Raw := mkRaw {
  fields : gmap string Q;
  salt_text : option string;
}.

(** The same element after [render] has replaced epoch fields by dates. *)
Record Point := mkPoint {
  dates : gmap string Date;
  nums : gmap string Q;
  psalt : option string;
}.

(** [d[k]] *)
Definition getf (d : Point) (k : string) : JsVal :=
  match dates d !! k with
  | Some t => JDate t
  | None => match nums d !! k with
            | Some q => JNum q
            | None => JUndefined
            end
  end.

(** [new Date((e + (60 * 60 * UTCoffset)) * 1000)], [e] being [undefined]
    when the field is missing. *)
Definition shifted_date (UTCoffset : Q) (e : option Q) : Date :=
  Date_of_number (match e with
                  | Some q => Some ((q + (60 * 60 * UTCoffset)) * 1000)%Q
                  | None => None
                  end).

(** [d[k] = new Date((d[k] + (60 * 60 * UTCoffset)) * 1000)] for every [k]
    of [keys]. *)
Definition convert (UTCoffset : Q) (keys : list string) (r : Raw) : Point :=
  mkPoint (foldr (fun k acc => <[k := shifted_date UTCoffset (fields r !! k)]> acc) ∅ keys)
          (fields r) (salt_text r).

(** [d3.max(data, f)] and [d3.min(data, f)] on the numbers [f] returns:
    [NaN]s are skipped, and the result is [undefined] ([None]) when nothing
    is left. *)
Definition d3_pick (better : Q -> Q -> bool) (vals : list (option Q)) : option Q :=
  fold_left (fun acc v =>
               match v, acc with
               | None, _ => acc
               | Some x, None => Some x
               | Some x, Some m => if better x m then Some x else Some m
               end) vals None.
Definition d3_max := d3_pick (fun x m => Qlt_bool m x).
Definition d3_min := d3_pick (fun x m => Qlt_bool x m).

(** [Math.ceil(m / r) * r] and [Math.floor(m / r) * r].  Dividing by zero
    gives an infinity or [NaN], and the product with [r = 0] is [NaN]. *)
Definition ceil_to (m : option Q) (r : Q) : JsVal :=
  match m with
  | None => JNaN
  | Some q => if Qeq_bool r 0 then JNaN
              else JNum (inject_Z (Qceiling (q / r)) * r)%Q
  end.
Definition floor_to (m : option Q) (r : Q) : JsVal :=
  match m with
  | None => JNaN
  | Some q => if Qeq_bool r 0 then JNaN
              else JNum (inject_Z (Qfloor (q / r)) * r)%Q
  end.

(** A limits object [{xMin, xMax, yMin, yMax}].  Its x fields are [Date]
    objects that went through [toISOString] without a throw, so they are
    instants; its y fields are whatever was passed or computed. *)
Record Limits := mkLimits {
  xMin : Z;
  xMax : Z;
  yMin : JsVal;
  yMax : JsVal;
}.

(** [areLimitsEqual(lim1, lim2)] *)
Definition areLimitsEqual (lim1 lim2 : Limits) : bool :=
  (xMin lim1 =? xMin lim2) && (xMax lim1 =? xMax lim2)
  && strict_eq (yMin lim1) (yMin lim2) && strict_eq (yMax lim1) (yMax lim2).

(** The x range a shift-drag asks for, the same statements in both
    [dragEnd]s: [xStart] and [xEnd] are the dates [xScale.invert] returned
    for the two vertical edges of the rectangle. *)
Definition zoom_range (lim : Limits) (xZoomLimit : Q) (xStart xEnd : Z) : Date * Date :=
  if (xStart <? xMin lim) || (xEnd >? xMax lim) then
    (Instant (xMin lim), Instant (xMax lim))
  else if Qlt_bool (inject_Z (xEnd - xStart)) xZoomLimit then
    let xAvg := ((inject_Z xEnd + inject_Z xStart) / 2)%Q in
    (TimeClip (xAvg - xZoomLimit / 2), TimeClip (xAvg + xZoomLimit / 2))
  else
    (Instant xStart, Instant xEnd).

(** The filter of [render] that keeps the points inside the limits. *)
Definition inside (B : Browser) (lim : Limits) (x y : JsVal) : bool :=
  js_ge B x (JDate (Instant (xMin lim))) && js_le B x (JDate (Instant (xMax lim)))
  && js_ge B y (yMin lim) && js_le B y (yMax lim).

(** A request [render] has sent and whose answer has not come yet: the
    compound whose file is fetched and the four limits the callback closes
    over. *)
Record Fetch := mkFetch {
  f_compound : option string;
  f_xMin : JsVal;
  f_xMax : JsVal;
  f_yMin : JsVal;
  f_yMax : JsVal;
}.

(** The end of the callback of [render]: every drawn point whose date-key
    is in [selectedDates] is passed to [updateClicked] again.  The filter
    is evaluated on all points before the first of these calls. *)
Definition reclick (keyDate : Point -> JsVal) (keySalt : Point -> option string)
    (clickDate : Point -> JsVal) (shown : list Point) : M Sel unit :=
  match shown with
  | [] => ret tt
  | _ :: _ =>
      sd <- gets selectedDates ;;
      match sd with
      | None => throw TypeError
      | Some a =>
          members <- gets (set_at a) ;;
          let test := fix test (ds : list Point) : JSError + list Point :=
            match ds with
            | [] => inr []
            | d :: rest =>
                match formatISODate (keyDate d) (keySalt d) with
                | inl e => inl e
                | inr k =>
                    match test rest with
                    | inl e => inl e
                    | inr keep => inr (if set_has k members then d :: keep else keep)
                    end
                end
            end in
          match test shown with
          | inl e => throw e
          | inr keep =>
              for_of keep (fun d => updateClicked (clickDate d) (keySalt d) false)
          end
      end
  end.

(** * The fixed-axis widget: [PlotForDataSelector] with [UIforSelector] *)

Module FixedAxis.

(** The state of the pair: the selection fields of the plot, its zoom
    history and current limits ([xScale] and [yScale] are set together with
    [limits]), the value of the compound selector of the page, and the
    requests in flight. *)
Record Plot := mkPlot {
  sel : Sel;
  zoomHistory : list Limits;
  limits : option Limits;
  selector : string;
  pending : list Fetch;
}.

Definition with_sel (t : Sel) (p : Plot) : Plot :=
  mkPlot t (zoomHistory p) (limits p) (selector p) (pending p).
Definition with_zoomHistory (h : list Limits) (p : Plot) : Plot :=
  mkPlot (sel p) h (limits p) (selector p) (pending p).
Definition with_limits (l : option Limits) (p : Plot) : Plot :=
  mkPlot (sel p) (zoomHistory p) l (selector p) (pending p).
Definition with_selector (v : string) (p : Plot) : Plot :=
  mkPlot (sel p) (zoomHistory p) (limits p) v (pending p).
Definition with_pending (q : list Fetch) (p : Plot) : Plot :=
  mkPlot (sel p) (zoomHistory p) (limits p) (selector p) q.

Definition on_sel {A} (m : M Sel A) : M Plot A := zoom_in sel with_sel m.

(** What the user can do, and the arrival of an answer. *)
Inductive Event :=
  | SelectCompound (c : string)
  | AxisInput (x1 x2 y1 y2 : string)
  | SaveSelect
  | DownloadJSON
  | ClearPlot
  | ClearAll
  | ResetAxes
  | UndoZoom
  | Click (d : Point)
  | DragSelect (ds : list Point) (altKey : bool)
  | DragZoom (xStart xEnd : Z) (yStart yEnd : Q)
  | FetchDone (i : nat).

Section Widget.

(** The arguments of the constructor and the globals of the page. *)
Variable B : Browser.
Variable compounds : list string.
Variable UTCoffset : Q.
Variable xZoomLimit : Q.
Variable yRound : Q.
Variable JSONFiles : string -> option (list Raw).

(** The state after the field initialisers of both constructors. *)
Definition constructed : Plot := mkPlot Sel_constructed [] None EmptyString [].

(** [createScales(data, xMin, xMax, yMin, yMax)].  The two [toISOString]
    calls throw on an invalid date, before anything is returned. *)
Definition createScales (data : list Point) (xMin0 xMax0 yMin0 yMax0 : JsVal)
  : JSError + Limits :=
  let xMin1 := if falsy xMin0
               then of_number (d3_min (map (fun d => ToNumber B (getf d "date")) data))
               else xMin0 in
  let xMax1 := if falsy xMax0
               then of_number (d3_max (map (fun d => ToNumber B (getf d "date")) data))
               else xMax0 in
  match new_Date B xMin1, new_Date B xMax1 with
  | Instant lo, Instant hi =>
      let yMax1 := if falsy yMax0
                   then ceil_to (d3_max (map (fun d => ToNumber B (getf d "value")) data)) yRound
                   else yMax0 in
      let yMin1 := if falsy yMin0 then JNum 0 else yMin0 in
      inr (mkLimits lo hi yMin1 yMax1)
  | _, _ => inl RangeError
  end.

(** [render(compound, xMin, xMax, yMin, yMax)] up to the return of the
    call: the request is sent and its callback is left pending. *)
Definition render (compound : option string) (a b c d : JsVal) : M Plot unit :=
  on_sel (render_select compound) ;;;
  modify (fun p => with_pending (pending p ++ [mkFetch compound a b c d]) p) ;;;
  on_sel render_text.

(** The callback of [render], run on the parsed answer. *)
Definition render_then (f : Fetch) (raw : list Raw) : M Plot unit :=
  let data := map (convert UTCoffset ["date"]) raw in
  match createScales data (f_xMin f) (f_xMax f) (f_yMin f) (f_yMax f) with
  | inl e => throw e
  | inr lim =>
      modify (with_limits (Some lim)) ;;;
      let shown := filter (fun d => inside B lim (getf d "date") (getf d "value")) data in
      on_sel (reclick (fun d => getf d "date") psalt (fun d => getf d "date") shown)
  end.

(** [updateAxes(xMin, xMax, yMin, yMax)] *)
Definition updateAxes (a b c d : JsVal) : M Plot unit :=
  v <- gets selector ;;
  on_sel (commitSelections v) ;;;
  render (Some v) a b c d.

(** The shift branch of [dragEnd].  Without a finished render there is no
    [xScale] to invert. *)
Definition dragEnd_zoom (xStart xEnd : Z) (yStart yEnd : Q) : M Plot unit :=
  l <- gets limits ;;
  match l with
  | None => throw TypeError
  | Some lim =>
      let '(x0, x1) := zoom_range lim xZoomLimit xStart xEnd in
      modify (fun p => with_zoomHistory (zoomHistory p ++ [lim]) p) ;;;
      updateAxes (JDate x0) (JDate x1) (JNum yStart) (JNum yEnd)
  end.

(** The other branch of [dragEnd]: the points inside the rectangle are
    clicked one after the other. *)
Definition dragEnd_select (ds : list Point) (altKey : bool) : M Plot unit :=
  for_of ds (fun d => on_sel (updateClicked (getf d "date") (psalt d) altKey)).

(** [initVars()] *)
Definition initVars : M Plot unit :=
  modify (with_selector (default EmptyString (head compounds))) ;;;
  on_sel (initVars_sets compounds) ;;;
  render (head compounds) JNull JNull JNull JNull.

(** The listener of the compound selector, [c] being [e.target.value]. *)
Definition on_change (c : string) : M Plot unit :=
  on_sel commitPrevious ;;;
  render (Some c) JNull JNull JNull JNull ;;;
  on_sel (modify (with_previousCompound (Some c))).

(** [cleanPlot(compound)] *)
Definition cleanPlot (compound : string) : M Plot unit :=
  on_sel (cleanPlot_sets compound) ;;;
  render (Some compound) JNull JNull JNull JNull.

(** [totalRefresh()] *)
Definition totalRefresh : M Plot unit :=
  initVars ;;;
  modify (with_selector (default EmptyString (head compounds))) ;;;
  v <- gets selector ;;
  on_change v.

(** The listener of the undo button. *)
Definition undoZoom : M Plot unit :=
  h <- gets zoomHistory ;;
  match last h with
  | None => ret tt
  | Some oldLimits =>
      modify (with_zoomHistory (removelast h)) ;;;
      updateAxes (JDate (Instant (xMin oldLimits))) (JDate (Instant (xMax oldLimits)))
                 (yMin oldLimits) (yMax oldLimits)
  end.

(** The state change of [getJSONfile()]; the text it offers for download
    is [export_file] below. *)
Definition getJSONfile_commit : M Plot unit :=
  v <- gets selector ;;
  on_sel (commitSelections v).

(** A pending request is answered.  A file that is missing or does not
    parse rejects the promise and the callback never runs. *)
Definition fetch_done (i : nat) : M Plot unit :=
  q <- gets pending ;;
  match q !! i with
  | None => ret tt
  | Some f =>
      modify (with_pending (delete i q)) ;;;
      match f_compound f with
      | None => ret tt
      | Some c =>
          match JSONFiles c with
          | None => ret tt
          | Some raw => render_then f raw
          end
      end
  end.

Definition handle (e : Event) : M Plot unit :=
  match e with
  | SelectCompound c => modify (with_selector c) ;;; on_change c
  | AxisInput x1 x2 y1 y2 => updateAxes (JStr x1) (JStr x2) (JStr y1) (JStr y2)
  | SaveSelect => v <- gets selector ;; on_sel (commitSelections v)
  | DownloadJSON => getJSONfile_commit
  | ClearPlot => v <- gets selector ;; cleanPlot v
  | ClearAll => totalRefresh
  | ResetAxes => updateAxes JNull JNull JNull JNull
  | UndoZoom => undoZoom
  | Click d => on_sel (updateClicked (getf d "date") (psalt d) true)
  | DragSelect ds altKey => dragEnd_select ds altKey
  | DragZoom x0 x1 y0 y1 => dragEnd_zoom x0 x1 y0 y1
  | FetchDone i => fetch_done i
  end.

(** The user can only pick a compound that is an option of the selector. *)
Definition possible (e : Event) : Prop :=
  match e with
  | SelectCompound c => c ∈ compounds
  | _ => True
  end.

Definition step (p : Plot) (e : Event) : Plot := out_state (handle e p).

(** The page after the constructors have run. *)
Definition initial : Plot := out_state (initVars constructed).

Definition run (es : list Event) (p : Plot) : Plot := fold_left step es p.

(** A shift-drag, and a press of the undo button, each followed by the
    answer to the request it has sent. *)
Definition zoom_answered (z : Z * Z * Q * Q) (p : Plot) : Plot :=
  let '(x0, x1, y0, y1) := z in run [DragZoom x0 x1 y0 y1; FetchDone 0] p.
Definition undo_answered (p : Plot) : Plot := run [UndoZoom; FetchDone 0] p.
Definition zooms_answered (zs : list (Z * Z * Q * Q)) (p : Plot) : Plot :=
  fold_left (fun q z => zoom_answered z q) zs p.
Definition undos_answered (n : nat) (p : Plot) : Plot := Nat.iter n undo_answered p.

Inductive reachable : Plot -> Prop :=
  | reach_initial : reachable initial
  | reach_step p e : reachable p -> possible e -> reachable (step p e).

End Widget.

End FixedAxis.

(** * The variable-axis widget: [DataSelector] *)

Module VarAxis.

(** An accessor of [xOptions] or [yOptions]: a function object, identified
    by [acc_id], that reads one field of a data point. *)
Record Accessor := mkAccessor {
  acc_id : nat;
  acc_field : string;
}.

(** [obj[k]] on an options object. *)
Definition option_get (obj : list (string * Accessor)) (k : string) : option Accessor :=
  map_get k obj.

(** [reverseKeyLookup(obj, value)]: the first key whose value is the very
    function [value]; [undefined] when there is none. *)
Definition reverseKeyLookup (obj : list (string * Accessor)) (value : option Accessor)
  : option string :=
  match value with
  | None => None
  | Some f => fst <$> find (fun kv => Nat.eqb (acc_id (snd kv)) (acc_id f)) obj
  end.

(** [joinXYStrings(x, y)] *)
Definition joinXYStrings (x y : option string) : string :=
  "x" +:+ default "undefined" x +:+ "_y" +:+ default "undefined" y.

Record DataSelector := mkDataSelector {
  sel : Sel;
  zoomHistory : gmap string (gmap string (list Limits));
  limits : option Limits;
  dataXDefault : option Accessor;
  dataYDefault : option Accessor;
  selector : string;
  pending : list Fetch;
}.

Definition with_sel (t : Sel) (p : DataSelector) : DataSelector :=
  mkDataSelector t (zoomHistory p) (limits p) (dataXDefault p) (dataYDefault p)
                 (selector p) (pending p).
Definition with_zoomHistory (h : gmap string (gmap string (list Limits)))
    (p : DataSelector) : DataSelector :=
  mkDataSelector (sel p) h (limits p) (dataXDefault p) (dataYDefault p)
                 (selector p) (pending p).
Definition with_limits (l : option Limits) (p : DataSelector) : DataSelector :=
  mkDataSelector (sel p) (zoomHistory p) l (dataXDefault p) (dataYDefault p)
                 (selector p) (pending p).
Definition with_dataXDefault (a : option Accessor) (p : DataSelector) : DataSelector :=
  mkDataSelector (sel p) (zoomHistory p) (limits p) a (dataYDefault p)
                 (selector p) (pending p).
Definition with_dataYDefault (a : option Accessor) (p : DataSelector) : DataSelector :=
  mkDataSelector (sel p) (zoomHistory p) (limits p) (dataXDefault p) a
                 (selector p) (pending p).
Definition with_selector (v : string) (p : DataSelector) : DataSelector :=
  mkDataSelector (sel p) (zoomHistory p) (limits p) (dataXDefault p) (dataYDefault p)
                 v (pending p).
Definition with_pending (q : list Fetch) (p : DataSelector) : DataSelector :=
  mkDataSelector (sel p) (zoomHistory p) (limits p) (dataXDefault p) (dataYDefault p)
                 (selector p) q.

Definition on_sel {A} (m : M Sel A) : M DataSelector A := zoom_in sel with_sel m.

Inductive Event :=
  | SelectCompound (c : string)
  | SelectX (k : string)
  | SelectY (k : string)
  | AxisInput (x1 x2 y1 y2 : string)
  | SaveSelect
  | DownloadJSON
  | ClearPlot
  | ClearAll
  | ResetAxes
  | UndoZoom
  | Click (d : Point)
  | DragSelect (ds : list Point) (altKey : bool)
  | DragZoom (xStart xEnd : Z) (yStart yEnd : Q)
  | FetchDone (i : nat).

(** The zoom stack of a context: [zoomHistory.get(c).get(key)], the outer
    [get] being called on [undefined] when there is no compound. *)
Definition stack_of (p : DataSelector) (c : string) (key : string) : option (list Limits) :=
  sub ← zoomHistory p !! c; sub !! key.

Definition with_stack (c key : string) (st : list Limits) (p : DataSelector)
  : DataSelector :=
  with_zoomHistory
    (<[c := <[key := st]> (default ∅ (zoomHistory p !! c))]> (zoomHistory p)) p.

Section Widget.

Variable B : Browser.
Variable compounds : list string.
Variable xOptions : list (string * Accessor).
Variable yOptions : list (string * Accessor).
(** The globals [dataXDefault] and [dataYDefault] of the page; the
    constructor takes its initial accessors from them and the filter of
    [render] calls the first one. *)
Variable dataXDefault0 : Accessor.
Variable dataYDefault0 : Accessor.
Variable UTCoffset : Q.
Variable xZoomLimit : Q.
Variable JSONFiles : string -> option (list Raw).

Definition constructed : DataSelector :=
  mkDataSelector Sel_constructed ∅ None (Some dataXDefault0) (Some dataYDefault0) EmptyString [].

(** The numbers [d3.min] and [d3.max] see: [Math.min(attr(d))] for every
    point.  Calling an [attr] that is [undefined] throws. *)
Definition attr_numbers (attr : option Accessor) (data : list Point)
  : JSError + list (option Q) :=
  match attr, data with
  | Some a, _ => inr (map (fun d => ToNumber B (getf d (acc_field a))) data)
  | None, [] => inr []
  | None, _ :: _ => inl TypeError
  end.

(** The date branch of [processAxis]. *)
Definition processAxis_date (data : list Point) (attr : option Accessor)
    (minVal maxVal : JsVal) : JSError + (Z * Z) :=
  let lo := if falsy minVal
            then match attr_numbers attr data with
                 | inl e => inl e
                 | inr ns => inr (of_number (d3_min ns))
                 end
            else inr minVal in
  match lo with
  | inl e => inl e
  | inr minVal1 =>
      let hi := if falsy maxVal
                then match attr_numbers attr data with
                     | inl e => inl e
                     | inr ns => inr (of_number (d3_max ns))
                     end
                else inr maxVal in
      match hi with
      | inl e => inl e
      | inr maxVal1 =>
          match new_Date B minVal1, new_Date B maxVal1 with
          | Instant a, Instant b => inr (a, b)
          | _, _ => inl RangeError
          end
      end
  end.

(** The other branch of [processAxis]; [createScales] leaves [round] at its
    default 1. *)
Definition processAxis_number (data : list Point) (attr : option Accessor)
    (minVal maxVal : JsVal) (round : Q) : JSError + (JsVal * JsVal) :=
  let hi := if falsy maxVal
            then match attr_numbers attr data with
                 | inl e => inl e
                 | inr ns => inr (ceil_to (d3_max ns) round)
                 end
            else inr maxVal in
  match hi with
  | inl e => inl e
  | inr maxVal1 =>
      let lo := if falsy minVal
                then match attr_numbers attr data with
                     | inl e => inl e
                     | inr ns => inr (floor_to (d3_min ns) round)
                     end
                else inr minVal in
      match lo with
      | inl e => inl e
      | inr minVal1 => inr (minVal1, maxVal1)
      end
  end.

(** [createScales(data, xMin, xMax, yMin, yMax)] *)
Definition createScales (data : list Point) (xMin0 xMax0 yMin0 yMax0 : JsVal)
  : M DataSelector Limits :=
  p <- get ;;
  let xName := reverseKeyLookup xOptions (dataXDefault p) in
  let yName := reverseKeyLookup yOptions (dataYDefault p) in
  match previousCompound (sel p) with
  | None => throw TypeError
  | Some c =>
      match zoomHistory p !! c with
      | None => throw TypeError
      | Some sub =>
          let key := joinXYStrings xName yName in
          let limitStack := sub !! key in
          let peek :=
            if is_nullish xMin0 || is_nullish xMax0 || is_nullish yMin0 || is_nullish yMax0
            then match limitStack with
                 | None => inl TypeError
                 | Some st =>
                     match last st with
                     | Some top => inr (JDate (Instant (xMin top)), JDate (Instant (xMax top)),
                                        yMin top, yMax top)
                     | None => inr (xMin0, xMax0, yMin0, yMax0)
                     end
                 end
            else inr (xMin0, xMax0, yMin0, yMax0) in
          match peek with
          | inl e => throw e
          | inr (x0, x1, y0, y1) =>
              match processAxis_date data (dataXDefault p) x0 x1 with
              | inl e => throw e
              | inr (lo, hi) =>
                  match processAxis_number data (dataYDefault p) y0 y1 1 with
                  | inl e => throw e
                  | inr (ylo, yhi) =>
                      let lim := mkLimits lo hi ylo yhi in
                      match limitStack with
                      | None => throw TypeError
                      | Some st =>
                          (match last st with
                           | Some top =>
                               if areLimitsEqual lim top then ret tt
                               else modify (with_stack c key (st ++ [lim]))
                           | None => modify (with_stack c key (st ++ [lim]))
                           end) ;;;
                          ret lim
                      end
                  end
              end
          end
      end
  end.

Definition render (compound : option string) (a b c d : JsVal) : M DataSelector unit :=
  on_sel (render_select compound) ;;;
  modify (fun p => with_pending (pending p ++ [mkFetch compound a b c d]) p) ;;;
  on_sel render_text.

(** What an accessor returns on a point; calling [undefined] throws. *)
Definition call (attr : option Accessor) (d : Point) : JSError + JsVal :=
  match attr with
  | Some a => inr (getf d (acc_field a))
  | None => inl TypeError
  end.

(** The filter of the callback: the x test calls the global
    [dataXDefault], the y test [this.dataYDefault]. *)
Fixpoint shown_points (lim : Limits) (yattr : option Accessor) (data : list Point)
  : JSError + list Point :=
  match data with
  | [] => inr []
  | d :: rest =>
      let x := getf d (acc_field dataXDefault0) in
      let keep :=
        if js_ge B x (JDate (Instant (xMin lim))) && js_le B x (JDate (Instant (xMax lim)))
        then match call yattr d with
             | inl e => inl e
             | inr y => inr (js_ge B y (yMin lim) && js_le B y (yMax lim))
             end
        else inr false in
      match keep with
      | inl e => inl e
      | inr k =>
          match shown_points lim yattr rest with
          | inl e => inl e
          | inr l => inr (if k then d :: l else l)
          end
      end
  end.

(** The callback of [render].  [this.toolTipSalt] is never assigned in this
    class, so the date-keys carry no salt. *)
Definition render_then (f : Fetch) (raw : list Raw) : M DataSelector unit :=
  let data := map (convert UTCoffset (map_keys xOptions)) raw in
  lim <- createScales data (f_xMin f) (f_xMax f) (f_yMin f) (f_yMax f) ;;
  modify (with_limits (Some lim)) ;;;
  p <- get ;;
  match shown_points lim (dataYDefault p) data with
  | inl e => throw e
  | inr shown =>
      match dataXDefault p, shown with
      | None, _ :: _ => throw TypeError
      | _, _ =>
          on_sel (reclick (fun d => match dataXDefault p with
                                    | Some a => getf d (acc_field a)
                                    | None => JUndefined
                                    end)
                          (fun _ => None) (fun d => getf d "date") shown)
      end
  end.

Definition updateAxes (a b c d : JsVal) : M DataSelector unit :=
  v <- gets selector ;;
  on_sel (commitSelections v) ;;;
  render (Some v) a b c d.

(** The shift branch of [dragEnd]. *)
Definition dragEnd_zoom (xStart xEnd : Z) (yStart yEnd : Q) : M DataSelector unit :=
  l <- gets limits ;;
  match l with
  | None => throw TypeError
  | Some lim =>
      let '(x0, x1) := zoom_range lim xZoomLimit xStart xEnd in
      updateAxes (JDate x0) (JDate x1) (JNum yStart) (JNum yEnd)
  end.

Definition dragEnd_select (ds : list Point) (altKey : bool) : M DataSelector unit :=
  for_of ds (fun d => on_sel (updateClicked (getf d "date") None altKey)).

(** The part of [initVars] that rebuilds [zoomHistory]. *)
Definition fresh_history : gmap string (gmap string (list Limits)) :=
  foldl (fun h c =>
           <[c := foldl (fun sub xOpt =>
                          foldl (fun sub' yOpt =>
                                   <[joinXYStrings (Some xOpt) (Some yOpt) := []]> sub')
                                sub (map_keys yOptions))
                        ∅ (map_keys xOptions)]> h)
        ∅ compounds.

(** [initVars()] *)
Definition initVars : M DataSelector unit :=
  modify (with_selector (default EmptyString (head compounds))) ;;;
  modify (with_zoomHistory fresh_history) ;;;
  on_sel (initVars_sets compounds) ;;;
  render (head compounds) JNull JNull JNull JNull.

Definition on_change (c : string) : M DataSelector unit :=
  on_sel commitPrevious ;;;
  render (Some c) JNull JNull JNull JNull ;;;
  on_sel (modify (with_previousCompound (Some c))).

(** The listeners of the two attribute selectors. *)
Definition on_ySelect (k : string) : M DataSelector unit :=
  modify (with_dataYDefault (option_get yOptions k)) ;;;
  pc <- gets (fun p => previousCompound (sel p)) ;;
  render pc JNull JNull JNull JNull.
Definition on_xSelect (k : string) : M DataSelector unit :=
  modify (with_dataXDefault (option_get xOptions k)) ;;;
  pc <- gets (fun p => previousCompound (sel p)) ;;
  render pc JNull JNull JNull JNull.

Definition cleanPlot (compound : string) : M DataSelector unit :=
  on_sel (cleanPlot_sets compound) ;;;
  render (Some compound) JNull JNull JNull JNull.

Definition totalRefresh : M DataSelector unit :=
  initVars ;;;
  modify (with_selector (default EmptyString (head compounds))) ;;;
  v <- gets selector ;;
  on_change v.

(** The listener of the undo button: [pop()] on the stack of the current
    context, then [updateAxes()] in every case. *)
Definition undoZoom : M DataSelector unit :=
  p <- get ;;
  let xName := reverseKeyLookup xOptions (dataXDefault p) in
  let yName := reverseKeyLookup yOptions (dataYDefault p) in
  match previousCompound (sel p) with
  | None => throw TypeError
  | Some c =>
      let key := joinXYStrings xName yName in
      match stack_of p c key with
      | None => throw TypeError
      | Some st =>
          modify (with_stack c key (removelast st)) ;;;
          updateAxes JNull JNull JNull JNull
      end
  end.

Definition getJSONfile_commit : M DataSelector unit :=
  v <- gets selector ;;
  on_sel (commitSelections v).

Definition fetch_done (i : nat) : M DataSelector unit :=
  q <- gets pending ;;
  match q !! i with
  | None => ret tt
  | Some f =>
      modify (with_pending (delete i q)) ;;;
      match f_compound f with
      | None => ret tt
      | Some c =>
          match JSONFiles c with
          | None => ret tt
          | Some raw => render_then f raw
          end
      end
  end.

Definition handle (e : Event) : M DataSelector unit :=
  match e with
  | SelectCompound c => modify (with_selector c) ;;; on_change c
  | SelectX k => on_xSelect k
  | SelectY k => on_ySelect k
  | AxisInput x1 x2 y1 y2 => updateAxes (JStr x1) (JStr x2) (JStr y1) (JStr y2)
  | SaveSelect => v <- gets selector ;; on_sel (commitSelections v)
  | DownloadJSON => getJSONfile_commit
  | ClearPlot => v <- gets selector ;; cleanPlot v
  | ClearAll => totalRefresh
  | ResetAxes => updateAxes JNull JNull JNull JNull
  | UndoZoom => undoZoom
  | Click d => on_sel (updateClicked (getf d "date") None true)
  | DragSelect ds altKey => dragEnd_select ds altKey
  | DragZoom x0 x1 y0 y1 => dragEnd_zoom x0 x1 y0 y1
  | FetchDone i => fetch_done i
  end.

Definition possible (e : Event) : Prop :=
  match e with
  | SelectCompound c => c ∈ compounds
  | SelectX k => k ∈ map_keys xOptions
  | SelectY k => k ∈ map_keys yOptions
  | _ => True
  end.

Definition step (p : DataSelector) (e : Event) : DataSelector := out_state (handle e p).

Definition initial : DataSelector := out_state (initVars constructed).

Definition run (es : list Event) (p : DataSelector) : DataSelector := fold_left step es p.

(** A shift-drag, and a press of the undo button, each followed by the
    answer to the request it has sent. *)
Definition zoom_answered (z : Z * Z * Q * Q) (p : DataSelector) : DataSelector :=
  let '(x0, x1, y0, y1) := z in run [DragZoom x0 x1 y0 y1; FetchDone 0] p.
Definition undo_answered (p : DataSelector) : DataSelector := run [UndoZoom; FetchDone 0] p.
Definition zooms_answered (zs : list (Z * Z * Q * Q)) (p : DataSelector) : DataSelector :=
  fold_left (fun q z => zoom_answered z q) zs p.
Definition undos_answered (n : nat) (p : DataSelector) : DataSelector :=
  Nat.iter n undo_answered p.

(** The zoom stack of the context on display. *)
Definition current_stack (p : DataSelector) : option (list Limits) :=
  c ← previousCompound (sel p);
  stack_of p c (joinXYStrings (reverseKeyLookup xOptions (dataXDefault p))
                              (reverseKeyLookup yOptions (dataYDefault p))).

(** Every zoom of the list puts a new entry on the stack on display. *)
Fixpoint zooms_distinct (zs : list (Z * Z * Q * Q)) (p : DataSelector) : Prop :=
  match zs with
  | [] => True
  | z :: rest =>
      (∃ st lim, current_stack p = Some st
                 ∧ current_stack (zoom_answered z p) = Some (st ++ [lim]))
      ∧ zooms_distinct rest (zoom_answered z p)
  end.

Inductive reachable : DataSelector -> Prop :=
  | reach_initial : reachable initial
  | reach_step p e : reachable p -> possible e -> reachable (step p e).

End Widget.

End VarAxis.

(** * The downloaded file: the text [getJSONfile] builds *)

(** [String(entry)] for an entry [[key, set]] of a [Map]: the array joins
    its two elements with a comma, and a [Set] prints as [[object Set]]. *)
Definition entry_string (e : string * JSSet) : string :=
  e.1 +:+ ",[object Set]".

(** [array.sort()] without a comparison function orders the elements by
    their string forms, compared code unit by code unit, and is stable. *)
Fixpoint sort_insert (e : string * JSSet) (l : list (string * JSSet))
  : list (string * JSSet) :=
  match l with
  | [] => [e]
  | h :: t => if String.ltb (entry_string e) (entry_string h)
              then e :: h :: t
              else h :: sort_insert e t
  end.
Definition js_sort (l : list (string * JSSet)) : list (string * JSSet) :=
  fold_left (fun acc e => sort_insert e acc) l [].

(** The value of a string of decimal digits. *)
Fixpoint digits_value (acc : N) (s : string) : option N :=
  match s with
  | EmptyString => Some acc
  | String a rest =>
      let n := N_of_ascii a in
      if ((48 <=? n) && (n <=? 57))%N
      then digits_value (acc * 10 + (n - 48))%N rest
      else None
  end.

(** A property name that is an array index: the canonical decimal form of
    an integer below 2^32 - 1. *)
Definition array_index (k : string) : option N :=
  match k with
  | EmptyString => None
  | String a rest =>
      if Ascii.eqb a "0" && negb (String.eqb rest EmptyString) then None
      else match digits_value 0 k with
           | Some n => if (n <=? 4294967294)%N then Some n else None
           | None => None
           end
  end.

Fixpoint index_insert {V} (n : N) (e : string * V) (l : list (N * (string * V)))
  : list (N * (string * V)) :=
  match l with
  | [] => [(n, e)]
  | h :: t => if (n <? h.1)%N then (n, e) :: h :: t else h :: index_insert n e t
  end.

(** The own properties of an object in the order [JSON.stringify] visits
    them: array indices in ascending order, then the other names in the
    order they were created. *)
Definition property_order {V} (o : JSMap V) : JSMap V :=
  let idx := fold_left (fun acc e => match array_index e.1 with
                                     | Some n => index_insert n e acc
                                     | None => acc
                                     end) o [] in
  idx.*2 ++ filter (fun e => array_index e.1 = None) o.

(** [Object.fromEntries(entries)] *)
Definition fromEntries {V} (entries : list (string * V)) : JSMap V :=
  fold_left (fun o e => map_set e.1 e.2 o) entries [].

(** The members of the exported object in the order they are written, each
    set spread into an array by [mapReplacer]. *)
Definition export_entries (ledger : JSMap JSSet) : list (string * list string) :=
  property_order (fromEntries (js_sort ledger)).

Definition hex_digit (n : N) : ascii :=
  ascii_of_N (if (n <? 10)%N then 48 + n else 87 + n).

(** [QuoteJSONString] on the characters below 128. *)
Definition backslash : ascii := ascii_of_N 92.
Definition dquote : ascii := ascii_of_N 34.
Definition escape (c : string) : string := String backslash c.

Fixpoint quote_chars (s : string) : string :=
  match s with
  | EmptyString => EmptyString
  | String a rest =>
      let n := N_of_ascii a in
      (if (n =? 34)%N then escape (String dquote EmptyString)
       else if (n =? 92)%N then escape (String backslash EmptyString)
       else if (n =? 8)%N then escape "b"
       else if (n =? 9)%N then escape "t"
       else if (n =? 10)%N then escape "n"
       else if (n =? 12)%N then escape "f"
       else if (n =? 13)%N then escape "r"
       else if (n <? 32)%N
            then escape ("u00" +:+ String (hex_digit (n / 16))
                                    (String (hex_digit (n mod 16)) EmptyString))
       else String a EmptyString)
      +:+ quote_chars rest
  end.
Definition quote (s : string) : string :=
  String dquote (quote_chars s) +:+ String dquote EmptyString.

Definition newline : string := String (ascii_of_N 10) EmptyString.

(** [items.join(sep)] *)
Fixpoint join (sep : string) (items : list string) : string :=
  match items with
  | [] => EmptyString
  | [x] => x
  | x :: rest => x +:+ sep +:+ join sep rest
  end.

(** [JSON.stringify(object, mapReplacer, " ")] on an object whose values
    are sets of strings: one space of indentation per level. *)
Definition stringify_array (names : list string) : string :=
  match names with
  | [] => "[]"
  | _ => "[" +:+ newline +:+ "  "
         +:+ join ("," +:+ newline +:+ "  ") (map quote names)
         +:+ newline +:+ " ]"
  end.
Definition stringify (members : list (string * list string)) : string :=
  match members with
  | [] => "{}"
  | _ => "{" +:+ newline +:+ " "
         +:+ join ("," +:+ newline +:+ " ")
               (map (fun m => quote m.1 +:+ ": " +:+ stringify_array m.2) members)
         +:+ newline +:+ "}"
  end.

(** [regexReplace(str, '],', '],\n')]: every [],] gets a line break. *)
Fixpoint regexReplace_brackets (s : string) : string :=
  match s with
  | String "]" (String "," rest) => "]," +:+ newline +:+ regexReplace_brackets rest
  | String a rest => String a (regexReplace_brackets rest)
  | EmptyString => EmptyString
  end.

(** The content [getJSONfile] hands to [downloadFile]. *)
Definition export_file (ledger : JSMap JSSet) : string :=
  regexReplace_brackets (stringify (export_entries ledger)).

(** * Properties of selection states *)

(** Compound [c] is recorded for date-key [d] in the ledger. *)
Definition ledger_has (m : JSMap JSSet) (d c : string) : Prop :=
  ∃ cs, map_get d m = Some cs ∧ c ∈ cs.

(** The compounds the ledger records for [d], none when it has no entry. *)
Definition ledger_at (m : JSMap JSSet) (d : string) : JSSet :=
  default [] (map_get d m).

(** What one round of [commitSelections] does to the ledger. *)
Definition ledger_put (c d : string) (m : JSMap JSSet) : JSMap JSSet :=
  let m1 := match map_get d m with
            | None => map_set d [] m
            | Some _ => m
            end in
  map_set d (set_add c (default [] (map_get d m1))) m1.

(** What one round of [cleanPlot] does to the ledger. *)
Definition ledger_drop (c d : string) (m : JSMap JSSet) : JSMap JSSet :=
  match map_get d m with
  | None => m
  | Some cs =>
      if decide (length (set_delete c cs) = 0%nat) then map_delete d m
      else map_set d (set_delete c cs) m
  end.

(** The per-compound sets are bound to distinct addresses that have been
    handed out, and only configured compounds have one. *)
Record sel_wf (compounds : list string) (s : Sel) : Prop := {
  wf_bound : ∀ c a, selectionsByCompound s !! c = Some a → (a < next_addr s)%nat;
  wf_distinct : ∀ c1 c2 a, selectionsByCompound s !! c1 = Some a →
                           selectionsByCompound s !! c2 = Some a → c1 = c2;
  wf_known : ∀ c, is_Some (selectionsByCompound s !! c) → c ∈ compounds;
}.

(** The state between two events of a running page, [current] being the
    compound on display: [selectedDates] is the very set of [current],
    every configured compound has a set, and every selected date-key is in
    the ledger under its compound. *)
Record sel_good (compounds : list string) (current : string) (s : Sel) : Prop := {
  good_wf : sel_wf compounds s;
  good_previous : previousCompound s = Some current;
  good_alias : ∃ a, selectionsByCompound s !! current = Some a ∧ selectedDates s = Some a;
  good_configured : ∀ c, c ∈ compounds → is_Some (selectionsByCompound s !! c);
  good_committed : ∀ c a d, selectionsByCompound s !! c = Some a → d ∈ set_at a s →
                            ledger_has (selectionsByDate s) d c;
}.

(** The state the loop of [commitSelections] reaches when the set of the
    compound lives at [ca] and the loop runs over [ds]. *)
Definition commit_all (c : string) (ca : nat) (ds : list string) (s : Sel) : Sel :=
  fold_left (fun t d => with_set ca (set_add d) (with_ledger (ledger_put c d) t)) ds s.

(** The state the loop of [cleanPlot] reaches. *)
Definition clean_all (c : string) (ds : list string) (s : Sel) : Sel :=
  fold_left (fun t d => with_ledger (ledger_drop c d) t) ds s.

(** The selection state of either widget is good for the compound its
    selector shows. *)
Definition fixed_good (compounds : list string) (p : FixedAxis.Plot) : Prop :=
  sel_good compounds (FixedAxis.selector p) (FixedAxis.sel p).
Definition var_good (compounds : list string) (p : VarAxis.DataSelector) : Prop :=
  sel_good compounds (VarAxis.selector p) (VarAxis.sel p).

(** Limits that [createScales] returns unchanged when they are passed back
    with the data of the file [raw]. *)
Definition fixed_stable (B : Browser) (UTCoffset yRound : Q) (raw : list Raw) (L : Limits)
  : Prop :=
  FixedAxis.createScales B yRound (map (convert UTCoffset ["date"]) raw)
    (JDate (Instant (xMin L))) (JDate (Instant (xMax L))) (yMin L) (yMax L) = inr L.

(** A fixed-axis page at rest on a compound whose file is [raw], showing
    the limits [L]. *)
Definition fixed_view (B : Browser) (compounds : list string) (UTCoffset yRound : Q)
    (JSONFiles : string → option (list Raw)) (raw : list Raw) (L : Limits)
    (p : FixedAxis.Plot) : Prop :=
  fixed_good compounds p
  ∧ FixedAxis.pending p = []
  ∧ JSONFiles (FixedAxis.selector p) = Some raw
  ∧ FixedAxis.limits p = Some L
  ∧ fixed_stable B UTCoffset yRound raw L.

(** A zoom stack on which no entry repeats the one below it, as
    [areLimitsEqual] compares them. *)
Definition no_repeat (st : list Limits) : Prop :=
  ∀ i a b, st !! i = Some a → st !! S i = Some b → areLimitsEqual b a = false.

(** Two values of a y bound are the same value, [NaN] being the same as
    [NaN]; and a value [===] can recognise as equal to itself. *)
Definition same_value (a b : JsVal) : Prop :=
  match a, b with
  | JUndefined, JUndefined | JNull, JNull | JNaN, JNaN => True
  | JNum p, JNum q => (p == q)%Q
  | JStr s, JStr t => s = t
  | JDate d, JDate e => d = e
  | _, _ => False
  end.
Definition same_bounds (a b : Limits) : Prop :=
  xMin a = xMin b ∧ xMax a = xMax b
  ∧ same_value (yMin a) (yMin b) ∧ same_value (yMax a) (yMax b).
Definition comparable (v : JsVal) : Prop :=
  match v with JNaN | JDate _ => False | _ => True end.

Definition history_ok (h : gmap string (gmap string (list Limits))) : Prop :=
  ∀ c sub key st, h !! c = Some sub → sub !! key = Some st → no_repeat st.

(** A computation of the variable-axis widget that leaves the zoom history
    alone, whether it returns or throws. *)
Definition keeps_history {A} (m : M VarAxis.DataSelector A) : Prop :=
  ∀ p, VarAxis.zoomHistory (out_state (m p)) = VarAxis.zoomHistory p.

(** Limits that the variable-axis [createScales] finds again when it peeks
    them from the stack, with the data [data] and the accessors [xattr]
    and [yattr]: [processAxis] returns them unchanged and
    [areLimitsEqual] recognises them. *)
Definition var_stable (B : Browser) (data : list Point)
    (xattr yattr : option VarAxis.Accessor) (L : Limits) : Prop :=
  VarAxis.processAxis_date B data xattr
    (JDate (Instant (xMin L))) (JDate (Instant (xMax L))) = inr (xMin L, xMax L)
  ∧ VarAxis.processAxis_number B data yattr (yMin L) (yMax L) 1 = inr (yMin L, yMax L)
  ∧ areLimitsEqual L L = true.

(** The data have a least and a greatest number under [yattr]. *)
Definition var_extent (B : Browser) (data : list Point) (yattr : option VarAxis.Accessor)
  : Prop :=
  ∃ ns lo hi, VarAxis.attr_numbers B yattr data = inr ns
              ∧ d3_min ns = Some lo ∧ d3_max ns = Some hi.

(** A variable-axis page at rest on a compound whose file is [raw]: the
    stack on display is [st], its top is what the plot shows, and all its
    entries are stable. *)
Definition var_view (B : Browser) (compounds : list string)
    (xOptions yOptions : list (string * VarAxis.Accessor)) (UTCoffset : Q)
    (JSONFiles : string → option (list Raw)) (raw : list Raw) (st : list Limits)
    (L : Limits) (p : VarAxis.DataSelector) : Prop :=
  let data := map (convert UTCoffset (map_keys xOptions)) raw in
  var_good compounds p
  ∧ VarAxis.pending p = []
  ∧ JSONFiles (VarAxis.selector p) = Some raw
  ∧ VarAxis.limits p = Some L
  ∧ VarAxis.current_stack xOptions yOptions p = Some st
  ∧ last st = Some L
  ∧ Forall (var_stable B data (VarAxis.dataXDefault p) (VarAxis.dataYDefault p)) st
  ∧ var_extent B data (VarAxis.dataYDefault p).

(** * The example page

    The settings of [example/config.js].  Its data files are not part of
    the sources; [example_files] serves three measurements for every
    configured compound.  The two text conversions of the browser are
    never called in the examples and are left undefined. *)

Definition example_browser : Browser :=
  mkBrowser (fun _ => None) (fun _ => InvalidDate).

Definition example_compounds : list string :=
  ["ethane"; "propane"; "i-butane"; "i-pentane"; "n-butane"; "n-pentane"].

Definition example_UTCCorrection : Q := -2.
Definition example_xZoomLimit : Q := 31 * 24 * 60 * 60 * 1000.
Definition example_yAxisRound : Q := 50.

Definition measurement (epoch value : Q) (salt : option string) : Raw :=
  mkRaw (<["date" := epoch]> (<["meas_date" := (epoch + 3600)%Q]>
          (<["value" := value]> (<["month" := 7%Q]> ∅)))) salt.

Definition example_data : list Raw :=
  [measurement 1500000000 (1234 # 10) None;
   measurement 1502000000 (871 # 10) None;
   measurement 1510000000 412 None].

Definition example_files (c : string) : option (list Raw) :=
  if bool_decide (c ∈ example_compounds) then Some example_data else None.

(** The fixed-axis page. *)
Definition fixed_handle :=
  FixedAxis.handle example_browser example_compounds example_UTCCorrection
                   example_xZoomLimit example_yAxisRound example_files.
Definition fixed_initial : FixedAxis.Plot := FixedAxis.initial example_compounds.
Definition fixed_run (es : list FixedAxis.Event) : FixedAxis.Plot :=
  FixedAxis.run example_browser example_compounds example_UTCCorrection
                example_xZoomLimit example_yAxisRound example_files es fixed_initial.

(** The variable-axis page. *)
Definition example_xOptions : list (string * VarAxis.Accessor) :=
  [("date", VarAxis.mkAccessor 0 "date"); ("meas_date", VarAxis.mkAccessor 1 "meas_date")].
Definition example_yOptions : list (string * VarAxis.Accessor) :=
  [("month", VarAxis.mkAccessor 2 "month"); ("day", VarAxis.mkAccessor 3 "day");
   ("year", VarAxis.mkAccessor 4 "year"); ("MR", VarAxis.mkAccessor 5 "value")].
Definition example_dataXDefault : VarAxis.Accessor := VarAxis.mkAccessor 0 "date".
Definition example_dataYDefault : VarAxis.Accessor := VarAxis.mkAccessor 5 "value".

Definition var_initial : VarAxis.DataSelector :=
  VarAxis.initial example_compounds example_xOptions example_yOptions
                  example_dataXDefault example_dataYDefault.
Definition var_run (es : list VarAxis.Event) : VarAxis.DataSelector :=
  VarAxis.run example_browser example_compounds example_xOptions example_yOptions
              example_dataXDefault example_UTCCorrection example_xZoomLimit example_files
              es var_initial.

(** A point of the plot with the given instant and salt. *)
Definition point_at (ms : Z) (salt : option string) : Point :=
  mkPoint (<["date" := Instant ms]> ∅) ∅ salt.

(** A selection state in which the set on display holds one date-key that
    has not been committed yet. *)
Definition uncommitted : Sel :=
  mkSel (<[0%nat := ["2020-01-01 00:00"]]> (<[1%nat := []]> ∅)) 2
        (<["ethane" := 0%nat]> (<["propane" := 1%nat]> ∅)) [] (Some "ethane") (Some 0%nat).

(** Two shift-drags inside the data of the example, and the limits they
    and the first render lead to. *)
Definition example_zooms : list (Z * Z * Q * Q) :=
  [(1500000000000, 1505000000000, 100%Q, 200%Q);
   (1501000000000, 1504000000000, 120%Q, 180%Q)].
Definition fixed_full : Limits := mkLimits 1499992800000 1509992800000 (JNum 0) (JNum 450).
Definition var_full : Limits := mkLimits 1499992800000 1509992800000 (JNum 87) (JNum 412).
Definition zoomed_once : Limits := mkLimits 1500000000000 1505000000000 (JNum 100) (JNum 200).
Definition zoomed_twice : Limits := mkLimits 1501000000000 1504000000000 (JNum 120) (JNum 180).

(** The handlers and the zoom and undo sequences of the two example pages. *)
Definition var_handle :=
  VarAxis.handle example_browser example_compounds example_xOptions example_yOptions
                 example_dataXDefault example_UTCCorrection example_xZoomLimit example_files.
Definition fixed_page_zooms :=
  FixedAxis.zooms_answered example_browser example_compounds example_UTCCorrection
                           example_xZoomLimit example_yAxisRound example_files.
Definition fixed_page_undos :=
  FixedAxis.undos_answered example_browser example_compounds example_UTCCorrection
                           example_xZoomLimit example_yAxisRound example_files.
Definition var_page_zooms :=
  VarAxis.zooms_answered example_browser example_compounds example_xOptions example_yOptions
                         example_dataXDefault example_UTCCorrection example_xZoomLimit
                         example_files.
Definition var_page_undos :=
  VarAxis.undos_answered example_browser example_compounds example_xOptions example_yOptions
                         example_dataXDefault example_UTCCorrection example_xZoomLimit
                         example_files.
Definition var_stack := VarAxis.current_stack example_xOptions example_yOptions.

(** The limits of the example data under an attribute they do not have. *)
Definition var_unknown : Limits := mkLimits 1499992800000 1509992800000 JNaN JNaN.

(** * Further properties of selection states *)

(** Date-key [d] is in the set of compound [c]. *)
Definition selected (s : Sel) (c d : string) : Prop :=
  ∃ a, selectionsByCompound s !! c = Some a ∧ d ∈ set_at a s.

(** Two selection states hold the same selections: the same ledger, the
    same set objects with the same members. *)
Definition sel_same (s s' : Sel) : Prop :=
  selectionsByDate s' = selectionsByDate s
  ∧ selectionsByCompound s' = selectionsByCompound s
  ∧ ∀ a, set_at a s' = set_at a s.

(** Every compound the ledger names under a date-key has that key in its
    set. *)
Definition sel_indexed (s : Sel) : Prop :=
  ∀ d c, ledger_has (selectionsByDate s) d c → selected s c d.

(** A ledger as a [Map] of [Set]s holds it: no key twice, no compound
    twice under a key; and no key is left with an empty set. *)
Definition ledger_tidy (m : JSMap JSSet) : Prop :=
  NoDup (map_keys m) ∧ ∀ d cs, (d, cs) ∈ m → cs ≠ [] ∧ NoDup cs.

(** The ledger and the sets index each other, and the ledger is tidy. *)
Definition sel_tidy (s : Sel) : Prop :=
  sel_indexed s ∧ ledger_tidy (selectionsByDate s).

(** What [commitSelections] and [cleanPlot] do to the ledger alone. *)
Definition ledger_put_all (c : string) (ds : list string) (m : JSMap JSSet) : JSMap JSSet :=
  fold_left (fun m d => ledger_put c d m) ds m.
Definition ledger_drop_all (c : string) (ds : list string) (m : JSMap JSSet) : JSMap JSSet :=
  fold_left (fun m d => ledger_drop c d m) ds m.

(** The events of the fixed-axis page that are meant to change the
    selection: clicks, drags over points, and the two clear buttons. *)
Definition fixed_selecting (e : FixedAxis.Event) : bool :=
  match e with
  | FixedAxis.Click _ | FixedAxis.DragSelect _ _
  | FixedAxis.ClearPlot | FixedAxis.ClearAll => true
  | _ => false
  end.

(** The same events of the variable-axis page. *)
Definition var_selecting (e : VarAxis.Event) : bool :=
  match e with
  | VarAxis.Click _ | VarAxis.DragSelect _ _
  | VarAxis.ClearPlot | VarAxis.ClearAll => true
  | _ => false
  end.

(** The x attribute on display is the [date] field, the one [updateClicked]
    reads. *)
Definition x_is_date (p : VarAxis.DataSelector) : Prop :=
  ∃ a, VarAxis.dataXDefault p = Some a ∧ VarAxis.acc_field a = "date".

(** Whether the character [c] occurs in [s]. *)
Fixpoint has_char (c : ascii) (s : string) : bool :=
  match s with
  | EmptyString => false
  | String a rest => Ascii.eqb a c || has_char c rest
  end.

(** A string that [formatISODate] returns for some date and salt. *)
Definition is_date_key (k : string) : Prop :=
  ∃ date salt, formatISODate date salt = inr k.

(** Every selected key is a date-key. *)
Definition sel_dated (s : Sel) : Prop :=
  ∀ c k, selected s c k → is_date_key k.

(** Every configured compound has a zoom stack for every pair of an x and
    a y attribute. *)
Definition history_full (compounds : list string)
    (xOptions yOptions : list (string * VarAxis.Accessor))
    (h : gmap string (gmap string (list Limits))) : Prop :=
  ∀ c x y, c ∈ compounds → x ∈ map_keys xOptions → y ∈ map_keys yOptions →
    ∃ sub st, h !! c = Some sub ∧ sub !! VarAxis.joinXYStrings (Some x) (Some y) = Some st.

(** The accessors on display are options of the two attribute selectors. *)
Definition axes_named (xOptions yOptions : list (string * VarAxis.Accessor))
    (p : VarAxis.DataSelector) : Prop :=
  is_Some (VarAxis.reverseKeyLookup xOptions (VarAxis.dataXDefault p))
  ∧ is_Some (VarAxis.reverseKeyLookup yOptions (VarAxis.dataYDefault p)).

(** A computation of the variable-axis widget that leaves the zoom history
    and the two accessors alone, whether it returns or throws. *)
Definition keeps_context {A} (m : M VarAxis.DataSelector A) : Prop :=
  ∀ p, VarAxis.zoomHistory (out_state (m p)) = VarAxis.zoomHistory p
       ∧ VarAxis.dataXDefault (out_state (m p)) = VarAxis.dataXDefault p
       ∧ VarAxis.dataYDefault (out_state (m p)) = VarAxis.dataYDefault p.

(** The history is full and the axes are named. *)
Definition context_ok (compounds : list string)
    (xOptions yOptions : list (string * VarAxis.Accessor)) (p : VarAxis.DataSelector) : Prop :=
  history_full compounds xOptions yOptions (VarAxis.zoomHistory p)
  ∧ axes_named xOptions yOptions p.

(** The members of the object [updateJSONBox] writes, in the order they are
    written: [Object.fromEntries] on the ledger as it is, without a sort;
    and the text of the box. *)
Definition jsonBox_entries (ledger : JSMap JSSet) : list (string * list string) :=
  property_order (fromEntries ledger).
Definition jsonBox_text (ledger : JSMap JSSet) : string :=
  regexReplace_brackets (stringify (jsonBox_entries ledger)).

(** Two values passed as a bound are the same, or both falsy. *)
Definition treated_alike (v w : JsVal) : Prop :=
  v = w ∨ (falsy v = true ∧ falsy w = true).

(** The events that can change the zoom history of the fixed-axis plot,
    and the zoom stacks of the variable-axis one. *)
Definition fixed_zooming (e : FixedAxis.Event) : bool :=
  match e with
  | FixedAxis.DragZoom _ _ _ _ | FixedAxis.UndoZoom => true
  | _ => false
  end.
Definition var_zooming (e : VarAxis.Event) : bool :=
  match e with
  | VarAxis.FetchDone _ | VarAxis.UndoZoom | VarAxis.ClearAll => true
  | _ => false
  end.

(** A computation of the fixed-axis widget that leaves the zoom history
    alone, whether it returns or throws. *)
Definition keeps_zoomHistory {A} (m : M FixedAxis.Plot A) : Prop :=
  ∀ p, FixedAxis.zoomHistory (out_state (m p)) = FixedAxis.zoomHistory p.

(** * Sets, maps and the monad *)

Lemma elem_of_set_add (x y : string) (s : JSSet) :
  y ∈ set_add x s ↔ y = x ∨ y ∈ s.
Proof.
  unfold set_add. destruct (decide (x ∈ s)) as [Hin|Hin].
  - split; [auto | intros [->|?]; auto].
  - rewrite elem_of_app, list_elem_of_singleton. tauto.
Qed.

Lemma set_add_member (x : string) (s : JSSet) : x ∈ s → set_add x s = s.
Proof. intros H. unfold set_add. destruct (decide (x ∈ s)); [done | contradiction]. Qed.

Lemma set_add_idem (x : string) (s : JSSet) : set_add x (set_add x s) = set_add x s.
Proof. apply set_add_member, elem_of_set_add. auto. Qed.

Lemma elem_of_set_delete (x y : string) (s : JSSet) :
  y ∈ set_delete x s ↔ y ≠ x ∧ y ∈ s.
Proof. unfold set_delete. by rewrite list_elem_of_filter. Qed.

Lemma set_has_true (x : string) (s : JSSet) : set_has x s = true ↔ x ∈ s.
Proof. unfold set_has. apply bool_decide_eq_true. Qed.

Lemma length_zero_nil {A} (l : list A) : length l = 0%nat ↔ l = [].
Proof. destruct l; simpl; split; intros; congruence. Qed.

Section MapLemmas.
Context {V : Type}.
Implicit Types (m : JSMap V) (k : string) (v : V).

Lemma map_get_set_eq k v m : map_get k (map_set k v m) = Some v.
Proof.
  induction m as [|[k' v'] m IH]; simpl.
  - destruct (decide (k = k)); congruence.
  - destruct (decide (k' = k)) as [->|Hne]; simpl.
    + destruct (decide (k = k)); congruence.
    + destruct (decide (k' = k)); [contradiction | exact IH].
Qed.

Lemma map_get_set_ne k k' v m : k' ≠ k → map_get k' (map_set k v m) = map_get k' m.
Proof.
  intros Hne. induction m as [|[k0 v0] m IH]; simpl.
  - destruct (decide (k = k')); congruence.
  - destruct (decide (k0 = k)) as [->|Hk]; simpl.
    + destruct (decide (k = k')); congruence.
    + destruct (decide (k0 = k')); [done | exact IH].
Qed.

Lemma map_get_delete_eq k m : map_get k (map_delete k m) = None.
Proof.
  unfold map_delete. induction m as [|[k0 v0] m IH]; [done|].
  rewrite filter_cons. simpl. destruct (decide (k0 ≠ k)) as [Hne|Heq]; simpl.
  - destruct (decide (k0 = k)); [contradiction | exact IH].
  - exact IH.
Qed.

Lemma map_get_delete_ne k k' m : k' ≠ k → map_get k' (map_delete k m) = map_get k' m.
Proof.
  intros Hne. unfold map_delete. induction m as [|[k0 v0] m IH]; [done|].
  rewrite filter_cons. simpl. destruct (decide (k0 ≠ k)) as [Hk|Hk]; simpl.
  - destruct (decide (k0 = k')); [done | exact IH].
  - apply dec_stable in Hk. subst k0.
    destruct (decide (k = k')); [congruence | exact IH].
Qed.

Lemma map_get_Some_key k v m : map_get k m = Some v → k ∈ map_keys m.
Proof.
  unfold map_keys. induction m as [|[k0 v0] m IH]; simpl; [done|].
  destruct (decide (k0 = k)) as [->|Hne]; intros H.
  - apply elem_of_cons. auto.
  - apply elem_of_cons. right. auto.
Qed.

End MapLemmas.

(** A loop that never throws establishes what each round maintains. *)
Lemma for_of_ok {S A} (body : A → M S unit) (I : list A → S → Prop) (xs : list A) (s0 : S) :
  I [] s0 →
  (∀ done x s, x ∈ xs → I done s → ∃ s', body x s = Ok tt s' ∧ I (done ++ [x]) s') →
  ∃ s', for_of xs body s0 = Ok tt s' ∧ I xs s'.
Proof.
  intros H0 Hstep.
  cut (∀ todo done s, (∀ x, x ∈ todo → x ∈ xs) → I done s →
         ∃ s', for_of todo body s = Ok tt s' ∧ I (done ++ todo) s').
  { intros Hc. apply (Hc xs [] s0); auto. }
  induction todo as [|x todo IH]; intros done s Hsub HI; simpl.
  - exists s. rewrite app_nil_r. done.
  - destruct (Hstep done x s) as (s1 & Hb & H1); [apply Hsub, elem_of_cons; auto | done |].
    unfold bind. rewrite Hb.
    destruct (IH (done ++ [x]) s1) as (s2 & Hf & H2); [|done|].
    { intros y Hy. apply Hsub, elem_of_cons. auto. }
    exists s2. split; [done|]. by rewrite <- app_assoc in H2.
Qed.

(** Whatever a loop does, a property kept by every round, thrown or not,
    holds of the state it ends in. *)
Lemma for_of_keeps {S A} (body : A → M S unit) (P : S → Prop) (xs : list A) (s0 : S) :
  P s0 →
  (∀ x s, P s → P (out_state (body x s))) →
  P (out_state (for_of xs body s0)).
Proof.
  intros H0 Hstep. revert s0 H0.
  induction xs as [|x xs IH]; intros s0 H0; simpl; [done|].
  unfold bind. specialize (Hstep x s0 H0).
  destruct (body x s0) as [[] s1|e s1]; simpl in *; auto.
Qed.

Lemma set_at_with_set_eq a f s : set_at a (with_set a f s) = f (set_at a s).
Proof. unfold set_at, with_set. simpl. by rewrite lookup_insert_eq. Qed.

Lemma set_at_with_set_ne a b f s : a ≠ b → set_at b (with_set a f s) = set_at b s.
Proof. intros H. unfold set_at, with_set. simpl. by rewrite lookup_insert_ne. Qed.

Lemma set_at_with_ledger a f s : set_at a (with_ledger f s) = set_at a s.
Proof. done. Qed.

(** * The selection code *)

Lemma map_get_ledger_put_eq c d m :
  map_get d (ledger_put c d m) = Some (set_add c (ledger_at m d)).
Proof.
  unfold ledger_put, ledger_at. rewrite map_get_set_eq.
  destruct (map_get d m) eqn:E; [by rewrite E | by rewrite map_get_set_eq].
Qed.

Lemma map_get_ledger_put_ne c d d' m :
  d' ≠ d → map_get d' (ledger_put c d m) = map_get d' m.
Proof.
  intros Hne. unfold ledger_put. rewrite map_get_set_ne by done.
  destruct (map_get d m); [done | by rewrite map_get_set_ne].
Qed.

Lemma ledger_has_put c d c' d' m :
  ledger_has (ledger_put c d m) d' c' ↔ (d' = d ∧ c' = c) ∨ ledger_has m d' c'.
Proof.
  unfold ledger_has. destruct (decide (d' = d)) as [->|Hne].
  - rewrite map_get_ledger_put_eq. unfold ledger_at. split.
    + intros (cs & [= <-] & Hin). apply elem_of_set_add in Hin as [->|Hin]; [by left|].
      right. destruct (map_get d m) as [cs|]; simpl in *; [eauto | by apply elem_of_nil in Hin].
    + intros [[_ ->]|(cs & Hg & Hin)].
      * eexists. split; [done|]. apply elem_of_set_add. by left.
      * eexists. split; [done|]. apply elem_of_set_add. right. by rewrite Hg.
  - rewrite map_get_ledger_put_ne by done. split; [by right|].
    intros [[? _]|?]; [contradiction | done].
Qed.

Lemma ledger_has_drop c d c' d' m :
  ledger_has (ledger_drop c d m) d' c' ↔ ledger_has m d' c' ∧ ¬ (d' = d ∧ c' = c).
Proof.
  unfold ledger_has, ledger_drop. destruct (map_get d m) as [cs|] eqn:E.
  - destruct (decide (length (set_delete c cs) = 0%nat)) as [Hz|Hz].
    + apply length_zero_nil in Hz. destruct (decide (d' = d)) as [->|Hne].
      * rewrite map_get_delete_eq, E. split; [by intros (? & ? & ?)|].
        intros ((cs' & [= <-] & Hin) & Hn). exfalso.
        assert (c' ∈ set_delete c cs) as Hd.
        { apply elem_of_set_delete. split; [|done]. intros ->. by apply Hn. }
        rewrite Hz in Hd. by apply elem_of_nil in Hd.
      * rewrite map_get_delete_ne by done. split; [|by intros [? _]].
        intros H. split; [done|]. by intros [? _].
    + destruct (decide (d' = d)) as [->|Hne].
      * rewrite map_get_set_eq, E. split.
        -- intros (? & [= <-] & Hin). apply elem_of_set_delete in Hin as [Hc Hin].
           split; [eauto|]. by intros [_ ?].
        -- intros ((? & [= <-] & Hin) & Hn). eexists. split; [done|].
           apply elem_of_set_delete. split; [|done]. intros ->. by apply Hn.
      * rewrite map_get_set_ne by done. split; [|by intros [? _]].
        intros H. split; [done|]. by intros [? _].
  - split; [|by intros [? _]]. intros H. split; [done|].
    intros [-> _]. destruct H as (? & H & _). congruence.
Qed.

Lemma commit_one_eq c ca d s :
  commit_one c (Some ca) d s
  = Ok tt (with_set ca (set_add d) (with_ledger (ledger_put c d) s)).
Proof. reflexivity. Qed.

Lemma clean_one_eq c d s :
  clean_one c d s = Ok tt (with_ledger (ledger_drop c d) s).
Proof.
  unfold clean_one, ledger_drop, bind, gets, with_ledger. simpl.
  destruct (map_get d (selectionsByDate s)) as [cs|] eqn:E; simpl.
  - destruct (decide (length (set_delete c cs) = 0%nat)); reflexivity.
  - unfold ret. by destruct s.
Qed.

Lemma commit_loop_eq c ca ds s :
  for_of ds (commit_one c (Some ca)) s = Ok tt (commit_all c ca ds s).
Proof.
  revert s. induction ds as [|d ds IH]; intros s; simpl; [done|].
  unfold bind. rewrite commit_one_eq. apply IH.
Qed.

Lemma clean_loop_eq c ds s :
  for_of ds (clean_one c) s = Ok tt (clean_all c ds s).
Proof.
  revert s. induction ds as [|d ds IH]; intros s; simpl; [done|].
  unfold bind. rewrite clean_one_eq. apply IH.
Qed.

Lemma commitSelections_eq c a ca s :
  selectedDates s = Some a →
  selectionsByCompound s !! c = Some ca →
  commitSelections c s = Ok tt (commit_all c ca (set_at a s) s).
Proof.
  intros Hsd Hc. unfold commitSelections, bind, gets. rewrite Hsd, Hc.
  rewrite commit_loop_eq. reflexivity.
Qed.

Lemma cleanPlot_sets_eq c ca s :
  selectionsByCompound s !! c = Some ca →
  cleanPlot_sets c s = Ok tt (with_set ca (fun _ => []) (clean_all c (set_at ca s) s)).
Proof.
  intros Hc. unfold cleanPlot_sets, bind, gets. rewrite Hc.
  rewrite clean_loop_eq. reflexivity.
Qed.

Lemma commit_all_cons c ca d ds s :
  commit_all c ca (d :: ds) s
  = commit_all c ca ds (with_set ca (set_add d) (with_ledger (ledger_put c d) s)).
Proof. reflexivity. Qed.

Lemma clean_all_cons c d ds s :
  clean_all c (d :: ds) s = clean_all c ds (with_ledger (ledger_drop c d) s).
Proof. reflexivity. Qed.

Section CommitAll.
Variables (c : string) (ca : nat).

Lemma commit_all_frame ds s :
  selectionsByCompound (commit_all c ca ds s) = selectionsByCompound s
  ∧ selectedDates (commit_all c ca ds s) = selectedDates s
  ∧ previousCompound (commit_all c ca ds s) = previousCompound s
  ∧ next_addr (commit_all c ca ds s) = next_addr s.
Proof.
  revert s. induction ds as [|d ds IH]; intros s; [done|].
  rewrite commit_all_cons.
  destruct (IH (with_set ca (set_add d) (with_ledger (ledger_put c d) s))) as (?&?&?&?).
  done.
Qed.

Lemma commit_all_other ds s x :
  x ≠ ca → set_at x (commit_all c ca ds s) = set_at x s.
Proof.
  intros Hne. revert s. induction ds as [|d ds IH]; intros s; [done|].
  rewrite commit_all_cons, IH. by rewrite set_at_with_set_ne.
Qed.

Lemma commit_all_members ds s d :
  d ∈ set_at ca (commit_all c ca ds s) ↔ d ∈ set_at ca s ∨ d ∈ ds.
Proof.
  revert s. induction ds as [|d0 ds IH]; intros s.
  - simpl. rewrite elem_of_nil. tauto.
  - rewrite commit_all_cons, IH, set_at_with_set_eq, set_at_with_ledger.
    rewrite elem_of_set_add, elem_of_cons. tauto.
Qed.

(** Committing the set of the compound itself leaves the set as it is. *)
Lemma commit_all_same ds s :
  (∀ d, d ∈ ds → d ∈ set_at ca s) →
  is_Some (heap s !! ca) →
  heap (commit_all c ca ds s) = heap s.
Proof.
  revert s. induction ds as [|d0 ds IH]; intros s Hin Hs; [done|].
  rewrite commit_all_cons.
  assert (d0 ∈ set_at ca s) as H0 by (apply Hin, elem_of_cons; auto).
  assert (heap (with_set ca (set_add d0) (with_ledger (ledger_put c d0) s)) = heap s) as Hh.
  { unfold with_set. simpl. change (set_at ca (with_ledger (ledger_put c d0) s)) with (set_at ca s).
    rewrite set_add_member by done. apply insert_id.
    destruct Hs as [v Hv]. unfold set_at. by rewrite Hv. }
  rewrite IH.
  - exact Hh.
  - intros d Hd. unfold set_at. rewrite Hh. apply Hin, elem_of_cons. auto.
  - by rewrite Hh.
Qed.

Lemma commit_all_ledger ds s d' c' :
  ledger_has (selectionsByDate (commit_all c ca ds s)) d' c'
  ↔ (d' ∈ ds ∧ c' = c) ∨ ledger_has (selectionsByDate s) d' c'.
Proof.
  revert s. induction ds as [|d0 ds IH]; intros s.
  - simpl. rewrite elem_of_nil. tauto.
  - rewrite commit_all_cons, IH. simpl.
    rewrite ledger_has_put, elem_of_cons. tauto.
Qed.

End CommitAll.

Lemma clean_all_frame c ds s :
  selectionsByCompound (clean_all c ds s) = selectionsByCompound s
  ∧ selectedDates (clean_all c ds s) = selectedDates s
  ∧ previousCompound (clean_all c ds s) = previousCompound s
  ∧ next_addr (clean_all c ds s) = next_addr s
  ∧ heap (clean_all c ds s) = heap s.
Proof.
  revert s. induction ds as [|d ds IH]; intros s; [done|].
  rewrite clean_all_cons.
  destruct (IH (with_ledger (ledger_drop c d) s)) as (?&?&?&?&?). done.
Qed.

Lemma clean_all_ledger c ds s d' c' :
  ledger_has (selectionsByDate (clean_all c ds s)) d' c'
  ↔ ledger_has (selectionsByDate s) d' c' ∧ ¬ (d' ∈ ds ∧ c' = c).
Proof.
  revert s. induction ds as [|d0 ds IH]; intros s.
  - simpl. rewrite elem_of_nil. tauto.
  - rewrite clean_all_cons, IH. simpl.
    rewrite ledger_has_drop, elem_of_cons. tauto.
Qed.

(** The two branches of [updateClicked]. *)
Lemma updateClicked_remove_eq date salt key a cs s :
  formatISODate date salt = inr key →
  selectedDates s = Some a →
  key ∈ set_at a s →
  map_get key (selectionsByDate s) = Some cs →
  updateClicked date salt true s
  = commitPrevious (with_ledger (match previousCompound s with
                                 | Some c => ledger_drop c key
                                 | None => fun m => if decide (length cs = 0%nat)
                                                    then map_delete key m
                                                    else map_set key cs m
                                 end)
                                (with_set a (set_delete key) s)).
Proof.
  intros Hf Hs Hin Hget. apply set_has_true in Hin.
  unfold updateClicked. rewrite Hf. unfold bind, gets, modify. rewrite Hs. simpl.
  rewrite Hin. simpl. rewrite Hget.
  unfold ledger_drop, with_ledger. simpl.
  destruct (previousCompound s) as [c|] eqn:Hp; simpl.
  - rewrite Hget. destruct (decide (length (set_delete c cs) = 0%nat)); simpl;
      by rewrite Hp, Hs.
  - destruct (decide (length cs = 0%nat)); simpl; by rewrite Hp, Hs.
Qed.

Lemma updateClicked_add_eq date salt key a flag s :
  formatISODate date salt = inr key →
  selectedDates s = Some a →
  set_has key (set_at a s) && flag = false →
  updateClicked date salt flag s
  = commitPrevious (with_set a (set_add key) s).
Proof.
  intros Hf Hs Hbr.
  unfold updateClicked. rewrite Hf. unfold bind, gets, modify. rewrite Hs. simpl.
  rewrite Hbr. reflexivity.
Qed.

(** ** Keeping the selection state good *)

Section Good.
Variable compounds : list string.
Implicit Types (s : Sel) (cur : string).

(** A commit of the compound on display repairs what a click has left
    uncommitted in its own set. *)
Lemma commit_makes_good cur a s :
  sel_wf compounds s →
  previousCompound s = Some cur →
  selectionsByCompound s !! cur = Some a →
  selectedDates s = Some a →
  (∀ c, c ∈ compounds → is_Some (selectionsByCompound s !! c)) →
  (∀ c a' d, c ≠ cur → selectionsByCompound s !! c = Some a' → d ∈ set_at a' s →
             ledger_has (selectionsByDate s) d c) →
  ∃ s', commitSelections cur s = Ok tt s' ∧ sel_good compounds cur s'
        ∧ s' = commit_all cur a (set_at a s) s.
Proof.
  intros [Hb Hd Hk] Hp Ha Hs Hc Hcm.
  eexists. split; [by apply commitSelections_eq|]. split; [|done].
  destruct (commit_all_frame cur a (set_at a s) s) as (Ec & Es & Ep & En).
  split.
  - split; rewrite ?Ec, ?En; auto.
  - by rewrite Ep.
  - exists a. by rewrite Ec, Es.
  - by rewrite Ec.
  - rewrite Ec. intros c a' d Hca Hin. apply commit_all_ledger.
    destruct (decide (a' = a)) as [->|Hne].
    + left. assert (c = cur) as -> by eauto. split; [|done].
      apply commit_all_members in Hin. tauto.
    + right. rewrite commit_all_other in Hin by done.
      apply (Hcm c a'); [|done|done]. intros ->. congruence.
Qed.

Lemma commitSelections_good cur s :
  sel_good compounds cur s →
  ∃ s', commitSelections cur s = Ok tt s' ∧ sel_good compounds cur s'.
Proof.
  intros [Hw Hp (a & Ha & Hs) Hc Hcm].
  destruct (commit_makes_good cur a s) as (s' & ? & ? & _); eauto.
Qed.

Lemma commitPrevious_good cur s :
  sel_good compounds cur s →
  ∃ s', commitPrevious s = Ok tt s' ∧ sel_good compounds cur s'.
Proof.
  intros Hg. unfold commitPrevious, bind, gets. rewrite (good_previous _ _ _ Hg).
  by apply commitSelections_good.
Qed.

(** A click on any point: it throws only when the date of the point cannot
    be formatted, before anything is written. *)
Lemma updateClicked_good cur s date salt flag :
  sel_good compounds cur s →
  sel_good compounds cur (out_state (updateClicked date salt flag s))
  ∧ (∀ key, formatISODate date salt = inr key →
            ∃ s', updateClicked date salt flag s = Ok tt s').
Proof.
  intros Hg. pose proof Hg as [Hw Hp (a & Ha & Hs) Hc Hcm].
  destruct (formatISODate date salt) as [e|key] eqn:Hf.
  { unfold updateClicked. rewrite Hf. by split. }
  destruct (set_has key (set_at a s) && flag) eqn:Hbr.
  - (* removal *)
    apply andb_true_iff in Hbr as [Hin ->]. apply set_has_true in Hin.
    destruct (Hcm cur a key Ha Hin) as (cs & Hget & Hcur).
    rewrite (updateClicked_remove_eq date salt key a cs s) by done. rewrite Hp.
    set (s2 := with_ledger (ledger_drop cur key) (with_set a (set_delete key) s)).
    destruct (commit_makes_good cur a s2) as (s' & Hrun' & Hg' & _).
    + destruct Hw. split; auto.
    + done.
    + done.
    + done.
    + done.
    + intros c a' d Hne Hca Hd. subst s2. simpl.
      apply ledger_has_drop. destruct (decide (a' = a)) as [->|Hna].
      * destruct Hw as [_ Hd' _]. exfalso. apply Hne. eauto.
      * rewrite set_at_with_ledger, set_at_with_set_ne in Hd by done.
        split; [eauto|]. by intros [_ ?].
    + unfold commitPrevious, bind, gets. replace (previousCompound s2) with (Some cur) by done.
      rewrite Hrun'. simpl. split; [done|]. intros ? _. eauto.
  - (* addition *)
    rewrite (updateClicked_add_eq date salt key a flag s) by done.
    set (s1 := with_set a (set_add key) s).
    destruct (commit_makes_good cur a s1) as (s' & Hrun' & Hg' & _).
    + destruct Hw. split; auto.
    + done.
    + done.
    + done.
    + done.
    + intros c a' d Hne Hca Hd. subst s1.
      destruct (decide (a' = a)) as [->|Hna].
      * destruct Hw as [_ Hd' _]. exfalso. apply Hne. eauto.
      * rewrite set_at_with_set_ne in Hd by done. eauto.
    + unfold commitPrevious, bind, gets. replace (previousCompound s1) with (Some cur) by done.
      rewrite Hrun'. simpl. split; [done|]. intros ? _. eauto.
Qed.

Lemma cleanPlot_sets_good cur s :
  sel_good compounds cur s →
  ∃ s', cleanPlot_sets cur s = Ok tt s' ∧ sel_good compounds cur s'.
Proof.
  intros [Hw Hp (a & Ha & Hs) Hc Hcm].
  eexists. split; [by apply cleanPlot_sets_eq|].
  destruct (clean_all_frame cur (set_at a s) s) as (Ec & Es & Ep & En & Eh).
  split; simpl.
  - destruct Hw. split; simpl; rewrite ?Ec, ?En; auto.
  - by rewrite Ep.
  - exists a. by rewrite Ec, Es.
  - by rewrite Ec.
  - rewrite Ec. intros c a' d Hca Hin.
    destruct (decide (a' = a)) as [->|Hne].
    + rewrite set_at_with_set_eq in Hin. by apply elem_of_nil in Hin.
    + rewrite set_at_with_set_ne in Hin by done.
      apply clean_all_ledger. split.
      * apply (Hcm c a'); [done|]. unfold set_at in *. by rewrite <- Eh.
      * intros [_ ->]. congruence.
Qed.

(** Rendering the compound on display again. *)
Lemma render_select_good cur s :
  sel_good compounds cur s →
  render_select (Some cur) s = Ok tt s.
Proof.
  intros [Hw Hp (a & Ha & Hs) Hc Hcm].
  unfold render_select, modify. rewrite Ha, <- Hs. by destruct s.
Qed.

Lemma render_text_good cur s :
  sel_good compounds cur s → render_text s = Ok tt s.
Proof.
  intros [Hw Hp (a & Ha & Hs) Hc Hcm]. unfold render_text, bind, gets. by rewrite Hs.
Qed.

(** Switching the display to another configured compound. *)
Lemma switch_good cur c s :
  sel_good compounds cur s → c ∈ compounds →
  ∃ a, selectionsByCompound s !! c = Some a
       ∧ sel_good compounds c (with_previousCompound (Some c) (with_selectedDates (Some a) s)).
Proof.
  intros [Hw Hp (a0 & Ha & Hs) Hc Hcm] Hin.
  destruct (Hc c Hin) as [a Hca]. exists a. split; [done|].
  split; simpl; auto.
  - destruct Hw. split; auto.
  - eauto.
Qed.

(** [initVars] hands every configured compound a fresh empty set and
    empties the ledger. *)
Lemma initVars_sets_spec c0 rest s :
  compounds = c0 :: rest →
  sel_wf compounds s →
  ∃ s' a0, initVars_sets compounds s = Ok tt s'
    ∧ selectionsByCompound s' !! c0 = Some a0
    ∧ sel_good compounds c0 (with_selectedDates (Some a0) s')
    ∧ selectionsByDate s' = []
    ∧ (∀ c a, selectionsByCompound s' !! c = Some a → set_at a s' = []).
Proof.
  intros Hcs [Hb Hd Hk].
  set (J := fun (done : list string) (t : Sel) =>
    (∀ c a, selectionsByCompound t !! c = Some a → (a < next_addr t)%nat)
    ∧ (∀ c1 c2 a, selectionsByCompound t !! c1 = Some a →
                  selectionsByCompound t !! c2 = Some a → c1 = c2)
    ∧ (∀ c, is_Some (selectionsByCompound t !! c) → c ∈ compounds)
    ∧ (∀ c, c ∈ done → ∃ a, selectionsByCompound t !! c = Some a
                            ∧ (next_addr s ≤ a)%nat ∧ set_at a t = [])
    ∧ (next_addr s ≤ next_addr t)%nat).
  destruct (for_of_ok (fun c => a <- new_Set ;; modify (bind_compound c a)) J compounds s)
    as (t & Hloop & Hb' & Hd' & Hk' & Hnew & Hle).
  { repeat split; auto. intros c Hc. by apply elem_of_nil in Hc. }
  { intros done x u Hx (Jb & Jd & Jk & Jn & Jl).
    eexists. split; [reflexivity|]. simpl. repeat split; simpl.
    - intros c a. destruct (decide (x = c)) as [->|Hne].
      + rewrite lookup_insert_eq. intros [= <-]. lia.
      + rewrite lookup_insert_ne by done. intros H. apply Jb in H. lia.
    - intros c1 c2 a.
      destruct (decide (x = c1)) as [<-|H1]; destruct (decide (x = c2)) as [<-|H2];
        rewrite ?lookup_insert_eq, ?lookup_insert_ne by done; try done.
      + intros [= <-] H. apply Jb in H. lia.
      + intros H [= <-]. apply Jb in H. lia.
      + apply Jd.
    - intros c. destruct (decide (x = c)) as [->|Hne]; [done|].
      rewrite lookup_insert_ne by done. apply Jk.
    - intros c Hc. destruct (decide (x = c)) as [->|Hne].
      + exists (next_addr u). rewrite lookup_insert_eq. split; [done|]. split; [done|].
        unfold set_at. simpl. by rewrite lookup_insert_eq.
      + apply elem_of_app in Hc as [Hc|Hc]; [|apply list_elem_of_singleton in Hc; congruence].
        destruct (Jn c Hc) as (a & Ha & Hge & He). exists a.
        rewrite lookup_insert_ne by done. split; [done|]. split; [done|].
        unfold set_at in *. simpl. rewrite lookup_insert_ne; [done|].
        apply Jb in Ha. lia.
    - lia. }
  assert (c0 ∈ compounds) as Hc0 by (rewrite Hcs; apply elem_of_cons; auto).
  destruct (Hnew c0 Hc0) as (a0 & Ha0 & _ & _).
  assert (∀ c a, selectionsByCompound t !! c = Some a → set_at a t = []) as Hempty.
  { intros c a Hca. destruct (Hnew c) as (a' & Ha' & _ & He); [apply Hk'; eauto|]. congruence. }
  eexists _, a0. split.
  { unfold initVars_sets. unfold bind at 1. rewrite Hloop. reflexivity. }
  simpl. split; [done|].
  assert (∀ c a, selectionsByCompound t !! c = Some a →
            default [] (<[next_addr t := []]> (heap t) !! a) = []) as Hempty'.
  { intros c a Hca. rewrite lookup_insert_ne; [by apply (Hempty c)|].
    apply Hb' in Hca. lia. }
  split; [|split; [done|]].
  - split; simpl.
    + split; simpl; auto. intros c a H. apply Hb' in H. lia.
    + by rewrite Hcs.
    + eauto.
    + intros c Hc. destruct (Hnew c Hc) as (a & Ha & _). eauto.
    + intros c a d Hca Hin. unfold set_at in Hin. simpl in Hin.
      rewrite (Hempty' c a Hca) in Hin. by apply elem_of_nil in Hin.
  - intros c a Hca. unfold set_at. simpl. by apply (Hempty' c).
Qed.

Lemma sel_wf_constructed : sel_wf compounds Sel_constructed.
Proof.
  split; simpl.
  - intros c a H. by rewrite lookup_empty in H.
  - intros c1 c2 a H. by rewrite lookup_empty in H.
  - intros c [a H]. by rewrite lookup_empty in H.
Qed.

End Good.

(** * The fixed-axis widget between events *)

Lemma bind_keeps {S A B} (P : S → Prop) (m : M S A) (k : A → M S B) (s : S) :
  P (out_state (m s)) →
  (∀ a s1, m s = Ok a s1 → P s1 → P (out_state (k a s1))) →
  P (out_state (bind m k s)).
Proof.
  intros H1 H2. unfold bind. destruct (m s) as [a s1|e s1]; simpl in *; auto.
Qed.

Section FixedGood.
Variable B : Browser.
Variable compounds : list string.
Variable UTCoffset : Q.
Variable xZoomLimit : Q.
Variable yRound : Q.
Variable JSONFiles : string -> option (list Raw).

Import FixedAxis.

Local Abbreviation handle := (FixedAxis.handle B compounds UTCoffset xZoomLimit yRound JSONFiles).
Local Abbreviation step := (FixedAxis.step B compounds UTCoffset xZoomLimit yRound JSONFiles).
Local Abbreviation run := (FixedAxis.run B compounds UTCoffset xZoomLimit yRound JSONFiles).
Local Abbreviation reachable := (FixedAxis.reachable B compounds UTCoffset xZoomLimit yRound JSONFiles).
Local Abbreviation render_then := (FixedAxis.render_then B UTCoffset yRound).

Local Abbreviation good := (fixed_good compounds).

Lemma with_sel_same p : with_sel (sel p) p = p.
Proof. by destruct p. Qed.

Lemma fixed_commit p :
  good p →
  ∃ t, on_sel (commitSelections (selector p)) p = Ok tt (with_sel t p)
       ∧ sel_good compounds (selector p) t.
Proof.
  intros Hg. destruct (commitSelections_good compounds _ _ Hg) as (t & Ht & Hgt).
  exists t. split; [|done]. unfold on_sel, zoom_in. by rewrite Ht.
Qed.

Lemma fixed_render p a b c d :
  good p →
  render (Some (selector p)) a b c d p
  = Ok tt (with_pending (pending p ++ [mkFetch (Some (selector p)) a b c d]) p).
Proof.
  intros Hg. unfold render, bind, on_sel, zoom_in, modify.
  rewrite (render_select_good compounds _ _ Hg). simpl. rewrite with_sel_same.
  rewrite (render_text_good compounds (selector p)) by done. simpl.
  by destruct p.
Qed.

Lemma fixed_updateAxes p a b c d :
  good p →
  ∃ t, updateAxes a b c d p
       = Ok tt (with_pending (pending p ++ [mkFetch (Some (selector p)) a b c d])
                             (with_sel t p))
       ∧ sel_good compounds (selector p) t.
Proof.
  intros Hg. destruct (fixed_commit p Hg) as (t & Ht & Hgt).
  exists t. split; [|done].
  unfold updateAxes, bind, gets. rewrite Ht.
  by rewrite (fixed_render (with_sel t p)).
Qed.

Lemma fixed_click_good p date salt flag :
  good p →
  good (out_state (on_sel (updateClicked date salt flag) p)).
Proof.
  intros Hg. destruct (updateClicked_good compounds _ (sel p) date salt flag Hg) as [H _].
  unfold on_sel, zoom_in. by destruct (updateClicked date salt flag (sel p)).
Qed.

Lemma reclick_good cur s kd ks cd shown :
  sel_good compounds cur s →
  sel_good compounds cur (out_state (reclick kd ks cd shown s)).
Proof.
  intros Hg. unfold reclick. destruct shown as [|d0 shown0]; [done|].
  set (shown := d0 :: shown0). clearbody shown.
  unfold bind, gets. destruct Hg as [Hw Hp (a & Ha & Hs) Hc Hcm] eqn:E. rewrite Hs.
  match goal with |- context [match ?t with inl _ => _ | inr _ => _ end] =>
    destruct t as [e|keep] end; [done|].
  apply for_of_keeps; [done|].
  intros d s1 H1. by apply updateClicked_good.
Qed.

Lemma fixed_render_then_good p f raw :
  good p → good (out_state (render_then f raw p)).
Proof.
  intros Hg. unfold FixedAxis.render_then.
  destruct (createScales _ _ _ _ _ _ _) as [e|lim]; [done|].
  apply bind_keeps; [done|]. intros [] p1 [= <-] _.
  pose proof (reclick_good (selector p) (sel p)
    (fun d => getf d "date") psalt (fun d => getf d "date")
    (filter (fun d => inside B lim (getf d "date") (getf d "value"))
            (map (convert UTCoffset ["date"]) raw)) Hg) as Hr.
  unfold on_sel, zoom_in. simpl.
  match goal with |- context [reclick ?a ?b ?c ?d ?e] =>
    destruct (reclick a b c d e) end; exact Hr.
Qed.

Lemma fixed_initVars_good c0 rest p :
  compounds = c0 :: rest →
  sel_wf compounds (sel p) →
  ∃ p', initVars compounds p = Ok tt p' ∧ good p' ∧ selector p' = c0
        ∧ zoomHistory p' = zoomHistory p ∧ limits p' = limits p
        ∧ selectionsByDate (sel p') = []
        ∧ (∀ c a, selectionsByCompound (sel p') !! c = Some a → set_at a (sel p') = []).
Proof.
  intros Hcs Hw.
  destruct (initVars_sets_spec compounds c0 rest (sel p) Hcs Hw)
    as (t & a0 & Ht & Ha0 & Hg & Hl & He).
  eexists. split.
  { unfold initVars, bind, modify, on_sel, zoom_in. simpl. rewrite Ht. simpl.
    unfold render, bind, on_sel, zoom_in, modify. rewrite Hcs. simpl.
    unfold render_select, modify. rewrite Ha0. simpl. reflexivity. }
  unfold fixed_good. simpl. done.
Qed.

Lemma fixed_change_good p c :
  good p → c ∈ compounds →
  good (out_state (on_change c (with_selector c p))).
Proof.
  intros Hg Hc. unfold fixed_good in Hg.
  destruct (commitPrevious_good compounds _ _ Hg) as (t & Ht & Hgt).
  destruct (switch_good compounds _ c t Hgt Hc) as (a & Ha & Hsw).
  unfold on_change, bind, on_sel, zoom_in. simpl. rewrite Ht. simpl.
  unfold render, bind, on_sel, zoom_in, modify. simpl.
  unfold render_select, modify. rewrite Ha. simpl. exact Hsw.
Qed.

Lemma fixed_step_good c0 rest p e :
  compounds = c0 :: rest →
  good p → possible compounds e → good (step p e).
Proof.
  intros Hcs Hg Hposs. unfold FixedAxis.step.
  destruct e as [c|x1 x2 y1 y2| | | | | | |d|ds alt|x0 x1 y0 y1|i]; simpl.
  - (* SelectCompound *)
    unfold bind, modify. by apply fixed_change_good.
  - destruct (fixed_updateAxes p (JStr x1) (JStr x2) (JStr y1) (JStr y2) Hg) as (t & -> & Ht).
    done.
  - unfold bind, gets. destruct (fixed_commit p Hg) as (t & -> & Ht). done.
  - unfold getJSONfile_commit, bind, gets. destruct (fixed_commit p Hg) as (t & -> & Ht). done.
  - (* ClearPlot *)
    unfold bind at 1, gets. unfold cleanPlot.
    destruct (cleanPlot_sets_good compounds _ _ Hg) as (t & Ht & Hgt).
    unfold bind, on_sel, zoom_in. rewrite Ht.
    by rewrite (fixed_render (with_sel t p)).
  - (* ClearAll *)
    unfold totalRefresh.
    destruct (fixed_initVars_good c0 rest p Hcs) as (p' & Hi & Hg' & Hsel & _).
    { destruct Hg. done. }
    unfold bind at 1. rewrite Hi. unfold bind, modify, gets. simpl.
    replace (default EmptyString (head compounds)) with c0 by (by rewrite Hcs).
    replace (with_selector c0 p') with p' by (rewrite <- Hsel; by destruct p').
    pose proof (fixed_change_good p' c0 Hg') as Hch.
    replace (with_selector c0 p') with p' in Hch by (rewrite <- Hsel; by destruct p').
    apply Hch. rewrite Hcs. apply elem_of_cons. auto.
  - destruct (fixed_updateAxes p JNull JNull JNull JNull Hg) as (t & -> & Ht). done.
  - (* UndoZoom *)
    unfold undoZoom, bind, gets. destruct (last (zoomHistory p)) as [old|]; [|done].
    unfold modify.
    set (p1 := with_zoomHistory (removelast (zoomHistory p)) p).
    destruct (fixed_updateAxes p1 (JDate (Instant (xMin old))) (JDate (Instant (xMax old)))
                (yMin old) (yMax old) Hg) as (t & -> & Ht).
    done.
  - by apply fixed_click_good.
  - unfold dragEnd_select. apply for_of_keeps; [done|].
    intros d s Hs. by apply fixed_click_good.
  - (* DragZoom *)
    unfold dragEnd_zoom, bind, gets. destruct (limits p) as [lim|]; [|done].
    destruct (zoom_range lim xZoomLimit x0 x1) as [a b]. unfold modify.
    set (p1 := with_zoomHistory (zoomHistory p ++ [lim]) p).
    destruct (fixed_updateAxes p1 (JDate a) (JDate b) (JNum y0) (JNum y1) Hg) as (t & -> & Ht).
    done.
  - (* FetchDone *)
    unfold fetch_done, bind, gets. destruct (pending p !! i) as [f|]; [|done].
    unfold modify. destruct (f_compound f) as [c|]; [|done].
    destruct (JSONFiles c) as [raw|]; [|done].
    by apply fixed_render_then_good.
Qed.

Lemma fixed_initial_good c0 rest :
  compounds = c0 :: rest → good (initial compounds).
Proof.
  intros Hcs. unfold initial.
  destruct (fixed_initVars_good c0 rest constructed Hcs) as (p' & -> & Hg & _).
  - apply sel_wf_constructed.
  - done.
Qed.

Lemma fixed_reachable_good c0 rest p :
  compounds = c0 :: rest → reachable p → good p.
Proof.
  intros Hcs Hr. induction Hr as [|p e Hr IH Hp].
  - by apply (fixed_initial_good c0 rest).
  - by apply (fixed_step_good c0 rest).
Qed.

Lemma fixed_reachable_run es p :
  reachable p → Forall (possible compounds) es → reachable (run es p).
Proof.
  intros Hr Hes. revert p Hr. induction Hes as [|e es He Hes IH]; intros p Hr; [done|].
  simpl. apply IH. by constructor.
Qed.

End FixedGood.

(** * Dates, extrema and limits *)

Lemma Qtrunc_comp (a b : Q) : (a == b)%Q → Qtrunc a = Qtrunc b.
Proof.
  intros H. unfold Qtrunc.
  rewrite (Qfloor_comp a b H), (Qceiling_comp a b H).
  by rewrite (Qleb_comp 0%Q 0%Q (Qeq_refl 0%Q) a b H).
Qed.

Lemma TimeClip_comp (a b : Q) : (a == b)%Q → TimeClip a = TimeClip b.
Proof.
  intros H. unfold TimeClip. rewrite (Qtrunc_comp a b H).
  by rewrite (Qleb_comp (Qabs a) (Qabs b) (Qabs_wd a b H) _ _ (Qeq_refl _)).
Qed.

Lemma Qtrunc_whole (z : Z) : Qtrunc (inject_Z z) = z.
Proof. unfold Qtrunc. destruct (Qle_bool 0 (inject_Z z)); [apply Qfloor_Z | apply Qceiling_Z]. Qed.

Lemma Qabs_whole (z : Z) : Qabs (inject_Z z) = inject_Z (Z.abs z).
Proof. reflexivity. Qed.

(** A whole number of milliseconds in the range of [Date] is kept as it is. *)
Lemma TimeClip_whole (q : Q) (z : Z) :
  (q == inject_Z z)%Q → Z.abs z <= maxTime → TimeClip q = Instant z.
Proof.
  intros Hq Hz. rewrite (TimeClip_comp q (inject_Z z) Hq). unfold TimeClip.
  rewrite Qabs_whole, Qtrunc_whole.
  assert (Qle_bool (inject_Z (Z.abs z)) (inject_Z maxTime) = true) as ->; [|done].
  apply Qle_bool_iff. by rewrite <- Zle_Qle.
Qed.

(** Truncation moves a number by less than one. *)
Lemma Qtrunc_near (q : Q) : (Qabs (inject_Z (Qtrunc q) - q) < 1)%Q.
Proof.
  unfold Qtrunc. apply Qabs_Qlt_condition.
  pose proof (Qfloor_le q) as H1. pose proof (Qlt_floor q) as H2.
  pose proof (Qle_ceiling q) as H3. pose proof (Qceiling_lt q) as H4.
  rewrite inject_Z_plus in H2. unfold Z.sub in H4. rewrite inject_Z_plus in H4.
  change (inject_Z 1) with 1%Q in H2.
  change (inject_Z (- (1))) with (- (1))%Q in H4.
  destruct (Qle_bool 0 q);
    [set (f := inject_Z (Qfloor q)) in * | set (f := inject_Z (Qceiling q)) in *];
    clearbody f; split; lra.
Qed.

Lemma TimeClip_near (q : Q) (z : Z) :
  TimeClip q = Instant z → (Qabs (inject_Z z - q) < 1)%Q.
Proof.
  unfold TimeClip. destruct (Qle_bool _ _); [|done]. intros [= <-]. apply Qtrunc_near.
Qed.

Lemma Qlt_bool_iff (a b : Q) : Qlt_bool a b = true ↔ (a < b)%Q.
Proof.
  unfold Qlt_bool. rewrite negb_true_iff. split.
  - intros H. apply Qnot_le_lt. intros Hle. apply Qle_bool_iff in Hle. congruence.
  - intros H. destruct (Qle_bool b a) eqn:E; [|done].
    apply Qle_bool_iff in E. apply Qlt_not_le in H. contradiction.
Qed.

(** ** [d3.max] *)

Lemma d3_max_is_max (vals : list (option Q)) (m : Q) :
  (∃ v, Some v ∈ vals ∧ (v == m)%Q) →
  (∀ v, Some v ∈ vals → (v <= m)%Q) →
  ∃ m', d3_max vals = Some m' ∧ (m' == m)%Q.
Proof.
  unfold d3_max, d3_pick.
  set (f := fun (acc : option Q) (v : option Q) =>
              match v, acc with
              | None, _ => acc
              | Some x, None => Some x
              | Some x, Some m0 => if Qlt_bool m0 x then Some x else Some m0
              end).
  cut (∀ acc,
         (∀ x, acc = Some x → (x <= m)%Q) →
         (∀ v, Some v ∈ vals → (v <= m)%Q) →
         ((∃ v, Some v ∈ vals ∧ (v == m)%Q) ∨ (∃ x, acc = Some x ∧ (x == m)%Q)) →
         ∃ m', fold_left f vals acc = Some m' ∧ (m' == m)%Q).
  { intros Hc Hex Hle. apply (Hc None); [done | done | by left]. }
  induction vals as [|v vals IH]; intros acc Hacc Hle Hex; simpl.
  - destruct Hex as [(v & Hv & _)|(x & -> & Hx)]; [by apply elem_of_nil in Hv | eauto].
  - apply IH.
    + intros x Hx. destruct v as [x0|]; simpl in Hx; [|auto].
      assert (x0 <= m)%Q as H0 by (apply Hle, elem_of_cons; auto).
      destruct acc as [y|]; [|by injection Hx as <-].
      destruct (Qlt_bool y x0); injection Hx as <-; auto.
    + intros v0 Hv0. apply Hle, elem_of_cons. auto.
    + destruct Hex as [(v0 & Hv0 & Hm)|(x & -> & Hx)].
      * apply elem_of_cons in Hv0 as [<-|Hv0]; [|left; eauto].
        right. simpl. destruct acc as [y|]; [|eauto].
        destruct (Qlt_bool y v0) eqn:E; [eauto|].
        exists y. split; [done|].
        assert (y <= m)%Q by auto.
        assert (¬ (y < v0)%Q) as Hn by (intros Hlt; apply Qlt_bool_iff in Hlt; congruence).
        apply Qnot_lt_le in Hn. rewrite Hm in Hn. by apply Qle_antisym.
      * right. destruct v as [x0|]; simpl; [|eauto].
        assert (x0 <= m)%Q as H0 by (apply Hle, elem_of_cons; auto).
        destruct (Qlt_bool x x0) eqn:E; [|eauto].
        apply Qlt_bool_iff in E. exists x0. split; [done|].
        apply Qle_antisym; [done|]. rewrite <- Hx. by apply Qlt_le_weak.
Qed.

(** ** The shift-drag range *)

Lemma zoom_range_narrow (lim : Limits) (L : Q) (xStart xEnd : Z) :
  xMin lim <= xStart → xEnd <= xMax lim →
  (inject_Z (xEnd - xStart) < L)%Q →
  zoom_range lim L xStart xEnd
  = (TimeClip ((inject_Z xEnd + inject_Z xStart) / 2 - L / 2),
     TimeClip ((inject_Z xEnd + inject_Z xStart) / 2 + L / 2)).
Proof.
  intros H1 H2 H3. unfold zoom_range.
  assert ((xStart <? xMin lim) = false) as -> by lia.
  assert ((xEnd >? xMax lim) = false) as -> by lia.
  simpl. apply Qlt_bool_iff in H3. by rewrite H3.
Qed.

(** ** Limits that come out of [createScales] go back in unchanged *)

Lemma falsy_date d : falsy (JDate d) = false.
Proof. done. Qed.

Lemma strict_eq_refl_num q : strict_eq (JNum q) (JNum q) = true.
Proof. simpl. apply Qeq_bool_iff. reflexivity. Qed.

Lemma strict_eq_sym a b : strict_eq a b = strict_eq b a.
Proof.
  destruct a, b; simpl; try done.
  - destruct (Qeq_bool q q0) eqn:E1, (Qeq_bool q0 q) eqn:E2; try done.
    + apply Qeq_bool_iff in E1. symmetry in E1. apply Qeq_bool_iff in E1. congruence.
    + apply Qeq_bool_iff in E2. symmetry in E2. apply Qeq_bool_iff in E2. congruence.
  - apply String.eqb_sym.
Qed.

Lemma areLimitsEqual_sym a b : areLimitsEqual a b = areLimitsEqual b a.
Proof.
  unfold areLimitsEqual.
  rewrite (Z.eqb_sym (xMin a)), (Z.eqb_sym (xMax a)).
  by rewrite (strict_eq_sym (yMin a)), (strict_eq_sym (yMax a)).
Qed.

Lemma strict_eq_same a b : comparable a → same_value a b → strict_eq a b = true.
Proof.
  destruct a, b; simpl; try done.
  - intros _ H. by apply Qeq_bool_iff.
  - intros _ ->. apply String.eqb_refl.
Qed.

(** Limits that [areLimitsEqual] tells apart differ in a bound, unless a
    y bound is [NaN]. *)
Lemma not_same_bounds a b :
  areLimitsEqual a b = false →
  comparable (yMin a) → comparable (yMax a) → ¬ same_bounds a b.
Proof.
  intros Hne Hlo Hhi (Hx0 & Hx1 & Hy0 & Hy1).
  unfold areLimitsEqual in Hne.
  rewrite Hx0, Hx1, !Z.eqb_refl in Hne.
  rewrite (strict_eq_same _ _ Hlo Hy0), (strict_eq_same _ _ Hhi Hy1) in Hne.
  discriminate.
Qed.

Section FixedScales.
Variable B : Browser.
Variable yRound : Q.
Local Abbreviation createScales := (FixedAxis.createScales B yRound).

Lemma fixed_createScales_stable data a b c d lim :
  createScales data a b c d = inr lim →
  createScales data (JDate (Instant (xMin lim))) (JDate (Instant (xMax lim)))
               (yMin lim) (yMax lim) = inr lim.
Proof.
  unfold FixedAxis.createScales. simpl.
  destruct (new_Date B _) as [lo|]; [|done].
  destruct (new_Date B _) as [hi|]; [|done].
  intros [= <-]. simpl. f_equal. f_equal.
  - destruct (falsy c) eqn:Ec; [done | by rewrite Ec].
  - destruct (falsy d) eqn:Ed.
    + destruct (falsy (ceil_to _ _)); done.
    + by rewrite Ed.
Qed.

End FixedScales.

(** * Zoom and undo in the fixed-axis widget *)

Section FixedZoom.
Variable B : Browser.
Variable compounds : list string.
Variable UTCoffset : Q.
Variable xZoomLimit : Q.
Variable yRound : Q.
Variable JSONFiles : string -> option (list Raw).

Import FixedAxis.

Local Abbreviation handle := (FixedAxis.handle B compounds UTCoffset xZoomLimit yRound JSONFiles).
Local Abbreviation step := (FixedAxis.step B compounds UTCoffset xZoomLimit yRound JSONFiles).
Local Abbreviation zoom_answered :=
  (FixedAxis.zoom_answered B compounds UTCoffset xZoomLimit yRound JSONFiles).
Local Abbreviation undo_answered :=
  (FixedAxis.undo_answered B compounds UTCoffset xZoomLimit yRound JSONFiles).
Local Abbreviation zooms_answered :=
  (FixedAxis.zooms_answered B compounds UTCoffset xZoomLimit yRound JSONFiles).
Local Abbreviation undos_answered :=
  (FixedAxis.undos_answered B compounds UTCoffset xZoomLimit yRound JSONFiles).
Local Abbreviation view := (fixed_view B compounds UTCoffset yRound JSONFiles).
Local Abbreviation stable := (fixed_stable B UTCoffset yRound).

(** The answer to the one pending request of the compound on display. *)
Lemma fixed_answer raw L p t a b c d :
  JSONFiles (selector p) = Some raw →
  fixed_good compounds (with_sel t p) →
  limits p = Some L → stable raw L →
  let p1 := with_pending [mkFetch (Some (selector p)) a b c d] (with_sel t p) in
  ∃ L', view raw L' (step p1 (FetchDone 0))
        ∧ zoomHistory (step p1 (FetchDone 0)) = zoomHistory p
        ∧ selector (step p1 (FetchDone 0)) = selector p
        ∧ (∀ lim, createScales B yRound (map (convert UTCoffset ["date"]) raw) a b c d
                  = inr lim → L' = lim).
Proof.
  intros Hraw Hg HL Hst p1.
  unfold FixedAxis.step. simpl. unfold fetch_done, bind, gets, modify. simpl. rewrite Hraw.
  unfold FixedAxis.render_then. simpl.
  destruct (createScales B yRound _ a b c d) as [e|lim] eqn:Ecs.
  - exists L. simpl. split; [|done]. by split; [exact Hg|].
  - exists lim. unfold bind, modify. simpl.
    match goal with |- context [on_sel ?m ?q] =>
      pose proof (reclick_good compounds (selector p) t
        (fun d => getf d "date") psalt (fun d => getf d "date")
        (filter (fun d => inside B lim (getf d "date") (getf d "value"))
                (map (convert UTCoffset ["date"]) raw)) Hg) as Hr;
      unfold on_sel, zoom_in; simpl
    end.
    match goal with |- context [reclick ?x1 ?x2 ?x3 ?x4 ?x5] =>
      destruct (reclick x1 x2 x3 x4 x5) as [[] t'|e t'] end; simpl in *.
    + split; [|split; [done|split; [done|by intros ? [= <-]]]].
      split; [exact Hr|]. split; [done|]. split; [done|]. split; [done|].
      by apply (fixed_createScales_stable B yRound _ a b c d).
    + split; [|split; [done|split; [done|by intros ? [= <-]]]].
      split; [exact Hr|]. split; [done|]. split; [done|]. split; [done|].
      by apply (fixed_createScales_stable B yRound _ a b c d).
Qed.

Lemma fixed_zoom_step raw L p z :
  view raw L p →
  ∃ L', view raw L' (zoom_answered z p)
        ∧ zoomHistory (zoom_answered z p) = zoomHistory p ++ [L]
        ∧ selector (zoom_answered z p) = selector p.
Proof.
  intros (Hg & Hpend & Hraw & HL & Hst). destruct z as [[[x0 x1] y0] y1].
  unfold FixedAxis.zoom_answered, FixedAxis.run. simpl.
  destruct (zoom_range L xZoomLimit x0 x1) as [a b] eqn:Ez.
  set (p0 := with_zoomHistory (zoomHistory p ++ [L]) p).
  destruct (fixed_updateAxes compounds p0 (JDate a) (JDate b) (JNum y0) (JNum y1) Hg)
    as (t & Hu & Ht).
  assert (step p (DragZoom x0 x1 y0 y1)
          = with_pending [mkFetch (Some (selector p0)) (JDate a) (JDate b) (JNum y0) (JNum y1)]
                         (with_sel t p0)) as ->.
  { unfold FixedAxis.step. simpl. unfold dragEnd_zoom, bind, gets. rewrite HL, Ez.
    unfold modify. fold p0. unfold bind in Hu. rewrite Hu. simpl.
    by rewrite Hpend. }
  destruct (fixed_answer raw L p0 t (JDate a) (JDate b) (JNum y0) (JNum y1))
    as (L' & Hv & Hh & Hs & _); try done.
  exists L'. done.
Qed.

Lemma fixed_undo_step raw Lc L h p :
  view raw Lc p →
  zoomHistory p = h ++ [L] → stable raw L →
  view raw L (undo_answered p)
  ∧ zoomHistory (undo_answered p) = h
  ∧ selector (undo_answered p) = selector p.
Proof.
  intros (Hg & Hpend & Hraw & HL & Hst) Hh HstL.
  unfold FixedAxis.undo_answered, FixedAxis.run. simpl.
  set (p0 := with_zoomHistory h p).
  destruct (fixed_updateAxes compounds p0 (JDate (Instant (xMin L))) (JDate (Instant (xMax L)))
              (yMin L) (yMax L) Hg) as (t & Hu & Ht).
  assert (step p UndoZoom
          = with_pending [mkFetch (Some (selector p0)) (JDate (Instant (xMin L)))
                                  (JDate (Instant (xMax L))) (yMin L) (yMax L)]
                         (with_sel t p0)) as ->.
  { unfold FixedAxis.step. simpl. unfold undoZoom, bind, gets.
    rewrite Hh, last_snoc, removelast_last. unfold modify. fold p0.
    unfold bind in Hu. rewrite Hu. simpl. rewrite Hpend. reflexivity. }
  destruct (fixed_answer raw Lc p0 t (JDate (Instant (xMin L))) (JDate (Instant (xMax L)))
              (yMin L) (yMax L)) as (L' & Hv & Hh' & Hs & Heq); try done.
  pose proof (Heq L HstL) as ->. done.
Qed.

(** After any zooms the history has grown by the limits that were on
    display before each of them, the first being those before the first. *)
Lemma fixed_zooms raw L0 zs p :
  view raw L0 p →
  ∃ ls Lc, view raw Lc (zooms_answered zs p)
    ∧ zoomHistory (zooms_answered zs p) = zoomHistory p ++ ls
    ∧ length ls = length zs
    ∧ Forall (stable raw) ls
    ∧ head (ls ++ [Lc]) = Some L0.
Proof.
  revert L0 p. induction zs as [|z zs IH]; intros L0 p Hv.
  - exists [], L0. simpl. rewrite app_nil_r. done.
  - destruct (fixed_zoom_step raw L0 p z Hv) as (L1 & Hv1 & Hh1 & Hs1).
    destruct (IH L1 _ Hv1) as (ls & Lc & Hvc & Hhc & Hlen & Hall & Hhd).
    exists (L0 :: ls), Lc.
    change (zooms_answered (z :: zs) p) with (zooms_answered zs (zoom_answered z p)).
    split; [done|]. split.
    { rewrite Hhc, Hh1. by rewrite <- app_assoc. }
    split; [simpl; by rewrite Hlen|]. split; [|done].
    constructor; [|done]. by destruct Hv as (_ & _ & _ & _ & ?).
Qed.

Lemma fixed_undos raw ls : ∀ Lc h p,
  view raw Lc p →
  zoomHistory p = h ++ ls → Forall (stable raw) ls →
  ∃ L, head (ls ++ [Lc]) = Some L
       ∧ view raw L (undos_answered (length ls) p)
       ∧ zoomHistory (undos_answered (length ls) p) = h.
Proof.
  induction ls as [|L ls IH] using rev_ind; intros Lc h p Hv Hh Hall.
  - exists Lc. simpl. rewrite app_nil_r in Hh. done.
  - apply Forall_app in Hall as [Hall HL]. rewrite Forall_singleton in HL.
    rewrite app_assoc in Hh.
    destruct (fixed_undo_step raw Lc L (h ++ ls) p Hv Hh HL) as (Hv1 & Hh1 & _).
    destruct (IH L h _ Hv1 Hh1 Hall) as (L' & Hhd & Hv' & Hh').
    exists L'. rewrite length_app. simpl. rewrite Nat.add_1_r.
    unfold FixedAxis.undos_answered in *. rewrite Nat.iter_succ_r.
    split; [|done].
    rewrite <- app_assoc. destruct ls; simpl in *; done.
Qed.

(** [n] zooms followed by [n] undos bring the limits and the history back. *)
Lemma fixed_zooms_undone raw L0 zs p :
  view raw L0 p →
  let p' := undos_answered (length zs) (zooms_answered zs p) in
  limits p' = Some L0 ∧ zoomHistory p' = zoomHistory p.
Proof.
  intros Hv p'.
  destruct (fixed_zooms raw L0 zs p Hv) as (ls & Lc & Hvc & Hhc & Hlen & Hall & Hhd).
  destruct (fixed_undos raw ls Lc (zoomHistory p) _ Hvc Hhc Hall) as (L & HL & Hv' & Hh').
  subst p'. rewrite <- Hlen. split; [|done].
  destruct Hv' as (_ & _ & _ & Hlim & _). congruence.
Qed.

End FixedZoom.

(** * The variable-axis widget between events *)

Section VarGood.
Variable B : Browser.
Variable compounds : list string.
Variable xOptions : list (string * VarAxis.Accessor).
Variable yOptions : list (string * VarAxis.Accessor).
Variable dataXDefault0 : VarAxis.Accessor.
Variable dataYDefault0 : VarAxis.Accessor.
Variable UTCoffset : Q.
Variable xZoomLimit : Q.
Variable JSONFiles : string -> option (list Raw).

Import VarAxis.

Local Abbreviation handle :=
  (VarAxis.handle B compounds xOptions yOptions dataXDefault0 UTCoffset xZoomLimit JSONFiles).
Local Abbreviation step :=
  (VarAxis.step B compounds xOptions yOptions dataXDefault0 UTCoffset xZoomLimit JSONFiles).
Local Abbreviation run :=
  (VarAxis.run B compounds xOptions yOptions dataXDefault0 UTCoffset xZoomLimit JSONFiles).
Local Abbreviation reachable :=
  (VarAxis.reachable B compounds xOptions yOptions dataXDefault0 dataYDefault0 UTCoffset
                     xZoomLimit JSONFiles).
Local Abbreviation initial :=
  (VarAxis.initial compounds xOptions yOptions dataXDefault0 dataYDefault0).
Local Abbreviation render_then := (VarAxis.render_then B xOptions yOptions dataXDefault0 UTCoffset).
Local Abbreviation createScales := (VarAxis.createScales B xOptions yOptions).
Local Abbreviation undoZoom := (VarAxis.undoZoom xOptions yOptions).
Local Abbreviation good := (var_good compounds).

Lemma var_with_sel_same p : with_sel (sel p) p = p.
Proof. by destruct p. Qed.

Lemma var_commit p :
  good p →
  ∃ t, on_sel (commitSelections (selector p)) p = Ok tt (with_sel t p)
       ∧ sel_good compounds (selector p) t.
Proof.
  intros Hg. destruct (commitSelections_good compounds _ _ Hg) as (t & Ht & Hgt).
  exists t. split; [|done]. unfold on_sel, zoom_in. by rewrite Ht.
Qed.

Lemma var_render p a b c d :
  good p →
  render (Some (selector p)) a b c d p
  = Ok tt (with_pending (pending p ++ [mkFetch (Some (selector p)) a b c d]) p).
Proof.
  intros Hg. unfold render, bind, on_sel, zoom_in, modify.
  rewrite (render_select_good compounds _ _ Hg). simpl. rewrite var_with_sel_same.
  rewrite (render_text_good compounds (selector p)) by done. simpl.
  by destruct p.
Qed.

Lemma var_updateAxes p a b c d :
  good p →
  ∃ t, updateAxes a b c d p
       = Ok tt (with_pending (pending p ++ [mkFetch (Some (selector p)) a b c d])
                             (with_sel t p))
       ∧ sel_good compounds (selector p) t.
Proof.
  intros Hg. destruct (var_commit p Hg) as (t & Ht & Hgt).
  exists t. split; [|done].
  unfold updateAxes, bind, gets. rewrite Ht.
  by rewrite (var_render (with_sel t p)).
Qed.

Lemma var_click_good p date salt flag :
  good p →
  good (out_state (on_sel (updateClicked date salt flag) p)).
Proof.
  intros Hg. destruct (updateClicked_good compounds _ (sel p) date salt flag Hg) as [H _].
  unfold on_sel, zoom_in. by destruct (updateClicked date salt flag (sel p)).
Qed.

(** [createScales] writes nothing but the zoom history. *)
Lemma var_createScales_frame data a b c d p :
  let p' := out_state (createScales data a b c d p) in
  sel p' = sel p ∧ selector p' = selector p ∧ pending p' = pending p
  ∧ limits p' = limits p ∧ dataXDefault p' = dataXDefault p
  ∧ dataYDefault p' = dataYDefault p.
Proof.
  unfold VarAxis.createScales, bind, get. simpl.
  destruct (previousCompound (sel p)) as [c0|]; [|done].
  destruct (zoomHistory p !! c0) as [sub|]; [|done].
  match goal with |- context [match ?t with inl _ => _ | inr _ => _ end] =>
    destruct t as [e|[[[x0 x1] y0] y1]] end; [done|].
  destruct (processAxis_date _ _ _ _ _) as [e|[lo hi]]; [done|].
  destruct (processAxis_number _ _ _ _ _ _) as [e|[ylo yhi]]; [done|].
  destruct (sub !! _) as [st|]; [|done].
  unfold bind, modify, ret. destruct (last st) as [top|]; [|done].
  destruct (areLimitsEqual _ top); done.
Qed.

Lemma var_render_then_good p f raw :
  good p → good (out_state (render_then f raw p)).
Proof.
  intros Hg. unfold VarAxis.render_then.
  set (data := map (convert UTCoffset (map_keys xOptions)) raw).
  pose proof (var_createScales_frame data (f_xMin f) (f_xMax f) (f_yMin f) (f_yMax f) p)
    as (Hs & Hv & _).
  unfold bind at 1.
  destruct (createScales data _ _ _ _ p) as [lim p1|e p1]; simpl in *.
  2:{ unfold var_good. by rewrite Hs, Hv. }
  assert (good p1) as Hg1 by (unfold var_good; by rewrite Hs, Hv).
  unfold bind, modify, get. simpl.
  destruct (shown_points B dataXDefault0 lim (dataYDefault p1) data) as [e|shown]; [done|].
  assert (∀ kd, good (out_state (on_sel (reclick kd (fun _ => None)
                                           (fun d => getf d "date") shown)
                                  (with_limits (Some lim) p1)))) as Hre.
  { intros kd.
    pose proof (reclick_good compounds (selector p1) (sel p1) kd (fun _ => None)
                  (fun d => getf d "date") shown Hg1) as Hr.
    unfold on_sel, zoom_in. simpl.
    match goal with |- context [reclick ?x1 ?x2 ?x3 ?x4 ?x5] =>
      destruct (reclick x1 x2 x3 x4 x5) end; exact Hr. }
  destruct (dataXDefault p1) as [ax|]; [apply Hre|].
  destruct shown; [apply Hre | done].
Qed.

Lemma var_initVars_good c0 rest p :
  compounds = c0 :: rest →
  sel_wf compounds (sel p) →
  ∃ p', VarAxis.initVars compounds xOptions yOptions p = Ok tt p' ∧ good p'
        ∧ selector p' = c0
        ∧ zoomHistory p' = fresh_history compounds xOptions yOptions
        ∧ selectionsByDate (sel p') = []
        ∧ (∀ c a, selectionsByCompound (sel p') !! c = Some a → set_at a (sel p') = []).
Proof.
  intros Hcs Hw.
  destruct (initVars_sets_spec compounds c0 rest (sel p) Hcs Hw)
    as (t & a0 & Ht & Ha0 & Hg & Hl & He).
  eexists. split.
  { unfold VarAxis.initVars, bind, modify, on_sel, zoom_in. simpl. rewrite Ht. simpl.
    unfold render, bind, on_sel, zoom_in, modify. rewrite Hcs. simpl.
    unfold render_select, modify. rewrite Ha0. simpl. reflexivity. }
  unfold var_good. simpl. done.
Qed.

Lemma var_change_good p c :
  good p → c ∈ compounds →
  good (out_state (on_change c (with_selector c p))).
Proof.
  intros Hg Hc. unfold var_good in Hg.
  destruct (commitPrevious_good compounds _ _ Hg) as (t & Ht & Hgt).
  destruct (switch_good compounds _ c t Hgt Hc) as (a & Ha & Hsw).
  unfold on_change, bind, on_sel, zoom_in. simpl. rewrite Ht. simpl.
  unfold render, bind, on_sel, zoom_in, modify. simpl.
  unfold render_select, modify. rewrite Ha. simpl. exact Hsw.
Qed.

Lemma var_step_good c0 rest p e :
  compounds = c0 :: rest →
  good p → possible compounds xOptions yOptions e → good (step p e).
Proof.
  intros Hcs Hg Hposs. unfold VarAxis.step.
  destruct e as [c|k|k|x1 x2 y1 y2| | | | | | |d|ds alt|x0 x1 y0 y1|i]; simpl.
  - unfold bind, modify. by apply var_change_good.
  - (* SelectX *)
    unfold on_xSelect, bind, modify, gets. simpl.
    rewrite (good_previous _ _ _ Hg).
    set (p1 := with_dataXDefault _ p). by rewrite (var_render p1).
  - unfold on_ySelect, bind, modify, gets. simpl.
    rewrite (good_previous _ _ _ Hg).
    set (p1 := with_dataYDefault _ p). by rewrite (var_render p1).
  - destruct (var_updateAxes p (JStr x1) (JStr x2) (JStr y1) (JStr y2) Hg) as (t & -> & Ht).
    done.
  - unfold bind, gets. destruct (var_commit p Hg) as (t & -> & Ht). done.
  - unfold getJSONfile_commit, bind, gets. destruct (var_commit p Hg) as (t & -> & Ht). done.
  - unfold bind at 1, gets. unfold cleanPlot.
    destruct (cleanPlot_sets_good compounds _ _ Hg) as (t & Ht & Hgt).
    unfold bind, on_sel, zoom_in. rewrite Ht.
    by rewrite (var_render (with_sel t p)).
  - unfold totalRefresh.
    destruct (var_initVars_good c0 rest p Hcs) as (p' & Hi & Hg' & Hsel & _).
    { destruct Hg. done. }
    unfold bind at 1. rewrite Hi. unfold bind, modify, gets. simpl.
    replace (default EmptyString (head compounds)) with c0 by (by rewrite Hcs).
    replace (with_selector c0 p') with p' by (rewrite <- Hsel; by destruct p').
    pose proof (var_change_good p' c0 Hg') as Hch.
    replace (with_selector c0 p') with p' in Hch by (rewrite <- Hsel; by destruct p').
    apply Hch. rewrite Hcs. apply elem_of_cons. auto.
  - destruct (var_updateAxes p JNull JNull JNull JNull Hg) as (t & -> & Ht). done.
  - (* UndoZoom *)
    unfold VarAxis.undoZoom, bind, get. destruct (previousCompound (sel p)) as [c|]; [|done].
    destruct (stack_of p c _) as [st|]; [|done].
    unfold modify.
    set (p1 := with_stack _ _ _ p).
    destruct (var_updateAxes p1 JNull JNull JNull JNull Hg) as (t & -> & Ht).
    done.
  - by apply var_click_good.
  - unfold dragEnd_select. apply for_of_keeps; [done|].
    intros d s Hs. by apply var_click_good.
  - unfold dragEnd_zoom, bind, gets. destruct (limits p) as [lim|]; [|done].
    destruct (zoom_range lim xZoomLimit x0 x1) as [a b].
    destruct (var_updateAxes p (JDate a) (JDate b) (JNum y0) (JNum y1) Hg) as (t & -> & Ht).
    done.
  - unfold fetch_done, bind, gets. destruct (pending p !! i) as [f|]; [|done].
    unfold modify. destruct (f_compound f) as [c|]; [|done].
    destruct (JSONFiles c) as [raw|]; [|done].
    by apply var_render_then_good.
Qed.

Lemma var_initial_good c0 rest :
  compounds = c0 :: rest → good initial.
Proof.
  intros Hcs. unfold VarAxis.initial.
  destruct (var_initVars_good c0 rest
              (constructed dataXDefault0 dataYDefault0) Hcs) as (p' & -> & Hg & _).
  - apply sel_wf_constructed.
  - done.
Qed.

Lemma var_reachable_good c0 rest p :
  compounds = c0 :: rest → reachable p → good p.
Proof.
  intros Hcs Hr. induction Hr as [|p e Hr IH Hp].
  - by apply (var_initial_good c0 rest).
  - by apply (var_step_good c0 rest).
Qed.

Lemma var_reachable_run es p :
  reachable p → Forall (possible compounds xOptions yOptions) es → reachable (run es p).
Proof.
  intros Hr Hes. revert p Hr. induction Hes as [|e es He Hes IH]; intros p Hr; [done|].
  simpl. apply IH. by constructor.
Qed.

End VarGood.

(** * The zoom stacks of the variable-axis widget *)

Lemma no_repeat_nil : no_repeat [].
Proof. intros i a b H. by rewrite lookup_nil in H. Qed.

Lemma no_repeat_snoc st lim :
  no_repeat st →
  (∀ top, last st = Some top → areLimitsEqual lim top = false) →
  no_repeat (st ++ [lim]).
Proof.
  intros Hst Htop i a b Ha Hb.
  apply lookup_snoc_Some in Hb as [[Hlt Hb]|[Hi ->]].
  - apply (Hst i a b); [|done]. rewrite lookup_app_l in Ha; [done|lia].
  - rewrite lookup_app_l in Ha by lia. apply Htop.
    rewrite last_lookup. rewrite <- Hi. exact Ha.
Qed.

Lemma no_repeat_removelast st : no_repeat st → no_repeat (removelast st).
Proof.
  intros Hst. destruct (last st) as [top|] eqn:E.
  - apply last_Some in E as [st' ->]. rewrite removelast_last.
    intros i a b Ha Hb. apply (Hst i a b); by apply lookup_app_l_Some.
  - apply last_None in E as ->. done.
Qed.

Section VarZoom.
Variable B : Browser.
Variable compounds : list string.
Variable xOptions : list (string * VarAxis.Accessor).
Variable yOptions : list (string * VarAxis.Accessor).
Variable dataXDefault0 : VarAxis.Accessor.
Variable dataYDefault0 : VarAxis.Accessor.
Variable UTCoffset : Q.
Variable xZoomLimit : Q.
Variable JSONFiles : string -> option (list Raw).

Import VarAxis.

Local Abbreviation handle :=
  (VarAxis.handle B compounds xOptions yOptions dataXDefault0 UTCoffset xZoomLimit JSONFiles).
Local Abbreviation step :=
  (VarAxis.step B compounds xOptions yOptions dataXDefault0 UTCoffset xZoomLimit JSONFiles).
Local Abbreviation reachable :=
  (VarAxis.reachable B compounds xOptions yOptions dataXDefault0 dataYDefault0 UTCoffset
                     xZoomLimit JSONFiles).
Local Abbreviation initial :=
  (VarAxis.initial compounds xOptions yOptions dataXDefault0 dataYDefault0).
Local Abbreviation render_then := (VarAxis.render_then B xOptions yOptions dataXDefault0 UTCoffset).
Local Abbreviation createScales := (VarAxis.createScales B xOptions yOptions).
Local Abbreviation fresh_history := (VarAxis.fresh_history compounds xOptions yOptions).

(** ** What [initVars] leaves in the history *)

Lemma fresh_sub_cases (ys : list string) (x : string) (sub : gmap string (list Limits)) key st :
  foldl (fun sub' yOpt => <[joinXYStrings (Some x) (Some yOpt) := []]> sub') sub ys !! key
  = Some st →
  st = [] ∨ sub !! key = Some st.
Proof.
  revert sub. induction ys as [|y ys IH]; intros sub; simpl; [auto|].
  intros H. apply IH in H as [?|H]; [auto|].
  destruct (decide (joinXYStrings (Some x) (Some y) = key)) as [<-|Hne].
  - rewrite lookup_insert_eq in H. left. congruence.
  - rewrite lookup_insert_ne in H by done. auto.
Qed.

Lemma fresh_sub_keep (ys : list string) (x : string) (sub : gmap string (list Limits)) key :
  sub !! key = Some [] →
  foldl (fun sub' yOpt => <[joinXYStrings (Some x) (Some yOpt) := []]> sub') sub ys !! key
  = Some [].
Proof.
  revert sub. induction ys as [|y ys IH]; intros sub H; simpl; [done|].
  apply IH. destruct (decide (joinXYStrings (Some x) (Some y) = key)) as [<-|Hne].
  - by rewrite lookup_insert_eq.
  - by rewrite lookup_insert_ne.
Qed.

Lemma fresh_sub_has (ys : list string) (x y : string) (sub : gmap string (list Limits)) :
  y ∈ ys →
  foldl (fun sub' yOpt => <[joinXYStrings (Some x) (Some yOpt) := []]> sub') sub ys
    !! joinXYStrings (Some x) (Some y) = Some [].
Proof.
  revert sub. induction ys as [|y0 ys IH]; intros sub Hy; simpl.
  - by apply elem_of_nil in Hy.
  - apply elem_of_cons in Hy as [->|Hy]; [|by apply IH].
    apply fresh_sub_keep. by rewrite lookup_insert_eq.
Qed.

Lemma fresh_subs_cases (xs ys : list string) (sub : gmap string (list Limits)) key st :
  foldl (fun sub0 xOpt =>
           foldl (fun sub' yOpt => <[joinXYStrings (Some xOpt) (Some yOpt) := []]> sub')
                 sub0 ys) sub xs !! key = Some st →
  st = [] ∨ sub !! key = Some st.
Proof.
  revert sub. induction xs as [|x xs IH]; intros sub; simpl; [auto|].
  intros H. apply IH in H as [?|H]; [auto|]. by apply fresh_sub_cases in H.
Qed.

Lemma fresh_subs_keep (xs ys : list string) (sub : gmap string (list Limits)) key :
  sub !! key = Some [] →
  foldl (fun sub0 xOpt =>
           foldl (fun sub' yOpt => <[joinXYStrings (Some xOpt) (Some yOpt) := []]> sub')
                 sub0 ys) sub xs !! key = Some [].
Proof.
  revert sub. induction xs as [|x xs IH]; intros sub H; simpl; [done|].
  apply IH. by apply fresh_sub_keep.
Qed.

Lemma fresh_subs_has (xs ys : list string) (x y : string) (sub : gmap string (list Limits)) :
  x ∈ xs → y ∈ ys →
  foldl (fun sub0 xOpt =>
           foldl (fun sub' yOpt => <[joinXYStrings (Some xOpt) (Some yOpt) := []]> sub')
                 sub0 ys) sub xs !! joinXYStrings (Some x) (Some y) = Some [].
Proof.
  revert sub. induction xs as [|x0 xs IH]; intros sub Hx Hy; simpl.
  - by apply elem_of_nil in Hx.
  - apply elem_of_cons in Hx as [->|Hx]; [|by apply IH].
    apply fresh_subs_keep. by apply fresh_sub_has.
Qed.

Lemma fresh_history_lookup c :
  fresh_history !! c
  = if decide (c ∈ compounds)
    then Some (foldl (fun sub0 xOpt =>
                 foldl (fun sub' yOpt => <[joinXYStrings (Some xOpt) (Some yOpt) := []]> sub')
                       sub0 (map_keys yOptions)) ∅ (map_keys xOptions))
    else None.
Proof.
  unfold VarAxis.fresh_history.
  set (v := foldl _ ∅ (map_keys xOptions)).
  cut (∀ h : gmap string (gmap string (list Limits)),
         foldl (fun h0 c0 => <[c0 := v]> h0) h compounds !! c
            = if decide (c ∈ compounds) then Some v else h !! c).
  { intros Hc. rewrite Hc. by destruct (decide _). }
  induction compounds as [|c1 cs IH]; intros h.
  - simpl. destruct (decide (c ∈ [])) as [Hin|]; [by apply elem_of_nil in Hin | done].
  - simpl. rewrite IH. destruct (decide (c ∈ cs)) as [Hin|Hn].
    + destruct (decide (c ∈ c1 :: cs)) as [|Hn]; [done|].
      exfalso. apply Hn, elem_of_cons. auto.
    + destruct (decide (c1 = c)) as [->|Hne].
      * rewrite lookup_insert_eq. destruct (decide (c ∈ c :: cs)) as [|Hn']; [done|].
        exfalso. apply Hn', elem_of_cons. auto.
      * rewrite lookup_insert_ne by done.
        destruct (decide (c ∈ c1 :: cs)) as [[->|?]%elem_of_cons|]; done.
Qed.

(** Every stack [initVars] creates is empty, and every configured context
    has one. *)
Lemma fresh_history_stack c sub key st :
  fresh_history !! c = Some sub → sub !! key = Some st → st = [].
Proof.
  rewrite fresh_history_lookup. destruct (decide _); [|done]. intros [= <-].
  intros H. apply fresh_subs_cases in H as [?|H]; [done|]. by rewrite lookup_empty in H.
Qed.

Lemma fresh_history_has c x y :
  c ∈ compounds → x ∈ map_keys xOptions → y ∈ map_keys yOptions →
  ∃ sub, fresh_history !! c = Some sub
         ∧ sub !! joinXYStrings (Some x) (Some y) = Some [].
Proof.
  intros Hc Hx Hy. rewrite fresh_history_lookup, decide_True by done.
  eexists. split; [done|]. by apply fresh_subs_has.
Qed.

Lemma history_ok_fresh : history_ok fresh_history.
Proof.
  intros c sub key st Hc Hk. rewrite (fresh_history_stack c sub key st Hc Hk).
  apply no_repeat_nil.
Qed.

(** ** Writes to one stack *)

Lemma history_ok_with_stack c key st p :
  history_ok (zoomHistory p) → no_repeat st →
  history_ok (zoomHistory (with_stack c key st p)).
Proof.
  intros Hok Hst c' sub key' st'. unfold with_stack. simpl.
  destruct (decide (c = c')) as [->|Hne].
  - rewrite lookup_insert_eq. intros [= <-].
    destruct (decide (key = key')) as [->|Hk].
    + rewrite lookup_insert_eq. by intros [= <-].
    + rewrite lookup_insert_ne by done.
      destruct (zoomHistory p !! c') as [sub0|] eqn:E; simpl.
      * apply (Hok c' sub0 key' st' E).
      * by rewrite lookup_empty.
  - rewrite lookup_insert_ne by done. apply Hok.
Qed.

Lemma createScales_history_ok data a b c d p :
  history_ok (zoomHistory p) →
  history_ok (zoomHistory (out_state (createScales data a b c d p))).
Proof.
  intros Hok. unfold VarAxis.createScales, bind, get. simpl.
  destruct (previousCompound (sel p)) as [c0|]; [|done].
  destruct (zoomHistory p !! c0) as [sub|] eqn:Ec; [|done].
  match goal with |- context [match ?t with inl _ => _ | inr _ => _ end] =>
    destruct t as [e|[[[x0 x1] y0] y1]] end; [done|].
  destruct (processAxis_date _ _ _ _ _) as [e|[lo hi]]; [done|].
  destruct (processAxis_number _ _ _ _ _ _) as [e|[ylo yhi]]; [done|].
  destruct (sub !! _) as [st|] eqn:Ek; [|done].
  assert (no_repeat st) as Hst by (by apply (Hok c0 sub _ st Ec Ek)).
  unfold bind, modify, ret. destruct (last st) as [top|] eqn:El.
  - destruct (areLimitsEqual _ top) eqn:Eq; [done|]. simpl.
    apply history_ok_with_stack; [done|]. apply no_repeat_snoc; [done|].
    intros top' Ht. rewrite El in Ht. by injection Ht as <-.
  - simpl. apply history_ok_with_stack; [done|]. apply no_repeat_snoc; [done|].
    intros top' Ht. by rewrite El in Ht.
Qed.

(** ** Everything else leaves the history alone *)

Lemma keeps_on_sel {A} (m : M Sel A) : keeps_history (on_sel m).
Proof. intros p. unfold on_sel, zoom_in. by destruct (m (sel p)). Qed.

Lemma keeps_bind {A C} (m : M DataSelector A) (k : A → M DataSelector C) :
  keeps_history m → (∀ a, keeps_history (k a)) → keeps_history (bind m k).
Proof.
  intros Hm Hk p. unfold bind. specialize (Hm p).
  destruct (m p) as [a p1|e p1]; simpl in *; [|done].
  by rewrite (Hk a p1).
Qed.

Lemma keeps_gets {A} (f : DataSelector → A) : keeps_history (gets f).
Proof. by intros p. Qed.

Lemma keeps_for_of {A} (xs : list A) (body : A → M DataSelector unit) :
  (∀ x, keeps_history (body x)) → keeps_history (for_of xs body).
Proof.
  intros Hb. induction xs as [|x xs IH]; [by intros p|].
  simpl. apply keeps_bind; auto.
Qed.

Lemma keeps_render c a b c' d : keeps_history (render c a b c' d).
Proof.
  unfold render. apply keeps_bind; [apply keeps_on_sel|]. intros _.
  apply keeps_bind; [by intros p|]. intros _. apply keeps_on_sel.
Qed.

Lemma keeps_updateAxes a b c d : keeps_history (updateAxes a b c d).
Proof.
  unfold updateAxes. apply keeps_bind; [apply keeps_gets|]. intros v.
  apply keeps_bind; [apply keeps_on_sel|]. intros _. apply keeps_render.
Qed.

Lemma keeps_on_change c : keeps_history (on_change c).
Proof.
  unfold on_change. apply keeps_bind; [apply keeps_on_sel|]. intros _.
  apply keeps_bind; [apply keeps_render|]. intros _. apply keeps_on_sel.
Qed.

Lemma render_then_history_ok f raw p :
  history_ok (zoomHistory p) →
  history_ok (zoomHistory (out_state (render_then f raw p))).
Proof.
  intros Hok. unfold VarAxis.render_then.
  set (data := map (convert UTCoffset (map_keys xOptions)) raw).
  pose proof (createScales_history_ok data (f_xMin f) (f_xMax f) (f_yMin f) (f_yMax f) p Hok)
    as Hcs.
  unfold bind at 1. destruct (createScales data _ _ _ _ p) as [lim p1|e p1]; simpl in *;
    [|done].
  unfold bind, modify, get. simpl.
  destruct (shown_points _ _ _ _ _) as [e|shown]; [done|].
  destruct (dataXDefault p1) as [ax|].
  - by rewrite keeps_on_sel.
  - destruct shown; [by rewrite keeps_on_sel | done].
Qed.

Lemma step_history_ok p e :
  history_ok (zoomHistory p) → history_ok (zoomHistory (step p e)).
Proof.
  intros Hok. unfold VarAxis.step.
  destruct e as [c|k|k|x1 x2 y1 y2| | | | | | |d|ds alt|x0 x1 y0 y1|i]; simpl.
  - rewrite (keeps_bind (modify (with_selector c)) (fun _ => on_change c)); [done| |].
    + by intros q.
    + intros _. apply keeps_on_change.
  - unfold on_xSelect.
    rewrite (keeps_bind (modify (with_dataXDefault (option_get xOptions k)))
               (fun _ => bind (gets (fun q => previousCompound (sel q)))
                              (fun pc => render pc JNull JNull JNull JNull))); [done| |].
    + by intros q.
    + intros _. apply keeps_bind; [apply keeps_gets|]. intros pc. apply keeps_render.
  - unfold on_ySelect.
    rewrite (keeps_bind (modify (with_dataYDefault (option_get yOptions k)))
               (fun _ => bind (gets (fun q => previousCompound (sel q)))
                              (fun pc => render pc JNull JNull JNull JNull))); [done| |].
    + by intros q.
    + intros _. apply keeps_bind; [apply keeps_gets|]. intros pc. apply keeps_render.
  - by rewrite keeps_updateAxes.
  - rewrite (keeps_bind (gets selector) (fun v => on_sel (commitSelections v))); [done| |].
    + apply keeps_gets.
    + intros v. apply keeps_on_sel.
  - unfold getJSONfile_commit.
    rewrite (keeps_bind (gets selector) (fun v => on_sel (commitSelections v))); [done| |].
    + apply keeps_gets.
    + intros v. apply keeps_on_sel.
  - rewrite (keeps_bind (gets selector) cleanPlot); [done|apply keeps_gets|].
    intros v. unfold cleanPlot. apply keeps_bind; [apply keeps_on_sel|].
    intros _. apply keeps_render.
  - (* ClearAll *)
    unfold totalRefresh, VarAxis.initVars.
    set (p0 := with_zoomHistory fresh_history (with_selector (default EmptyString (head compounds)) p)).
    assert (keeps_history
      (bind (bind (on_sel (initVars_sets compounds))
                  (fun _ => render (head compounds) JNull JNull JNull JNull))
            (fun _ => bind (modify (with_selector (default EmptyString (head compounds))))
                        (fun _ => bind (gets selector) on_change)))) as Hk.
    { apply keeps_bind.
      - apply keeps_bind; [apply keeps_on_sel|]. intros _. apply keeps_render.
      - intros _. apply keeps_bind; [by intros q|]. intros _.
        apply keeps_bind; [apply keeps_gets|]. intros v. apply keeps_on_change. }
    specialize (Hk p0).
    match goal with |- history_ok (zoomHistory (out_state ?t)) =>
      replace (zoomHistory (out_state t)) with (zoomHistory p0) by (symmetry; exact Hk) end.
    apply history_ok_fresh.
  - by rewrite keeps_updateAxes.
  - (* UndoZoom *)
    unfold VarAxis.undoZoom, bind at 1, get.
    destruct (previousCompound (sel p)) as [c|]; [|done].
    destruct (stack_of p c _) as [st|] eqn:Est; [|done].
    unfold bind, modify.
    set (p1 := with_stack _ _ _ p).
    rewrite (keeps_updateAxes JNull JNull JNull JNull p1).
    apply history_ok_with_stack; [done|]. apply no_repeat_removelast.
    unfold stack_of in Est. destruct (zoomHistory p !! c) as [sub|] eqn:Ec; [|done].
    simpl in Est. by apply (Hok c sub _ st Ec Est).
  - by rewrite keeps_on_sel.
  - unfold dragEnd_select. rewrite keeps_for_of; [done|].
    intros d0. apply keeps_on_sel.
  - unfold dragEnd_zoom.
    rewrite (keeps_bind (gets limits)
               (fun l => match l with
                         | None => throw TypeError
                         | Some lim =>
                             let '(x0', x1') := zoom_range lim xZoomLimit x0 x1 in
                             updateAxes (JDate x0') (JDate x1') (JNum y0) (JNum y1)
                         end)); [done|apply keeps_gets|].
    intros [lim|]; [|by intros q].
    destruct (zoom_range lim xZoomLimit x0 x1). apply keeps_updateAxes.
  - (* FetchDone *)
    unfold fetch_done, bind, gets. destruct (pending p !! i) as [f|]; [|done].
    unfold modify. destruct (f_compound f) as [c|]; [|done].
    destruct (JSONFiles c) as [raw|]; [|done].
    by apply render_then_history_ok.
Qed.

Lemma initial_history_ok : history_ok (zoomHistory initial).
Proof.
  unfold VarAxis.initial, VarAxis.initVars, bind, modify. simpl.
  set (p0 := with_zoomHistory fresh_history _).
  pose proof (keeps_bind (on_sel (initVars_sets compounds))
                (fun _ => render (head compounds) JNull JNull JNull JNull)
                (keeps_on_sel _) (fun _ => keeps_render _ _ _ _ _) p0) as Hk.
  unfold bind in Hk. rewrite Hk. apply history_ok_fresh.
Qed.

Lemma reachable_history_ok p : reachable p → history_ok (zoomHistory p).
Proof.
  intros Hr. induction Hr as [|p e Hr IH Hp].
  - apply initial_history_ok.
  - by apply step_history_ok.
Qed.

End VarZoom.

(** * Zoom and undo in the variable-axis widget *)

Lemma Limits_eta L : mkLimits (xMin L) (xMax L) (yMin L) (yMax L) = L.
Proof. by destruct L. Qed.

Section VarUndo.
Variable B : Browser.
Variable compounds : list string.
Variable xOptions : list (string * VarAxis.Accessor).
Variable yOptions : list (string * VarAxis.Accessor).
Variable dataXDefault0 : VarAxis.Accessor.
Variable dataYDefault0 : VarAxis.Accessor.
Variable UTCoffset : Q.
Variable xZoomLimit : Q.
Variable JSONFiles : string -> option (list Raw).

Import VarAxis.

Local Abbreviation step :=
  (VarAxis.step B compounds xOptions yOptions dataXDefault0 UTCoffset xZoomLimit JSONFiles).
Local Abbreviation render_then := (VarAxis.render_then B xOptions yOptions dataXDefault0 UTCoffset).
Local Abbreviation createScales := (VarAxis.createScales B xOptions yOptions).
Local Abbreviation current_stack := (VarAxis.current_stack xOptions yOptions).
Local Abbreviation zoom_answered :=
  (VarAxis.zoom_answered B compounds xOptions yOptions dataXDefault0 UTCoffset xZoomLimit
                         JSONFiles).
Local Abbreviation undo_answered :=
  (VarAxis.undo_answered B compounds xOptions yOptions dataXDefault0 UTCoffset xZoomLimit
                         JSONFiles).
Local Abbreviation zooms_answered :=
  (VarAxis.zooms_answered B compounds xOptions yOptions dataXDefault0 UTCoffset xZoomLimit
                          JSONFiles).
Local Abbreviation undos_answered :=
  (VarAxis.undos_answered B compounds xOptions yOptions dataXDefault0 UTCoffset xZoomLimit
                          JSONFiles).
Local Abbreviation zooms_distinct :=
  (VarAxis.zooms_distinct B compounds xOptions yOptions dataXDefault0 UTCoffset xZoomLimit
                          JSONFiles).
Local Abbreviation view := (var_view B compounds xOptions yOptions UTCoffset JSONFiles).
Local Abbreviation context_key p :=
  (joinXYStrings (reverseKeyLookup xOptions (dataXDefault p))
                 (reverseKeyLookup yOptions (dataYDefault p))).

(** ** [processAxis] on what it has returned *)

Lemma processAxis_date_stable data attr a b lo hi :
  processAxis_date B data attr a b = inr (lo, hi) →
  processAxis_date B data attr (JDate (Instant lo)) (JDate (Instant hi)) = inr (lo, hi).
Proof. done. Qed.

Lemma processAxis_number_stable data attr a b r lo hi :
  processAxis_number B data attr a b r = inr (lo, hi) →
  processAxis_number B data attr lo hi r = inr (lo, hi).
Proof.
  unfold processAxis_number.
  destruct (attr_numbers B attr data) as [e|ns];
    destruct (falsy b) eqn:Eb; destruct (falsy a) eqn:Ea; try done;
    intros [= <- <-]; rewrite ?Ea, ?Eb;
    repeat match goal with |- context [falsy ?v] => destruct (falsy v) end; done.
Qed.

Lemma one_not_zero : Qeq_bool 1 0 = false.
Proof. done. Qed.

(** With numbers in the data, numeric arguments give numeric bounds. *)
Lemma processAxis_number_numeric data attr y0 y1 lo hi :
  var_extent B data attr →
  processAxis_number B data attr (JNum y0) (JNum y1) 1 = inr (lo, hi) →
  (∃ q, lo = JNum q) ∧ (∃ q, hi = JNum q).
Proof.
  intros (ns & l & h & En & El & Eh). unfold processAxis_number. rewrite En.
  unfold ceil_to, floor_to. rewrite El, Eh, one_not_zero.
  destruct (falsy (JNum y1)), (falsy (JNum y0)); intros [= <- <-]; eauto.
Qed.

(** ** [createScales] in a context that has a stack *)

Lemma createScales_explicit data a b c d p cur sub st :
  previousCompound (sel p) = Some cur →
  zoomHistory p !! cur = Some sub →
  sub !! context_key p = Some st →
  is_nullish a || is_nullish b || is_nullish c || is_nullish d = false →
  createScales data a b c d p
  = match processAxis_date B data (dataXDefault p) a b with
    | inl e => Throw e p
    | inr (lo, hi) =>
        match processAxis_number B data (dataYDefault p) c d 1 with
        | inl e => Throw e p
        | inr (ylo, yhi) =>
            let lim := mkLimits lo hi ylo yhi in
            match last st with
            | Some top =>
                if areLimitsEqual lim top then Ok lim p
                else Ok lim (with_stack cur (context_key p) (st ++ [lim]) p)
            | None => Ok lim (with_stack cur (context_key p) (st ++ [lim]) p)
            end
        end
    end.
Proof.
  intros Hp Hsub Hst Hnn. unfold VarAxis.createScales, bind, get.
  rewrite Hp, Hsub, Hst, Hnn.
  destruct (processAxis_date _ _ _ _ _) as [e|[lo hi]]; [done|].
  destruct (processAxis_number _ _ _ _ _ _) as [e|[ylo yhi]]; [done|].
  simpl. destruct (last st) as [top|]; [|done].
  by destruct (areLimitsEqual _ top).
Qed.

Lemma createScales_peek data p cur sub st top :
  previousCompound (sel p) = Some cur →
  zoomHistory p !! cur = Some sub →
  sub !! context_key p = Some st →
  last st = Some top →
  var_stable B data (dataXDefault p) (dataYDefault p) top →
  createScales data JNull JNull JNull JNull p = Ok top p.
Proof.
  intros Hp Hsub Hst Htop (Hx & Hy & Hr). unfold VarAxis.createScales, bind, get.
  rewrite Hp, Hsub, Hst. simpl. rewrite Htop, Hx, Hy. simpl.
  rewrite Limits_eta, Hr. done.
Qed.

(** ** The answer to the pending request *)

Lemma var_render_then_shape f raw p0 p2 :
  var_good compounds p0 →
  p2 = out_state (render_then f raw p0) →
  let o := createScales (map (convert UTCoffset (map_keys xOptions)) raw)
                        (f_xMin f) (f_xMax f) (f_yMin f) (f_yMax f) p0 in
  var_good compounds p2 ∧ pending p2 = pending p0 ∧ selector p2 = selector p0
  ∧ dataXDefault p2 = dataXDefault p0 ∧ dataYDefault p2 = dataYDefault p0
  ∧ previousCompound (sel p2) = Some (selector p0)
  ∧ zoomHistory p2 = zoomHistory (out_state o)
  ∧ limits p2 = match o with Ok lim _ => Some lim | Throw _ _ => limits p0 end.
Proof.
  intros Hg Hp2 o. unfold VarAxis.render_then in Hp2.
  set (data := map (convert UTCoffset (map_keys xOptions)) raw) in *.
  pose proof (var_createScales_frame B xOptions yOptions data
                (f_xMin f) (f_xMax f) (f_yMin f) (f_yMax f) p0)
    as (Hs & Hv & Hpe & Hl & Hdx & Hdy).
  fold o in Hs, Hv, Hpe, Hl, Hdx, Hdy. unfold bind at 1 in Hp2. fold o in Hp2.
  pose proof (good_previous _ _ _ Hg) as Hprev.
  destruct o as [lim q|e q]; simpl in *.
  2:{ subst p2. split; [unfold var_good; by rewrite Hs, Hv|]. rewrite Hs. done. }
  assert (var_good compounds q) as Hgq by (unfold var_good; by rewrite Hs, Hv).
  unfold bind, modify, get in Hp2. simpl in Hp2.
  assert (∀ m : M Sel unit,
            sel_good compounds (selector q) (out_state (m (sel q))) →
            p2 = out_state (on_sel m (with_limits (Some lim) q)) →
            var_good compounds p2 ∧ pending p2 = pending p0 ∧ selector p2 = selector p0
            ∧ dataXDefault p2 = dataXDefault p0 ∧ dataYDefault p2 = dataYDefault p0
            ∧ previousCompound (sel p2) = Some (selector p0)
            ∧ zoomHistory p2 = zoomHistory q ∧ limits p2 = Some lim) as Hon.
  { intros m Hm ->. unfold on_sel, zoom_in. simpl.
    destruct (m (sel q)) as [[] t'|e t']; simpl in *.
    - repeat (split; [done|]). split; [|done].
      rewrite <- Hv. apply (good_previous _ _ _ Hm).
    - repeat (split; [done|]). split; [|done].
      rewrite <- Hv. apply (good_previous _ _ _ Hm). }
  destruct (shown_points B dataXDefault0 lim (dataYDefault q) data) as [e|shown].
  { subst p2. simpl. split; [exact Hgq|]. repeat (split; [done|]).
    split; [by rewrite Hs|done]. }
  destruct (dataXDefault q) as [ax|] eqn:Ex.
  - eapply Hon; [|exact Hp2]. by apply reclick_good.
  - destruct shown as [|d0 shown].
    + eapply Hon; [|exact Hp2]. by apply reclick_good.
    + subst p2. simpl. split; [exact Hgq|]. repeat (split; [done|]).
      split; [congruence|]. split; [done|]. split; [by rewrite Hs|done].
Qed.

Lemma var_answer_eq raw p1 f :
  JSONFiles (selector p1) = Some raw →
  pending p1 = [f] → f_compound f = Some (selector p1) →
  step p1 (FetchDone 0) = out_state (render_then f raw (with_pending [] p1)).
Proof.
  intros Hraw Hp Hf. unfold VarAxis.step. simpl.
  unfold fetch_done, bind, gets, modify. rewrite Hp. simpl. by rewrite Hf, Hraw.
Qed.

(** ** One zoom, one undo *)

Lemma stack_of_with_stack c key st p :
  stack_of (with_stack c key st p) c key = Some st.
Proof.
  unfold stack_of, with_stack. simpl. rewrite lookup_insert_eq. simpl.
  by rewrite lookup_insert_eq.
Qed.

Lemma stack_of_Some p c key st :
  stack_of p c key = Some st →
  ∃ sub, zoomHistory p !! c = Some sub ∧ sub !! key = Some st.
Proof.
  unfold stack_of. destruct (zoomHistory p !! c) as [sub|]; [|done]. simpl. eauto.
Qed.

Lemma var_zoom_eq p z lim :
  var_good compounds p → pending p = [] → limits p = Some lim →
  ∃ t a b, step p (DragZoom z.1.1.1 z.1.1.2 z.1.2 z.2)
           = with_pending [mkFetch (Some (selector p)) (JDate a) (JDate b)
                                   (JNum z.1.2) (JNum z.2)] (with_sel t p)
           ∧ sel_good compounds (selector p) t.
Proof.
  intros Hg Hpend HL. destruct z as [[[x0 x1] y0] y1]. simpl.
  destruct (zoom_range lim xZoomLimit x0 x1) as [a b] eqn:Ez.
  destruct (var_updateAxes compounds p (JDate a) (JDate b) (JNum y0) (JNum y1) Hg)
    as (t & Hu & Ht).
  exists t, a, b. split; [|done].
  unfold VarAxis.step. simpl. unfold dragEnd_zoom, bind, gets. rewrite HL, Ez.
  unfold bind in Hu. rewrite Hu. simpl. by rewrite Hpend.
Qed.

Lemma var_zoom_step raw st L p z :
  view raw st L p →
  (∃ st0 lim, current_stack p = Some st0
              ∧ current_stack (zoom_answered z p) = Some (st0 ++ [lim])) →
  ∃ lim, view raw (st ++ [lim]) lim (zoom_answered z p).
Proof.
  intros (Hg & Hpend & Hraw & HL & Hst & Hlast & Hall & Hext) (st0 & lim' & Hst0 & Hnew).
  rewrite Hst in Hst0. injection Hst0 as <-.
  destruct (var_zoom_eq p z L Hg Hpend HL) as (t & a & b & Hz & Ht).
  assert (zoom_answered z p = step (step p (DragZoom z.1.1.1 z.1.1.2 z.1.2 z.2)) (FetchDone 0))
    as Hza by (by destruct z as [[[? ?] ?] ?]).
  rewrite Hza in *. rewrite Hz in *. clear Hza Hz.
  set (f := mkFetch (Some (selector p)) (JDate a) (JDate b) (JNum z.1.2) (JNum z.2)) in *.
  set (p1 := with_pending [f] (with_sel t p)) in *.
  rewrite (var_answer_eq raw p1 f) in * by done.
  set (p0 := with_pending [] p1) in *.
  assert (var_good compounds p0) as Hg0 by exact Ht.
  destruct (var_render_then_shape f raw p0 _ Hg0 eq_refl)
    as (Hg2 & Hp2 & Hs2 & Hdx2 & Hdy2 & Hpc2 & Hz2 & Hl2).
  set (p2 := out_state (render_then f raw p0)) in *.
  set (data := map (convert UTCoffset (map_keys xOptions)) raw) in *.
  pose proof (good_previous _ _ _ Hg) as Hprev.
  unfold VarAxis.current_stack in Hst. rewrite Hprev in Hst. simpl in Hst.
  destruct (stack_of_Some _ _ _ _ Hst) as (sub & Hsub & Hkey).
  assert (previousCompound (sel p0) = Some (selector p)) as Hprev0
    by apply (good_previous _ _ _ Ht).
  pose proof (createScales_explicit data (JDate a) (JDate b) (JNum z.1.2) (JNum z.2)
                p0 (selector p) sub st Hprev0 Hsub Hkey eq_refl) as Hcs.
  simpl in Hcs, Hz2, Hl2. rewrite Hcs in Hz2, Hl2. clear Hcs.
  unfold VarAxis.current_stack in Hnew. rewrite Hpc2 in Hnew. simpl in Hnew.
  rewrite Hdx2, Hdy2 in Hnew. unfold stack_of in Hnew. rewrite Hz2 in Hnew.
  assert (∀ q, zoomHistory q = zoomHistory p →
               (zoomHistory q !! selector p ≫= (fun sub0 => sub0 !! context_key p))
               = Some (st ++ [lim']) → False) as Hsame.
  { intros q Hq. rewrite Hq, Hsub. simpl. rewrite Hkey. intros [= Heq].
    apply (f_equal length) in Heq. rewrite length_app in Heq. simpl in Heq. lia. }
  destruct (processAxis_date B data (dataXDefault p) (JDate a) (JDate b))
    as [e|[lo hi]] eqn:Ex; [exfalso; by apply (Hsame p0)|].
  destruct (processAxis_number B data (dataYDefault p) (JNum z.1.2) (JNum z.2) 1)
    as [e|[ylo yhi]] eqn:Ey; [exfalso; by apply (Hsame p0)|].
  set (lim := mkLimits lo hi ylo yhi) in *.
  assert (zoomHistory p2 = zoomHistory (with_stack (selector p) (context_key p) (st ++ [lim]) p0)
          ∧ limits p2 = Some lim) as [Hz2' Hl2'].
  { rewrite Hlast in Hz2, Hl2, Hnew.
    destruct (areLimitsEqual lim L); [exfalso; by apply (Hsame p0)|]. done. }
  exists lim.
  assert (current_stack p2 = Some (st ++ [lim])) as Hcur.
  { unfold VarAxis.current_stack. rewrite Hpc2. simpl. rewrite Hdx2, Hdy2.
    unfold stack_of. rewrite Hz2'. apply stack_of_with_stack. }
  destruct (processAxis_number_numeric data _ _ _ _ _ Hext Ey) as [[q1 Hq1] [q2 Hq2]].
  split; [done|]. split; [by rewrite Hp2|]. split; [by rewrite Hs2|].
  split; [done|]. split; [done|]. split; [apply last_snoc|].
  split; [|by rewrite Hdy2].
  rewrite Hdx2, Hdy2. apply Forall_app. split; [done|]. apply Forall_singleton.
  split; [|split].
  - by apply (processAxis_date_stable data _ (JDate a) (JDate b)).
  - by apply (processAxis_number_stable data _ (JNum z.1.2) (JNum z.2)).
  - unfold areLimitsEqual, lim. simpl. rewrite !Z.eqb_refl, Hq1, Hq2.
    by rewrite !strict_eq_refl_num.
Qed.

Lemma var_undo_step raw st A Bt p :
  view raw (st ++ [A; Bt]) Bt p →
  view raw (st ++ [A]) A (undo_answered p).
Proof.
  intros (Hg & Hpend & Hraw & HL & Hst & Hlast & Hall & Hext).
  pose proof (good_previous _ _ _ Hg) as Hprev.
  unfold VarAxis.current_stack in Hst. rewrite Hprev in Hst. simpl in Hst.
  set (p' := with_stack (selector p) (context_key p) (st ++ [A]) p).
  destruct (var_updateAxes compounds p' JNull JNull JNull JNull Hg) as (t & Hu & Ht).
  set (f := mkFetch (Some (selector p)) JNull JNull JNull JNull).
  set (p1 := with_pending [f] (with_sel t p')).
  assert (step p UndoZoom = p1) as H1.
  { unfold VarAxis.step. simpl. unfold VarAxis.undoZoom, bind at 1, get. rewrite Hprev, Hst.
    unfold bind at 1, modify.
    replace (removelast (st ++ [A; Bt])) with (st ++ [A])
      by (change [A; Bt] with ([A] ++ [Bt]); by rewrite app_assoc, removelast_last).
    fold p'. rewrite Hu. simpl. by rewrite Hpend. }
  unfold VarAxis.undo_answered, VarAxis.run. simpl. rewrite H1.
  rewrite (var_answer_eq raw p1 f) by done.
  set (p0 := with_pending [] p1) in *.
  assert (var_good compounds p0) as Hg0 by exact Ht.
  destruct (var_render_then_shape f raw p0 _ Hg0 eq_refl)
    as (Hg2 & Hp2 & Hs2 & Hdx2 & Hdy2 & Hpc2 & Hz2 & Hl2).
  set (p2 := out_state (render_then f raw p0)) in *.
  set (data := map (convert UTCoffset (map_keys xOptions)) raw) in *.
  assert (previousCompound (sel p0) = Some (selector p)) as Hprev0
    by apply (good_previous _ _ _ Ht).
  assert (stack_of p0 (selector p) (context_key p) = Some (st ++ [A])) as Hst0
    by apply stack_of_with_stack.
  destruct (stack_of_Some _ _ _ _ Hst0) as (sub & Hsub & Hkey).
  apply Forall_app in Hall as [Hall HAB].
  apply Forall_cons in HAB as [HA _].
  pose proof (createScales_peek data p0 (selector p) sub (st ++ [A]) A Hprev0 Hsub Hkey
                (last_snoc _ _) HA) as Hcs.
  simpl in Hcs, Hz2, Hl2. rewrite Hcs in Hz2, Hl2. simpl in Hz2, Hl2.
  split; [done|]. split; [by rewrite Hp2|]. split; [by rewrite Hs2|].
  split; [done|]. split.
  { unfold VarAxis.current_stack. rewrite Hpc2. simpl. rewrite Hdx2, Hdy2.
    unfold stack_of. rewrite Hz2. exact Hst0. }
  split; [apply last_snoc|].
  split; [|by rewrite Hdy2].
  rewrite Hdx2, Hdy2. apply Forall_app. split; [done|]. by apply Forall_singleton.
Qed.

(** ** Any number of them *)

Lemma var_zooms raw zs : ∀ st L0 p,
  view raw st L0 p → zooms_distinct zs p →
  ∃ ls Lc, view raw (st ++ ls) Lc (zooms_answered zs p) ∧ length ls = length zs.
Proof.
  induction zs as [|z zs IH]; intros st L0 p Hv Hd.
  - exists [], L0. by rewrite app_nil_r.
  - destruct Hd as [Hd1 Hd].
    destruct (var_zoom_step raw st L0 p z Hv Hd1) as (lim & Hv1).
    destruct (IH _ _ _ Hv1 Hd) as (ls & Lc & Hvc & Hlen).
    exists (lim :: ls), Lc.
    change (zooms_answered (z :: zs) p) with (zooms_answered zs (zoom_answered z p)).
    split; [|simpl; by rewrite Hlen].
    by rewrite <- app_assoc in Hvc.
Qed.

Lemma var_undos raw ls : ∀ st L0 Lc p,
  last st = Some L0 →
  view raw (st ++ ls) Lc p →
  view raw st L0 (undos_answered (length ls) p).
Proof.
  induction ls as [|X ls IH] using rev_ind; intros st L0 Lc p Hl0 Hv.
  - rewrite app_nil_r in Hv. simpl.
    destruct Hv as (? & ? & ? & HL & ? & Hlast & ?). rewrite Hl0 in Hlast.
    injection Hlast as <-. done.
  - rewrite length_app. simpl. rewrite Nat.add_1_r.
    unfold VarAxis.undos_answered. rewrite Nat.iter_succ_r.
    assert (∃ st' A, st ++ ls = st' ++ [A]) as (st' & A & Hsplit).
    { destruct (last (st ++ ls)) as [A|] eqn:E.
      - apply last_Some in E as [st' ->]. eauto.
      - apply last_None in E. apply app_eq_nil in E as [-> _]. done. }
    assert (Lc = X) as ->.
    { destruct Hv as (_ & _ & _ & _ & _ & Hlast & _).
      rewrite app_assoc, last_snoc in Hlast. congruence. }
    rewrite app_assoc, Hsplit, <- app_assoc in Hv. simpl in Hv.
    apply var_undo_step in Hv. rewrite <- Hsplit in Hv.
    by apply (IH st L0 A).
Qed.

(** [n] distinct zooms followed by [n] undos bring the limits and the
    stack on display back. *)
Lemma var_zooms_undone raw st L0 zs p :
  view raw st L0 p → zooms_distinct zs p →
  let p' := undos_answered (length zs) (zooms_answered zs p) in
  limits p' = Some L0 ∧ current_stack p' = Some st.
Proof.
  intros Hv Hd p'.
  destruct (var_zooms raw zs st L0 p Hv Hd) as (ls & Lc & Hvc & Hlen).
  assert (last st = Some L0) as Hl0 by (by destruct Hv as (_ & _ & _ & _ & _ & ? & _)).
  pose proof (var_undos raw ls st L0 Lc _ Hl0 Hvc) as Hv'.
  subst p'. rewrite <- Hlen.
  destruct Hv' as (_ & _ & _ & ? & ? & _). done.
Qed.

End VarUndo.

(** * The undo button on a stack of at most one entry *)

Section VarUndoLast.
Variable B : Browser.
Variable compounds : list string.
Variable xOptions : list (string * VarAxis.Accessor).
Variable yOptions : list (string * VarAxis.Accessor).
Variable dataXDefault0 : VarAxis.Accessor.
Variable UTCoffset : Q.
Variable xZoomLimit : Q.
Variable JSONFiles : string -> option (list Raw).

Import VarAxis.

Local Abbreviation handle :=
  (VarAxis.handle B compounds xOptions yOptions dataXDefault0 UTCoffset xZoomLimit JSONFiles).
Local Abbreviation step :=
  (VarAxis.step B compounds xOptions yOptions dataXDefault0 UTCoffset xZoomLimit JSONFiles).
Local Abbreviation render_then := (VarAxis.render_then B xOptions yOptions dataXDefault0 UTCoffset).
Local Abbreviation createScales := (VarAxis.createScales B xOptions yOptions).
Local Abbreviation current_stack := (VarAxis.current_stack xOptions yOptions).
Local Abbreviation undo_answered :=
  (VarAxis.undo_answered B compounds xOptions yOptions dataXDefault0 UTCoffset xZoomLimit
                         JSONFiles).
Local Abbreviation view := (var_view B compounds xOptions yOptions UTCoffset JSONFiles).
Local Abbreviation context_key p :=
  (joinXYStrings (reverseKeyLookup xOptions (dataXDefault p))
                 (reverseKeyLookup yOptions (dataYDefault p))).

Lemma createScales_empty data p cur sub :
  previousCompound (sel p) = Some cur →
  zoomHistory p !! cur = Some sub →
  sub !! context_key p = Some [] →
  createScales data JNull JNull JNull JNull p
  = match processAxis_date B data (dataXDefault p) JNull JNull with
    | inl e => Throw e p
    | inr (lo, hi) =>
        match processAxis_number B data (dataYDefault p) JNull JNull 1 with
        | inl e => Throw e p
        | inr (ylo, yhi) =>
            Ok (mkLimits lo hi ylo yhi)
               (with_stack cur (context_key p) [mkLimits lo hi ylo yhi] p)
        end
    end.
Proof.
  intros Hp Hsub Hst. unfold VarAxis.createScales, bind, get.
  rewrite Hp, Hsub, Hst. simpl.
  destruct (processAxis_date _ _ _ _ _) as [e|[lo hi]]; [done|].
  by destruct (processAxis_number _ _ _ _ _ _) as [e|[ylo yhi]].
Qed.

(** The listener pops and asks for a render without limits, whatever the
    height of the stack. *)
Lemma var_undo_handler p st :
  var_good compounds p → current_stack p = Some st →
  ∃ t, handle UndoZoom p
       = Ok tt (with_pending
                  (pending p ++ [mkFetch (Some (selector p)) JNull JNull JNull JNull])
                  (with_sel t (with_stack (selector p) (context_key p) (removelast st) p)))
       ∧ sel_good compounds (selector p) t.
Proof.
  intros Hg Hst.
  pose proof (good_previous _ _ _ Hg) as Hprev.
  unfold VarAxis.current_stack in Hst. rewrite Hprev in Hst. simpl in Hst.
  set (p' := with_stack (selector p) (context_key p) (removelast st) p).
  destruct (var_updateAxes compounds p' JNull JNull JNull JNull Hg) as (t & Hu & Ht).
  exists t. split; [|exact Ht].
  simpl. unfold VarAxis.undoZoom, bind at 1, get. rewrite Hprev, Hst.
  unfold bind at 1, modify. fold p'. exact Hu.
Qed.

(** The last entry is popped: the answer computes the limits from the
    data and puts them on the stack. *)
Lemma var_undo_last raw L0 p lo hi ylo yhi :
  view raw [L0] L0 p →
  processAxis_date B (map (convert UTCoffset (map_keys xOptions)) raw) (dataXDefault p)
                   JNull JNull = inr (lo, hi) →
  processAxis_number B (map (convert UTCoffset (map_keys xOptions)) raw) (dataYDefault p)
                     JNull JNull 1 = inr (ylo, yhi) →
  limits (undo_answered p) = Some (mkLimits lo hi ylo yhi)
  ∧ current_stack (undo_answered p) = Some [mkLimits lo hi ylo yhi].
Proof.
  intros (Hg & Hpend & Hraw & HL & Hst & Hlast & Hall & Hext) Hx Hy.
  destruct (var_undo_handler p [L0] Hg Hst) as (t & Hh & Ht).
  simpl removelast in Hh. rewrite Hpend in Hh. simpl app in Hh.
  set (p' := with_stack (selector p) (context_key p) [] p) in *.
  set (f := mkFetch (Some (selector p)) JNull JNull JNull JNull) in *.
  set (p1 := with_pending [f] (with_sel t p')) in *.
  assert (step p UndoZoom = p1) as H1 by (unfold VarAxis.step; by rewrite Hh).
  unfold VarAxis.undo_answered, VarAxis.run. simpl. rewrite H1.
  rewrite (var_answer_eq B compounds xOptions yOptions dataXDefault0 UTCoffset xZoomLimit
             JSONFiles raw p1 f) by done.
  set (p0 := with_pending [] p1) in *.
  assert (var_good compounds p0) as Hg0 by exact Ht.
  destruct (var_render_then_shape B compounds xOptions yOptions dataXDefault0 UTCoffset
              f raw p0 _ Hg0 eq_refl)
    as (Hg2 & Hp2 & Hs2 & Hdx2 & Hdy2 & Hpc2 & Hz2 & Hl2).
  set (p2 := out_state (render_then f raw p0)) in *.
  set (data := map (convert UTCoffset (map_keys xOptions)) raw) in *.
  assert (previousCompound (sel p0) = Some (selector p)) as Hprev0
    by apply (good_previous _ _ _ Ht).
  assert (stack_of p0 (selector p) (context_key p) = Some []) as Hst0
    by apply stack_of_with_stack.
  destruct (stack_of_Some _ _ _ _ Hst0) as (sub & Hsub & Hkey).
  pose proof (createScales_empty data p0 (selector p) sub Hprev0 Hsub Hkey) as Hcs.
  simpl in Hcs, Hz2, Hl2. rewrite Hx, Hy in Hcs. rewrite Hcs in Hz2, Hl2.
  unfold out_state in Hz2.
  split; [exact Hl2|].
  unfold VarAxis.current_stack. rewrite Hpc2. simpl. rewrite Hdx2, Hdy2.
  unfold stack_of. rewrite Hz2. apply stack_of_with_stack.
Qed.

End VarUndoLast.

(** * The order of the exported entries *)

Lemma ascii_compare_refl (a : ascii) : Ascii.compare a a = Eq.
Proof.
  pose proof (Ascii.compare_antisym a a) as H.
  destruct (Ascii.compare a a); simpl in H; congruence.
Qed.

Lemma string_compare_refl (s : string) : String.compare s s = Eq.
Proof.
  induction s as [|a s IH]; [done|]. simpl. by rewrite ascii_compare_refl.
Qed.

(** Two strings of the same length compare as they do with a common text
    appended. *)
Lemma compare_common_suffix (suffix k1 : string) : ∀ k2,
  String.length k1 = String.length k2 →
  String.compare (k1 +:+ suffix) (k2 +:+ suffix) = String.compare k1 k2.
Proof.
  induction k1 as [|a k1 IH]; intros [|b k2] Hlen; try discriminate.
  - apply string_compare_refl.
  - simpl. destruct (Ascii.compare a b); try done.
    apply IH. simpl in Hlen. congruence.
Qed.

Lemma ltb_entry_string (e1 e2 : string * list string) :
  String.length e1.1 = String.length e2.1 →
  String.ltb (entry_string e1) (entry_string e2) = String.ltb e1.1 e2.1.
Proof.
  intros Hlen. unfold String.ltb, entry_string.
  by rewrite compare_common_suffix.
Qed.

Lemma ltb_of_not_after (k1 k2 : string) :
  k1 ≠ k2 → String.ltb k2 k1 = false → String.ltb k1 k2 = true.
Proof.
  unfold String.ltb. intros Hne. rewrite (String.compare_antisym k2 k1).
  destruct (String.compare k1 k2) eqn:E; simpl; try done.
  by apply String.compare_eq_iff in E.
Qed.

(** ** [sort] *)

Lemma sort_insert_perm e l : sort_insert e l ≡ₚ e :: l.
Proof.
  induction l as [|h t IH]; simpl; [done|].
  destruct (String.ltb _ _); [done|].
  rewrite IH. apply Permutation_swap.
Qed.

Lemma js_sort_perm l : js_sort l ≡ₚ l.
Proof.
  unfold js_sort.
  cut (∀ acc, fold_left (fun acc e => sort_insert e acc) l acc ≡ₚ acc ++ l).
  { intros H. by rewrite H. }
  induction l as [|e l IH]; intros acc; simpl.
  - by rewrite app_nil_r.
  - rewrite IH, sort_insert_perm. simpl. apply Permutation_middle.
Qed.

(** No entry comes after one whose string form is smaller. *)
Local Abbreviation in_order :=
  (fun a b : string * list string =>
     String.ltb (entry_string b) (entry_string a) = false).

Lemma ltb_asym (s t : string) : String.ltb s t = true → String.ltb t s = false.
Proof.
  unfold String.ltb. rewrite (String.compare_antisym t s).
  by destruct (String.compare s t).
Qed.

Lemma sort_insert_HdRel h e t :
  in_order h e → HdRel in_order h t → HdRel in_order h (sort_insert e t).
Proof.
  intros He Ht. destruct t as [|x t]; simpl.
  - by constructor.
  - destruct (String.ltb _ _); constructor; [done|].
    by apply HdRel_inv in Ht.
Qed.

Lemma sort_insert_sorted e l : Sorted in_order l → Sorted in_order (sort_insert e l).
Proof.
  induction 1 as [|h t Hs IH Hh]; simpl.
  - repeat constructor.
  - destruct (String.ltb (entry_string e) (entry_string h)) eqn:E.
    + constructor; [by constructor|]. constructor. by apply ltb_asym.
    + constructor; [exact IH|]. by apply sort_insert_HdRel.
Qed.

Lemma js_sort_sorted l : Sorted in_order (js_sort l).
Proof.
  unfold js_sort.
  cut (∀ acc, Sorted in_order acc →
              Sorted in_order (fold_left (fun acc e => sort_insert e acc) l acc)).
  { intros H. apply H. constructor. }
  induction l as [|e l IH]; intros acc Hacc; simpl; [done|].
  apply IH. by apply sort_insert_sorted.
Qed.

(** ** [Object.fromEntries] and the order of the properties *)

Lemma map_set_fresh {V} k (v : V) m : k ∉ map_keys m → map_set k v m = m ++ [(k, v)].
Proof.
  induction m as [|[k' v'] m IH]; simpl; [done|].
  intros Hk. destruct (decide (k' = k)) as [->|Hne].
  - exfalso. apply Hk. left.
  - rewrite IH; [done|]. intros Hin. apply Hk. by right.
Qed.

Lemma fromEntries_distinct {V} (l : list (string * V)) :
  NoDup (map_keys l) → fromEntries l = l.
Proof.
  unfold fromEntries.
  cut (∀ acc, NoDup (map_keys (acc ++ l)) →
              fold_left (fun o e => map_set e.1 e.2 o) l acc = acc ++ l).
  { intros H Hnd. by apply (H []). }
  induction l as [|[k v] l IH]; intros acc Hnd; simpl.
  - by rewrite app_nil_r.
  - unfold map_keys in *. rewrite fmap_app in Hnd. simpl in Hnd.
    apply NoDup_app in Hnd as (Hacc & Hdisj & Hl).
    rewrite map_set_fresh.
    + rewrite IH; [by rewrite <- app_assoc|].
      rewrite <- app_assoc, fmap_app. simpl.
      apply NoDup_app. split; [done|]. split; [|done]. exact Hdisj.
    + intros Hin. apply (Hdisj k Hin). left.
Qed.

Lemma property_order_plain {V} (o : JSMap V) :
  (∀ k, k ∈ map_keys o → array_index k = None) → property_order o = o.
Proof.
  intros Hno. unfold property_order.
  assert (∀ acc, fold_left (fun acc (e : string * V) =>
                              match array_index e.1 with
                              | Some n => index_insert n e acc
                              | None => acc
                              end) o acc = acc) as ->.
  { induction o as [|[k v] o IH]; intros acc; simpl; [done|].
    rewrite (Hno k) by (simpl; left). apply IH.
    intros k' Hk'. apply Hno. simpl. by right. }
  simpl. induction o as [|[k v] o IH]; [done|].
  rewrite filter_cons. simpl.
  destruct (decide (array_index k = None)) as [_|Hn].
  - f_equal. apply IH. intros k' Hk'. apply Hno. simpl. by right.
  - exfalso. apply Hn, Hno. simpl. left.
Qed.

(** ** Ledgers whose keys have one length *)

Lemma keys_ascending (l : list (string * list string)) :
  NoDup (map_keys l) →
  (∀ e1 e2, e1 ∈ l → e2 ∈ l → String.length e1.1 = String.length e2.1) →
  Sorted in_order l →
  Sorted (fun a b => String.ltb a b = true) (map_keys l).
Proof.
  intros Hnd Hlen Hs. induction Hs as [|a l Hs IH Hh]; simpl.
  - constructor.
  - unfold map_keys in *. simpl in Hnd. apply NoDup_cons in Hnd as [Hna Hnd].
    constructor.
    + apply IH; [done|]. intros e1 e2 H1 H2. apply Hlen; by right.
    + destruct Hh as [|b l Hab]; simpl; constructor.
      apply ltb_of_not_after.
      * intros Heq. apply Hna. rewrite Heq. simpl. left.
      * rewrite <- (ltb_entry_string b a); [exact Hab|].
        apply Hlen; [right; left|left].
Qed.

Lemma export_entries_sorted (ledger : JSMap (list string)) :
  NoDup (map_keys ledger) →
  (∀ k, k ∈ map_keys ledger → array_index k = None) →
  (∀ k1 k2, k1 ∈ map_keys ledger → k2 ∈ map_keys ledger →
            String.length k1 = String.length k2) →
  export_entries ledger = js_sort ledger
  ∧ export_entries ledger ≡ₚ ledger
  ∧ Sorted (fun a b => String.ltb a b = true) (map_keys (export_entries ledger)).
Proof.
  intros Hnd Hidx Hlen.
  pose proof (js_sort_perm ledger) as Hp.
  assert (map_keys (js_sort ledger) ≡ₚ map_keys ledger) as Hpk
    by (unfold map_keys; by rewrite Hp).
  assert (export_entries ledger = js_sort ledger) as He.
  { unfold export_entries. rewrite fromEntries_distinct by (by rewrite Hpk).
    apply property_order_plain. intros k Hk. apply Hidx. by rewrite <- Hpk. }
  rewrite He. split; [done|]. split; [done|].
  apply keys_ascending.
  - by rewrite Hpk.
  - intros e1 e2 H1 H2. apply Hlen; rewrite <- Hpk; unfold map_keys;
      apply list_elem_of_fmap; eauto.
  - apply js_sort_sorted.
Qed.

(** * The clear-all button of the variable-axis widget *)

Section VarRefresh.
Variable compounds : list string.
Variable xOptions : list (string * VarAxis.Accessor).
Variable yOptions : list (string * VarAxis.Accessor).

Import VarAxis.

Lemma commitPrevious_empty cur s a :
  sel_good compounds cur s →
  selectionsByCompound s !! cur = Some a → set_at a s = [] →
  commitPrevious s = Ok tt s.
Proof.
  intros Hg Ha He.
  destruct (good_alias _ _ _ Hg) as (a' & Ha' & Hsd).
  assert (a' = a) as -> by congruence.
  unfold commitPrevious, bind, gets. rewrite (good_previous _ _ _ Hg).
  rewrite (commitSelections_eq cur a a s Hsd Ha), He. reflexivity.
Qed.

Lemma var_totalRefresh_spec c0 rest p :
  compounds = c0 :: rest →
  sel_wf compounds (sel p) →
  ∃ p', totalRefresh compounds xOptions yOptions p = Ok tt p'
        ∧ var_good compounds p'
        ∧ zoomHistory p' = fresh_history compounds xOptions yOptions
        ∧ selectionsByDate (sel p') = []
        ∧ (∀ c a, selectionsByCompound (sel p') !! c = Some a → set_at a (sel p') = []).
Proof.
  intros Hcs Hw.
  destruct (var_initVars_good compounds xOptions yOptions c0 rest p Hcs Hw)
    as (p' & Hi & Hg' & Hsel & Hzh & Hl & He).
  destruct (good_alias _ _ _ Hg') as (a & Ha & Hsd). rewrite Hsel in Ha.
  pose proof (var_change_good compounds p' c0 Hg') as Hch.
  assert (c0 ∈ compounds) as Hc0 by (rewrite Hcs; apply elem_of_cons; auto).
  specialize (Hch Hc0).
  assert (with_selector c0 p' = p') as Hsame by (rewrite <- Hsel; by destruct p').
  rewrite Hsame in Hch.
  unfold totalRefresh. unfold bind at 1. rewrite Hi. unfold bind at 1 2, modify, gets.
  simpl. replace (default EmptyString (head compounds)) with c0 by (by rewrite Hcs).
  rewrite Hsame.
  revert Hch. unfold on_change, bind, on_sel, zoom_in.
  rewrite (commitPrevious_empty (selector p') (sel p') a Hg'
             ltac:(by rewrite Hsel) (He _ _ Ha)).
  simpl. unfold render, bind, on_sel, zoom_in, modify. simpl.
  unfold render_select, modify. rewrite Ha. simpl. intros Hch.
  eexists. split; [reflexivity|]. split; [exact Hch|]. simpl.
  split; [exact Hzh|]. split; [exact Hl|]. exact He.
Qed.

End VarRefresh.

(** * The clear-all button of the fixed-axis widget *)

Section FixedRefresh.
Variable compounds : list string.

Import FixedAxis.

Lemma fixed_totalRefresh_spec c0 rest p :
  compounds = c0 :: rest →
  sel_wf compounds (sel p) →
  ∃ p', totalRefresh compounds p = Ok tt p'
        ∧ fixed_good compounds p'
        ∧ zoomHistory p' = zoomHistory p
        ∧ selectionsByDate (sel p') = []
        ∧ (∀ c a, selectionsByCompound (sel p') !! c = Some a → set_at a (sel p') = []).
Proof.
  intros Hcs Hw.
  destruct (fixed_initVars_good compounds c0 rest p Hcs Hw)
    as (p' & Hi & Hg' & Hsel & Hzh & _ & Hl & He).
  destruct (good_alias _ _ _ Hg') as (a & Ha & Hsd). rewrite Hsel in Ha.
  pose proof (fixed_change_good compounds p' c0 Hg') as Hch.
  assert (c0 ∈ compounds) as Hc0 by (rewrite Hcs; apply elem_of_cons; auto).
  specialize (Hch Hc0).
  assert (with_selector c0 p' = p') as Hsame by (rewrite <- Hsel; by destruct p').
  rewrite Hsame in Hch.
  unfold totalRefresh. unfold bind at 1. rewrite Hi. unfold bind at 1 2, modify, gets.
  simpl. replace (default EmptyString (head compounds)) with c0 by (by rewrite Hcs).
  rewrite Hsame.
  revert Hch. unfold on_change, bind, on_sel, zoom_in.
  rewrite (commitPrevious_empty compounds (selector p') (sel p') a Hg'
             ltac:(by rewrite Hsel) (He _ _ Ha)).
  simpl. unfold render, bind, on_sel, zoom_in, modify. simpl.
  unfold render_select, modify. rewrite Ha. simpl. intros Hch.
  eexists. split; [reflexivity|]. split; [exact Hch|]. simpl.
  split; [exact Hzh|]. split; [exact Hl|]. exact He.
Qed.

End FixedRefresh.

(** * The example page at rest *)

Lemma fixed_page_reachable (es : list FixedAxis.Event) :
  Forall (FixedAxis.possible example_compounds) es →
  FixedAxis.reachable example_browser example_compounds example_UTCCorrection
    example_xZoomLimit example_yAxisRound example_files (fixed_run es).
Proof.
  intros Hes. apply fixed_reachable_run; [apply FixedAxis.reach_initial|exact Hes].
Qed.

Lemma var_page_reachable (es : list VarAxis.Event) :
  Forall (VarAxis.possible example_compounds example_xOptions example_yOptions) es →
  VarAxis.reachable example_browser example_compounds example_xOptions example_yOptions
    example_dataXDefault example_dataYDefault example_UTCCorrection example_xZoomLimit
    example_files (var_run es).
Proof.
  intros Hes. apply var_reachable_run; [apply VarAxis.reach_initial|exact Hes].
Qed.

(** After the answer to the first request both pages show ethane over the
    whole extent of its data. *)
Lemma fixed_first_view :
  fixed_view example_browser example_compounds example_UTCCorrection example_yAxisRound
    example_files example_data fixed_full (fixed_run [FixedAxis.FetchDone 0]).
Proof.
  split.
  { apply (fixed_reachable_good example_browser example_compounds example_UTCCorrection
             example_xZoomLimit example_yAxisRound example_files
             "ethane" (tail example_compounds)); [reflexivity|].
    apply fixed_page_reachable. repeat constructor. }
  repeat split; vm_compute; reflexivity.
Qed.

Lemma var_first_view :
  var_view example_browser example_compounds example_xOptions example_yOptions
    example_UTCCorrection example_files example_data [var_full] var_full
    (var_run [VarAxis.FetchDone 0]).
Proof.
  split.
  { apply (var_reachable_good example_browser example_compounds example_xOptions
             example_yOptions example_dataXDefault example_dataYDefault
             example_UTCCorrection example_xZoomLimit example_files
             "ethane" (tail example_compounds)); [reflexivity|].
    apply var_page_reachable. repeat constructor. }
  split; [vm_compute; reflexivity|]. split; [vm_compute; reflexivity|].
  split; [vm_compute; reflexivity|]. split; [vm_compute; reflexivity|].
  split; [vm_compute; reflexivity|]. split.
  - apply Forall_singleton. repeat split; vm_compute; reflexivity.
  - do 3 eexists. repeat split; vm_compute; reflexivity.
Qed.

(** After two shift-drags the variable-axis page shows the second zoom on
    top of the first. *)
Lemma var_second_view :
  var_view example_browser example_compounds example_xOptions example_yOptions
    example_UTCCorrection example_files example_data
    ([var_full] ++ [zoomed_once; zoomed_twice]) zoomed_twice
    (var_run [VarAxis.FetchDone 0;
              VarAxis.DragZoom 1500000000000 1505000000000 100 200;
              VarAxis.FetchDone 0;
              VarAxis.DragZoom 1501000000000 1504000000000 120 180;
              VarAxis.FetchDone 0]).
Proof.
  split.
  { apply (var_reachable_good example_browser example_compounds example_xOptions
             example_yOptions example_dataXDefault example_dataYDefault
             example_UTCCorrection example_xZoomLimit example_files
             "ethane" (tail example_compounds)); [reflexivity|].
    apply var_page_reachable. repeat constructor. }
  split; [vm_compute; reflexivity|]. split; [vm_compute; reflexivity|].
  split; [vm_compute; reflexivity|]. split; [vm_compute; reflexivity|].
  split; [vm_compute; reflexivity|]. split.
  - repeat apply Forall_cons_2; [| | |apply Forall_nil_2];
      repeat split; vm_compute; reflexivity.
  - do 3 eexists. repeat split; vm_compute; reflexivity.
Qed.

(** * Properties of the widgets *)

(** ** Dates of the data points *)

(** C4.  A point whose [date] field holds the epoch seconds [e] is drawn,
    with a UTC offset of [h] hours, at [new Date((e + 3600 * h) * 1000)].
    For epoch 1500000000 and offset -2 that is the instant
    [(1500000000 - 7200) * 1000], and [formatISODate] without salt turns
    it into the key 2017-07-14 00:40. *)
Theorem rendered_date_shifted :
  (∀ (h : Q) (r : Raw) (e : Q),
     fields r !! "date" = Some e →
     getf (convert h ["date"] r) "date" = JDate (TimeClip ((e + 3600 * h) * 1000)))
  ∧ shifted_date example_UTCCorrection (Some 1500000000%Q)
    = Instant ((1500000000 - 7200) * 1000)
  ∧ formatISODate (JDate (Instant ((1500000000 - 7200) * 1000))) None
    = inr "2017-07-14 00:40".
Proof.
  split; [|split; vm_compute; reflexivity].
  intros h r e He. unfold getf, convert. simpl.
  rewrite lookup_insert_eq, He. reflexivity.
Qed.

Lemma rendered_date_shifted_witness :
  getf (convert example_UTCCorrection ["date"] (measurement 1500000000 412 None)) "date"
  = JDate (TimeClip ((1500000000 + 3600 * example_UTCCorrection) * 1000)).
Proof.
  apply (proj1 rendered_date_shifted example_UTCCorrection
               (measurement 1500000000 412 None) 1500000000%Q).
  vm_compute. reflexivity.
Defined.

(** The key of that point is not the one of the day before. *)
Lemma rendered_date_not_the_13th :
  formatISODate (JDate (shifted_date (-2) (Some 1500000000%Q))) None
  ≠ inr "2017-07-13 23:40".
Proof. vm_compute. discriminate. Qed.

(** ** Rounding of the y axis *)



(** ** The least width of a zoom *)

(** C7.  A shift-drag over [xStart, xEnd], inside the limits and narrower
    than the least width [L], asks for the dates
    [new Date(mid - L / 2)] and [new Date(mid + L / 2)] around the middle
    [mid] of the rectangle.  Each of them is less than a millisecond away
    from the bound it was made of, and is that bound when the bound is a
    whole number of milliseconds within the range of dates, so that the
    range then has the width [L] and the centre [mid]. *)
Theorem zoom_floor_width (lim : Limits) (L : Q) (xStart xEnd : Z) :
  xMin lim <= xStart → xEnd <= xMax lim →
  (inject_Z (xEnd - xStart) < L)%Q →
  let mid := ((inject_Z xEnd + inject_Z xStart) / 2)%Q in
  zoom_range lim L xStart xEnd = (TimeClip (mid - L / 2), TimeClip (mid + L / 2))
  ∧ (∀ a b, zoom_range lim L xStart xEnd = (Instant a, Instant b) →
       (Qabs (inject_Z a - (mid - L / 2)) < 1)%Q
       ∧ (Qabs (inject_Z b - (mid + L / 2)) < 1)%Q)
  ∧ (∀ a b, (mid - L / 2 == inject_Z a)%Q → (mid + L / 2 == inject_Z b)%Q →
       Z.abs a <= maxTime → Z.abs b <= maxTime →
       zoom_range lim L xStart xEnd = (Instant a, Instant b)
       ∧ (inject_Z b - inject_Z a == L)%Q
       ∧ ((inject_Z a + inject_Z b) / 2 == mid)%Q).
Proof.
  intros Hlo Hhi Hw mid.
  pose proof (zoom_range_narrow lim L xStart xEnd Hlo Hhi Hw) as Hz.
  fold mid in Hz. split; [exact Hz|]. split.
  - intros a b Hab. rewrite Hz in Hab. injection Hab as Ha Hb.
    split; by apply TimeClip_near.
  - intros a b Ha Hb Hra Hrb. rewrite Hz.
    rewrite (TimeClip_whole _ a Ha Hra), (TimeClip_whole _ b Hb Hrb).
    split; [reflexivity|]. split.
    + rewrite <- Ha, <- Hb. field.
    + rewrite <- Ha, <- Hb. field.
Qed.

Lemma zoom_floor_width_witness :
  zoom_range fixed_full example_xZoomLimit 1500000000000 1500000000002
  = (Instant 1498660800001, Instant 1501339200001)
  ∧ (inject_Z 1501339200001 - inject_Z 1498660800001 == example_xZoomLimit)%Q
  ∧ ((inject_Z 1498660800001 + inject_Z 1501339200001) / 2
     == (inject_Z 1500000000002 + inject_Z 1500000000000) / 2)%Q.
Proof.
  refine (proj2 (proj2 (zoom_floor_width fixed_full example_xZoomLimit
                          1500000000000 1500000000002 _ _ _))
                1498660800001 1501339200001 _ _ _ _).
  - simpl. lia.
  - simpl. lia.
  - reflexivity.
  - reflexivity.
  - reflexivity.
  - vm_compute. discriminate.
  - vm_compute. discriminate.
Defined.

(** A rectangle one millisecond wide on the example page: the range asked
    for has the width [L], but its centre is half a millisecond away from
    the middle of the rectangle.  Around the epoch, where the two bounds
    are truncated in opposite directions, the width is not [L] either. *)
Lemma zoom_floor_off_centre :
  (xMin fixed_full <= 1500000000000 ∧ 1500000000001 <= xMax fixed_full
   ∧ (inject_Z (1500000000001 - 1500000000000) < example_xZoomLimit)%Q
   ∧ zoom_range fixed_full example_xZoomLimit 1500000000000 1500000000001
     = (Instant 1498660800000, Instant 1501339200000)
   ∧ ¬ ((inject_Z 1498660800000 + inject_Z 1501339200000) / 2
        == (inject_Z 1500000000001 + inject_Z 1500000000000) / 2)%Q)
  ∧ (let lim := mkLimits (-100) 100 (JNum 0) (JNum 1) in
     xMin lim <= 0 ∧ 0 <= xMax lim ∧ (inject_Z (0 - 0) < 11)%Q
     ∧ zoom_range lim 11 0 0 = (Instant (-5), Instant 5)
     ∧ ¬ (inject_Z 5 - inject_Z (-5) == 11)%Q).
Proof.
  split.
  - split; [simpl; lia|]. split; [simpl; lia|]. split; [reflexivity|].
    split; [vm_compute; reflexivity|]. vm_compute. discriminate.
  - simpl. split; [lia|]. split; [lia|]. split; [reflexivity|].
    split; [vm_compute; reflexivity|]. vm_compute. discriminate.
Qed.

(** ** Committing and clearing selections *)

(** C1.  [commitSelections(c)] returns, and afterwards every date-key of
    the set on display is in the ledger with [c] among its compounds and
    is in the set of [c]; the ledger gains nothing else.  [cleanPlot(c)]
    returns, empties the set of [c] and takes [c], and only [c], out of
    the ledger entries of the date-keys that set held.  Committing ethane
    and then propane with 2020-01-01 00:00 on display leaves both under
    that key, and clearing ethane leaves propane; the same happens on the
    page when the point is clicked under both compounds. *)
Theorem commit_then_clear :
  (∀ (s : Sel) (c : string) (a ca : nat),
     selectedDates s = Some a →
     selectionsByCompound s !! c = Some ca →
     ∃ s', commitSelections c s = Ok tt s'
       ∧ selectionsByCompound s' !! c = Some ca
       ∧ (∀ d, d ∈ set_at a s →
               ledger_has (selectionsByDate s') d c ∧ d ∈ set_at ca s')
       ∧ (∀ d c', ledger_has (selectionsByDate s') d c'
                  ↔ (d ∈ set_at a s ∧ c' = c) ∨ ledger_has (selectionsByDate s) d c'))
  ∧ (∀ (p : FixedAxis.Plot) (c : string) (ca : nat),
       selectionsByCompound (FixedAxis.sel p) !! c = Some ca →
       ∃ p', FixedAxis.cleanPlot c p = Ok tt p'
         ∧ set_at ca (FixedAxis.sel p') = []
         ∧ (∀ d c', ledger_has (selectionsByDate (FixedAxis.sel p')) d c'
                    ↔ ledger_has (selectionsByDate (FixedAxis.sel p)) d c'
                      ∧ ¬ (d ∈ set_at ca (FixedAxis.sel p) ∧ c' = c)))
  ∧ (let s1 := out_state (commitSelections "ethane" uncommitted) in
     let s2 := out_state (commitSelections "propane" s1) in
     let s3 := out_state (cleanPlot_sets "ethane" s2) in
     succeeded (commitSelections "ethane" uncommitted) = true
     ∧ succeeded (commitSelections "propane" s1) = true
     ∧ map_get "2020-01-01 00:00" (selectionsByDate s2) = Some ["ethane"; "propane"]
     ∧ succeeded (cleanPlot_sets "ethane" s2) = true
     ∧ map_get "2020-01-01 00:00" (selectionsByDate s3) = Some ["propane"])
  ∧ (let pt := point_at 1577836800000 None in
     let both := [FixedAxis.FetchDone 0; FixedAxis.Click pt;
                  FixedAxis.SelectCompound "propane"; FixedAxis.FetchDone 0;
                  FixedAxis.Click pt] in
     selectionsByDate (FixedAxis.sel (fixed_run both))
     = [("2020-01-01 00:00", ["ethane"; "propane"])]
     ∧ selectionsByDate
         (FixedAxis.sel (fixed_run (both ++ [FixedAxis.SelectCompound "ethane";
                                             FixedAxis.FetchDone 0; FixedAxis.ClearPlot])))
       = [("2020-01-01 00:00", ["propane"])]).
Proof.
  split; [|split; [|split]].
  - intros s c a ca Ha Hca.
    exists (commit_all c ca (set_at a s) s).
    split; [by apply commitSelections_eq|].
    destruct (commit_all_frame c ca (set_at a s) s) as (Hbc & _).
    split; [by rewrite Hbc|]. split.
    + intros d Hd. split.
      * apply commit_all_ledger. left. by split.
      * apply commit_all_members. by right.
    + intros d c'. apply commit_all_ledger.
  - intros p c ca Hca.
    unfold FixedAxis.cleanPlot, FixedAxis.on_sel, zoom_in, bind.
    rewrite (cleanPlot_sets_eq c ca _ Hca).
    destruct (clean_all_frame c (set_at ca (FixedAxis.sel p)) (FixedAxis.sel p))
      as (Hbc & Hsd & Hpc & Hna & Hheap).
    unfold FixedAxis.render, FixedAxis.on_sel, zoom_in, bind, render_select, render_text,
      modify, gets. simpl.
    rewrite Hbc, Hca. simpl.
    eexists. split; [reflexivity|]. simpl. split.
    + unfold set_at. simpl. by rewrite lookup_insert_eq.
    + intros d c'. apply clean_all_ledger.
  - vm_compute. repeat split; reflexivity.
  - vm_compute. split; reflexivity.
Qed.

Lemma commit_then_clear_witness :
  (∃ s', commitSelections "ethane" uncommitted = Ok tt s'
         ∧ ledger_has (selectionsByDate s') "2020-01-01 00:00" "ethane"
         ∧ "2020-01-01 00:00" ∈ set_at 0 s')
  ∧ (let p := fixed_run [FixedAxis.FetchDone 0;
                         FixedAxis.Click (point_at 1577836800000 None)] in
     ∃ p', FixedAxis.cleanPlot "ethane" p = Ok tt p'
           ∧ set_at 0 (FixedAxis.sel p') = []
           ∧ ¬ ledger_has (selectionsByDate (FixedAxis.sel p')) "2020-01-01 00:00" "ethane").
Proof.
  destruct commit_then_clear as (Hcommit & Hclean & _).
  split.
  - destruct (Hcommit uncommitted "ethane" 0%nat 0%nat) as (s' & Hs' & _ & Hin & _).
    + reflexivity.
    + vm_compute. reflexivity.
    + exists s'. split; [exact Hs'|].
      apply Hin. vm_compute. left.
  - intros p.
    destruct (Hclean p "ethane" 0%nat) as (p' & Hp' & Hempty & Hled).
    + vm_compute. reflexivity.
    + exists p'. split; [exact Hp'|]. split; [exact Hempty|].
      intros Hhas. apply Hled in Hhas as [_ Hnot]. apply Hnot.
      split; [|reflexivity]. vm_compute. left.
Defined.

(** ** Clicks *)

(** C9.  A call of [updateClicked] that takes the adding branch for the
    date-key [d], while [c] is the compound on display and the set on
    display is the set of [c], returns; [d] is then in the set of [c] and
    [c] is in the ledger under [d]. *)
Theorem click_is_committed (s : Sel) (c d : string) (ca : nat)
    (date : JsVal) (salt : option string) (removeOnDupe : bool) :
  formatISODate date salt = inr d →
  previousCompound s = Some c →
  selectionsByCompound s !! c = Some ca →
  selectedDates s = Some ca →
  set_has d (set_at ca s) && removeOnDupe = false →
  ∃ s', updateClicked date salt removeOnDupe s = Ok tt s'
        ∧ selectionsByCompound s' !! c = Some ca
        ∧ d ∈ set_at ca s'
        ∧ ledger_has (selectionsByDate s') d c.
Proof.
  intros Hd Hpc Hca Hsd Hadd.
  rewrite (updateClicked_add_eq date salt d ca removeOnDupe s Hd Hsd Hadd).
  set (s1 := with_set ca (set_add d) s).
  assert (commitPrevious s1 = commitSelections c s1) as ->.
  { unfold commitPrevious, bind, gets. simpl. by rewrite Hpc. }
  assert (d ∈ set_at ca s1) as Hin.
  { unfold s1. rewrite set_at_with_set_eq. apply elem_of_set_add. by left. }
  exists (commit_all c ca (set_at ca s1) s1).
  split; [by apply commitSelections_eq|].
  destruct (commit_all_frame c ca (set_at ca s1) s1) as (Hbc & _).
  split; [by rewrite Hbc|]. split.
  - apply commit_all_members. by right.
  - apply commit_all_ledger. left. by split.
Qed.

Lemma click_is_committed_witness :
  ∃ s', updateClicked (JDate (Instant 1577836800000)) None true
          (FixedAxis.sel (fixed_run [FixedAxis.FetchDone 0])) = Ok tt s'
        ∧ selectionsByCompound s' !! "ethane" = Some 0%nat
        ∧ "2020-01-01 00:00" ∈ set_at 0 s'
        ∧ ledger_has (selectionsByDate s') "2020-01-01 00:00" "ethane".
Proof.
  apply (click_is_committed (FixedAxis.sel (fixed_run [FixedAxis.FetchDone 0]))
           "ethane" "2020-01-01 00:00" 0%nat (JDate (Instant 1577836800000)) None true);
    vm_compute; reflexivity.
Defined.

(** C10.  When the set on display holds the date-key of the clicked point
    and every date-key of that set has an entry in the ledger, the lookup
    of the removing branch of [updateClicked] finds a set, and the call
    goes on to the closing commit.  Every state the fixed-axis page
    reaches is such a state, and there the call returns. *)
Theorem removal_lookup_defined :
  (∀ (s : Sel) (a : nat) (date : JsVal) (salt : option string) (key : string),
     formatISODate date salt = inr key →
     selectedDates s = Some a →
     key ∈ set_at a s →
     (∀ d, d ∈ set_at a s → is_Some (map_get d (selectionsByDate s))) →
     ∃ cs, map_get key (selectionsByDate s) = Some cs
       ∧ updateClicked date salt true s
         = commitPrevious
             (with_ledger (match previousCompound s with
                           | Some c => ledger_drop c key
                           | None => fun m => if decide (length cs = 0%nat)
                                              then map_delete key m
                                              else map_set key cs m
                           end)
                          (with_set a (set_delete key) s)))
  ∧ (∀ (B : Browser) (compounds : list string) (UTCoffset xZoomLimit yRound : Q)
       (JSONFiles : string → option (list Raw)) (c0 : string) (rest : list string)
       (p : FixedAxis.Plot) (date : JsVal) (salt : option string) (key : string),
       compounds = c0 :: rest →
       FixedAxis.reachable B compounds UTCoffset xZoomLimit yRound JSONFiles p →
       formatISODate date salt = inr key →
       (∃ a, selectedDates (FixedAxis.sel p) = Some a
             ∧ ∀ d, d ∈ set_at a (FixedAxis.sel p) →
                    is_Some (map_get d (selectionsByDate (FixedAxis.sel p))))
       ∧ ∃ s', updateClicked date salt true (FixedAxis.sel p) = Ok tt s').
Proof.
  split.
  - intros s a date salt key Hkey Hsd Hin Hall.
    destruct (Hall key Hin) as [cs Hcs].
    exists cs. split; [exact Hcs|].
    by apply updateClicked_remove_eq.
  - intros B compounds UTCoffset xZoomLimit yRound JSONFiles c0 rest p date salt key
      Hcs Hreach Hkey.
    pose proof (fixed_reachable_good B compounds UTCoffset xZoomLimit yRound JSONFiles
                  c0 rest p Hcs Hreach) as Hgood.
    split.
    + destruct (good_alias _ _ _ Hgood) as (a & Ha & Hsd).
      exists a. split; [exact Hsd|].
      intros d Hd.
      destruct (good_committed _ _ _ Hgood _ _ _ Ha Hd) as (cs & Hcs' & _).
      by exists cs.
    + exact (proj2 (updateClicked_good compounds _ _ date salt true Hgood) key Hkey).
Qed.

Lemma removal_lookup_defined_witness :
  let s := FixedAxis.sel (fixed_run [FixedAxis.FetchDone 0;
                                     FixedAxis.Click (point_at 1577836800000 None)]) in
  (∃ cs, map_get "2020-01-01 00:00" (selectionsByDate s) = Some cs)
  ∧ ∃ s', updateClicked (JDate (Instant 1577836800000)) None true s = Ok tt s'.
Proof.
  intros s. destruct removal_lookup_defined as [Hlookup Hpage].
  split.
  - destruct (Hlookup s 0%nat (JDate (Instant 1577836800000)) None "2020-01-01 00:00")
      as (cs & Hcs & _).
    + vm_compute. reflexivity.
    + vm_compute. reflexivity.
    + vm_compute. left.
    + intros d Hd. vm_compute in Hd.
      apply elem_of_cons in Hd as [-> | Hd]; [|by apply elem_of_nil in Hd].
      vm_compute. eauto.
    + by exists cs.
  - refine (proj2 (Hpage example_browser example_compounds example_UTCCorrection
                     example_xZoomLimit example_yAxisRound example_files
                     "ethane" _ _ _ None "2020-01-01 00:00" _ _ _)).
    + reflexivity.
    + apply fixed_page_reachable. repeat constructor.
    + vm_compute. reflexivity.
Defined.

(** ** The clear-all button *)

(** C8.  In every state the variable-axis page reaches, the clear-all
    button returns and leaves an empty zoom stack for every configured
    compound and every pair of an x and a y attribute, no other stack, an
    empty ledger and an empty set for every compound.  On the fixed-axis
    page it resets the ledger and the sets in the same way and leaves the
    one zoom history of the plot as it is. *)
Theorem clear_all_resets :
  (∀ (B : Browser) (compounds : list string)
     (xOptions yOptions : list (string * VarAxis.Accessor))
     (dataXDefault0 dataYDefault0 : VarAxis.Accessor) (UTCoffset xZoomLimit : Q)
     (JSONFiles : string → option (list Raw)) (c0 : string) (rest : list string)
     (p : VarAxis.DataSelector),
     compounds = c0 :: rest →
     VarAxis.reachable B compounds xOptions yOptions dataXDefault0 dataYDefault0
                       UTCoffset xZoomLimit JSONFiles p →
     ∃ p', VarAxis.handle B compounds xOptions yOptions dataXDefault0 UTCoffset xZoomLimit
                          JSONFiles VarAxis.ClearAll p = Ok tt p'
       ∧ (∀ c x y, c ∈ compounds → x ∈ map_keys xOptions → y ∈ map_keys yOptions →
            VarAxis.stack_of p' c (VarAxis.joinXYStrings (Some x) (Some y)) = Some [])
       ∧ (∀ c key st, VarAxis.stack_of p' c key = Some st → st = [])
       ∧ selectionsByDate (VarAxis.sel p') = []
       ∧ (∀ c, c ∈ compounds →
            ∃ a, selectionsByCompound (VarAxis.sel p') !! c = Some a
                 ∧ set_at a (VarAxis.sel p') = []))
  ∧ (∀ (B : Browser) (compounds : list string) (UTCoffset xZoomLimit yRound : Q)
       (JSONFiles : string → option (list Raw)) (c0 : string) (rest : list string)
       (p : FixedAxis.Plot),
       compounds = c0 :: rest →
       FixedAxis.reachable B compounds UTCoffset xZoomLimit yRound JSONFiles p →
       ∃ p', FixedAxis.handle B compounds UTCoffset xZoomLimit yRound JSONFiles
                              FixedAxis.ClearAll p = Ok tt p'
         ∧ FixedAxis.zoomHistory p' = FixedAxis.zoomHistory p
         ∧ selectionsByDate (FixedAxis.sel p') = []
         ∧ (∀ c, c ∈ compounds →
              ∃ a, selectionsByCompound (FixedAxis.sel p') !! c = Some a
                   ∧ set_at a (FixedAxis.sel p') = [])).
Proof.
  split.
  - intros B compounds xOptions yOptions dx dy UTCoffset xZoomLimit JSONFiles c0 rest p
      Hcs Hr.
    pose proof (var_reachable_good B compounds xOptions yOptions dx dy UTCoffset
                  xZoomLimit JSONFiles c0 rest p Hcs Hr) as Hg.
    destruct (var_totalRefresh_spec compounds xOptions yOptions c0 rest p Hcs
                (good_wf _ _ _ Hg)) as (p' & Hp' & Hg' & Hzh & Hl & He).
    exists p'. split; [exact Hp'|]. split; [|split; [|split; [exact Hl|]]].
    + intros c x y Hc Hx Hy. unfold VarAxis.stack_of. rewrite Hzh.
      destruct (fresh_history_has compounds xOptions yOptions c x y Hc Hx Hy)
        as (sub & -> & Hsub).
      exact Hsub.
    + intros c key st. unfold VarAxis.stack_of. rewrite Hzh.
      destruct (VarAxis.fresh_history compounds xOptions yOptions !! c) as [sub|] eqn:Hsub;
        [|discriminate].
      simpl. intros Hst.
      exact (fresh_history_stack compounds xOptions yOptions c sub key st Hsub Hst).
    + intros c Hc.
      destruct (good_configured _ _ _ Hg' c Hc) as [a Ha].
      exists a. split; [exact Ha|]. exact (He c a Ha).
  - intros B compounds UTCoffset xZoomLimit yRound JSONFiles c0 rest p Hcs Hr.
    pose proof (fixed_reachable_good B compounds UTCoffset xZoomLimit yRound JSONFiles
                  c0 rest p Hcs Hr) as Hg.
    destruct (fixed_totalRefresh_spec compounds c0 rest p Hcs (good_wf _ _ _ Hg))
      as (p' & Hp' & Hg' & Hzh & Hl & He).
    exists p'. split; [exact Hp'|]. split; [exact Hzh|]. split; [exact Hl|].
    intros c Hc.
    destruct (good_configured _ _ _ Hg' c Hc) as [a Ha].
    exists a. split; [exact Ha|]. exact (He c a Ha).
Qed.

Lemma clear_all_resets_witness :
  (let zoomed := var_run [VarAxis.FetchDone 0;
                          VarAxis.DragZoom 1500000000000 1505000000000 100 200;
                          VarAxis.FetchDone 0] in
   ∃ p', var_handle VarAxis.ClearAll zoomed = Ok tt p'
         ∧ VarAxis.stack_of p' "ethane" (VarAxis.joinXYStrings (Some "date") (Some "MR"))
           = Some [])
  ∧ (let zoomed := fixed_run [FixedAxis.FetchDone 0;
                              FixedAxis.DragZoom 1500000000000 1505000000000 100 200;
                              FixedAxis.FetchDone 0] in
     ∃ p', fixed_handle FixedAxis.ClearAll zoomed = Ok tt p'
           ∧ FixedAxis.zoomHistory p' = FixedAxis.zoomHistory zoomed
           ∧ selectionsByDate (FixedAxis.sel p') = []).
Proof.
  destruct clear_all_resets as [Hvar Hfixed]. split.
  - intros zoomed. unfold var_handle.
    destruct (Hvar example_browser example_compounds example_xOptions
                example_yOptions example_dataXDefault example_dataYDefault
                example_UTCCorrection example_xZoomLimit example_files
                "ethane" (tail example_compounds) zoomed)
      as (p' & Hp' & Hst & _).
    + reflexivity.
    + apply var_page_reachable. repeat constructor.
    + exists p'. split; [exact Hp'|].
      apply Hst; vm_compute.
      * left.
      * left.
      * do 3 right. left.
  - intros zoomed. unfold fixed_handle.
    destruct (Hfixed example_browser example_compounds example_UTCCorrection
                example_xZoomLimit example_yAxisRound example_files
                "ethane" (tail example_compounds) zoomed)
      as (p' & Hp' & Hh & Hl & _).
    + reflexivity.
    + apply fixed_page_reachable. repeat constructor.
    + exists p'. split; [exact Hp'|]. split; [exact Hh|exact Hl].
Defined.

(** The fixed-axis page after a zoom and the clear-all button: the zoom
    history still holds the limits the zoom has put there. *)
Lemma clear_all_keeps_fixed_history :
  let zoomed := fixed_run [FixedAxis.FetchDone 0;
                           FixedAxis.DragZoom 1500000000000 1505000000000 100 200;
                           FixedAxis.FetchDone 0] in
  FixedAxis.zoomHistory zoomed = [fixed_full]
  ∧ succeeded (fixed_handle FixedAxis.ClearAll zoomed) = true
  ∧ FixedAxis.zoomHistory (out_state (fixed_handle FixedAxis.ClearAll zoomed))
    = [fixed_full]
  ∧ selectionsByDate (FixedAxis.sel (out_state (fixed_handle FixedAxis.ClearAll zoomed)))
    = [].
Proof. vm_compute. repeat split; reflexivity. Qed.

(** ** The zoom history *)




(** ** The undo button *)




(** ** The downloaded file *)

(** C5.  [getJSONfile] writes the entries of the ledger in the order the
    default [sort] of the array of entries gives them, each set as an
    array.  When the keys of the ledger all have one length, as date-keys
    without salt have, the export holds the same entries in ascending
    order of their keys: 2020-01-01 00:00 comes before 2020-02-02 00:00
    whatever the order they were inserted in.  A key with a salt comes out
    before the key it extends: clicking the point of 2017-07-14 00:40
    without salt and the one with the salt 5 gives a ledger whose export
    names the salted key first, although the unsalted key is the lesser
    one. *)
Theorem export_order_of_entries :
  (∀ ledger : list (string * list string),
     NoDup (map_keys ledger) →
     (∀ k, k ∈ map_keys ledger → array_index k = None) →
     (∀ k1 k2, k1 ∈ map_keys ledger → k2 ∈ map_keys ledger →
               String.length k1 = String.length k2) →
     export_entries ledger ≡ₚ ledger
     ∧ Sorted (fun a b => String.ltb a b = true) (map_keys (export_entries ledger)))
  ∧ export_entries [("2020-02-02 00:00", ["ethane"]); ("2020-01-01 00:00", ["propane"])]
    = [("2020-01-01 00:00", ["propane"]); ("2020-02-02 00:00", ["ethane"])]
  ∧ selectionsByDate
      (FixedAxis.sel
         (fixed_run [FixedAxis.FetchDone 0;
                     FixedAxis.Click (point_at 1499992800000 None);
                     FixedAxis.Click (point_at 1499992800000 (Some "5"))]))
    = [("2017-07-14 00:40", ["ethane"]); ("2017-07-14 00:40 5", ["ethane"])]
  ∧ export_entries [("2017-07-14 00:40", ["ethane"]); ("2017-07-14 00:40 5", ["ethane"])]
    = [("2017-07-14 00:40 5", ["ethane"]); ("2017-07-14 00:40", ["ethane"])]
  ∧ String.ltb "2017-07-14 00:40" "2017-07-14 00:40 5" = true.
Proof.
  split; [|vm_compute; repeat split; reflexivity].
  intros ledger Hnd Hidx Hlen.
  destruct (export_entries_sorted ledger Hnd Hidx Hlen) as (_ & Hp & Hs).
  by split.
Qed.

Lemma export_order_of_entries_witness :
  Sorted (fun a b => String.ltb a b = true)
    (map_keys (export_entries [("2020-02-02 00:00", ["ethane"]);
                               ("2020-01-01 00:00", ["propane"])])).
Proof.
  apply (proj1 export_order_of_entries).
  - apply NoDup_cons. split; [|apply NoDup_singleton].
    intros H. apply list_elem_of_singleton in H. discriminate.
  - intros k Hk. simpl in Hk.
    repeat (apply elem_of_cons in Hk as [-> | Hk]); [| |by apply elem_of_nil in Hk];
      vm_compute; reflexivity.
  - intros k1 k2 H1 H2. simpl in H1, H2.
    repeat (apply elem_of_cons in H1 as [-> | H1]); [| |by apply elem_of_nil in H1];
      repeat (apply elem_of_cons in H2 as [-> | H2]);
      try (by apply elem_of_nil in H2); reflexivity.
Defined.

(** * Selections that stay as they are *)

Lemma sel_same_refl s : sel_same s s.
Proof. by repeat split. Qed.

Lemma sel_same_trans s1 s2 s3 : sel_same s1 s2 → sel_same s2 s3 → sel_same s1 s3.
Proof.
  intros (H1 & H2 & H3) (H4 & H5 & H6). split; [congruence|]. split; [congruence|].
  intros a. by rewrite H6, H3.
Qed.

Lemma selected_same s s' c d : sel_same s s' → selected s' c d ↔ selected s c d.
Proof.
  intros (Hl & Hc & Hs). unfold selected. rewrite Hc.
  split; intros (a & Ha & Hd); exists a; split; try done.
  - by rewrite <- Hs.
  - by rewrite Hs.
Qed.

Lemma map_set_same {V} k (v : V) m : map_get k m = Some v → map_set k v m = m.
Proof.
  induction m as [|[k' v'] m IH]; simpl; [done|].
  destruct (decide (k' = k)) as [->|Hne].
  - by intros [= ->].
  - intros H. by rewrite IH.
Qed.

Lemma ledger_put_same c d m : ledger_has m d c → ledger_put c d m = m.
Proof.
  intros (cs & Hget & Hc). unfold ledger_put. rewrite Hget. simpl.
  rewrite Hget. simpl. rewrite set_add_member by done. by apply map_set_same.
Qed.

Lemma commit_step_same c ca d s :
  ledger_has (selectionsByDate s) d c → d ∈ set_at ca s →
  sel_same s (with_set ca (set_add d) (with_ledger (ledger_put c d) s)).
Proof.
  intros Hl Hd. split; [|split].
  - simpl. by apply ledger_put_same.
  - done.
  - intros a. destruct (decide (ca = a)) as [<-|Hne].
    + rewrite set_at_with_set_eq, set_at_with_ledger. by apply set_add_member.
    + by rewrite set_at_with_set_ne, set_at_with_ledger.
Qed.

Lemma commit_all_same_sel c ca ds : ∀ s,
  (∀ d, d ∈ ds → ledger_has (selectionsByDate s) d c ∧ d ∈ set_at ca s) →
  sel_same s (commit_all c ca ds s).
Proof.
  induction ds as [|d ds IH]; intros s Hds; [apply sel_same_refl|].
  rewrite commit_all_cons.
  destruct (Hds d) as [Hl Hd]; [left|].
  pose proof (commit_step_same c ca d s Hl Hd) as Hstep.
  eapply sel_same_trans; [exact Hstep|]. apply IH.
  intros d' Hd'. destruct (Hds d') as [Hl' Hin']; [by right|].
  destruct Hstep as (E1 & _ & E3). rewrite E1, E3. done.
Qed.

Section Same.
Variable compounds : list string.

(** In a state between two events a commit finds everything committed. *)
Lemma commitSelections_same cur s :
  sel_good compounds cur s →
  ∃ s', commitSelections cur s = Ok tt s' ∧ sel_same s s'
        ∧ sel_good compounds cur s'.
Proof.
  intros Hg. pose proof Hg as [Hw Hp (a & Ha & Hs) Hc Hcm].
  destruct (commit_makes_good compounds cur a s) as (s' & Hrun & Hg' & ->); try done.
  { intros c a' d _ Hca Hd. by apply (Hcm c a'). }
  eexists. split; [exact Hrun|]. split; [|exact Hg'].
  apply commit_all_same_sel. intros d Hd. split; [|done]. by apply (Hcm cur a).
Qed.

Lemma commitPrevious_same cur s :
  sel_good compounds cur s →
  ∃ s', commitPrevious s = Ok tt s' ∧ sel_same s s' ∧ sel_good compounds cur s'.
Proof.
  intros Hg. unfold commitPrevious, bind, gets. rewrite (good_previous _ _ _ Hg).
  by apply commitSelections_same.
Qed.

(** [updateClicked] without the removing flag on a key that is selected. *)
Lemma updateClicked_again cur s date salt key a :
  sel_good compounds cur s →
  formatISODate date salt = inr key →
  selectedDates s = Some a → key ∈ set_at a s →
  ∃ s', updateClicked date salt false s = Ok tt s' ∧ sel_same s s'
        ∧ sel_good compounds cur s' ∧ selectedDates s' = Some a.
Proof.
  intros Hg Hkey Hsd Hin.
  pose proof (updateClicked_good compounds cur s date salt false Hg) as [Hg1 Hok].
  destruct (Hok key Hkey) as (s' & Hrun). rewrite Hrun in Hg1. simpl in Hg1.
  exists s'. split; [exact Hrun|].
  rewrite (updateClicked_add_eq date salt key a false s Hkey Hsd) in Hrun
    by apply andb_false_r.
  set (s1 := with_set a (set_add key) s) in *.
  assert (sel_same s s1) as H1.
  { repeat split. intros x. destruct (decide (a = x)) as [<-|Hne].
    - unfold s1. rewrite set_at_with_set_eq. by apply set_add_member.
    - unfold s1. by rewrite set_at_with_set_ne. }
  assert (sel_good compounds cur s1) as Hg2.
  { destruct Hg as [Hw Hp (a0 & Ha0 & Hs0) Hc Hcm]. destruct H1 as (E1 & E2 & E3).
    split; simpl; auto.
    - destruct Hw. split; auto.
    - eauto.
    - intros c a' d Hca Hd. rewrite E3 in Hd. by apply (Hcm c a'). }
  destruct (commitPrevious_same cur s1 Hg2) as (s2 & Hrun2 & H2 & Hg3).
  rewrite Hrun2 in Hrun. injection Hrun as <-.
  split; [by eapply sel_same_trans|]. split; [done|].
  destruct (good_alias _ _ _ Hg3) as (a3 & Ha3 & Hs3).
  destruct (good_alias _ _ _ Hg) as (a0 & Ha0 & Hs0).
  destruct H1 as (_ & E2 & _). destruct H2 as (_ & E2' & _).
  rewrite E2', E2, Ha0 in Ha3. congruence.
Qed.

(** The points [render] finds selected are clicked again: nothing changes. *)
Lemma reclick_same cur s kd ks shown :
  sel_good compounds cur s →
  sel_same s (out_state (reclick kd ks kd shown s)).
Proof.
  intros Hg. unfold reclick. destruct shown as [|d0 shown0]; [apply sel_same_refl|].
  unfold bind, gets. destruct (good_alias _ _ _ Hg) as (a & Ha & Hs). rewrite Hs.
  set (members := set_at a s).
  set (test := fix test (ds : list Point) : JSError + list Point :=
         match ds with
         | [] => inr []
         | d :: rest =>
             match formatISODate (kd d) (ks d) with
             | inl e => inl e
             | inr k =>
                 match test rest with
                 | inl e => inl e
                 | inr keep => inr (if set_has k members then d :: keep else keep)
                 end
             end
         end).
  assert (∀ ds keep, test ds = inr keep →
            Forall (fun d => ∃ k, formatISODate (kd d) (ks d) = inr k ∧ k ∈ members) keep)
    as Htest.
  { induction ds as [|d ds IH]; intros keep; simpl.
    - intros [= <-]. constructor.
    - destruct (formatISODate (kd d) (ks d)) as [e|k] eqn:Ek; [done|].
      destruct (test ds) as [e|keep0]; [done|]. intros [= <-].
      destruct (set_has k members) eqn:Eh; [|by apply IH].
      constructor; [|by apply IH]. exists k. split; [done|]. by apply set_has_true. }
  cut (sel_same s (out_state
         (match test (d0 :: shown0) with
          | inl e => throw e
          | inr keep => for_of keep (fun d => updateClicked (kd d) (ks d) false)
          end s))); [intros H; exact H|].
  generalize (d0 :: shown0). intros shown.
  destruct (test shown) as [e|keep] eqn:Et; [apply sel_same_refl|].
  specialize (Htest shown keep Et). clear Et.
  assert (∀ t, sel_good compounds cur t → sel_same s t → selectedDates t = Some a →
            sel_same s (out_state (for_of keep
                                     (fun d => updateClicked (kd d) (ks d) false) t)))
    as Hloop.
  { induction Htest as [|d keep (k & Hk & Hin) _ IH]; intros t Hgt Hst Hsd; [done|].
    simpl. unfold bind.
    destruct (updateClicked_again cur t (kd d) (ks d) k a Hgt Hk Hsd)
      as (t' & -> & Htt & Hgt' & Hsd').
    { destruct Hst as (_ & _ & E). rewrite E. exact Hin. }
    apply IH; [done| |done]. by eapply sel_same_trans. }
  apply Hloop; [done|apply sel_same_refl|done].
Qed.

End Same.

(** * The ledger as the inverse of the sets *)

(** ** [Map] entries *)

Lemma map_keys_set {V} k (v : V) m :
  map_keys (map_set k v m)
  = if decide (k ∈ map_keys m) then map_keys m else map_keys m ++ [k].
Proof.
  induction m as [|[k' v'] m IH]; simpl; [done|].
  destruct (decide (k' = k)) as [->|Hne]; simpl.
  - rewrite decide_True by left. done.
  - rewrite IH. destruct (decide (k ∈ map_keys m)) as [Hin|Hnin].
    + rewrite decide_True by (by right). done.
    + rewrite decide_False; [done|].
      intros Hin. apply elem_of_cons in Hin as [->|Hin]; done.
Qed.

Lemma map_keys_set_NoDup {V} k (v : V) m :
  NoDup (map_keys m) → NoDup (map_keys (map_set k v m)).
Proof.
  intros Hnd. rewrite map_keys_set. destruct (decide (k ∈ map_keys m)); [done|].
  apply NoDup_app. split; [done|]. split; [|apply NoDup_singleton].
  intros x Hx Hk. apply list_elem_of_singleton in Hk. by subst.
Qed.

Lemma map_keys_delete_NoDup {V} k (m : JSMap V) :
  NoDup (map_keys m) → NoDup (map_keys (map_delete k m)).
Proof.
  unfold map_delete, map_keys. induction m as [|[k' v'] m IH]; simpl; [done|].
  intros Hnd. apply NoDup_cons in Hnd as [Hk' Hnd]. rewrite filter_cons. simpl.
  destruct (decide (k' ≠ k)); simpl; [|by apply IH].
  apply NoDup_cons. split; [|by apply IH].
  intros Hin. apply Hk'. apply list_elem_of_fmap in Hin as ([k2 v2] & -> & Hin).
  apply list_elem_of_filter in Hin as [_ Hin]. apply list_elem_of_fmap. by exists (k2, v2).
Qed.

Lemma elem_of_map_get {V} d (v : V) m :
  NoDup (map_keys m) → (d, v) ∈ m ↔ map_get d m = Some v.
Proof.
  induction m as [|[k' v'] m IH]; simpl.
  - intros _. split; [intros H; by apply elem_of_nil in H|done].
  - intros Hnd. apply NoDup_cons in Hnd as [Hk' Hnd].
    destruct (decide (k' = d)) as [->|Hne].
    + split.
      * intros Hin. apply elem_of_cons in Hin as [[= ->]|Hin]; [done|].
        exfalso. apply Hk'. apply list_elem_of_fmap. by exists (d, v).
      * intros [= ->]. left.
    + rewrite <- IH by done. split.
      * intros Hin. apply elem_of_cons in Hin as [[= ? ?]|Hin]; [congruence|done].
      * by right.
Qed.

(** ** Tidy ledgers *)

Lemma ledger_tidy_get m d cs :
  ledger_tidy m → map_get d m = Some cs → cs ≠ [] ∧ NoDup cs.
Proof. intros [Hnd Hall] Hget. apply (Hall d). by apply elem_of_map_get. Qed.

Lemma ledger_tidy_intro m :
  NoDup (map_keys m) →
  (∀ d cs, map_get d m = Some cs → cs ≠ [] ∧ NoDup cs) → ledger_tidy m.
Proof. intros Hnd Hall. split; [done|]. intros d cs Hin. apply (Hall d). by apply elem_of_map_get. Qed.

Lemma set_add_NoDup x (s : list string) : NoDup s → NoDup (set_add x s).
Proof.
  intros Hnd. unfold set_add. destruct (decide (x ∈ s)); [done|].
  apply NoDup_app. split; [done|]. split; [|apply NoDup_singleton].
  intros y Hy Hx. apply list_elem_of_singleton in Hx. by subst.
Qed.

Lemma set_add_nonempty x (s : list string) : set_add x s ≠ [].
Proof.
  unfold set_add. destruct (decide (x ∈ s)) as [Hin|_].
  - intros ->. by apply elem_of_nil in Hin.
  - by destruct s.
Qed.

Lemma set_delete_NoDup x (s : list string) : NoDup s → NoDup (set_delete x s).
Proof. apply NoDup_filter. Qed.

Lemma ledger_put_tidy c d m : ledger_tidy m → ledger_tidy (ledger_put c d m).
Proof.
  intros Ht. pose proof Ht as [Hnd _]. apply ledger_tidy_intro.
  - unfold ledger_put. apply map_keys_set_NoDup.
    destruct (map_get d m); [done|]. by apply map_keys_set_NoDup.
  - intros d' cs. destruct (decide (d' = d)) as [->|Hne].
    + rewrite map_get_ledger_put_eq. intros [= <-].
      split; [apply set_add_nonempty|]. apply set_add_NoDup.
      unfold ledger_at. destruct (map_get d m) as [cs0|] eqn:E; simpl; [|constructor].
      by apply (ledger_tidy_get m d cs0).
    + rewrite map_get_ledger_put_ne by done. by apply ledger_tidy_get.
Qed.

Lemma ledger_drop_tidy c d m : ledger_tidy m → ledger_tidy (ledger_drop c d m).
Proof.
  intros Ht. pose proof Ht as [Hnd _]. unfold ledger_drop.
  destruct (map_get d m) as [cs|] eqn:E; [|done].
  destruct (decide (length (set_delete c cs) = 0%nat)) as [Hz|Hnz].
  - apply ledger_tidy_intro; [by apply map_keys_delete_NoDup|].
    intros d' cs'. destruct (decide (d' = d)) as [->|Hne].
    + by rewrite map_get_delete_eq.
    + rewrite map_get_delete_ne by done. by apply ledger_tidy_get.
  - apply ledger_tidy_intro; [by apply map_keys_set_NoDup|].
    intros d' cs'. destruct (decide (d' = d)) as [->|Hne].
    + rewrite map_get_set_eq. intros [= <-]. split.
      * intros Hnil. apply Hnz. by rewrite Hnil.
      * apply set_delete_NoDup. by apply (ledger_tidy_get m d cs).
    + rewrite map_get_set_ne by done. by apply ledger_tidy_get.
Qed.

Lemma ledger_put_all_tidy c ds : ∀ m, ledger_tidy m → ledger_tidy (ledger_put_all c ds m).
Proof.
  induction ds as [|d ds IH]; intros m Ht; [done|].
  simpl. apply IH. by apply ledger_put_tidy.
Qed.

Lemma ledger_drop_all_tidy c ds : ∀ m, ledger_tidy m → ledger_tidy (ledger_drop_all c ds m).
Proof.
  induction ds as [|d ds IH]; intros m Ht; [done|].
  simpl. apply IH. by apply ledger_drop_tidy.
Qed.

Lemma commit_all_ledger_eq c ca ds : ∀ s,
  selectionsByDate (commit_all c ca ds s) = ledger_put_all c ds (selectionsByDate s).
Proof.
  induction ds as [|d ds IH]; intros s; [done|].
  rewrite commit_all_cons, IH. done.
Qed.

Lemma clean_all_ledger_eq c ds : ∀ s,
  selectionsByDate (clean_all c ds s) = ledger_drop_all c ds (selectionsByDate s).
Proof.
  induction ds as [|d ds IH]; intros s; [done|].
  rewrite clean_all_cons, IH. done.
Qed.

Lemma ledger_tidy_nil : ledger_tidy [].
Proof.
  split; [constructor|]. intros d cs H. by apply elem_of_nil in H.
Qed.

(** ** Sets that a commit leaves as they are *)

Lemma commit_all_set_exact c ca ds : ∀ s,
  (∀ d, d ∈ ds → d ∈ set_at ca s) →
  set_at ca (commit_all c ca ds s) = set_at ca s.
Proof.
  induction ds as [|d ds IH]; intros s Hds; [done|].
  rewrite commit_all_cons.
  assert (set_at ca (with_set ca (set_add d) (with_ledger (ledger_put c d) s)) = set_at ca s)
    as Hstep.
  { rewrite set_at_with_set_eq, set_at_with_ledger. apply set_add_member, Hds. left. }
  rewrite IH; [done|]. intros d' Hd'. rewrite Hstep. apply Hds. by right.
Qed.

Lemma sel_tidy_same s s' : sel_same s s' → sel_tidy s → sel_tidy s'.
Proof.
  intros Hsame [Hi Ht]. pose proof Hsame as (El & Ec & Es). split.
  - intros d c Hl. rewrite El in Hl. apply (selected_same s s'); [done|]. by apply Hi.
  - by rewrite El.
Qed.

(** * What a click does *)

Lemma commit_all_app c ca l1 l2 s :
  commit_all c ca (l1 ++ l2) s = commit_all c ca l2 (commit_all c ca l1 s).
Proof. unfold commit_all. apply fold_left_app. Qed.

Section Click.
Variable compounds : list string.

(** [updateClicked] in a state between two events: the key of the clicked
    point leaves the set on display and the compound leaves the ledger
    entry of the key, or both are added; a key that is present stays when
    the removing flag is not set.  Nothing else is written. *)
Lemma updateClicked_effect cur s date salt flag key a :
  sel_good compounds cur s →
  formatISODate date salt = inr key →
  selectionsByCompound s !! cur = Some a →
  ∃ s', updateClicked date salt flag s = Ok tt s'
    ∧ sel_good compounds cur s'
    ∧ selectionsByCompound s' = selectionsByCompound s
    ∧ (∀ x, x ≠ a → set_at x s' = set_at x s)
    ∧ set_at a s' = (if decide (key ∈ set_at a s)
                     then if flag then set_delete key (set_at a s) else set_at a s
                     else set_at a s ++ [key])
    ∧ selectionsByDate s'
      = (if decide (key ∈ set_at a s)
         then if flag then ledger_drop cur key (selectionsByDate s) else selectionsByDate s
         else ledger_put cur key (selectionsByDate s)).
Proof.
  intros Hg Hkey Ha.
  pose proof Hg as [Hw Hp (a0 & Ha0 & Hs) Hc Hcm].
  assert (a0 = a) as -> by congruence.
  pose proof (updateClicked_good compounds cur s date salt flag Hg) as [Hg1 Hok].
  destruct (Hok key Hkey) as (s' & Hrun). rewrite Hrun in Hg1. simpl in Hg1.
  exists s'. split; [exact Hrun|]. split; [exact Hg1|].
  destruct (decide (key ∈ set_at a s)) as [Hin|Hnin]; [destruct flag|].
  - (* removal *)
    destruct (Hcm cur a key Ha Hin) as (cs & Hget & Hcur).
    rewrite (updateClicked_remove_eq date salt key a cs s) in Hrun by done.
    rewrite Hp in Hrun.
    set (s2 := with_ledger (ledger_drop cur key) (with_set a (set_delete key) s)) in *.
    assert (commitPrevious s2 = commitSelections cur s2) as Hcp.
    { unfold commitPrevious, bind, gets. by replace (previousCompound s2) with (Some cur). }
    rewrite Hcp, (commitSelections_eq cur a a s2) in Hrun by done.
    injection Hrun as <-.
    assert (set_at a s2 = set_delete key (set_at a s)) as Eset.
    { unfold s2. by rewrite set_at_with_ledger, set_at_with_set_eq. }
    pose proof (commit_all_same_sel cur a (set_at a s2) s2) as (El & Ec & Es).
    { intros d Hd. split; [|done]. rewrite Eset in Hd.
      apply elem_of_set_delete in Hd as [Hne Hd]. simpl.
      apply ledger_has_drop. split; [by apply (Hcm cur a)|]. by intros [? _]. }
    split; [by rewrite Ec|]. split; [|split].
    + intros x Hx. rewrite Es. unfold s2.
      by rewrite set_at_with_ledger, set_at_with_set_ne.
    + by rewrite Es.
    + by rewrite El.
  - (* present, no removal *)
    destruct (updateClicked_again compounds cur s date salt key a Hg Hkey Hs Hin)
      as (s1 & Hrun1 & (El & Ec & Es) & _).
    rewrite Hrun1 in Hrun. injection Hrun as <-.
    split; [done|]. split; [|split]; auto.
  - (* addition *)
    rewrite (updateClicked_add_eq date salt key a flag s) in Hrun; try done.
    2:{ apply andb_false_iff. left. apply not_true_is_false.
        intros H. by apply set_has_true in H. }
    set (s1 := with_set a (set_add key) s) in *.
    assert (commitPrevious s1 = commitSelections cur s1) as Hcp.
    { unfold commitPrevious, bind, gets. by replace (previousCompound s1) with (Some cur). }
    rewrite Hcp, (commitSelections_eq cur a a s1) in Hrun by done.
    injection Hrun as <-.
    assert (set_at a s1 = set_at a s ++ [key]) as Eset.
    { unfold s1. rewrite set_at_with_set_eq. unfold set_add. by rewrite decide_False. }
    rewrite Eset, commit_all_app.
    pose proof (commit_all_same_sel cur a (set_at a s) s1) as Hsame.
    destruct Hsame as (El & Ec & Es).
    { intros d Hd. split; [by apply (Hcm cur a)|].
      rewrite Eset. apply elem_of_app. by left. }
    set (t := commit_all cur a (set_at a s) s1) in *.
    change (commit_all cur a [key] t)
      with (with_set a (set_add key) (with_ledger (ledger_put cur key) t)).
    split; [simpl; by rewrite Ec|]. split; [|split].
    + intros x Hx. rewrite set_at_with_set_ne, set_at_with_ledger, Es by done.
      unfold s1. by rewrite set_at_with_set_ne.
    + rewrite set_at_with_set_eq, set_at_with_ledger, Es, Eset.
      apply set_add_member. apply elem_of_app. right. left.
    + simpl. by rewrite El.
Qed.

(** A click keeps the ledger and the sets indexing each other. *)
Lemma updateClicked_tidy cur s date salt flag :
  sel_good compounds cur s → sel_tidy s →
  sel_tidy (out_state (updateClicked date salt flag s)).
Proof.
  intros Hg [Hi Ht].
  destruct (formatISODate date salt) as [e|key] eqn:Hkey.
  { unfold updateClicked. rewrite Hkey. by split. }
  destruct (good_alias _ _ _ Hg) as (a & Ha & Hs).
  destruct (updateClicked_effect cur s date salt flag key a Hg Hkey Ha)
    as (s' & -> & Hg' & Ec & Eo & Ea & El).
  simpl. split.
  - intros d c Hl. rewrite El in Hl. unfold selected. rewrite Ec.
    assert (∀ d0 c0, selected s c0 d0 → ¬ (d0 = key ∧ c0 = cur) ∨ flag = false →
                     key ∈ set_at a s →
                     ∃ a0, selectionsByCompound s !! c0 = Some a0 ∧ d0 ∈ set_at a0 s')
      as Hkeep.
    { intros d0 c0 (a0 & Ha0 & Hd0) Hnot Hin.
      exists a0. split; [done|]. destruct (decide (a0 = a)) as [->|Hne].
      - rewrite Ea, decide_True by done.
        assert (c0 = cur) as -> by (eapply (wf_distinct _ _ (good_wf _ _ _ Hg)); eauto).
        destruct flag; [|done].
        apply elem_of_set_delete. split; [|done].
        intros ->. destruct Hnot as [Hnot|]; [by apply Hnot|done].
      - by rewrite Eo. }
    destruct (decide (key ∈ set_at a s)) as [Hin|Hnin]; [destruct flag|].
    + apply ledger_has_drop in Hl as [Hl Hnot]. apply Hkeep; auto.
    + apply Hkeep; auto.
    + apply ledger_has_put in Hl as [[-> ->]|Hl].
      * exists a. split; [done|]. rewrite Ea.
        apply elem_of_app. right. left.
      * destruct (Hi d c Hl) as (a0 & Ha0 & Hd0). exists a0. split; [done|].
        destruct (decide (a0 = a)) as [->|Hne].
        -- rewrite Ea. apply elem_of_app. by left.
        -- by rewrite Eo.
  - rewrite El. destruct (decide (key ∈ set_at a s)); [destruct flag|]; try done.
    + by apply ledger_drop_tidy.
    + by apply ledger_put_tidy.
Qed.

(** So does [cleanPlot], for any compound that has a set. *)
Lemma cleanPlot_sets_tidy cur c s :
  sel_good compounds cur s → sel_tidy s →
  sel_tidy (out_state (cleanPlot_sets c s)).
Proof.
  intros Hg [Hi Ht]. unfold cleanPlot_sets at 1. unfold bind, gets.
  destruct (selectionsByCompound s !! c) as [ca|] eqn:Hca; [|by split].
  fold (bind (gets (set_at ca)) (fun ds => for_of ds (clean_one c) ;;; modify (with_set ca (fun _ => []))) s).
  pose proof (cleanPlot_sets_eq c ca s Hca) as Heq.
  unfold cleanPlot_sets, bind at 1, gets in Heq. rewrite Hca in Heq.
  unfold bind, gets. unfold bind, gets in Heq. rewrite Heq. simpl.
  destruct (clean_all_frame c (set_at ca s) s) as (Ec & Es & Ep & En & Eh).
  split.
  - intros d c' Hl. simpl in Hl. apply clean_all_ledger in Hl as [Hl Hnot].
    destruct (Hi d c' Hl) as (a' & Ha' & Hd'). exists a'. simpl. rewrite Ec.
    split; [done|]. destruct (decide (a' = ca)) as [->|Hne].
    + exfalso. apply Hnot. split; [done|].
      eapply (wf_distinct _ _ (good_wf _ _ _ Hg)); eauto.
    + rewrite set_at_with_set_ne by done. unfold set_at in *. by rewrite Eh.
  - simpl. rewrite clean_all_ledger_eq. by apply ledger_drop_all_tidy.
Qed.

End Click.

(** * The selection of the fixed-axis page from event to event *)

Section FixedFrame.
Variable B : Browser.
Variable compounds : list string.
Variable UTCoffset : Q.
Variable xZoomLimit : Q.
Variable yRound : Q.
Variable JSONFiles : string -> option (list Raw).

Import FixedAxis.

Local Abbreviation handle := (FixedAxis.handle B compounds UTCoffset xZoomLimit yRound JSONFiles).
Local Abbreviation step := (FixedAxis.step B compounds UTCoffset xZoomLimit yRound JSONFiles).
Local Abbreviation reachable := (FixedAxis.reachable B compounds UTCoffset xZoomLimit yRound JSONFiles).
Local Abbreviation render_then := (FixedAxis.render_then B UTCoffset yRound).
Local Abbreviation good := (fixed_good compounds).

Lemma fixed_commit_same p :
  good p →
  ∃ t, on_sel (commitSelections (selector p)) p = Ok tt (with_sel t p)
       ∧ sel_same (sel p) t ∧ sel_good compounds (selector p) t.
Proof.
  intros Hg. destruct (commitSelections_same compounds _ _ Hg) as (t & Ht & Hs & Hgt).
  exists t. split; [|done]. unfold on_sel, zoom_in. by rewrite Ht.
Qed.

Lemma fixed_updateAxes_same p a b c d :
  good p →
  ∃ t, updateAxes a b c d p
       = Ok tt (with_pending (pending p ++ [mkFetch (Some (selector p)) a b c d])
                             (with_sel t p))
       ∧ sel_same (sel p) t ∧ sel_good compounds (selector p) t.
Proof.
  intros Hg. destruct (fixed_commit_same p Hg) as (t & Ht & Hs & Hgt).
  exists t. split; [|done].
  unfold updateAxes, bind, gets. rewrite Ht.
  by rewrite (fixed_render compounds (with_sel t p)).
Qed.

Lemma fixed_render_then_same p f raw :
  good p → sel_same (sel p) (sel (out_state (render_then f raw p))).
Proof.
  intros Hg. unfold FixedAxis.render_then.
  destruct (createScales _ _ _ _ _ _ _) as [e|lim]; [apply sel_same_refl|].
  unfold bind, modify. simpl.
  pose proof (reclick_same compounds (selector p) (sel p)
    (fun d => getf d "date") psalt
    (filter (fun d => inside B lim (getf d "date") (getf d "value"))
            (map (convert UTCoffset ["date"]) raw)) Hg) as Hr.
  unfold on_sel, zoom_in. simpl.
  match goal with |- context [reclick ?a ?b ?c ?d ?e] =>
    destruct (reclick a b c d e) end; exact Hr.
Qed.

Lemma fixed_change_same p c :
  good p → c ∈ compounds →
  sel_same (sel p) (sel (out_state (on_change c (with_selector c p)))).
Proof.
  intros Hg Hc. unfold fixed_good in Hg.
  destruct (commitPrevious_same compounds _ _ Hg) as (t & Ht & Hs & Hgt).
  destruct (switch_good compounds _ c t Hgt Hc) as (a & Ha & Hsw).
  unfold on_change, bind, on_sel, zoom_in. simpl. rewrite Ht. simpl.
  unfold render, bind, on_sel, zoom_in, modify. simpl.
  unfold render_select, modify. rewrite Ha. simpl. exact Hs.
Qed.

(** Only clicks, drags over points and the clear buttons change what is
    selected. *)
Lemma fixed_step_same p e :
  good p → possible compounds e → fixed_selecting e = false →
  sel_same (sel p) (sel (step p e)).
Proof.
  intros Hg Hposs Hsel. unfold FixedAxis.step.
  destruct e as [c|x1 x2 y1 y2| | | | | | |d|ds alt|x0 x1 y0 y1|i]; simpl; try done.
  - unfold bind, modify. by apply fixed_change_same.
  - destruct (fixed_updateAxes_same p (JStr x1) (JStr x2) (JStr y1) (JStr y2) Hg)
      as (t & -> & Hs & _). done.
  - unfold bind, gets. destruct (fixed_commit_same p Hg) as (t & -> & Hs & _). done.
  - unfold getJSONfile_commit, bind, gets.
    destruct (fixed_commit_same p Hg) as (t & -> & Hs & _). done.
  - destruct (fixed_updateAxes_same p JNull JNull JNull JNull Hg) as (t & -> & Hs & _). done.
  - unfold undoZoom, bind, gets.
    destruct (last (zoomHistory p)) as [old|]; [|apply sel_same_refl].
    unfold modify.
    set (p1 := with_zoomHistory (removelast (zoomHistory p)) p).
    destruct (fixed_updateAxes_same p1 (JDate (Instant (xMin old)))
                (JDate (Instant (xMax old))) (yMin old) (yMax old) Hg)
      as (t & -> & Hs & _).
    done.
  - unfold dragEnd_zoom, bind, gets. destruct (limits p) as [lim|]; [|apply sel_same_refl].
    destruct (zoom_range lim xZoomLimit x0 x1) as [a b]. unfold modify.
    set (p1 := with_zoomHistory (zoomHistory p ++ [lim]) p).
    destruct (fixed_updateAxes_same p1 (JDate a) (JDate b) (JNum y0) (JNum y1) Hg)
      as (t & -> & Hs & _).
    done.
  - unfold fetch_done, bind, gets.
    destruct (pending p !! i) as [f|]; [|apply sel_same_refl].
    unfold modify. destruct (f_compound f) as [c|]; [|apply sel_same_refl].
    destruct (JSONFiles c) as [raw|]; [|apply sel_same_refl].
    by apply (fixed_render_then_same (with_pending _ p)).
Qed.

Lemma sel_tidy_empty s : selectionsByDate s = [] → sel_tidy s.
Proof.
  intros He. split.
  - intros d c (cs & Hget & _). by rewrite He in Hget.
  - rewrite He. apply ledger_tidy_nil.
Qed.

Lemma fixed_step_tidy c0 rest p e :
  compounds = c0 :: rest →
  good p → sel_tidy (sel p) → possible compounds e → sel_tidy (sel (step p e)).
Proof.
  intros Hcs Hg Ht Hposs.
  destruct (fixed_selecting e) eqn:Hsel.
  2:{ eapply sel_tidy_same; [|exact Ht]. by apply fixed_step_same. }
  unfold FixedAxis.step.
  destruct e as [c|x1 x2 y1 y2| | | | | | |d|ds alt|x0 x1 y0 y1|i]; simpl; try done.
  - (* ClearPlot *)
    unfold bind at 1, gets. unfold cleanPlot.
    destruct (cleanPlot_sets_good compounds _ _ Hg) as (t & Hrun & Hgt).
    pose proof (cleanPlot_sets_tidy compounds _ (selector p) (sel p) Hg Ht) as Htt.
    rewrite Hrun in Htt. simpl in Htt.
    unfold bind, on_sel, zoom_in. rewrite Hrun.
    by rewrite (fixed_render compounds (with_sel t p)).
  - (* ClearAll *)
    destruct (fixed_totalRefresh_spec compounds c0 rest p Hcs (good_wf _ _ _ Hg))
      as (p' & -> & _ & _ & Hl & _).
    by apply sel_tidy_empty.
  - (* Click *)
    pose proof (updateClicked_tidy compounds _ (sel p) (getf d "date") (psalt d) true Hg Ht)
      as Htt.
    unfold on_sel, zoom_in. by destruct (updateClicked _ _ _ _).
  - (* DragSelect *)
    unfold dragEnd_select.
    apply (for_of_keeps _ (fun q => good q ∧ sel_tidy (sel q))); [done|].
    intros d q [Hgq Htq]. split; [by apply fixed_click_good|].
    pose proof (updateClicked_tidy compounds _ (sel q) (getf d "date") (psalt d) alt Hgq Htq)
      as Htt.
    unfold on_sel, zoom_in. by destruct (updateClicked _ _ _ _).
Qed.

Lemma fixed_reachable_tidy c0 rest p :
  compounds = c0 :: rest → reachable p → sel_tidy (sel p).
Proof.
  intros Hcs Hr. induction Hr as [|p e Hr IH Hp].
  - unfold initial.
    destruct (fixed_initVars_good compounds c0 rest constructed Hcs)
      as (p' & -> & _ & _ & _ & _ & Hl & _).
    + apply sel_wf_constructed.
    + by apply sel_tidy_empty.
  - apply (fixed_step_tidy c0 rest); try done.
    by apply (fixed_reachable_good B compounds UTCoffset xZoomLimit yRound JSONFiles c0 rest).
Qed.

End FixedFrame.

(** * The selection of the variable-axis page from event to event *)

Section ReclickTidy.
Variable compounds : list string.

Lemma reclick_tidy cur s kd ks cd shown :
  sel_good compounds cur s → sel_tidy s →
  sel_tidy (out_state (reclick kd ks cd shown s)).
Proof.
  intros Hg Ht. unfold reclick. destruct shown as [|d0 shown0]; [done|].
  unfold bind, gets. destruct (good_alias _ _ _ Hg) as (a & Ha & Hs). rewrite Hs.
  match goal with |- context [match ?t with inl _ => _ | inr _ => _ end] =>
    destruct t as [e|keep] end; [done|].
  apply (for_of_keeps _ (fun t => sel_good compounds cur t ∧ sel_tidy t)); [done|].
  intros d t [Hgt Htt]. split.
  - by apply updateClicked_good.
  - by apply (updateClicked_tidy compounds cur).
Qed.

End ReclickTidy.

Section VarFrame.
Variable B : Browser.
Variable compounds : list string.
Variable xOptions : list (string * VarAxis.Accessor).
Variable yOptions : list (string * VarAxis.Accessor).
Variable dataXDefault0 : VarAxis.Accessor.
Variable dataYDefault0 : VarAxis.Accessor.
Variable UTCoffset : Q.
Variable xZoomLimit : Q.
Variable JSONFiles : string -> option (list Raw).

Import VarAxis.

Local Abbreviation step :=
  (VarAxis.step B compounds xOptions yOptions dataXDefault0 UTCoffset xZoomLimit JSONFiles).
Local Abbreviation reachable :=
  (VarAxis.reachable B compounds xOptions yOptions dataXDefault0 dataYDefault0 UTCoffset
                     xZoomLimit JSONFiles).
Local Abbreviation render_then := (VarAxis.render_then B xOptions yOptions dataXDefault0 UTCoffset).
Local Abbreviation createScales := (VarAxis.createScales B xOptions yOptions).
Local Abbreviation good := (var_good compounds).

Lemma var_commit_same p :
  good p →
  ∃ t, on_sel (commitSelections (selector p)) p = Ok tt (with_sel t p)
       ∧ sel_same (sel p) t ∧ sel_good compounds (selector p) t.
Proof.
  intros Hg. destruct (commitSelections_same compounds _ _ Hg) as (t & Ht & Hs & Hgt).
  exists t. split; [|done]. unfold on_sel, zoom_in. by rewrite Ht.
Qed.

Lemma var_updateAxes_same p a b c d :
  good p →
  ∃ t, updateAxes a b c d p
       = Ok tt (with_pending (pending p ++ [mkFetch (Some (selector p)) a b c d])
                             (with_sel t p))
       ∧ sel_same (sel p) t ∧ sel_good compounds (selector p) t.
Proof.
  intros Hg. destruct (var_commit_same p Hg) as (t & Ht & Hs & Hgt).
  exists t. split; [|done].
  unfold updateAxes, bind, gets. rewrite Ht.
  by rewrite (var_render compounds (with_sel t p)).
Qed.

(** The callback of [render]: whatever it clicks again, the ledger and the
    sets go on indexing each other; and with the [date] field on the x
    axis it changes nothing. *)
Lemma var_render_then_sel p f raw :
  good p →
  (sel_tidy (sel p) → sel_tidy (sel (out_state (render_then f raw p))))
  ∧ (x_is_date p → sel_same (sel p) (sel (out_state (render_then f raw p)))).
Proof.
  intros Hg.
  cut (∀ q, q = out_state (render_then f raw p) →
            (sel_tidy (sel p) → sel_tidy (sel q))
            ∧ (x_is_date p → sel_same (sel p) (sel q))).
  { intros H. by apply H. }
  intros q Hq. unfold VarAxis.render_then in Hq.
  set (data := map (convert UTCoffset (map_keys xOptions)) raw) in *.
  pose proof (var_createScales_frame B xOptions yOptions data
                (f_xMin f) (f_xMax f) (f_yMin f) (f_yMax f) p)
    as (Hs & Hv & _ & _ & Hdx & _).
  unfold bind at 1 in Hq.
  destruct (createScales data _ _ _ _ p) as [lim p1|e p1]; simpl in *.
  2:{ subst q. rewrite Hs. split; [done|]. intros _. apply sel_same_refl. }
  assert (good p1) as Hg1 by (unfold var_good; by rewrite Hs, Hv).
  unfold bind, modify, get in Hq. simpl in Hq.
  destruct (shown_points B dataXDefault0 lim (dataYDefault p1) data) as [e|shown].
  { subst q. simpl. rewrite Hs. split; [done|]. intros _. apply sel_same_refl. }
  destruct (dataXDefault p1) as [ax|] eqn:Ex.
  - unfold on_sel, zoom_in in Hq. simpl in Hq.
    pose proof (reclick_tidy compounds (selector p1) (sel p1)
                  (fun d => getf d (acc_field ax)) (fun _ => None)
                  (fun d => getf d "date") shown Hg1) as Hrt.
    split.
    + intros Ht. rewrite <- Hs in Ht. specialize (Hrt Ht). subst q.
      destruct (reclick _ _ _ _ _); simpl in *; exact Hrt.
    + intros (a & Ha & Hf). rewrite <- Hdx in Ha. injection Ha as <-.
      rewrite Hf in Hq.
      pose proof (reclick_same compounds (selector p1) (sel p1)
                    (fun d => getf d "date") (fun _ => None) shown Hg1) as Hr.
      clear Hrt. subst q. rewrite <- Hs.
      destruct (reclick _ _ _ _ _); simpl in *; exact Hr.
  - destruct shown as [|d0 shown].
    + subst q. simpl. rewrite Hs. split; [done|]. intros _. apply sel_same_refl.
    + subst q. simpl. rewrite Hs. split; [done|]. intros _. apply sel_same_refl.
Qed.

Lemma var_change_same p c :
  good p → c ∈ compounds →
  sel_same (sel p) (sel (out_state (on_change c (with_selector c p)))).
Proof.
  intros Hg Hc. unfold var_good in Hg.
  destruct (commitPrevious_same compounds _ _ Hg) as (t & Ht & Hs & Hgt).
  destruct (switch_good compounds _ c t Hgt Hc) as (a & Ha & Hsw).
  unfold on_change, bind, on_sel, zoom_in. simpl. rewrite Ht. simpl.
  unfold render, bind, on_sel, zoom_in, modify. simpl.
  unfold render_select, modify. rewrite Ha. simpl. exact Hs.
Qed.

(** Every event but a click, a drag over points, a clear button and the
    arrival of an answer leaves the selection as it is; so does an answer
    when the x axis shows the [date] field. *)
Lemma var_step_same p e :
  good p → possible compounds xOptions yOptions e → var_selecting e = false →
  (∀ i, e = FetchDone i → x_is_date p) →
  sel_same (sel p) (sel (step p e)).
Proof.
  intros Hg Hposs Hsel Hdate. unfold VarAxis.step.
  destruct e as [c|k|k|x1 x2 y1 y2| | | | | | |d|ds alt|x0 x1 y0 y1|i]; simpl; try done.
  - unfold bind, modify. by apply var_change_same.
  - unfold on_xSelect, bind, modify, gets. simpl.
    rewrite (good_previous _ _ _ Hg).
    set (p1 := with_dataXDefault _ p). rewrite (var_render compounds p1) by done.
    apply sel_same_refl.
  - unfold on_ySelect, bind, modify, gets. simpl.
    rewrite (good_previous _ _ _ Hg).
    set (p1 := with_dataYDefault _ p). rewrite (var_render compounds p1) by done.
    apply sel_same_refl.
  - destruct (var_updateAxes_same p (JStr x1) (JStr x2) (JStr y1) (JStr y2) Hg)
      as (t & -> & Hs & _). done.
  - unfold bind, gets. destruct (var_commit_same p Hg) as (t & -> & Hs & _). done.
  - unfold getJSONfile_commit, bind, gets.
    destruct (var_commit_same p Hg) as (t & -> & Hs & _). done.
  - destruct (var_updateAxes_same p JNull JNull JNull JNull Hg) as (t & -> & Hs & _). done.
  - unfold VarAxis.undoZoom, bind, get.
    destruct (previousCompound (sel p)) as [c|]; [|apply sel_same_refl].
    destruct (stack_of p c _) as [st|]; [|apply sel_same_refl].
    unfold modify.
    set (p1 := with_stack _ _ _ p).
    destruct (var_updateAxes_same p1 JNull JNull JNull JNull Hg) as (t & -> & Hs & _).
    done.
  - unfold dragEnd_zoom, bind, gets. destruct (limits p) as [lim|]; [|apply sel_same_refl].
    destruct (zoom_range lim xZoomLimit x0 x1) as [a b].
    destruct (var_updateAxes_same p (JDate a) (JDate b) (JNum y0) (JNum y1) Hg)
      as (t & -> & Hs & _).
    done.
  - unfold fetch_done, bind, gets.
    destruct (pending p !! i) as [f|]; [|apply sel_same_refl].
    unfold modify. destruct (f_compound f) as [c|]; [|apply sel_same_refl].
    destruct (JSONFiles c) as [raw|]; [|apply sel_same_refl].
    apply (var_render_then_sel (with_pending _ p) f raw Hg).
    by apply (Hdate i).
Qed.

Lemma var_step_tidy c0 rest p e :
  compounds = c0 :: rest →
  good p → sel_tidy (sel p) → possible compounds xOptions yOptions e →
  sel_tidy (sel (step p e)).
Proof.
  intros Hcs Hg Ht Hposs.
  destruct e as [c|k|k|x1 x2 y1 y2| | | | | | |d|ds alt|x0 x1 y0 y1|i];
    try (eapply sel_tidy_same; [|exact Ht]; by apply var_step_same).
  - (* ClearPlot *)
    unfold VarAxis.step. simpl. unfold bind at 1, gets. unfold cleanPlot.
    destruct (cleanPlot_sets_good compounds _ _ Hg) as (t & Hrun & Hgt).
    pose proof (cleanPlot_sets_tidy compounds _ (selector p) (sel p) Hg Ht) as Htt.
    rewrite Hrun in Htt. simpl in Htt.
    unfold bind, on_sel, zoom_in. rewrite Hrun.
    by rewrite (var_render compounds (with_sel t p)).
  - (* ClearAll *)
    unfold VarAxis.step. simpl.
    destruct (var_totalRefresh_spec compounds xOptions yOptions c0 rest p Hcs
                (good_wf _ _ _ Hg)) as (p' & -> & _ & _ & Hl & _).
    by apply sel_tidy_empty.
  - (* Click *)
    unfold VarAxis.step. simpl.
    pose proof (updateClicked_tidy compounds _ (sel p) (getf d "date") None true Hg Ht)
      as Htt.
    unfold on_sel, zoom_in. by destruct (updateClicked _ _ _ _).
  - (* DragSelect *)
    unfold VarAxis.step. simpl. unfold dragEnd_select.
    apply (for_of_keeps _ (fun q => good q ∧ sel_tidy (sel q))); [done|].
    intros d q [Hgq Htq]. split; [by apply var_click_good|].
    pose proof (updateClicked_tidy compounds _ (sel q) (getf d "date") None alt Hgq Htq)
      as Htt.
    unfold on_sel, zoom_in. by destruct (updateClicked _ _ _ _).
  - (* FetchDone *)
    unfold VarAxis.step. simpl. unfold fetch_done, bind, gets.
    destruct (pending p !! i) as [f|]; [|done].
    unfold modify. destruct (f_compound f) as [c|]; [|done].
    destruct (JSONFiles c) as [raw|]; [|done].
    by apply (var_render_then_sel (with_pending _ p) f raw Hg).
Qed.

Lemma var_reachable_tidy c0 rest p :
  compounds = c0 :: rest → reachable p → sel_tidy (sel p).
Proof.
  intros Hcs Hr. induction Hr as [|p e Hr IH Hp].
  - unfold VarAxis.initial.
    destruct (var_initVars_good compounds xOptions yOptions c0 rest
                (constructed dataXDefault0 dataYDefault0) Hcs)
      as (p' & -> & _ & _ & _ & Hl & _).
    + apply sel_wf_constructed.
    + by apply sel_tidy_empty.
  - apply (var_step_tidy c0 rest); try done.
    by apply (var_reachable_good B compounds xOptions yOptions dataXDefault0 dataYDefault0
                UTCoffset xZoomLimit JSONFiles c0 rest).
Qed.

End VarFrame.

(** * Two clicks on one point *)

Section ClickTwice.
Variable compounds : list string.

Lemma updateClicked_twice cur s date salt key :
  sel_good compounds cur s → sel_tidy s →
  formatISODate date salt = inr key →
  ∃ s1 s2, updateClicked date salt true s = Ok tt s1
    ∧ updateClicked date salt true s1 = Ok tt s2
    ∧ selectionsByCompound s2 = selectionsByCompound s
    ∧ (∀ x k, k ∈ set_at x s2 ↔ k ∈ set_at x s)
    ∧ (∀ k c, ledger_has (selectionsByDate s2) k c ↔ ledger_has (selectionsByDate s) k c).
Proof.
  intros Hg [Hi _] Hkey.
  destruct (good_alias _ _ _ Hg) as (a & Ha & Hs).
  destruct (updateClicked_effect compounds cur s date salt true key a Hg Hkey Ha)
    as (s1 & Hrun1 & Hg1 & Ec1 & Eo1 & Ea1 & El1).
  assert (selectionsByCompound s1 !! cur = Some a) as Ha1 by (by rewrite Ec1).
  destruct (updateClicked_effect compounds cur s1 date salt true key a Hg1 Hkey Ha1)
    as (s2 & Hrun2 & Hg2 & Ec2 & Eo2 & Ea2 & El2).
  exists s1, s2. split; [done|]. split; [done|]. split; [congruence|].
  destruct (decide (key ∈ set_at a s)) as [Hin|Hnin].
  - (* selected: removed, then added *)
    assert (key ∉ set_at a s1) as Hnin1.
    { rewrite Ea1. intros H. apply elem_of_set_delete in H as [H _]. done. }
    destruct (decide (key ∈ set_at a s1)) as [?|_]; [done|].
    destruct (decide (key ∈ set_at a s)) as [_|?]; [|done]. split.
    + intros x k. destruct (decide (x = a)) as [->|Hne].
      * rewrite Ea2, Ea1, elem_of_app, elem_of_set_delete, list_elem_of_singleton.
        split; [intros [[_ H]| ->]; done|].
        intros H. destruct (decide (k = key)); auto.
      * by rewrite Eo2, Eo1.
    + intros k c. rewrite El2, El1, ledger_has_put, ledger_has_drop.
      split; [intros [[-> ->]| [H _]]; [|done]|].
      * by apply (good_committed _ _ _ Hg cur a).
      * intros H. destruct (decide (k = key ∧ c = cur)); auto.
  - (* not selected: added, then removed *)
    assert (key ∈ set_at a s1) as Hin1.
    { rewrite Ea1. apply elem_of_app. right. left. }
    destruct (decide (key ∈ set_at a s1)) as [_|?]; [|done].
    destruct (decide (key ∈ set_at a s)) as [?|_]; [done|]. split.
    + intros x k. destruct (decide (x = a)) as [->|Hne].
      * rewrite Ea2, Ea1, elem_of_set_delete, elem_of_app, list_elem_of_singleton.
        split; [intros [Hne [H|H]]; done|].
        intros H. split; [|by left]. by intros ->.
      * by rewrite Eo2, Eo1.
    + intros k c. rewrite El2, El1, ledger_has_drop, ledger_has_put.
      split; [intros [[[-> ->]|H] Hnot]; [|done]|].
      * exfalso. by apply Hnot.
      * intros H. split; [by right|]. intros [-> ->].
        destruct (Hi key cur H) as (a' & Ha' & Hk). congruence.
Qed.

End ClickTwice.

(** * Further properties: the selection *)

(** X1.  In every state either page reaches, the ledger and the sets of
    the compounds index each other: a compound is recorded under a
    date-key exactly when the key is in the set of the compound. *)
Theorem ledger_mirrors_sets :
  (∀ (B : Browser) (compounds : list string) (UTCoffset xZoomLimit yRound : Q)
     (JSONFiles : string → option (list Raw)) (c0 : string) (rest : list string)
     (p : FixedAxis.Plot) (c d : string),
     compounds = c0 :: rest →
     FixedAxis.reachable B compounds UTCoffset xZoomLimit yRound JSONFiles p →
     ledger_has (selectionsByDate (FixedAxis.sel p)) d c ↔ selected (FixedAxis.sel p) c d)
  ∧ (∀ (B : Browser) (compounds : list string)
       (xOptions yOptions : list (string * VarAxis.Accessor))
       (dataXDefault0 dataYDefault0 : VarAxis.Accessor) (UTCoffset xZoomLimit : Q)
       (JSONFiles : string → option (list Raw)) (c0 : string) (rest : list string)
       (p : VarAxis.DataSelector) (c d : string),
       compounds = c0 :: rest →
       VarAxis.reachable B compounds xOptions yOptions dataXDefault0 dataYDefault0
                         UTCoffset xZoomLimit JSONFiles p →
       ledger_has (selectionsByDate (VarAxis.sel p)) d c ↔ selected (VarAxis.sel p) c d).
Proof.
  split.
  - intros B compounds UTCoffset xZoomLimit yRound JSONFiles c0 rest p c d Hcs Hr.
    pose proof (fixed_reachable_good B compounds UTCoffset xZoomLimit yRound JSONFiles
                  c0 rest p Hcs Hr) as Hg.
    destruct (fixed_reachable_tidy B compounds UTCoffset xZoomLimit yRound JSONFiles
                c0 rest p Hcs Hr) as [Hi _].
    split; [apply Hi|].
    intros (a & Ha & Hd). by apply (good_committed _ _ _ Hg c a).
  - intros B compounds xOptions yOptions dx dy UTCoffset xZoomLimit JSONFiles c0 rest p c d
      Hcs Hr.
    pose proof (var_reachable_good B compounds xOptions yOptions dx dy UTCoffset
                  xZoomLimit JSONFiles c0 rest p Hcs Hr) as Hg.
    destruct (var_reachable_tidy B compounds xOptions yOptions dx dy UTCoffset
                xZoomLimit JSONFiles c0 rest p Hcs Hr) as [Hi _].
    split; [apply Hi|].
    intros (a & Ha & Hd). by apply (good_committed _ _ _ Hg c a).
Qed.

Lemma ledger_mirrors_sets_witness :
  let p := fixed_run [FixedAxis.FetchDone 0;
                      FixedAxis.Click (point_at 1577836800000 None)] in
  ledger_has (selectionsByDate (FixedAxis.sel p)) "2020-01-01 00:00" "ethane"
  ∧ ¬ ledger_has (selectionsByDate (FixedAxis.sel p)) "2020-01-01 00:00" "propane".
Proof.
  intros p.
  assert (FixedAxis.reachable example_browser example_compounds example_UTCCorrection
            example_xZoomLimit example_yAxisRound example_files p) as Hr
    by (apply fixed_page_reachable; repeat constructor).
  pose proof (proj1 ledger_mirrors_sets example_browser example_compounds
                example_UTCCorrection example_xZoomLimit example_yAxisRound example_files
                "ethane" (tail example_compounds) p) as H.
  split.
  - apply (H "ethane" "2020-01-01 00:00" eq_refl Hr).
    exists 0%nat. split; vm_compute; [reflexivity|left].
  - intros Hl. apply (H "propane" "2020-01-01 00:00" eq_refl Hr) in Hl.
    destruct Hl as (a & Ha & Hd). vm_compute in Ha. injection Ha as <-.
    vm_compute in Hd. by apply elem_of_nil in Hd.
Defined.

(** X2.  In every state either page reaches, the ledger holds no date-key
    twice, no date-key without a compound, and no compound twice under a
    key. *)
Theorem ledger_stays_tidy :
  (∀ (B : Browser) (compounds : list string) (UTCoffset xZoomLimit yRound : Q)
     (JSONFiles : string → option (list Raw)) (c0 : string) (rest : list string)
     (p : FixedAxis.Plot),
     compounds = c0 :: rest →
     FixedAxis.reachable B compounds UTCoffset xZoomLimit yRound JSONFiles p →
     ledger_tidy (selectionsByDate (FixedAxis.sel p)))
  ∧ (∀ (B : Browser) (compounds : list string)
       (xOptions yOptions : list (string * VarAxis.Accessor))
       (dataXDefault0 dataYDefault0 : VarAxis.Accessor) (UTCoffset xZoomLimit : Q)
       (JSONFiles : string → option (list Raw)) (c0 : string) (rest : list string)
       (p : VarAxis.DataSelector),
       compounds = c0 :: rest →
       VarAxis.reachable B compounds xOptions yOptions dataXDefault0 dataYDefault0
                         UTCoffset xZoomLimit JSONFiles p →
       ledger_tidy (selectionsByDate (VarAxis.sel p))).
Proof.
  split.
  - intros B compounds UTCoffset xZoomLimit yRound JSONFiles c0 rest p Hcs Hr.
    by destruct (fixed_reachable_tidy B compounds UTCoffset xZoomLimit yRound JSONFiles
                   c0 rest p Hcs Hr).
  - intros B compounds xOptions yOptions dx dy UTCoffset xZoomLimit JSONFiles c0 rest p
      Hcs Hr.
    by destruct (var_reachable_tidy B compounds xOptions yOptions dx dy UTCoffset
                   xZoomLimit JSONFiles c0 rest p Hcs Hr).
Qed.

Lemma ledger_stays_tidy_witness :
  ledger_tidy
    (selectionsByDate
       (VarAxis.sel (var_run [VarAxis.FetchDone 0;
                              VarAxis.Click (point_at 1577836800000 None);
                              VarAxis.Click (point_at 1577836800000 None)]))).
Proof.
  apply (proj2 ledger_stays_tidy example_browser example_compounds example_xOptions
           example_yOptions example_dataXDefault example_dataYDefault
           example_UTCCorrection example_xZoomLimit example_files
           "ethane" (tail example_compounds)).
  - reflexivity.
  - apply var_page_reachable. repeat constructor.
Defined.

(** X3.  A click on a point of the fixed-axis page toggles the key of the
    point for the compound on display and writes nothing else: a key that
    was in the set of the compound leaves it and the compound leaves the
    ledger entry of the key, which goes when it is left empty; a key that
    was not is appended to the set and the compound is recorded under it.
    A point whose date cannot be formatted makes the click throw before
    anything is written. *)
Theorem click_toggles_one_key :
  (∀ (B : Browser) (compounds : list string) (UTCoffset xZoomLimit yRound : Q)
     (JSONFiles : string → option (list Raw)) (c0 : string) (rest : list string)
     (p : FixedAxis.Plot) (d : Point) (key : string) (a : nat),
     compounds = c0 :: rest →
     FixedAxis.reachable B compounds UTCoffset xZoomLimit yRound JSONFiles p →
     formatISODate (getf d "date") (psalt d) = inr key →
     selectionsByCompound (FixedAxis.sel p) !! FixedAxis.selector p = Some a →
     let s := FixedAxis.sel p in
     ∃ s', FixedAxis.handle B compounds UTCoffset xZoomLimit yRound JSONFiles
                            (FixedAxis.Click d) p = Ok tt (FixedAxis.with_sel s' p)
       ∧ selectionsByCompound s' = selectionsByCompound s
       ∧ (∀ x, x ≠ a → set_at x s' = set_at x s)
       ∧ set_at a s' = (if decide (key ∈ set_at a s)
                        then set_delete key (set_at a s) else set_at a s ++ [key])
       ∧ selectionsByDate s'
         = (if decide (key ∈ set_at a s)
            then ledger_drop (FixedAxis.selector p) key (selectionsByDate s)
            else ledger_put (FixedAxis.selector p) key (selectionsByDate s))
       ∧ (key ∈ set_at a s' ↔ key ∉ set_at a s))
  ∧ (∀ (B : Browser) (compounds : list string) (UTCoffset xZoomLimit yRound : Q)
       (JSONFiles : string → option (list Raw)) (p : FixedAxis.Plot) (d : Point)
       (e : JSError),
       formatISODate (getf d "date") (psalt d) = inl e →
       FixedAxis.handle B compounds UTCoffset xZoomLimit yRound JSONFiles
                        (FixedAxis.Click d) p = Throw e p).
Proof.
  split.
  - intros B compounds UTCoffset xZoomLimit yRound JSONFiles c0 rest p d key a Hcs Hr
      Hkey Ha s.
    pose proof (fixed_reachable_good B compounds UTCoffset xZoomLimit yRound JSONFiles
                  c0 rest p Hcs Hr) as Hg.
    destruct (updateClicked_effect compounds _ s (getf d "date") (psalt d) true key a
                Hg Hkey Ha) as (s' & Hrun & _ & Ec & Eo & Ea & El).
    exists s'. simpl. unfold FixedAxis.on_sel, zoom_in. fold s. rewrite Hrun.
    split; [done|]. split; [done|]. split; [done|]. split; [done|]. split; [done|].
    rewrite Ea. destruct (decide (key ∈ set_at a s)) as [Hin|Hnin].
    + split; [|done]. intros H. apply elem_of_set_delete in H as [H _]. done.
    + split; [done|]. intros _. apply elem_of_app. right. left.
  - intros B compounds UTCoffset xZoomLimit yRound JSONFiles p d e He.
    simpl. unfold FixedAxis.on_sel, zoom_in, updateClicked. rewrite He. simpl.
    by destruct p.
Qed.

Lemma click_toggles_one_key_witness :
  let p := fixed_run [FixedAxis.FetchDone 0] in
  (∃ s', fixed_handle (FixedAxis.Click (point_at 1577836800000 None)) p
         = Ok tt (FixedAxis.with_sel s' p)
         ∧ set_at 0 s' = set_at 0 (FixedAxis.sel p) ++ ["2020-01-01 00:00"])
  ∧ fixed_handle (FixedAxis.Click (mkPoint ∅ ∅ None)) p = Throw TypeError p.
Proof.
  intros p. destruct click_toggles_one_key as [Hclick Hthrow]. split.
  - destruct (Hclick example_browser example_compounds example_UTCCorrection
                example_xZoomLimit example_yAxisRound example_files
                "ethane" (tail example_compounds) p (point_at 1577836800000 None)
                "2020-01-01 00:00" 0%nat) as (s' & Hrun & _ & _ & Hset & _).
    + reflexivity.
    + apply fixed_page_reachable. repeat constructor.
    + vm_compute. reflexivity.
    + vm_compute. reflexivity.
    + exists s'. split; [exact Hrun|]. rewrite Hset. vm_compute. reflexivity.
  - apply Hthrow. vm_compute. reflexivity.
Defined.

(** X4.  Two clicks on the same point of the fixed-axis page return, and
    leave every set with the members it had and the ledger with the
    compounds it recorded; nothing else of the page changes. *)
Theorem click_twice_restores (B : Browser) (compounds : list string)
    (UTCoffset xZoomLimit yRound : Q) (JSONFiles : string → option (list Raw))
    (c0 : string) (rest : list string) (p : FixedAxis.Plot) (d : Point) (key : string) :
  compounds = c0 :: rest →
  FixedAxis.reachable B compounds UTCoffset xZoomLimit yRound JSONFiles p →
  formatISODate (getf d "date") (psalt d) = inr key →
  ∃ s1 s2,
    FixedAxis.handle B compounds UTCoffset xZoomLimit yRound JSONFiles (FixedAxis.Click d) p
    = Ok tt (FixedAxis.with_sel s1 p)
    ∧ FixedAxis.handle B compounds UTCoffset xZoomLimit yRound JSONFiles (FixedAxis.Click d)
        (FixedAxis.with_sel s1 p)
      = Ok tt (FixedAxis.with_sel s2 p)
    ∧ selectionsByCompound s2 = selectionsByCompound (FixedAxis.sel p)
    ∧ (∀ x k, k ∈ set_at x s2 ↔ k ∈ set_at x (FixedAxis.sel p))
    ∧ (∀ k c, ledger_has (selectionsByDate s2) k c
              ↔ ledger_has (selectionsByDate (FixedAxis.sel p)) k c).
Proof.
  intros Hcs Hr Hkey.
  pose proof (fixed_reachable_good B compounds UTCoffset xZoomLimit yRound JSONFiles
                c0 rest p Hcs Hr) as Hg.
  pose proof (fixed_reachable_tidy B compounds UTCoffset xZoomLimit yRound JSONFiles
                c0 rest p Hcs Hr) as Ht.
  destruct (updateClicked_twice compounds _ (FixedAxis.sel p) (getf d "date") (psalt d) key
              Hg Ht Hkey) as (s1 & s2 & H1 & H2 & Hrest).
  exists s1, s2. simpl. unfold FixedAxis.on_sel, zoom_in. rewrite H1. simpl. rewrite H2.
  done.
Qed.

Lemma click_twice_restores_witness :
  let p := fixed_run [FixedAxis.FetchDone 0;
                      FixedAxis.Click (point_at 1577836800000 None)] in
  ∃ s1 s2,
    fixed_handle (FixedAxis.Click (point_at 1580601600000 None)) p
    = Ok tt (FixedAxis.with_sel s1 p)
    ∧ fixed_handle (FixedAxis.Click (point_at 1580601600000 None)) (FixedAxis.with_sel s1 p)
      = Ok tt (FixedAxis.with_sel s2 p)
    ∧ (∀ k c, ledger_has (selectionsByDate s2) k c
              ↔ ledger_has (selectionsByDate (FixedAxis.sel p)) k c).
Proof.
  intros p.
  destruct (click_twice_restores example_browser example_compounds example_UTCCorrection
              example_xZoomLimit example_yAxisRound example_files
              "ethane" (tail example_compounds) p (point_at 1580601600000 None)
              "2020-02-02 00:00") as (s1 & s2 & H1 & H2 & _ & _ & Hl).
  - reflexivity.
  - apply fixed_page_reachable. repeat constructor.
  - vm_compute. reflexivity.
  - exists s1, s2. split; [exact H1|]. split; [exact H2|exact Hl].
Defined.

(** X5.  On the fixed-axis page only a click, a drag over points and the
    two clear buttons change the selection: the choice of another
    compound, the save and download buttons, the axis inputs, reset,
    zoom, undo and the arrival of an answer leave the ledger and every set
    as they are. *)
Theorem fixed_selection_kept (B : Browser) (compounds : list string)
    (UTCoffset xZoomLimit yRound : Q) (JSONFiles : string → option (list Raw))
    (c0 : string) (rest : list string) (p : FixedAxis.Plot) (e : FixedAxis.Event) :
  compounds = c0 :: rest →
  FixedAxis.reachable B compounds UTCoffset xZoomLimit yRound JSONFiles p →
  FixedAxis.possible compounds e →
  fixed_selecting e = false →
  sel_same (FixedAxis.sel p)
           (FixedAxis.sel (FixedAxis.step B compounds UTCoffset xZoomLimit yRound
                                          JSONFiles p e)).
Proof.
  intros Hcs Hr Hp He. apply fixed_step_same; try done.
  by apply (fixed_reachable_good B compounds UTCoffset xZoomLimit yRound JSONFiles c0 rest).
Qed.

Lemma fixed_selection_kept_witness :
  let p := fixed_run [FixedAxis.FetchDone 0;
                      FixedAxis.Click (point_at 1500000000000 None)] in
  sel_same (FixedAxis.sel p)
    (FixedAxis.sel (FixedAxis.step example_browser example_compounds example_UTCCorrection
                      example_xZoomLimit example_yAxisRound example_files p
                      (FixedAxis.SelectCompound "propane"))).
Proof.
  intros p.
  apply (fixed_selection_kept example_browser example_compounds example_UTCCorrection
           example_xZoomLimit example_yAxisRound example_files
           "ethane" (tail example_compounds)).
  - reflexivity.
  - apply fixed_page_reachable. repeat constructor.
  - simpl. do 1 right. left.
  - reflexivity.
Defined.

(** X6.  On the variable-axis page the choice of another compound or
    attribute, the save and download buttons, the axis inputs, reset, zoom
    and undo leave the ledger and every set as they are; the arrival of an
    answer does so when the x axis shows the [date] field. *)
Theorem var_selection_kept (B : Browser) (compounds : list string)
    (xOptions yOptions : list (string * VarAxis.Accessor))
    (dataXDefault0 dataYDefault0 : VarAxis.Accessor) (UTCoffset xZoomLimit : Q)
    (JSONFiles : string → option (list Raw)) (c0 : string) (rest : list string)
    (p : VarAxis.DataSelector) (e : VarAxis.Event) :
  compounds = c0 :: rest →
  VarAxis.reachable B compounds xOptions yOptions dataXDefault0 dataYDefault0
                    UTCoffset xZoomLimit JSONFiles p →
  VarAxis.possible compounds xOptions yOptions e →
  var_selecting e = false →
  (∀ i, e = VarAxis.FetchDone i → x_is_date p) →
  sel_same (VarAxis.sel p)
           (VarAxis.sel (VarAxis.step B compounds xOptions yOptions dataXDefault0 UTCoffset
                                      xZoomLimit JSONFiles p e)).
Proof.
  intros Hcs Hr Hp He Hd. apply var_step_same; try done.
  by apply (var_reachable_good B compounds xOptions yOptions dataXDefault0 dataYDefault0
              UTCoffset xZoomLimit JSONFiles c0 rest).
Qed.

Lemma var_selection_kept_witness :
  let p := var_run [VarAxis.FetchDone 0;
                    VarAxis.Click (point_at 1500000000000 None);
                    VarAxis.ResetAxes] in
  sel_same (VarAxis.sel p)
    (VarAxis.sel (VarAxis.step example_browser example_compounds example_xOptions
                    example_yOptions example_dataXDefault example_UTCCorrection
                    example_xZoomLimit example_files p (VarAxis.FetchDone 0))).
Proof.
  intros p.
  apply (var_selection_kept example_browser example_compounds example_xOptions
           example_yOptions example_dataXDefault example_dataYDefault
           example_UTCCorrection example_xZoomLimit example_files
           "ethane" (tail example_compounds)).
  - reflexivity.
  - apply var_page_reachable. repeat constructor.
  - exact I.
  - reflexivity.
  - intros i _. exists example_dataXDefault. split; vm_compute; reflexivity.
Defined.

(** * Date keys *)

Lemma length_app_string (s t : string) :
  String.length (s +:+ t) = (String.length s + String.length t)%nat.
Proof. induction s; simpl; auto. Qed.

Lemma has_char_app c s t : has_char c (s +:+ t) = has_char c s || has_char c t.
Proof. induction s; simpl; [done|]. rewrite IHs. by rewrite orb_assoc. Qed.

Lemma length_pad w n : String.length (pad w n) = w.
Proof.
  revert n. induction w; intros n; simpl; [done|].
  rewrite length_app_string, IHw. simpl. lia.
Qed.

Lemma digit_not_T n : Ascii.eqb (digit n) "T" = false.
Proof.
  unfold digit. assert (0 <= n mod 10 < 10) as H by (apply Z.mod_pos_bound; lia).
  assert (n mod 10 = 0 ∨ n mod 10 = 1 ∨ n mod 10 = 2 ∨ n mod 10 = 3 ∨ n mod 10 = 4
          ∨ n mod 10 = 5 ∨ n mod 10 = 6 ∨ n mod 10 = 7 ∨ n mod 10 = 8 ∨ n mod 10 = 9)
    as Hc by lia.
  destruct Hc as [->|[->|[->|[->|[->|[->|[->|[->|[->| ->]]]]]]]]]; reflexivity.
Qed.

Lemma pad_no_T w n : has_char "T" (pad w n) = false.
Proof.
  revert n. induction w; intros n; simpl; [done|].
  rewrite has_char_app, IHw. simpl. by rewrite digit_not_T.
Qed.

Lemma iso_year_no_T y : has_char "T" (iso_year y) = false.
Proof.
  unfold iso_year. destruct (_ && _); [apply pad_no_T|].
  destruct (y <? 0); rewrite has_char_app, pad_no_T; reflexivity.
Qed.

Lemma replace_first_app c r s t :
  has_char c s = false →
  replace_first c r (s +:+ t) = s +:+ replace_first c r t.
Proof.
  induction s; simpl; [done|]. intros H. apply orb_false_iff in H as [Ha Hs].
  rewrite Ha. rewrite IHs by done. reflexivity.
Qed.

Lemma substring_prefix (s t : string) :
  String.substring 0 (String.length s) (s +:+ t) = s.
Proof.
  induction s; simpl.
  - destruct t; reflexivity.
  - by rewrite IHs.
Qed.

Lemma slice_to_end_app (s t : string) n :
  String.length t = n → slice_to_end n (s +:+ t) = s.
Proof.
  intros <-. unfold slice_to_end. rewrite length_app_string.
  replace (String.length s + String.length t - String.length t)%nat
    with (String.length s) by lia.
  apply substring_prefix.
Qed.

Lemma app_string_assoc (a b c : string) : (a +:+ b) +:+ c = a +:+ (b +:+ c).
Proof.
  induction a as [|x a IH]; [done|].
  change (String x ((a +:+ b) +:+ c) = String x (a +:+ b +:+ c)). by rewrite IH.
Qed.

(** The date-key as a function of the minute. *)
Lemma formatISODate_minute (ms : Z) (salt : option string) :
  let mn := ms / 60000 in
  let '(y, m, dd) := civil_from_days (mn / 1440) in
  let base := iso_year y +:+ "-" +:+ pad 2 m +:+ "-" +:+ pad 2 dd +:+ " "
              +:+ pad 2 (mn mod 1440 / 60) +:+ ":" +:+ pad 2 (mn mod 60) in
  formatISODate (JDate (Instant ms)) salt
  = inr (match salt with
         | Some t => if decide (t = EmptyString) then base else base +:+ " " +:+ t
         | None => base
         end).
Proof.
  intros mn.
  assert (ms / 86400000 = mn / 1440) as Hd.
  { unfold mn. rewrite Z.div_div by lia. reflexivity. }
  assert (ms mod 86400000 / 3600000 = mn mod 1440 / 60) as Hh.
  { unfold mn. Z.div_mod_to_equations. lia. }
  assert (ms mod 86400000 / 60000 mod 60 = mn mod 60) as Hm.
  { unfold mn. Z.div_mod_to_equations. lia. }
  unfold formatISODate, toISOString. rewrite Hd, Hh, Hm.
  destruct (civil_from_days (mn / 1440)) as [[y m] dd]. cbv beta iota zeta.
  pose (tail := ":" +:+ pad 2 (ms mod 86400000 / 1000 mod 60) +:+ "."
               +:+ pad 3 (ms mod 86400000 mod 1000) +:+ "Z").
  pose (front := iso_year y +:+ "-" +:+ pad 2 m +:+ "-" +:+ pad 2 dd).
  pose (hm := pad 2 (mn mod 1440 / 60) +:+ ":" +:+ pad 2 (mn mod 60)).
  assert (slice_to_end 8
            (replace_first "T" " "
               (iso_year y +:+ "-" +:+ pad 2 m +:+ "-" +:+ pad 2 dd +:+ "T"
                +:+ pad 2 (mn mod 1440 / 60) +:+ ":" +:+ pad 2 (mn mod 60) +:+ ":"
                +:+ pad 2 (ms mod 86400000 / 1000 mod 60) +:+ "."
                +:+ pad 3 (ms mod 86400000 mod 1000) +:+ "Z"))
          = iso_year y +:+ "-" +:+ pad 2 m +:+ "-" +:+ pad 2 dd +:+ " "
            +:+ pad 2 (mn mod 1440 / 60) +:+ ":" +:+ pad 2 (mn mod 60)) as ->.
  { replace (iso_year y +:+ "-" +:+ pad 2 m +:+ "-" +:+ pad 2 dd +:+ "T"
             +:+ pad 2 (mn mod 1440 / 60) +:+ ":" +:+ pad 2 (mn mod 60) +:+ ":"
             +:+ pad 2 (ms mod 86400000 / 1000 mod 60) +:+ "."
             +:+ pad 3 (ms mod 86400000 mod 1000) +:+ "Z")
      with (front +:+ ("T" +:+ hm +:+ tail)).
    2:{ unfold front, hm, tail. rewrite !app_string_assoc. reflexivity. }
    rewrite replace_first_app.
    2:{ unfold front. rewrite !has_char_app, iso_year_no_T, !pad_no_T. reflexivity. }
    change (replace_first "T" " " ("T" +:+ hm +:+ tail)) with (" " +:+ hm +:+ tail).
    replace (front +:+ " " +:+ hm +:+ tail) with ((front +:+ " " +:+ hm) +:+ tail).
    2:{ rewrite !app_string_assoc. reflexivity. }
    rewrite slice_to_end_app.
    - unfold front, hm. rewrite !app_string_assoc. reflexivity.
    - unfold tail. rewrite !length_app_string, !length_pad. reflexivity. }
  destruct salt as [t|]; [destruct (decide _)|]; reflexivity.
Qed.

(** X7.  [formatISODate] returns for every valid date, and the key it
    gives depends on the minute only: two instants of one minute, with the
    same salt, have the same key, so that on either page a click on the
    one point is a click on the other. *)
Theorem date_key_by_minute :
  (∀ (ms : Z) (salt : option string),
     ∃ key, formatISODate (JDate (Instant ms)) salt = inr key)
  ∧ (∀ (ms1 ms2 : Z) (salt : option string),
       ms1 / 60000 = ms2 / 60000 →
       formatISODate (JDate (Instant ms1)) salt = formatISODate (JDate (Instant ms2)) salt)
  ∧ (∀ (B : Browser) (compounds : list string) (UTCoffset xZoomLimit yRound : Q)
       (JSONFiles : string → option (list Raw)) (d1 d2 : Point) (ms1 ms2 : Z)
       (p : FixedAxis.Plot),
       getf d1 "date" = JDate (Instant ms1) →
       getf d2 "date" = JDate (Instant ms2) →
       psalt d1 = psalt d2 →
       ms1 / 60000 = ms2 / 60000 →
       FixedAxis.handle B compounds UTCoffset xZoomLimit yRound JSONFiles (FixedAxis.Click d1) p
       = FixedAxis.handle B compounds UTCoffset xZoomLimit yRound JSONFiles
                          (FixedAxis.Click d2) p)
  ∧ (∀ (B : Browser) (compounds : list string)
       (xOptions yOptions : list (string * VarAxis.Accessor))
       (dataXDefault0 : VarAxis.Accessor) (UTCoffset xZoomLimit : Q)
       (JSONFiles : string → option (list Raw)) (d1 d2 : Point) (ms1 ms2 : Z)
       (p : VarAxis.DataSelector),
       getf d1 "date" = JDate (Instant ms1) →
       getf d2 "date" = JDate (Instant ms2) →
       ms1 / 60000 = ms2 / 60000 →
       VarAxis.handle B compounds xOptions yOptions dataXDefault0 UTCoffset xZoomLimit
                      JSONFiles (VarAxis.Click d1) p
       = VarAxis.handle B compounds xOptions yOptions dataXDefault0 UTCoffset xZoomLimit
                        JSONFiles (VarAxis.Click d2) p).
Proof.
  assert (∀ ms1 ms2 salt, ms1 / 60000 = ms2 / 60000 →
            formatISODate (JDate (Instant ms1)) salt
            = formatISODate (JDate (Instant ms2)) salt) as Hsame.
  { intros ms1 ms2 salt H.
    pose proof (formatISODate_minute ms1 salt) as H1.
    pose proof (formatISODate_minute ms2 salt) as H2.
    cbv zeta in H1, H2. rewrite H in H1.
    destruct (civil_from_days (ms2 / 60000 / 1440)) as [[y m] dd].
    by rewrite H1, H2. }
  split; [|split; [exact Hsame|split]].
  - intros ms salt. pose proof (formatISODate_minute ms salt) as H. cbv zeta in H.
    destruct (civil_from_days (ms / 60000 / 1440)) as [[y m] dd]. eauto.
  - intros B compounds UTCoffset xZoomLimit yRound JSONFiles d1 d2 ms1 ms2 p E1 E2 Es H.
    simpl. unfold updateClicked. rewrite E1, E2, Es. by rewrite (Hsame ms1 ms2).
  - intros B compounds xOptions yOptions dataXDefault0 UTCoffset xZoomLimit JSONFiles
      d1 d2 ms1 ms2 p E1 E2 H.
    simpl. unfold updateClicked. rewrite E1, E2. by rewrite (Hsame ms1 ms2).
Qed.

Lemma date_key_by_minute_witness :
  formatISODate (JDate (Instant 1499992800000)) None
  = formatISODate (JDate (Instant 1499992859999)) None
  ∧ fixed_handle (FixedAxis.Click (point_at 1499992800000 None)) fixed_initial
    = fixed_handle (FixedAxis.Click (point_at 1499992859999 None)) fixed_initial.
Proof.
  destruct date_key_by_minute as (_ & Hk & Hf & _). split.
  - apply Hk. reflexivity.
  - apply (Hf example_browser example_compounds example_UTCCorrection example_xZoomLimit
              example_yAxisRound example_files _ _ 1499992800000 1499992859999);
      reflexivity.
Defined.

(** * Dragging over points *)

Lemma for_of_zoom_in {S T A} (proj : S → T) (inj : T → S → S) (body : A → M T unit)
    (xs : list A) :
  (∀ s, inj (proj s) s = s) → (∀ t s, proj (inj t s) = t) →
  (∀ t t' s, inj t (inj t' s) = inj t s) →
  ∀ s, for_of xs (fun x => zoom_in proj inj (body x)) s
       = zoom_in proj inj (for_of xs body) s.
Proof.
  intros H1 H2 H3. induction xs as [|x xs IH]; intros s; simpl.
  - unfold zoom_in, ret. by rewrite H1.
  - unfold bind, zoom_in at 1 3. destruct (body x (proj s)) as [[] t|e t]; [|done].
    rewrite IH. unfold zoom_in. rewrite H2.
    destruct (for_of xs body t); by rewrite H3.
Qed.

Section Drag.
Variable compounds : list string.
Variable date : Point → JsVal.
Variable salt : Point → option string.

Lemma clicks_add_all cur a (ds : list Point) (keys : list string) :
  Forall2 (fun d k => formatISODate (date d) (salt d) = inr k) ds keys →
  ∀ s, sel_good compounds cur s → sel_tidy s →
  selectionsByCompound s !! cur = Some a →
  ∃ s', for_of ds (fun d => updateClicked (date d) (salt d) false) s = Ok tt s'
    ∧ sel_good compounds cur s' ∧ sel_tidy s'
    ∧ selectionsByCompound s' = selectionsByCompound s
    ∧ (∀ x, x ≠ a → set_at x s' = set_at x s)
    ∧ (∀ k, k ∈ set_at a s' ↔ k ∈ set_at a s ∨ k ∈ keys)
    ∧ (∀ k c, ledger_has (selectionsByDate s') k c
              ↔ ledger_has (selectionsByDate s) k c ∨ (c = cur ∧ k ∈ keys)).
Proof.
  induction 1 as [|d key ds keys Hkey _ IH]; intros s Hg Ht Ha.
  - exists s. simpl. do 5 (split; [done|]). split.
    + intros k. rewrite elem_of_nil. tauto.
    + intros k c. rewrite elem_of_nil. tauto.
  - destruct (updateClicked_effect compounds cur s (date d) (salt d) false key a Hg Hkey Ha)
      as (s1 & Hrun & Hg1 & Ec & Eo & Ea & El).
    pose proof (updateClicked_tidy compounds cur s (date d) (salt d) false Hg Ht) as Ht1.
    rewrite Hrun in Ht1. simpl in Ht1.
    assert (selectionsByCompound s1 !! cur = Some a) as Ha1 by (by rewrite Ec).
    destruct (IH s1 Hg1 Ht1 Ha1) as (s2 & Hrun2 & Hg2 & Ht2 & Ec2 & Eo2 & Ea2 & El2).
    exists s2. simpl. unfold bind. rewrite Hrun.
    split; [done|]. split; [done|]. split; [done|]. split; [congruence|].
    split; [intros x Hx; by rewrite Eo2, Eo|].
    assert (∀ k, k ∈ set_at a s1 ↔ k ∈ set_at a s ∨ k = key) as Hm.
    { intros k. rewrite Ea. destruct (decide (key ∈ set_at a s)) as [Hin|Hnin].
      - split; [by left|]. by intros [?| ->].
      - by rewrite elem_of_app, list_elem_of_singleton. }
    assert (∀ k c, ledger_has (selectionsByDate s1) k c
                   ↔ ledger_has (selectionsByDate s) k c ∨ (c = cur ∧ k = key)) as Hl.
    { intros k c. rewrite El. destruct (decide (key ∈ set_at a s)) as [Hin|Hnin].
      - split; [by left|]. intros [?|[-> ->]]; [done|].
        by apply (good_committed _ _ _ Hg cur a).
      - rewrite ledger_has_put. tauto. }
    split.
    + intros k. rewrite Ea2, Hm, elem_of_cons. tauto.
    + intros k c. rewrite El2, Hl, elem_of_cons. tauto.
Qed.

(** The same in terms of the compounds. *)
Lemma clicks_select_all cur (ds : list Point) (keys : list string) s :
  Forall2 (fun d k => formatISODate (date d) (salt d) = inr k) ds keys →
  sel_good compounds cur s → sel_tidy s →
  ∃ s', for_of ds (fun d => updateClicked (date d) (salt d) false) s = Ok tt s'
    ∧ (∀ c k, selected s' c k ↔ selected s c k ∨ (c = cur ∧ k ∈ keys))
    ∧ (∀ k c, ledger_has (selectionsByDate s') k c
              ↔ ledger_has (selectionsByDate s) k c ∨ (c = cur ∧ k ∈ keys)).
Proof.
  intros Hk Hg Ht. destruct (good_alias _ _ _ Hg) as (a & Ha & _).
  destruct (clicks_add_all cur a ds keys Hk s Hg Ht Ha)
    as (s' & Hrun & Hg' & _ & Ec & Eo & Ea & El).
  exists s'. split; [done|]. split; [|done].
  intros c k. unfold selected. rewrite Ec. split.
  - intros (x & Hx & Hin). destruct (decide (x = a)) as [->|Hne].
    + assert (c = cur) as -> by (eapply (wf_distinct _ _ (good_wf _ _ _ Hg)); eauto).
      apply Ea in Hin as [Hin|Hin]; [left; eauto | by right].
    + rewrite Eo in Hin by done. left. eauto.
  - intros [(x & Hx & Hin)|[-> Hin]].
    + exists x. split; [done|]. destruct (decide (x = a)) as [->|Hne].
      * apply Ea. by left.
      * by rewrite Eo.
    + exists a. split; [done|]. apply Ea. by right.
Qed.

End Drag.

(** X8.  A drag over points without the alt key returns when every point
    has a valid date, and selects under the compound on display the
    date-key of every point it covers; whatever was selected before, under
    this or another compound, stays selected, and nothing else is added.
    The ledger changes in the same way. *)
Theorem drag_selects_all :
  (∀ (B : Browser) (compounds : list string) (UTCoffset xZoomLimit yRound : Q)
     (JSONFiles : string → option (list Raw)) (c0 : string) (rest : list string)
     (p : FixedAxis.Plot) (ds : list Point) (keys : list string),
     compounds = c0 :: rest →
     FixedAxis.reachable B compounds UTCoffset xZoomLimit yRound JSONFiles p →
     Forall2 (fun d k => formatISODate (getf d "date") (psalt d) = inr k) ds keys →
     ∃ s', FixedAxis.handle B compounds UTCoffset xZoomLimit yRound JSONFiles
                            (FixedAxis.DragSelect ds false) p
           = Ok tt (FixedAxis.with_sel s' p)
       ∧ (∀ c k, selected s' c k
                 ↔ selected (FixedAxis.sel p) c k ∨ (c = FixedAxis.selector p ∧ k ∈ keys))
       ∧ (∀ k c, ledger_has (selectionsByDate s') k c
                 ↔ ledger_has (selectionsByDate (FixedAxis.sel p)) k c
                   ∨ (c = FixedAxis.selector p ∧ k ∈ keys)))
  ∧ (∀ (B : Browser) (compounds : list string)
       (xOptions yOptions : list (string * VarAxis.Accessor))
       (dataXDefault0 dataYDefault0 : VarAxis.Accessor) (UTCoffset xZoomLimit : Q)
       (JSONFiles : string → option (list Raw)) (c0 : string) (rest : list string)
       (p : VarAxis.DataSelector) (ds : list Point) (keys : list string),
       compounds = c0 :: rest →
       VarAxis.reachable B compounds xOptions yOptions dataXDefault0 dataYDefault0
                         UTCoffset xZoomLimit JSONFiles p →
       Forall2 (fun d k => formatISODate (getf d "date") None = inr k) ds keys →
       ∃ s', VarAxis.handle B compounds xOptions yOptions dataXDefault0 UTCoffset xZoomLimit
                            JSONFiles (VarAxis.DragSelect ds false) p
             = Ok tt (VarAxis.with_sel s' p)
         ∧ (∀ c k, selected s' c k
                   ↔ selected (VarAxis.sel p) c k ∨ (c = VarAxis.selector p ∧ k ∈ keys))
         ∧ (∀ k c, ledger_has (selectionsByDate s') k c
                   ↔ ledger_has (selectionsByDate (VarAxis.sel p)) k c
                     ∨ (c = VarAxis.selector p ∧ k ∈ keys))).
Proof.
  split.
  - intros B compounds UTCoffset xZoomLimit yRound JSONFiles c0 rest p ds keys Hcs Hr Hk.
    pose proof (fixed_reachable_good B compounds UTCoffset xZoomLimit yRound JSONFiles
                  c0 rest p Hcs Hr) as Hg.
    pose proof (fixed_reachable_tidy B compounds UTCoffset xZoomLimit yRound JSONFiles
                  c0 rest p Hcs Hr) as Ht.
    destruct (clicks_select_all compounds (fun d => getf d "date") psalt _ ds keys
                (FixedAxis.sel p) Hk Hg Ht) as (s' & Hrun & Hrest).
    exists s'. split; [|exact Hrest].
    simpl. unfold FixedAxis.dragEnd_select, FixedAxis.on_sel.
    rewrite (for_of_zoom_in FixedAxis.sel FixedAxis.with_sel
               (fun d => updateClicked (getf d "date") (psalt d) false) ds);
      [|by intros []|done|done].
    unfold zoom_in. by rewrite Hrun.
  - intros B compounds xOptions yOptions dataXDefault0 dataYDefault0 UTCoffset xZoomLimit
      JSONFiles c0 rest p ds keys Hcs Hr Hk.
    pose proof (var_reachable_good B compounds xOptions yOptions dataXDefault0 dataYDefault0
                  UTCoffset xZoomLimit JSONFiles c0 rest p Hcs Hr) as Hg.
    pose proof (var_reachable_tidy B compounds xOptions yOptions dataXDefault0 dataYDefault0
                  UTCoffset xZoomLimit JSONFiles c0 rest p Hcs Hr) as Ht.
    destruct (clicks_select_all compounds (fun d => getf d "date") (fun _ => None) _ ds keys
                (VarAxis.sel p) Hk Hg Ht) as (s' & Hrun & Hrest).
    exists s'. split; [|exact Hrest].
    simpl. unfold VarAxis.dragEnd_select, VarAxis.on_sel.
    rewrite (for_of_zoom_in VarAxis.sel VarAxis.with_sel
               (fun d => updateClicked (getf d "date") None false) ds);
      [|by intros []|done|done].
    unfold zoom_in. by rewrite Hrun.
Qed.

Lemma drag_selects_all_witness :
  let p := fixed_run [FixedAxis.FetchDone 0;
                      FixedAxis.Click (point_at 1577836800000 None)] in
  ∃ s', fixed_handle (FixedAxis.DragSelect [point_at 1577836800000 None;
                                            point_at 1580601600000 None] false) p
        = Ok tt (FixedAxis.with_sel s' p)
    ∧ (∀ c k, selected s' c k
              ↔ selected (FixedAxis.sel p) c k
                ∨ (c = "ethane" ∧ k ∈ ["2020-01-01 00:00"; "2020-02-02 00:00"])).
Proof.
  intros p. destruct drag_selects_all as [Hf _].
  destruct (Hf example_browser example_compounds example_UTCCorrection
              example_xZoomLimit example_yAxisRound example_files
              "ethane" (tail example_compounds) p
              [point_at 1577836800000 None; point_at 1580601600000 None]
              ["2020-01-01 00:00"; "2020-02-02 00:00"]) as (s' & H1 & H2 & _).
  - reflexivity.
  - apply fixed_page_reachable. repeat constructor.
  - repeat constructor.
  - exists s'. split; [exact H1|exact H2].
Defined.

Section AltDrag.
Variable compounds : list string.
Variable date : Point → JsVal.
Variable salt : Point → option string.

Lemma clicks_toggle_all cur a (ds : list Point) (keys : list string) :
  Forall2 (fun d k => formatISODate (date d) (salt d) = inr k) ds keys →
  NoDup keys →
  ∀ s, sel_good compounds cur s →
  selectionsByCompound s !! cur = Some a →
  ∃ s', for_of ds (fun d => updateClicked (date d) (salt d) true) s = Ok tt s'
    ∧ sel_good compounds cur s'
    ∧ selectionsByCompound s' = selectionsByCompound s
    ∧ (∀ x, x ≠ a → set_at x s' = set_at x s)
    ∧ (∀ k, k ∈ set_at a s' ↔ (k ∈ set_at a s ∧ k ∉ keys) ∨ ((k ∉ set_at a s) ∧ k ∈ keys)).
Proof.
  induction 1 as [|d key ds keys Hkey _ IH]; intros Hnd s Hg Ha.
  - exists s. simpl. do 4 (split; [done|]).
    intros k. rewrite elem_of_nil. tauto.
  - apply NoDup_cons in Hnd as [Hfresh Hnd].
    destruct (updateClicked_effect compounds cur s (date d) (salt d) true key a Hg Hkey Ha)
      as (s1 & Hrun & Hg1 & Ec & Eo & Ea & _).
    assert (selectionsByCompound s1 !! cur = Some a) as Ha1 by (by rewrite Ec).
    destruct (IH Hnd s1 Hg1 Ha1) as (s2 & Hrun2 & Hg2 & Ec2 & Eo2 & Ea2).
    exists s2. simpl. unfold bind. rewrite Hrun.
    split; [done|]. split; [done|]. split; [congruence|].
    split; [intros x Hx; by rewrite Eo2, Eo|].
    assert (∀ k, k ∈ set_at a s1
                 ↔ (k ∈ set_at a s ∧ k ≠ key) ∨ ((k ∉ set_at a s) ∧ k = key)) as Hm.
    { intros k. rewrite Ea. destruct (decide (key ∈ set_at a s)) as [Hin|Hnin].
      - rewrite elem_of_set_delete. split; [intros [? ?]; by left|].
        intros [[? ?]|[Hn ->]]; done.
      - rewrite elem_of_app, list_elem_of_singleton. split.
        + intros [Hk| ->]; [left; split; [done|by intros ->]|by right].
        + intros [[? _]|[_ ?]]; auto. }
    intros k. rewrite Ea2, Hm, elem_of_cons.
    destruct (decide (k = key)) as [->|Hne]; [|tauto].
    split.
    + intros [[[[_ ?]|[? _]] ?]|[Hn ?]]; try done. right. split; [done|by left].
    + intros [[Hin Hn]|[Hn _]].
      * exfalso. apply Hn. by left.
      * left. split; [right; done|done].
Qed.

End AltDrag.

(** X18.  A drag with the alt key over points with valid dates and
    different date-keys returns and toggles each of them under the
    compound on display: a covered key that was selected is no longer,
    one that was not is; every other key, and every other compound, is as
    before. *)
Theorem alt_drag_toggles (B : Browser) (compounds : list string)
    (UTCoffset xZoomLimit yRound : Q) (JSONFiles : string → option (list Raw))
    (c0 : string) (rest : list string) (p : FixedAxis.Plot) (ds : list Point)
    (keys : list string) :
  compounds = c0 :: rest →
  FixedAxis.reachable B compounds UTCoffset xZoomLimit yRound JSONFiles p →
  Forall2 (fun d k => formatISODate (getf d "date") (psalt d) = inr k) ds keys →
  NoDup keys →
  ∃ s', FixedAxis.handle B compounds UTCoffset xZoomLimit yRound JSONFiles
                         (FixedAxis.DragSelect ds true) p
        = Ok tt (FixedAxis.with_sel s' p)
    ∧ (∀ c k, selected s' c k
              ↔ (selected (FixedAxis.sel p) c k ∧ ¬ (c = FixedAxis.selector p ∧ k ∈ keys))
                ∨ ((¬ selected (FixedAxis.sel p) c k)
                   ∧ c = FixedAxis.selector p ∧ k ∈ keys)).
Proof.
  intros Hcs Hr Hk Hnd.
  pose proof (fixed_reachable_good B compounds UTCoffset xZoomLimit yRound JSONFiles
                c0 rest p Hcs Hr) as Hg.
  destruct (good_alias _ _ _ Hg) as (a & Ha & _).
  destruct (clicks_toggle_all compounds (fun d => getf d "date") psalt _ a ds keys Hk Hnd
              (FixedAxis.sel p) Hg Ha) as (s' & Hrun & Hg' & Ec & Eo & Ea).
  exists s'. split.
  { simpl. unfold FixedAxis.dragEnd_select, FixedAxis.on_sel.
    rewrite (for_of_zoom_in FixedAxis.sel FixedAxis.with_sel
               (fun d => updateClicked (getf d "date") (psalt d) true) ds);
      [|by intros []|done|done].
    unfold zoom_in. by rewrite Hrun. }
  assert (∀ c x, selectionsByCompound (FixedAxis.sel p) !! c = Some x →
                 x = a ↔ c = FixedAxis.selector p) as Hcur.
  { intros c x Hx. split.
    - intros ->. by apply (wf_distinct _ _ (good_wf _ _ _ Hg) c (FixedAxis.selector p) a).
    - intros ->. congruence. }
  intros c k. unfold selected. rewrite Ec. split.
  - intros (x & Hx & Hin). destruct (decide (x = a)) as [->|Hne].
    + assert (c = FixedAxis.selector p) as -> by (by apply (Hcur c a)).
      apply Ea in Hin as [[Hin Hn]|[Hn Hin]].
      * left. split; [eauto|]. by intros [_ ?].
      * right. split; [|done]. intros (x & Hx' & Hin'). congruence.
    + rewrite Eo in Hin by done. left. split; [eauto|].
      intros [-> _]. congruence.
  - intros [[(x & Hx & Hin) Hn]|[Hn [-> Hin]]].
    + exists x. split; [done|]. destruct (decide (x = a)) as [->|Hne].
      * apply Ea. left. split; [done|]. intros Hk'. apply Hn. split; [|done].
        by apply (Hcur c a).
      * by rewrite Eo.
    + exists a. split; [done|]. apply Ea. right. split; [|done].
      intros Hin'. apply Hn. eauto.
Qed.

Lemma alt_drag_toggles_witness :
  let p := fixed_run [FixedAxis.FetchDone 0;
                      FixedAxis.Click (point_at 1577836800000 None)] in
  ∃ s', fixed_handle (FixedAxis.DragSelect [point_at 1577836800000 None;
                                            point_at 1580601600000 None] true) p
        = Ok tt (FixedAxis.with_sel s' p)
    ∧ (∀ c k, selected s' c k
              ↔ (selected (FixedAxis.sel p) c k
                 ∧ ¬ (c = "ethane" ∧ k ∈ ["2020-01-01 00:00"; "2020-02-02 00:00"]))
                ∨ ((¬ selected (FixedAxis.sel p) c k)
                   ∧ c = "ethane" ∧ k ∈ ["2020-01-01 00:00"; "2020-02-02 00:00"])).
Proof.
  intros p.
  apply (alt_drag_toggles example_browser example_compounds example_UTCCorrection
           example_xZoomLimit example_yAxisRound example_files
           "ethane" (tail example_compounds) p
           [point_at 1577836800000 None; point_at 1580601600000 None]
           ["2020-01-01 00:00"; "2020-02-02 00:00"]).
  - reflexivity.
  - apply fixed_page_reachable. repeat constructor.
  - repeat constructor.
  - apply (bool_decide_unpack _). vm_compute. reflexivity.
Defined.

(** * The range a shift-drag asks for *)

Lemma Qtrunc_below (q : Q) (z : Z) : (q < inject_Z z)%Q → Qtrunc q <= z.
Proof.
  intros H. unfold Qtrunc. destruct (Qle_bool 0 q).
  - pose proof (Qfloor_le q) as H1. apply Z.lt_le_incl. rewrite Zlt_Qlt. lra.
  - pose proof (Qceiling_lt q) as H1. unfold Z.sub in H1. rewrite inject_Z_plus in H1.
    change (inject_Z (- (1))) with (- (1))%Q in H1.
    assert (inject_Z (Qceiling q) < inject_Z (z + 1))%Q as H2.
    { rewrite inject_Z_plus. change (inject_Z 1) with 1%Q. lra. }
    rewrite <- Zlt_Qlt in H2. lia.
Qed.

Lemma Qtrunc_above (q : Q) (z : Z) : (inject_Z z < q)%Q → z <= Qtrunc q.
Proof.
  intros H. unfold Qtrunc. destruct (Qle_bool 0 q).
  - pose proof (Qlt_floor q) as H1.
    assert (inject_Z z < inject_Z (Qfloor q + 1))%Q as H2 by lra.
    rewrite <- Zlt_Qlt in H2. lia.
  - pose proof (Qle_ceiling q) as H1. apply Z.lt_le_incl. rewrite Zlt_Qlt. lra.
Qed.

Lemma half_below (x y L : Q) : (x + - y < L)%Q → ((x + y) / 2 - L / 2 < y)%Q.
Proof.
  intros H. unfold Qdiv.
  assert ((x + y) * / 2 - L * / 2 == (x + y - L) * (1 # 2))%Q as -> by field. lra.
Qed.

Lemma half_above (x y L : Q) : (x + - y < L)%Q → (x < (x + y) / 2 + L / 2)%Q.
Proof.
  intros H. unfold Qdiv.
  assert ((x + y) * / 2 + L * / 2 == (x + y + L) * (1 # 2))%Q as -> by field. lra.
Qed.

Lemma TimeClip_Instant (q : Q) (z : Z) : TimeClip q = Instant z → z = Qtrunc q.
Proof. unfold TimeClip. destruct (Qle_bool _ _); [|done]. by intros [= <-]. Qed.

(** X9.  A shift-drag that leaves the limits on display to the left or to
    the right asks for the x range on display again; one inside them and
    at least as wide as the least width asks for the range of the
    rectangle itself; a narrower one asks for a range that contains the
    rectangle.  In every case no instant that is both on display and in
    the rectangle is left out. *)
Theorem zoom_keeps_rectangle (lim : Limits) (L : Q) (xStart xEnd a b : Z) :
  zoom_range lim L xStart xEnd = (Instant a, Instant b) →
  ((xStart < xMin lim ∨ xMax lim < xEnd) → a = xMin lim ∧ b = xMax lim)
  ∧ (xMin lim <= xStart → xEnd <= xMax lim → (L <= inject_Z (xEnd - xStart))%Q →
     a = xStart ∧ b = xEnd)
  ∧ (xMin lim <= xStart → xEnd <= xMax lim → a <= xStart ∧ xEnd <= b)
  ∧ (∀ t, xStart <= t <= xEnd → xMin lim <= t <= xMax lim → a <= t <= b).
Proof.
  intros Hz.
  assert ((xStart < xMin lim ∨ xMax lim < xEnd) → a = xMin lim ∧ b = xMax lim) as Hout.
  { intros Ho. unfold zoom_range in Hz.
    assert ((xStart <? xMin lim) || (xEnd >? xMax lim) = true) as E.
    { apply orb_true_iff. destruct Ho; [left|right]; lia. }
    rewrite E in Hz. by injection Hz as <- <-. }
  assert (xMin lim <= xStart → xEnd <= xMax lim → (L <= inject_Z (xEnd - xStart))%Q →
          a = xStart ∧ b = xEnd) as Hwide.
  { intros H1 H2 H3. unfold zoom_range in Hz.
    assert ((xStart <? xMin lim) = false) as E1 by lia.
    assert ((xEnd >? xMax lim) = false) as E2 by lia.
    rewrite E1, E2 in Hz. simpl in Hz.
    destruct (Qlt_bool (inject_Z (xEnd - xStart)) L) eqn:E3.
    - apply Qlt_bool_iff in E3. lra.
    - by injection Hz as <- <-. }
  assert (xMin lim <= xStart → xEnd <= xMax lim → a <= xStart ∧ xEnd <= b) as Hin.
  { intros H1 H2.
    destruct (Qlt_le_dec (inject_Z (xEnd - xStart)) L) as [Hn|Hw].
    - rewrite (zoom_range_narrow lim L xStart xEnd H1 H2 Hn) in Hz.
      injection Hz as Ha Hb.
      apply TimeClip_Instant in Ha, Hb. subst a b.
      unfold Z.sub in Hn. rewrite inject_Z_plus, inject_Z_opp in Hn. split.
      + apply Qtrunc_below. by apply half_below.
      + apply Qtrunc_above. by apply half_above.
    - destruct (Hwide H1 H2 Hw) as [-> ->]. lia. }
  split; [exact Hout|]. split; [exact Hwide|]. split; [exact Hin|].
  intros t Ht Hl.
  destruct (Z_lt_le_dec xStart (xMin lim)) as [H1|H1];
    [destruct Hout as [-> ->]; [by left|lia]|].
  destruct (Z_lt_le_dec (xMax lim) xEnd) as [H2|H2];
    [destruct Hout as [-> ->]; [by right|lia]|].
  destruct (Hin H1 H2). lia.
Qed.

Lemma zoom_keeps_rectangle_witness :
  (-5 <= 0 ∧ 0 <= 5)
  ∧ (∀ t, 0 <= t <= 0 → -100 <= t <= 100 → -5 <= t <= 5).
Proof.
  pose proof (zoom_keeps_rectangle (mkLimits (-100) 100 (JNum 0) (JNum 1)) 11 0 0 (-5) 5)
    as H.
  destruct H as (_ & _ & Hin & Hall); [vm_compute; reflexivity|].
  split; [apply Hin; simpl; lia|exact Hall].
Defined.

(** * The default view *)

Lemma d3_max_ge (vals : list (option Q)) (m v : Q) :
  d3_max vals = Some m → Some v ∈ vals → (v <= m)%Q.
Proof.
  unfold d3_max, d3_pick.
  set (f := fun (acc : option Q) (v : option Q) =>
              match v, acc with
              | None, _ => acc
              | Some x, None => Some x
              | Some x, Some m0 => if Qlt_bool m0 x then Some x else Some m0
              end).
  cut (∀ acc, fold_left f vals acc = Some m →
         (∀ x, acc = Some x → (x <= m)%Q) ∧ (∀ v, Some v ∈ vals → (v <= m)%Q)).
  { intros Hc Hm Hv. by apply (Hc None). }
  clear v. induction vals as [|v vals IH]; intros acc Hm; simpl in Hm.
  - split; [|by intros v H; apply elem_of_nil in H].
    intros x ->. injection Hm as <-. apply Qle_refl.
  - destruct (IH _ Hm) as [Hacc Hvals]. split.
    + intros x ->. destruct v as [x0|]; simpl in Hacc; [|by apply Hacc].
      destruct (Qlt_bool x x0) eqn:E; [|by apply Hacc].
      apply Qlt_bool_iff in E. specialize (Hacc x0 eq_refl). lra.
    + intros v0 Hv0. apply elem_of_cons in Hv0 as [<-|Hv0]; [|by apply Hvals].
      simpl in Hacc. destruct acc as [y|]; [|by apply Hacc].
      destruct (Qlt_bool y v0) eqn:E; [by apply Hacc|].
      assert (¬ (y < v0)%Q) as Hn by (intros Hlt; apply Qlt_bool_iff in Hlt; congruence).
      specialize (Hacc y eq_refl). lra.
Qed.

Lemma d3_min_le (vals : list (option Q)) (m v : Q) :
  d3_min vals = Some m → Some v ∈ vals → (m <= v)%Q.
Proof.
  unfold d3_min, d3_pick.
  set (f := fun (acc : option Q) (v : option Q) =>
              match v, acc with
              | None, _ => acc
              | Some x, None => Some x
              | Some x, Some m0 => if Qlt_bool x m0 then Some x else Some m0
              end).
  cut (∀ acc, fold_left f vals acc = Some m →
         (∀ x, acc = Some x → (m <= x)%Q) ∧ (∀ v, Some v ∈ vals → (m <= v)%Q)).
  { intros Hc Hm Hv. by apply (Hc None). }
  clear v. induction vals as [|v vals IH]; intros acc Hm; simpl in Hm.
  - split; [|by intros v H; apply elem_of_nil in H].
    intros x ->. injection Hm as <-. apply Qle_refl.
  - destruct (IH _ Hm) as [Hacc Hvals]. split.
    + intros x ->. destruct v as [x0|]; simpl in Hacc; [|by apply Hacc].
      destruct (Qlt_bool x0 x) eqn:E; [|by apply Hacc].
      apply Qlt_bool_iff in E. specialize (Hacc x0 eq_refl). lra.
    + intros v0 Hv0. apply elem_of_cons in Hv0 as [<-|Hv0]; [|by apply Hvals].
      simpl in Hacc. destruct acc as [y|]; [|by apply Hacc].
      destruct (Qlt_bool v0 y) eqn:E; [by apply Hacc|].
      assert (¬ (v0 < y)%Q) as Hn by (intros Hlt; apply Qlt_bool_iff in Hlt; congruence).
      specialize (Hacc y eq_refl). lra.
Qed.

(** [d3.min] and [d3.max] find a number when there is one. *)
Lemma d3_pick_Some better (vals : list (option Q)) (v : Q) :
  Some v ∈ vals → is_Some (d3_pick better vals).
Proof.
  unfold d3_pick.
  set (f := fun (acc : option Q) (v : option Q) => _).
  assert (∀ l acc, is_Some acc → is_Some (fold_left f l acc)) as Hs.
  { induction l as [|x l IH]; intros acc Ha; simpl; [done|].
    apply IH. destruct Ha as [a ->]. destruct x as [x|]; simpl; [|eauto].
    destruct (better x a); eauto. }
  generalize (@None Q).
  induction vals as [|x l IH]; intros acc H; [by apply elem_of_nil in H|].
  simpl. apply elem_of_cons in H as [<-|H]; [|by apply IH].
  apply Hs. simpl. destruct acc as [a|]; [|eauto]. destruct (better v a); eauto.
Qed.

Lemma Qtrunc_le_whole (q : Q) (z : Z) : (q <= inject_Z z)%Q → Qtrunc q <= z.
Proof.
  intros H. destruct (Qlt_le_dec q (inject_Z z)) as [Hlt|Hge].
  - by apply Qtrunc_below.
  - rewrite (Qtrunc_comp q (inject_Z z)) by lra. rewrite Qtrunc_whole. lia.
Qed.

Lemma Qtrunc_ge_whole (q : Q) (z : Z) : (inject_Z z <= q)%Q → z <= Qtrunc q.
Proof.
  intros H. destruct (Qlt_le_dec (inject_Z z) q) as [Hlt|Hge].
  - by apply Qtrunc_above.
  - rewrite (Qtrunc_comp q (inject_Z z)) by lra. rewrite Qtrunc_whole. lia.
Qed.

Lemma ceil_to_ge (m v r : Q) (y : Q) :
  (0 < r)%Q → (v <= m)%Q → ceil_to (Some m) r = JNum y → (v <= y)%Q.
Proof.
  intros Hr Hv. unfold ceil_to.
  destruct (Qeq_bool r 0) eqn:E; [done|]. intros [= <-].
  pose proof (Qle_ceiling (m / r)) as Hc.
  assert (m == m / r * r)%Q as Hm by (field; lra).
  assert (m / r * r <= inject_Z (Qceiling (m / r)) * r)%Q as Hp.
  { apply Qmult_le_compat_r; [done|]. by apply Qlt_le_weak. }
  rewrite <- Hm in Hp. by apply (Qle_trans _ m).
Qed.

Lemma floor_to_le (m v r : Q) (y : Q) :
  (0 < r)%Q → (m <= v)%Q → floor_to (Some m) r = JNum y → (y <= v)%Q.
Proof.
  intros Hr Hv. unfold floor_to.
  destruct (Qeq_bool r 0) eqn:E; [done|]. intros [= <-].
  pose proof (Qfloor_le (m / r)) as Hc.
  assert (m == m / r * r)%Q as Hm by (field; lra).
  assert (inject_Z (Qfloor (m / r)) * r <= m / r * r)%Q as Hp.
  { apply Qmult_le_compat_r; [done|]. by apply Qlt_le_weak. }
  rewrite <- Hm in Hp. by apply (Qle_trans _ m).
Qed.

Lemma js_ge_num B (a b : Q) : js_ge B (JNum a) (JNum b) = true ↔ (b <= a)%Q.
Proof. unfold js_ge. simpl. apply Qle_bool_iff. Qed.

Lemma js_ge_dates B (a b : Z) :
  js_ge B (JDate (Instant a)) (JDate (Instant b)) = true ↔ b <= a.
Proof. unfold js_ge. simpl. by rewrite Qle_bool_iff, <- Zle_Qle. Qed.

(** The least and greatest of the dates of the data, as the date branch of
    either [createScales] finds them. *)
Lemma default_x_encloses B (vals : list (option Q)) (lo hi t : Z) :
  new_Date B (of_number (d3_min vals)) = Instant lo →
  new_Date B (of_number (d3_max vals)) = Instant hi →
  Some (inject_Z t) ∈ vals → lo <= t <= hi.
Proof.
  intros Hlo Hhi Hin.
  destruct (d3_min vals) as [m|] eqn:Em; [|done].
  destruct (d3_max vals) as [M|] eqn:EM; [|done].
  simpl in Hlo, Hhi. apply TimeClip_Instant in Hlo, Hhi. subst lo hi. split.
  - apply Qtrunc_le_whole. by apply (d3_min_le vals).
  - apply Qtrunc_ge_whole. by apply (d3_max_ge vals).
Qed.

(** X10.  With no limits passed and a positive rounding unit, the
    fixed-axis plot draws every point of the answer whose value is zero or
    more, and none whose value is negative: the x range runs from the
    first to the last date of the data, the y range from 0 to the greatest
    value rounded up. *)
Theorem fixed_default_view (B : Browser) (yRound : Q) (data : list Point) (lim : Limits)
    (d : Point) (t : Z) (v : Q) :
  (0 < yRound)%Q →
  FixedAxis.createScales B yRound data JNull JNull JNull JNull = inr lim →
  d ∈ data →
  getf d "date" = JDate (Instant t) →
  getf d "value" = JNum v →
  yMin lim = JNum 0
  ∧ xMin lim <= t <= xMax lim
  ∧ (inside B lim (getf d "date") (getf d "value") = true ↔ (0 <= v)%Q).
Proof.
  intros Hr Hc Hd Ht Hv. unfold FixedAxis.createScales in Hc. simpl in Hc.
  set (xs := map (fun d => ToNumber B (getf d "date")) data) in *.
  set (ys := map (fun d => ToNumber B (getf d "value")) data) in *.
  destruct (new_Date B (of_number (d3_min xs))) as [lo|] eqn:Elo; [|done].
  destruct (new_Date B (of_number (d3_max xs))) as [hi|] eqn:Ehi; [|done].
  injection Hc as <-. simpl.
  assert (Some (inject_Z t) ∈ xs) as Hx.
  { apply list_elem_of_fmap. exists d. by rewrite Ht. }
  assert (Some v ∈ ys) as Hy.
  { apply list_elem_of_fmap. exists d. by rewrite Hv. }
  pose proof (default_x_encloses B xs lo hi t Elo Ehi Hx) as Hbox.
  split; [done|]. split; [done|].
  unfold inside. simpl. rewrite Ht, Hv.
  assert (js_ge B (JDate (Instant t)) (JDate (Instant lo)) = true) as ->
    by (apply js_ge_dates; lia).
  assert (js_le B (JDate (Instant t)) (JDate (Instant hi)) = true) as ->
    by (apply js_ge_dates; lia).
  simpl.
  assert (js_le B (JNum v) (ceil_to (d3_max ys) yRound) = true) as ->.
  { destruct (d3_max ys) as [M|] eqn:EM.
    - pose proof (d3_max_ge ys M v EM Hy) as Hle.
      unfold ceil_to. destruct (Qeq_bool yRound 0) eqn:E.
      + apply Qeq_bool_iff in E. lra.
      + apply js_ge_num. apply (ceil_to_ge M v yRound); [done|done|].
        unfold ceil_to. by rewrite E.
    - destruct (d3_pick_Some (fun x m => Qlt_bool m x) ys v Hy) as [? E].
      unfold d3_max in EM. congruence. }
  rewrite andb_true_r. apply js_ge_num.
Qed.

Lemma fixed_default_view_witness :
  let data := map (convert example_UTCCorrection ["date"]) example_data in
  let lim := mkLimits 1499992800000 1509992800000 (JNum 0) (JNum 450) in
  let d := convert example_UTCCorrection ["date"] (measurement 1502000000 (871 # 10) None) in
  yMin lim = JNum 0
  ∧ xMin lim <= 1501992800000 <= xMax lim
  ∧ (inside example_browser lim (getf d "date") (getf d "value") = true
     ↔ (0 <= 871 # 10)%Q).
Proof.
  intros data lim d.
  apply (fixed_default_view example_browser example_yAxisRound data lim d).
  - reflexivity.
  - vm_compute. reflexivity.
  - right. left.
  - vm_compute. reflexivity.
  - vm_compute. reflexivity.
Defined.

(** X11.  With no limits passed, [processAxis] of the variable-axis plot
    returns bounds that enclose the data: from the first to the last date
    on the x axis, from the least value rounded down to the greatest
    rounded up on the y axis.  When the x attribute is the one the page
    starts with, the filter of [render] then keeps every point that has a
    date and a number. *)
Theorem var_default_view (B : Browser) (x0 ya : VarAxis.Accessor) (data : list Point)
    (lo hi : Z) (ylo yhi : JsVal) :
  VarAxis.processAxis_date B data (Some x0) JNull JNull = inr (lo, hi) →
  VarAxis.processAxis_number B data (Some ya) JNull JNull 1 = inr (ylo, yhi) →
  (∀ d t, d ∈ data → getf d (VarAxis.acc_field x0) = JDate (Instant t) → lo <= t <= hi)
  ∧ (∀ d v, d ∈ data → getf d (VarAxis.acc_field ya) = JNum v →
       js_ge B (JNum v) ylo = true ∧ js_le B (JNum v) yhi = true)
  ∧ ((∀ d, d ∈ data → ∃ t v, getf d (VarAxis.acc_field x0) = JDate (Instant t)
                             ∧ getf d (VarAxis.acc_field ya) = JNum v) →
     VarAxis.shown_points B x0 (mkLimits lo hi ylo yhi) (Some ya) data = inr data).
Proof.
  intros Hx Hy.
  unfold VarAxis.processAxis_date in Hx. simpl in Hx.
  set (xs := map (fun d => ToNumber B (getf d (VarAxis.acc_field x0))) data) in *.
  destruct (new_Date B (of_number (d3_min xs))) as [lo'|] eqn:Elo; [|done].
  destruct (new_Date B (of_number (d3_max xs))) as [hi'|] eqn:Ehi; [|done].
  injection Hx as <- <-.
  unfold VarAxis.processAxis_number in Hy. simpl in Hy.
  set (ys := map (fun d => ToNumber B (getf d (VarAxis.acc_field ya))) data) in *.
  injection Hy as <- <-.
  assert (∀ d t, d ∈ data → getf d (VarAxis.acc_field x0) = JDate (Instant t) →
                 lo' <= t <= hi') as Hbox.
  { intros d t Hd Ht. apply (default_x_encloses B xs); [done|done|].
    apply list_elem_of_fmap. exists d. by rewrite Ht. }
  assert (∀ d v, d ∈ data → getf d (VarAxis.acc_field ya) = JNum v →
                 js_ge B (JNum v) (floor_to (d3_min ys) 1) = true
                 ∧ js_le B (JNum v) (ceil_to (d3_max ys) 1) = true) as Hval.
  { intros d v Hd Hv.
    assert (Some v ∈ ys) as Hin.
    { apply list_elem_of_fmap. exists d. by rewrite Hv. }
    destruct (d3_pick_Some (fun x m => Qlt_bool x m) ys v Hin) as [m Em].
    destruct (d3_pick_Some (fun x m => Qlt_bool m x) ys v Hin) as [M EM].
    change (d3_min ys = Some m) in Em. change (d3_max ys = Some M) in EM.
    rewrite Em, EM. simpl. split; apply js_ge_num.
    - apply (floor_to_le m v 1); [done|by apply (d3_min_le ys)|done].
    - apply (ceil_to_ge M v 1); [done|by apply (d3_max_ge ys)|done]. }
  split; [exact Hbox|]. split; [exact Hval|].
  intros Hall.
  cut (∀ l, (∀ d, d ∈ l → d ∈ data) →
            VarAxis.shown_points B x0 (mkLimits lo' hi' (floor_to (d3_min ys) 1)
                                                 (ceil_to (d3_max ys) 1)) (Some ya) l = inr l).
  { intros Hc. by apply Hc. }
  induction l as [|d l IH]; intros Hsub; simpl; [done|].
  assert (d ∈ data) as Hd by (apply Hsub; left).
  destruct (Hall d Hd) as (t & v & Ht & Hv).
  destruct (Hbox d t Hd Ht) as [H1 H2]. destruct (Hval d v Hd Hv) as [H3 H4].
  rewrite Ht, Hv.
  assert (js_ge B (JDate (Instant t)) (JDate (Instant lo')) = true) as ->
    by (by apply js_ge_dates).
  assert (js_le B (JDate (Instant t)) (JDate (Instant hi')) = true) as ->
    by (by apply js_ge_dates).
  simpl. rewrite H3, H4. simpl. rewrite IH; [done|].
  intros d' Hd'. apply Hsub. by right.
Qed.

Lemma var_default_view_witness :
  let data := map (convert example_UTCCorrection (map_keys example_xOptions)) example_data in
  VarAxis.shown_points example_browser example_dataXDefault var_full
                       (Some example_dataYDefault) data = inr data.
Proof.
  intros data.
  apply (var_default_view example_browser example_dataXDefault example_dataYDefault data
           1499992800000 1509992800000 (JNum 87) (JNum 412)).
  - vm_compute. reflexivity.
  - vm_compute. reflexivity.
  - intros d Hd. unfold data in Hd. simpl in Hd.
    apply elem_of_cons in Hd as [->|Hd]; [|apply elem_of_cons in Hd as [->|Hd];
      [|apply list_elem_of_singleton in Hd as ->]];
      eexists _, _; split; vm_compute; reflexivity.
Defined.

(** X12.  An answer that is an empty array, to a request without an x
    bound, makes the callback of [render] throw a [RangeError] on the
    fixed-axis page: the request is taken off the queue and nothing else
    changes, the limits on display included.  The same happens on the
    variable-axis page when the stack on display is empty. *)
Theorem empty_answer_throws :
  (∀ (B : Browser) (compounds : list string) (UTCoffset xZoomLimit yRound : Q)
     (JSONFiles : string → option (list Raw)) (p : FixedAxis.Plot) (i : nat) (f : Fetch)
     (c : string),
     FixedAxis.pending p !! i = Some f →
     f_compound f = Some c →
     JSONFiles c = Some [] →
     falsy (f_xMin f) = true ∨ falsy (f_xMax f) = true →
     FixedAxis.handle B compounds UTCoffset xZoomLimit yRound JSONFiles (FixedAxis.FetchDone i) p
     = Throw RangeError (FixedAxis.with_pending (delete i (FixedAxis.pending p)) p))
  ∧ (∀ (B : Browser) (compounds : list string)
       (xOptions yOptions : list (string * VarAxis.Accessor))
       (dataXDefault0 : VarAxis.Accessor) (UTCoffset xZoomLimit : Q)
       (JSONFiles : string → option (list Raw)) (p : VarAxis.DataSelector) (i : nat)
       (f : Fetch) (c : string),
       VarAxis.pending p !! i = Some f →
       f_compound f = Some c →
       JSONFiles c = Some [] →
       falsy (f_xMin f) = true ∨ falsy (f_xMax f) = true →
       VarAxis.current_stack xOptions yOptions p = Some [] →
       VarAxis.handle B compounds xOptions yOptions dataXDefault0 UTCoffset xZoomLimit
                      JSONFiles (VarAxis.FetchDone i) p
       = Throw RangeError (VarAxis.with_pending (delete i (VarAxis.pending p)) p)).
Proof.
  split.
  - intros B compounds UTCoffset xZoomLimit yRound JSONFiles p i f c Hi Hc Hfile Hx.
    simpl. unfold FixedAxis.fetch_done, bind, gets, modify. rewrite Hi, Hc, Hfile.
    unfold FixedAxis.render_then, FixedAxis.createScales. simpl.
    destruct Hx as [Hx|Hx]; rewrite Hx; simpl.
    + done.
    + by destruct (new_Date B (if falsy (f_xMin f) then JNaN else f_xMin f)).
  - intros B compounds xOptions yOptions dataXDefault0 UTCoffset xZoomLimit JSONFiles
      p i f c Hi Hc Hfile Hx Hst.
    simpl. unfold VarAxis.fetch_done, bind, gets, modify. rewrite Hi, Hc, Hfile.
    unfold VarAxis.current_stack in Hst.
    destruct (previousCompound (VarAxis.sel p)) as [cur|] eqn:Ecur; [|done].
    simpl in Hst. unfold VarAxis.stack_of in Hst.
    destruct (VarAxis.zoomHistory p !! cur) as [sub|] eqn:Esub; [|done]. simpl in Hst.
    unfold VarAxis.render_then, VarAxis.createScales, bind, get. simpl.
    rewrite Ecur, Esub, Hst. simpl.
    assert (∀ a b, falsy a = true ∨ falsy b = true →
              VarAxis.processAxis_date B [] (VarAxis.dataXDefault p) a b = inl RangeError)
      as Hd.
    { intros a b Hab. unfold VarAxis.processAxis_date.
      assert (VarAxis.attr_numbers B (VarAxis.dataXDefault p) [] = inr []) as ->
        by (by destruct (VarAxis.dataXDefault p)).
      destruct Hab as [E|E]; rewrite E; simpl.
      - by destruct (falsy b).
      - destruct (falsy a); simpl; [done|]. by destruct (new_Date B a). }
    destruct (is_nullish (f_xMin f) || is_nullish (f_xMax f) || is_nullish (f_yMin f)
              || is_nullish (f_yMax f)); by rewrite Hd.
Qed.

Lemma empty_answer_throws_witness :
  let p := FixedAxis.initial ["ethane"] in
  FixedAxis.handle example_browser ["ethane"] example_UTCCorrection example_xZoomLimit
                   example_yAxisRound (fun _ => Some []) (FixedAxis.FetchDone 0) p
  = Throw RangeError (FixedAxis.with_pending (delete 0%nat (FixedAxis.pending p)) p).
Proof.
  intros p. destruct empty_answer_throws as [Hf _].
  apply (Hf example_browser ["ethane"] example_UTCCorrection example_xZoomLimit
            example_yAxisRound (fun _ => Some []) p 0%nat
            (mkFetch (Some "ethane") JNull JNull JNull JNull) "ethane").
  - reflexivity.
  - reflexivity.
  - reflexivity.
  - left. reflexivity.
Defined.

Lemma alike_default {A} (v w : JsVal) (x : A) (f : JsVal → A) :
  treated_alike v w →
  (if falsy v then x else f v) = (if falsy w then x else f w).
Proof. intros [->|[-> ->]]; done. Qed.

(** X21.  A bound that is falsy, such as the number 0 of a shift-drag or
    the empty text of an input box, is treated as a missing bound: the
    [createScales] of the fixed-axis plot, the callback of its [render]
    and both branches of [processAxis] give the same result for it as for
    [null]. *)
Theorem falsy_bound_is_missing (B : Browser) (data : list Point)
    (a a' b b' c c' d d' : JsVal) :
  treated_alike a a' → treated_alike b b' → treated_alike c c' → treated_alike d d' →
  (∀ yRound, FixedAxis.createScales B yRound data a b c d
             = FixedAxis.createScales B yRound data a' b' c' d')
  ∧ (∀ UTCoffset yRound comp raw p,
       FixedAxis.render_then B UTCoffset yRound (mkFetch comp a b c d) raw p
       = FixedAxis.render_then B UTCoffset yRound (mkFetch comp a' b' c' d') raw p)
  ∧ (∀ attr, VarAxis.processAxis_date B data attr a b
             = VarAxis.processAxis_date B data attr a' b')
  ∧ (∀ attr round, VarAxis.processAxis_number B data attr c d round
                   = VarAxis.processAxis_number B data attr c' d' round).
Proof.
  intros Ha Hb Hc Hd.
  assert (∀ yRound data0, FixedAxis.createScales B yRound data0 a b c d
                          = FixedAxis.createScales B yRound data0 a' b' c' d') as Hcs.
  { intros yRound data0. unfold FixedAxis.createScales.
    rewrite (alike_default a a' _ (fun v => v) Ha), (alike_default b b' _ (fun v => v) Hb),
      (alike_default c c' _ (fun v => v) Hc), (alike_default d d' _ (fun v => v) Hd).
    done. }
  split; [intros; apply Hcs|]. split.
  - intros UTCoffset yRound comp raw p. unfold FixedAxis.render_then. simpl.
    by rewrite Hcs.
  - split.
    + intros attr. unfold VarAxis.processAxis_date.
      by rewrite (alike_default a a' _ (fun v => inr v) Ha),
        (alike_default b b' _ (fun v => inr v) Hb).
    + intros attr round. unfold VarAxis.processAxis_number.
      by rewrite (alike_default d d' _ (fun v => inr v) Hd),
        (alike_default c c' _ (fun v => inr v) Hc).
Qed.

Lemma falsy_bound_is_missing_witness :
  let data := map (convert example_UTCCorrection ["date"]) example_data in
  FixedAxis.createScales example_browser example_yAxisRound data
    (JDate (Instant 1500000000000)) (JDate (Instant 1505000000000)) (JNum (-5)) (JNum 0)
  = FixedAxis.createScales example_browser example_yAxisRound data
      (JDate (Instant 1500000000000)) (JDate (Instant 1505000000000)) (JNum (-5)) JNull.
Proof.
  intros data.
  destruct (falsy_bound_is_missing example_browser data
              (JDate (Instant 1500000000000)) (JDate (Instant 1500000000000))
              (JDate (Instant 1505000000000)) (JDate (Instant 1505000000000))
              (JNum (-5)) (JNum (-5)) (JNum 0) JNull) as [H _].
  - by left.
  - by left.
  - by left.
  - right. split; reflexivity.
  - apply H.
Defined.

(** * What the selection holds and what the download lists *)

Lemma digits_value_stops (c : ascii) (s2 : string) :
  ((48 <=? N_of_ascii c) && (N_of_ascii c <=? 57))%N = false →
  ∀ s1 acc, digits_value acc (s1 +:+ String c s2) = None.
Proof.
  intros Hc. induction s1 as [|a s1 IH]; intros acc.
  - change (digits_value acc (String c s2) = None). simpl. by rewrite Hc.
  - change (digits_value acc (String a (s1 +:+ String c s2)) = None). simpl.
    destruct ((48 <=? N_of_ascii a) && (N_of_ascii a <=? 57))%N; [apply IH|done].
Qed.

Lemma array_index_stops (c : ascii) (s1 s2 : string) :
  ((48 <=? N_of_ascii c) && (N_of_ascii c <=? 57))%N = false →
  array_index (s1 +:+ String c s2) = None.
Proof.
  intros Hc. unfold array_index.
  destruct (s1 +:+ String c s2) as [|a rest] eqn:E; [done|].
  destruct (Ascii.eqb a "0" && negb (String.eqb rest EmptyString)); [done|].
  rewrite <- E. by rewrite (digits_value_stops c s2 Hc).
Qed.

(** A date-key is never an array index: it holds a sign or a hyphen. *)
Lemma date_key_plain (k : string) : is_date_key k → array_index k = None.
Proof.
  intros (date & salt & Hk).
  destruct date as [| | | | |[ms|]]; try done.
  pose proof (formatISODate_minute ms salt) as H. cbv zeta in H.
  destruct (civil_from_days (ms / 60000 / 1440)) as [[y m] dd].
  rewrite H in Hk. clear H. injection Hk as <-.
  set (rest := pad 2 m +:+ "-" +:+ pad 2 dd +:+ " " +:+ pad 2 (ms / 60000 mod 1440 / 60)
               +:+ ":" +:+ pad 2 (ms / 60000 mod 60)).
  assert (∀ tail, array_index ((iso_year y +:+ "-" +:+ rest) +:+ tail) = None) as Hall.
  { intros tail. unfold iso_year.
    destruct ((0 <=? y) && (y <=? 9999)); [|destruct (y <? 0)].
    - rewrite app_string_assoc.
      change (array_index (pad 4 y +:+ String "-" (rest +:+ tail)) = None).
      by apply array_index_stops.
    - change (array_index (EmptyString +:+ String "-" ((pad 6 (- y) +:+ "-" +:+ rest) +:+ tail))
              = None).
      by apply array_index_stops.
    - change (array_index (EmptyString +:+ String "+" ((pad 6 y +:+ "-" +:+ rest) +:+ tail))
              = None).
      by apply array_index_stops. }
  assert (∀ s : string, s +:+ EmptyString = s) as Hnil.
  { induction s as [|a s IH]; [done|].
    change (String a (s +:+ EmptyString) = String a s). by rewrite IH. }
  destruct salt as [t|]; [destruct (decide (t = EmptyString))|].
  - rewrite <- (Hnil (_ +:+ _)). apply Hall.
  - apply Hall.
  - rewrite <- (Hnil (_ +:+ _)). apply Hall.
Qed.

Lemma sel_dated_same s s' : sel_same s s' → sel_dated s → sel_dated s'.
Proof. intros Hs Hd c k Hsel. apply (Hd c). by apply (selected_same s s'). Qed.

Section Dated.
Variable compounds : list string.

Lemma updateClicked_dated cur s date salt flag :
  sel_good compounds cur s → sel_dated s →
  sel_dated (out_state (updateClicked date salt flag s)).
Proof.
  intros Hg Hd.
  destruct (formatISODate date salt) as [e|key] eqn:Hkey.
  { unfold updateClicked. by rewrite Hkey. }
  destruct (good_alias _ _ _ Hg) as (a & Ha & _).
  destruct (updateClicked_effect compounds cur s date salt flag key a Hg Hkey Ha)
    as (s' & -> & _ & Ec & Eo & Ea & _).
  simpl. intros c k (x & Hx & Hin). rewrite Ec in Hx.
  destruct (decide (x = a)) as [->|Hne].
  - rewrite Ea in Hin. destruct (decide (key ∈ set_at a s)).
    + apply (Hd c). exists a. split; [done|].
      destruct flag; [by apply elem_of_set_delete in Hin as [_ ?]|done].
    + apply elem_of_app in Hin as [Hin|Hin]; [apply (Hd c); by exists a|].
      apply list_elem_of_singleton in Hin as ->. by exists date, salt.
  - rewrite Eo in Hin by done. apply (Hd c). by exists x.
Qed.

Lemma cleanPlot_sets_dated c s :
  sel_dated s → sel_dated (out_state (cleanPlot_sets c s)).
Proof.
  intros Hd. destruct (selectionsByCompound s !! c) as [ca|] eqn:Hc.
  2:{ unfold cleanPlot_sets, bind, gets. by rewrite Hc. }
  rewrite (cleanPlot_sets_eq c ca s Hc). simpl.
  destruct (clean_all_frame c (set_at ca s) s) as (Eb & _ & _ & _ & Eh).
  intros c' k (x & Hx & Hin). simpl in Hx. rewrite Eb in Hx.
  destruct (decide (x = ca)) as [->|Hne].
  - rewrite set_at_with_set_eq in Hin. by apply elem_of_nil in Hin.
  - rewrite set_at_with_set_ne in Hin by done.
    apply (Hd c'). exists x. split; [done|]. unfold set_at in *. by rewrite <- Eh.
Qed.

Lemma reclick_dated cur s kd ks cd shown :
  sel_good compounds cur s → sel_dated s →
  sel_dated (out_state (reclick kd ks cd shown s)).
Proof.
  intros Hg Ht. unfold reclick. destruct shown as [|d0 shown0]; [done|].
  unfold bind, gets. destruct (good_alias _ _ _ Hg) as (a & Ha & Hs). rewrite Hs.
  match goal with |- context [match ?t with inl _ => _ | inr _ => _ end] =>
    destruct t as [e|keep] end; [done|].
  apply (for_of_keeps _ (fun t => sel_good compounds cur t ∧ sel_dated t)); [done|].
  intros d t [Hgt Htt]. split.
  - by apply updateClicked_good.
  - by apply (updateClicked_dated cur).
Qed.

Lemma sel_dated_empty s :
  (∀ c a, selectionsByCompound s !! c = Some a → set_at a s = []) → sel_dated s.
Proof. intros He c k (a & Ha & Hin). rewrite (He c a Ha) in Hin. by apply elem_of_nil in Hin. Qed.

End Dated.

Section FixedDated.
Variable B : Browser.
Variable compounds : list string.
Variable UTCoffset : Q.
Variable xZoomLimit : Q.
Variable yRound : Q.
Variable JSONFiles : string -> option (list Raw).

Import FixedAxis.

Local Abbreviation step := (FixedAxis.step B compounds UTCoffset xZoomLimit yRound JSONFiles).
Local Abbreviation reachable := (FixedAxis.reachable B compounds UTCoffset xZoomLimit yRound JSONFiles).
Local Abbreviation good := (fixed_good compounds).

Lemma fixed_step_dated c0 rest p e :
  compounds = c0 :: rest →
  good p → sel_dated (sel p) → possible compounds e → sel_dated (sel (step p e)).
Proof.
  intros Hcs Hg Ht Hposs.
  destruct (fixed_selecting e) eqn:Hsel.
  2:{ eapply sel_dated_same; [|exact Ht]. by apply fixed_step_same. }
  unfold FixedAxis.step.
  destruct e as [c|x1 x2 y1 y2| | | | | | |d|ds alt|x0 x1 y0 y1|i]; simpl; try done.
  - (* ClearPlot *)
    unfold bind at 1, gets. unfold cleanPlot.
    destruct (cleanPlot_sets_good compounds _ _ Hg) as (t & Hrun & Hgt).
    pose proof (cleanPlot_sets_dated (selector p) (sel p) Ht) as Htt.
    rewrite Hrun in Htt. simpl in Htt.
    unfold bind, on_sel, zoom_in. rewrite Hrun.
    by rewrite (fixed_render compounds (with_sel t p)).
  - (* ClearAll *)
    destruct (fixed_totalRefresh_spec compounds c0 rest p Hcs (good_wf _ _ _ Hg))
      as (p' & -> & _ & _ & _ & He).
    by apply sel_dated_empty.
  - (* Click *)
    pose proof (updateClicked_dated compounds _ (sel p) (getf d "date") (psalt d) true Hg Ht)
      as Htt.
    unfold on_sel, zoom_in. by destruct (updateClicked _ _ _ _).
  - (* DragSelect *)
    unfold dragEnd_select.
    apply (for_of_keeps _ (fun q => good q ∧ sel_dated (sel q))); [done|].
    intros d q [Hgq Htq]. split; [by apply fixed_click_good|].
    pose proof (updateClicked_dated compounds _ (sel q) (getf d "date") (psalt d) alt Hgq Htq)
      as Htt.
    unfold on_sel, zoom_in. by destruct (updateClicked _ _ _ _).
Qed.

Lemma fixed_reachable_dated c0 rest p :
  compounds = c0 :: rest → reachable p → sel_dated (sel p).
Proof.
  intros Hcs Hr. induction Hr as [|p e Hr IH Hp].
  - unfold initial.
    destruct (fixed_initVars_good compounds c0 rest constructed Hcs)
      as (p' & -> & _ & _ & _ & _ & _ & He).
    + apply sel_wf_constructed.
    + by apply sel_dated_empty.
  - apply (fixed_step_dated c0 rest); try done.
    by apply (fixed_reachable_good B compounds UTCoffset xZoomLimit yRound JSONFiles c0 rest).
Qed.

End FixedDated.

Section VarDated.
Variable B : Browser.
Variable compounds : list string.
Variable xOptions : list (string * VarAxis.Accessor).
Variable yOptions : list (string * VarAxis.Accessor).
Variable dataXDefault0 : VarAxis.Accessor.
Variable dataYDefault0 : VarAxis.Accessor.
Variable UTCoffset : Q.
Variable xZoomLimit : Q.
Variable JSONFiles : string -> option (list Raw).

Import VarAxis.

Local Abbreviation step :=
  (VarAxis.step B compounds xOptions yOptions dataXDefault0 UTCoffset xZoomLimit JSONFiles).
Local Abbreviation reachable :=
  (VarAxis.reachable B compounds xOptions yOptions dataXDefault0 dataYDefault0 UTCoffset
                     xZoomLimit JSONFiles).
Local Abbreviation render_then := (VarAxis.render_then B xOptions yOptions dataXDefault0 UTCoffset).
Local Abbreviation createScales := (VarAxis.createScales B xOptions yOptions).
Local Abbreviation good := (var_good compounds).

Lemma var_render_then_dated p f raw :
  good p → sel_dated (sel p) → sel_dated (sel (out_state (render_then f raw p))).
Proof.
  intros Hg Ht.
  cut (∀ q, q = out_state (render_then f raw p) → sel_dated (sel q)).
  { intros H. by apply H. }
  intros q Hq. unfold VarAxis.render_then in Hq.
  set (data := map (convert UTCoffset (map_keys xOptions)) raw) in *.
  pose proof (var_createScales_frame B xOptions yOptions data
                (f_xMin f) (f_xMax f) (f_yMin f) (f_yMax f) p)
    as (Hs & Hv & _ & _ & Hdx & _).
  unfold bind at 1 in Hq.
  destruct (createScales data _ _ _ _ p) as [lim p1|e p1]; simpl in *.
  2:{ subst q. by rewrite Hs. }
  assert (good p1) as Hg1 by (unfold var_good; by rewrite Hs, Hv).
  unfold bind, modify, get in Hq. simpl in Hq.
  destruct (shown_points B dataXDefault0 lim (dataYDefault p1) data) as [e|shown].
  { subst q. simpl. by rewrite Hs. }
  destruct (dataXDefault p1) as [ax|] eqn:Ex.
  - unfold on_sel, zoom_in in Hq. simpl in Hq.
    pose proof (reclick_dated compounds (selector p1) (sel p1)
                  (fun d => getf d (acc_field ax)) (fun _ => None)
                  (fun d => getf d "date") shown Hg1) as Hrt.
    rewrite <- Hs in Ht. specialize (Hrt Ht). subst q.
    destruct (reclick _ _ _ _ _); simpl in *; exact Hrt.
  - destruct shown as [|d0 shown]; subst q; simpl; by rewrite Hs.
Qed.

Lemma var_step_dated c0 rest p e :
  compounds = c0 :: rest →
  good p → sel_dated (sel p) → possible compounds xOptions yOptions e →
  sel_dated (sel (step p e)).
Proof.
  intros Hcs Hg Ht Hposs.
  destruct e as [c|k|k|x1 x2 y1 y2| | | | | | |d|ds alt|x0 x1 y0 y1|i];
    try (eapply sel_dated_same; [|exact Ht]; by apply var_step_same).
  - (* ClearPlot *)
    unfold VarAxis.step. simpl. unfold bind at 1, gets. unfold cleanPlot.
    destruct (cleanPlot_sets_good compounds _ _ Hg) as (t & Hrun & Hgt).
    pose proof (cleanPlot_sets_dated (selector p) (sel p) Ht) as Htt.
    rewrite Hrun in Htt. simpl in Htt.
    unfold bind, on_sel, zoom_in. rewrite Hrun.
    by rewrite (var_render compounds (with_sel t p)).
  - (* ClearAll *)
    unfold VarAxis.step. simpl.
    destruct (var_totalRefresh_spec compounds xOptions yOptions c0 rest p Hcs
                (good_wf _ _ _ Hg)) as (p' & -> & _ & _ & _ & He).
    by apply sel_dated_empty.
  - (* Click *)
    unfold VarAxis.step. simpl.
    pose proof (updateClicked_dated compounds _ (sel p) (getf d "date") None true Hg Ht)
      as Htt.
    unfold on_sel, zoom_in. by destruct (updateClicked _ _ _ _).
  - (* DragSelect *)
    unfold VarAxis.step. simpl. unfold dragEnd_select.
    apply (for_of_keeps _ (fun q => good q ∧ sel_dated (sel q))); [done|].
    intros d q [Hgq Htq]. split; [by apply var_click_good|].
    pose proof (updateClicked_dated compounds _ (sel q) (getf d "date") None alt Hgq Htq)
      as Htt.
    unfold on_sel, zoom_in. by destruct (updateClicked _ _ _ _).
  - (* FetchDone *)
    unfold VarAxis.step. simpl. unfold fetch_done, bind, gets.
    destruct (pending p !! i) as [f|]; [|done].
    unfold modify. destruct (f_compound f) as [c|]; [|done].
    destruct (JSONFiles c) as [raw|]; [|done].
    by apply (var_render_then_dated (with_pending _ p) f raw Hg).
Qed.

Lemma var_reachable_dated c0 rest p :
  compounds = c0 :: rest → reachable p → sel_dated (sel p).
Proof.
  intros Hcs Hr. induction Hr as [|p e Hr IH Hp].
  - unfold VarAxis.initial.
    destruct (var_initVars_good compounds xOptions yOptions c0 rest
                (constructed dataXDefault0 dataYDefault0) Hcs)
      as (p' & -> & _ & _ & _ & _ & He).
    + apply sel_wf_constructed.
    + by apply sel_dated_empty.
  - apply (var_step_dated c0 rest); try done.
    by apply (var_reachable_good B compounds xOptions yOptions dataXDefault0 dataYDefault0
                UTCoffset xZoomLimit JSONFiles c0 rest).
Qed.

End VarDated.

(** The keys of the ledger of a tidy state of date-keys are distinct and
    none is an array index. *)
Lemma ledger_plain (s : Sel) :
  sel_tidy s → sel_dated s →
  NoDup (map_keys (selectionsByDate s))
  ∧ ∀ k, k ∈ map_keys (selectionsByDate s) → array_index k = None.
Proof.
  intros [Hi [Hnd Hne]] Hd. split; [done|].
  intros k Hk. apply list_elem_of_fmap in Hk as ([k' cs] & -> & Hin). simpl.
  destruct (Hne k' cs Hin) as [Hcs _].
  destruct cs as [|c cs]; [done|].
  apply date_key_plain. apply (Hd c), Hi. exists (c :: cs). split; [|left].
  by apply elem_of_map_get.
Qed.

Lemma export_entries_plain (ledger : JSMap (list string)) :
  NoDup (map_keys ledger) →
  (∀ k, k ∈ map_keys ledger → array_index k = None) →
  jsonBox_entries ledger = ledger ∧ export_entries ledger = js_sort ledger.
Proof.
  intros Hnd Hplain. split.
  - unfold jsonBox_entries. rewrite (fromEntries_distinct _ Hnd).
    by apply property_order_plain.
  - unfold export_entries.
    assert (NoDup (map_keys (js_sort ledger))) as Hnd'.
    { unfold map_keys. by rewrite (js_sort_perm ledger). }
    rewrite (fromEntries_distinct _ Hnd').
    apply property_order_plain.
    intros k Hk. apply Hplain. unfold map_keys in *.
    by rewrite (js_sort_perm ledger) in Hk.
Qed.

(** The export of a tidy ledger of date-keys lists what is selected. *)
Lemma export_lists_selection compounds cur (s : Sel) :
  sel_good compounds cur s → sel_tidy s → sel_dated s →
  NoDup (map_keys (export_entries (selectionsByDate s)))
  ∧ ∀ d c, (∃ cs, (d, cs) ∈ export_entries (selectionsByDate s) ∧ c ∈ cs) ↔ selected s c d.
Proof.
  intros Hg Ht Hd. destruct (ledger_plain s Ht Hd) as [Hnd Hplain].
  destruct Ht as [Hi _].
  destruct (export_entries_plain _ Hnd Hplain) as [_ Hexp].
  assert (export_entries (selectionsByDate s) ≡ₚ selectionsByDate s) as Hperm.
  { rewrite Hexp. apply js_sort_perm. }
  split.
  - unfold map_keys. by rewrite Hperm.
  - intros d c. split.
    + intros (cs & Hin & Hc). rewrite Hperm in Hin. apply Hi. exists cs. split; [|done].
      by apply elem_of_map_get.
    + intros (a & Ha & Hin).
      destruct (good_committed _ _ _ Hg c a d Ha Hin) as (cs & Hget & Hc).
      exists cs. split; [|done]. rewrite Hperm. by apply elem_of_map_get.
Qed.

(** X13.  The download button commits the set on display and writes the
    ledger; on either page the object it writes has every date-key once,
    and names a compound under a date-key exactly when that key is
    selected under that compound.  The button itself changes no
    selection. *)
Theorem download_lists_selection :
  (∀ (B : Browser) (compounds : list string) (UTCoffset xZoomLimit yRound : Q)
     (JSONFiles : string → option (list Raw)) (c0 : string) (rest : list string)
     (p : FixedAxis.Plot),
     compounds = c0 :: rest →
     FixedAxis.reachable B compounds UTCoffset xZoomLimit yRound JSONFiles p →
     let p' := FixedAxis.step B compounds UTCoffset xZoomLimit yRound JSONFiles p
                              FixedAxis.DownloadJSON in
     sel_same (FixedAxis.sel p) (FixedAxis.sel p')
     ∧ NoDup (map_keys (export_entries (selectionsByDate (FixedAxis.sel p'))))
     ∧ ∀ d c, (∃ cs, (d, cs) ∈ export_entries (selectionsByDate (FixedAxis.sel p')) ∧ c ∈ cs)
              ↔ selected (FixedAxis.sel p) c d)
  ∧ (∀ (B : Browser) (compounds : list string)
       (xOptions yOptions : list (string * VarAxis.Accessor))
       (dataXDefault0 dataYDefault0 : VarAxis.Accessor) (UTCoffset xZoomLimit : Q)
       (JSONFiles : string → option (list Raw)) (c0 : string) (rest : list string)
       (p : VarAxis.DataSelector),
       compounds = c0 :: rest →
       VarAxis.reachable B compounds xOptions yOptions dataXDefault0 dataYDefault0
                         UTCoffset xZoomLimit JSONFiles p →
       let p' := VarAxis.step B compounds xOptions yOptions dataXDefault0 UTCoffset
                              xZoomLimit JSONFiles p VarAxis.DownloadJSON in
       sel_same (VarAxis.sel p) (VarAxis.sel p')
       ∧ NoDup (map_keys (export_entries (selectionsByDate (VarAxis.sel p'))))
       ∧ ∀ d c, (∃ cs, (d, cs) ∈ export_entries (selectionsByDate (VarAxis.sel p')) ∧ c ∈ cs)
                ↔ selected (VarAxis.sel p) c d).
Proof.
  split.
  - intros B compounds UTCoffset xZoomLimit yRound JSONFiles c0 rest p Hcs Hr p'.
    assert (FixedAxis.reachable B compounds UTCoffset xZoomLimit yRound JSONFiles p') as Hr'
      by (by constructor).
    pose proof (fixed_reachable_good B compounds UTCoffset xZoomLimit yRound JSONFiles
                  c0 rest p Hcs Hr) as Hg.
    assert (sel_same (FixedAxis.sel p) (FixedAxis.sel p')) as Hsame
      by (by apply fixed_step_same).
    split; [exact Hsame|].
    destruct (export_lists_selection compounds (FixedAxis.selector p') (FixedAxis.sel p'))
      as [Hnd Hiff].
    + by apply (fixed_reachable_good B compounds UTCoffset xZoomLimit yRound JSONFiles c0 rest).
    + by apply (fixed_reachable_tidy B compounds UTCoffset xZoomLimit yRound JSONFiles c0 rest).
    + by apply (fixed_reachable_dated B compounds UTCoffset xZoomLimit yRound JSONFiles
                  c0 rest).
    + split; [exact Hnd|]. intros d c. rewrite Hiff. by apply selected_same.
  - intros B compounds xOptions yOptions dataXDefault0 dataYDefault0 UTCoffset xZoomLimit
      JSONFiles c0 rest p Hcs Hr p'.
    assert (VarAxis.reachable B compounds xOptions yOptions dataXDefault0 dataYDefault0
              UTCoffset xZoomLimit JSONFiles p') as Hr' by (by constructor).
    pose proof (var_reachable_good B compounds xOptions yOptions dataXDefault0 dataYDefault0
                  UTCoffset xZoomLimit JSONFiles c0 rest p Hcs Hr) as Hg.
    assert (sel_same (VarAxis.sel p) (VarAxis.sel p')) as Hsame
      by (by apply var_step_same).
    split; [exact Hsame|].
    destruct (export_lists_selection compounds (VarAxis.selector p') (VarAxis.sel p'))
      as [Hnd Hiff].
    + by apply (var_reachable_good B compounds xOptions yOptions dataXDefault0 dataYDefault0
                  UTCoffset xZoomLimit JSONFiles c0 rest).
    + by apply (var_reachable_tidy B compounds xOptions yOptions dataXDefault0 dataYDefault0
                  UTCoffset xZoomLimit JSONFiles c0 rest).
    + by apply (var_reachable_dated B compounds xOptions yOptions dataXDefault0 dataYDefault0
                  UTCoffset xZoomLimit JSONFiles c0 rest).
    + split; [exact Hnd|]. intros d c. rewrite Hiff. by apply selected_same.
Qed.

Lemma download_lists_selection_witness :
  let p := fixed_run [FixedAxis.FetchDone 0;
                      FixedAxis.Click (point_at 1577836800000 None)] in
  let p' := FixedAxis.step example_browser example_compounds example_UTCCorrection
              example_xZoomLimit example_yAxisRound example_files p FixedAxis.DownloadJSON in
  ∀ d c, (∃ cs, (d, cs) ∈ export_entries (selectionsByDate (FixedAxis.sel p')) ∧ c ∈ cs)
         ↔ selected (FixedAxis.sel p) c d.
Proof.
  intros p p'. destruct download_lists_selection as [Hf _].
  destruct (Hf example_browser example_compounds example_UTCCorrection example_xZoomLimit
              example_yAxisRound example_files "ethane" (tail example_compounds) p)
    as (_ & _ & H).
  - reflexivity.
  - apply fixed_page_reachable. repeat constructor.
  - exact H.
Defined.

(** X17.  In every state either page reaches, the JSON box lists the
    ledger as it is, date-keys in the order in which the [Map] holds them,
    and the download lists the same members in the order of the default
    [sort]: the one is a rearrangement of the other, and both texts are
    made of these lists. *)
Theorem json_box_and_download :
  (∀ (B : Browser) (compounds : list string) (UTCoffset xZoomLimit yRound : Q)
     (JSONFiles : string → option (list Raw)) (c0 : string) (rest : list string)
     (p : FixedAxis.Plot),
     compounds = c0 :: rest →
     FixedAxis.reachable B compounds UTCoffset xZoomLimit yRound JSONFiles p →
     let ledger := selectionsByDate (FixedAxis.sel p) in
     jsonBox_entries ledger = ledger
     ∧ export_entries ledger = js_sort ledger
     ∧ export_entries ledger ≡ₚ jsonBox_entries ledger
     ∧ jsonBox_text ledger = regexReplace_brackets (stringify ledger)
     ∧ export_file ledger = regexReplace_brackets (stringify (js_sort ledger)))
  ∧ (∀ (B : Browser) (compounds : list string)
       (xOptions yOptions : list (string * VarAxis.Accessor))
       (dataXDefault0 dataYDefault0 : VarAxis.Accessor) (UTCoffset xZoomLimit : Q)
       (JSONFiles : string → option (list Raw)) (c0 : string) (rest : list string)
       (p : VarAxis.DataSelector),
       compounds = c0 :: rest →
       VarAxis.reachable B compounds xOptions yOptions dataXDefault0 dataYDefault0
                         UTCoffset xZoomLimit JSONFiles p →
       let ledger := selectionsByDate (VarAxis.sel p) in
       jsonBox_entries ledger = ledger
       ∧ export_entries ledger = js_sort ledger
       ∧ export_entries ledger ≡ₚ jsonBox_entries ledger
       ∧ jsonBox_text ledger = regexReplace_brackets (stringify ledger)
       ∧ export_file ledger = regexReplace_brackets (stringify (js_sort ledger))).
Proof.
  assert (∀ s, sel_tidy s → sel_dated s →
            let ledger := selectionsByDate s in
            jsonBox_entries ledger = ledger
            ∧ export_entries ledger = js_sort ledger
            ∧ export_entries ledger ≡ₚ jsonBox_entries ledger
            ∧ jsonBox_text ledger = regexReplace_brackets (stringify ledger)
            ∧ export_file ledger = regexReplace_brackets (stringify (js_sort ledger)))
    as Hall.
  { intros s Ht Hd ledger. destruct (ledger_plain s Ht Hd) as [Hnd Hplain].
    destruct (export_entries_plain _ Hnd Hplain) as [Hbox Hexp]. fold ledger in Hbox, Hexp.
    split; [done|]. split; [done|]. split; [rewrite Hbox, Hexp; apply js_sort_perm|].
    unfold jsonBox_text, export_file. by rewrite Hbox, Hexp. }
  split.
  - intros B compounds UTCoffset xZoomLimit yRound JSONFiles c0 rest p Hcs Hr.
    apply Hall.
    + by apply (fixed_reachable_tidy B compounds UTCoffset xZoomLimit yRound JSONFiles c0 rest).
    + by apply (fixed_reachable_dated B compounds UTCoffset xZoomLimit yRound JSONFiles
                  c0 rest).
  - intros B compounds xOptions yOptions dataXDefault0 dataYDefault0 UTCoffset xZoomLimit
      JSONFiles c0 rest p Hcs Hr.
    apply Hall.
    + by apply (var_reachable_tidy B compounds xOptions yOptions dataXDefault0 dataYDefault0
                  UTCoffset xZoomLimit JSONFiles c0 rest).
    + by apply (var_reachable_dated B compounds xOptions yOptions dataXDefault0 dataYDefault0
                  UTCoffset xZoomLimit JSONFiles c0 rest).
Qed.

Lemma json_box_and_download_witness :
  let ledger := selectionsByDate
                  (FixedAxis.sel (fixed_run [FixedAxis.FetchDone 0;
                                             FixedAxis.Click (point_at 1580601600000 None);
                                             FixedAxis.Click (point_at 1577836800000 None)])) in
  jsonBox_entries ledger = ledger ∧ export_entries ledger = js_sort ledger.
Proof.
  intros ledger. destruct json_box_and_download as [Hf _].
  destruct (Hf example_browser example_compounds example_UTCCorrection example_xZoomLimit
              example_yAxisRound example_files "ethane" (tail example_compounds)
              (fixed_run [FixedAxis.FetchDone 0;
                          FixedAxis.Click (point_at 1580601600000 None);
                          FixedAxis.Click (point_at 1577836800000 None)]))
    as (H1 & H2 & _).
  - reflexivity.
  - apply fixed_page_reachable. repeat constructor.
  - split; [exact H1|exact H2].
Defined.

(** * The zoom stack on display *)

Lemma reverseKeyLookup_key obj v k :
  VarAxis.reverseKeyLookup obj v = Some k → k ∈ map_keys obj.
Proof.
  unfold VarAxis.reverseKeyLookup. destruct v as [f|]; [|done].
  destruct (find _ obj) as [[k' f']|] eqn:E; [|done]. intros [= <-].
  apply find_some in E as [Hin _]. apply list_elem_of_fmap. exists (k', f').
  split; [done|]. by apply list_elem_of_In.
Qed.

Lemma option_get_named obj k :
  k ∈ map_keys obj →
  ∃ f, VarAxis.option_get obj k = Some f
       ∧ is_Some (VarAxis.reverseKeyLookup obj (Some f)).
Proof.
  unfold VarAxis.option_get, VarAxis.reverseKeyLookup.
  induction obj as [|[k1 f1] obj IH]; intros Hk; [by apply elem_of_nil in Hk|].
  simpl. destruct (decide (k1 = k)) as [->|Hne].
  - exists f1. split; [done|]. by rewrite Nat.eqb_refl.
  - apply elem_of_cons in Hk as [Hk|Hk]; [by subst|].
    destruct (IH Hk) as (f & Hf & Hs). exists f. split; [done|].
    destruct (VarAxis.acc_id f1 =? VarAxis.acc_id f)%nat; [by eexists|done].
Qed.

(** [reverseKeyLookup] finds the key an accessor was read from, when no
    two options hold the same function. *)
Lemma reverseKeyLookup_option_get obj k :
  NoDup (map (fun kv => VarAxis.acc_id kv.2) obj) →
  k ∈ map_keys obj →
  VarAxis.reverseKeyLookup obj (VarAxis.option_get obj k) = Some k.
Proof.
  unfold VarAxis.option_get, VarAxis.reverseKeyLookup.
  induction obj as [|[k1 f1] obj IH]; intros Hnd Hk; [by apply elem_of_nil in Hk|].
  simpl in *. apply NoDup_cons in Hnd as [Hfresh Hnd].
  destruct (decide (k1 = k)) as [->|Hne].
  - simpl. by rewrite Nat.eqb_refl.
  - apply elem_of_cons in Hk as [Hk|Hk]; [by subst|].
    specialize (IH Hnd Hk).
    destruct (map_get k obj) as [f|] eqn:Ef; [|done]. simpl.
    destruct (VarAxis.acc_id f1 =? VarAxis.acc_id f)%nat eqn:E; [|exact IH].
    exfalso. apply Nat.eqb_eq in E. apply Hfresh. rewrite E.
    clear -Ef. induction obj as [|[k2 f2] obj IH]; [done|].
    simpl in *. destruct (decide (k2 = k)).
    + injection Ef as ->. left.
    + right. by apply IH.
Qed.

Section Context.
Variable B : Browser.
Variable compounds : list string.
Variable xOptions : list (string * VarAxis.Accessor).
Variable yOptions : list (string * VarAxis.Accessor).
Variable dataXDefault0 : VarAxis.Accessor.
Variable dataYDefault0 : VarAxis.Accessor.
Variable UTCoffset : Q.
Variable xZoomLimit : Q.
Variable JSONFiles : string -> option (list Raw).

Import VarAxis.

Local Abbreviation handle :=
  (VarAxis.handle B compounds xOptions yOptions dataXDefault0 UTCoffset xZoomLimit JSONFiles).
Local Abbreviation step :=
  (VarAxis.step B compounds xOptions yOptions dataXDefault0 UTCoffset xZoomLimit JSONFiles).
Local Abbreviation reachable :=
  (VarAxis.reachable B compounds xOptions yOptions dataXDefault0 dataYDefault0 UTCoffset
                     xZoomLimit JSONFiles).
Local Abbreviation initial :=
  (VarAxis.initial compounds xOptions yOptions dataXDefault0 dataYDefault0).
Local Abbreviation render_then := (VarAxis.render_then B xOptions yOptions dataXDefault0 UTCoffset).
Local Abbreviation createScales := (VarAxis.createScales B xOptions yOptions).
Local Abbreviation fresh_history := (VarAxis.fresh_history compounds xOptions yOptions).
Local Abbreviation current_stack := (VarAxis.current_stack xOptions yOptions).
Local Abbreviation full := (history_full compounds xOptions yOptions).
Local Abbreviation named := (axes_named xOptions yOptions).
Local Abbreviation good := (var_good compounds).

Local Abbreviation context_ok := (context_ok compounds xOptions yOptions).

Lemma kc_on_sel {A} (m : M Sel A) : keeps_context (on_sel m).
Proof. intros p. unfold on_sel, zoom_in. by destruct (m (sel p)). Qed.

Lemma kc_bind {A C} (m : M DataSelector A) (k : A → M DataSelector C) :
  keeps_context m → (∀ a, keeps_context (k a)) → keeps_context (bind m k).
Proof.
  intros Hm Hk p. unfold bind. specialize (Hm p).
  destruct (m p) as [a p1|e p1]; simpl in *; [|done].
  destruct Hm as (<- & <- & <-). apply Hk.
Qed.

Lemma kc_gets {A} (f : DataSelector → A) : keeps_context (gets f).
Proof. by intros p. Qed.

Lemma kc_for_of {A} (xs : list A) (body : A → M DataSelector unit) :
  (∀ x, keeps_context (body x)) → keeps_context (for_of xs body).
Proof.
  intros Hb. induction xs as [|x xs IH]; [by intros p|].
  simpl. apply kc_bind; auto.
Qed.

Lemma kc_render c a b c' d : keeps_context (render c a b c' d).
Proof.
  unfold render. apply kc_bind; [apply kc_on_sel|]. intros _.
  apply kc_bind; [by intros p|]. intros _. apply kc_on_sel.
Qed.

Lemma kc_updateAxes a b c d : keeps_context (updateAxes a b c d).
Proof.
  unfold updateAxes. apply kc_bind; [apply kc_gets|]. intros v.
  apply kc_bind; [apply kc_on_sel|]. intros _. apply kc_render.
Qed.

Lemma kc_on_change c : keeps_context (on_change c).
Proof.
  unfold on_change. apply kc_bind; [apply kc_on_sel|]. intros _.
  apply kc_bind; [apply kc_render|]. intros _. apply kc_on_sel.
Qed.

Lemma context_kept {A} (m : M DataSelector A) p :
  keeps_context m → context_ok p → context_ok (out_state (m p)).
Proof.
  intros Hk [Hf Hn]. destruct (Hk p) as (Eh & Ex & Ey).
  split; [by rewrite Eh|]. unfold axes_named. by rewrite Ex, Ey.
Qed.

Lemma full_with_stack c key st p :
  full (zoomHistory p) → full (zoomHistory (with_stack c key st p)).
Proof.
  intros Hf c' x y Hc Hx Hy. destruct (Hf c' x y Hc Hx Hy) as (sub & st' & Hs & Hk).
  unfold with_stack. simpl. destruct (decide (c = c')) as [->|Hne].
  - rewrite lookup_insert_eq, Hs. simpl.
    destruct (decide (key = joinXYStrings (Some x) (Some y))) as [->|Hk'].
    + eexists. exists st. split; [done|]. by rewrite lookup_insert_eq.
    + eexists. exists st'. split; [done|]. rewrite lookup_insert_ne; done.
  - rewrite lookup_insert_ne by done. eauto.
Qed.

Lemma full_fresh : full fresh_history.
Proof.
  intros c x y Hc Hx Hy.
  destruct (fresh_history_has compounds xOptions yOptions c x y Hc Hx Hy) as (sub & Hs & Hk).
  eauto.
Qed.

Lemma createScales_context data a b c d p :
  context_ok p → context_ok (out_state (createScales data a b c d p)).
Proof.
  intros [Hf Hn].
  pose proof (var_createScales_frame B xOptions yOptions data a b c d p)
    as (_ & _ & _ & _ & Hdx & Hdy).
  split; [|destruct Hn as [Hx Hy]; split; simpl in *; [by rewrite Hdx|by rewrite Hdy]].
  clear Hdx Hdy. unfold VarAxis.createScales, bind, get. simpl.
  destruct (previousCompound (sel p)) as [c0|]; [|done].
  destruct (zoomHistory p !! c0) as [sub|] eqn:Ec; [|done].
  match goal with |- context [match ?t with inl _ => _ | inr _ => _ end] =>
    destruct t as [e|[[[x0 x1] y0] y1]] end; [done|].
  destruct (processAxis_date _ _ _ _ _) as [e|[lo hi]]; [done|].
  destruct (processAxis_number _ _ _ _ _ _) as [e|[ylo yhi]]; [done|].
  destruct (sub !! _) as [st|] eqn:Ek; [|done].
  unfold bind, modify, ret. destruct (last st) as [top|] eqn:El.
  - destruct (areLimitsEqual _ top) eqn:Eq; [done|]. simpl. by apply full_with_stack.
  - simpl. by apply full_with_stack.
Qed.

Lemma render_then_context f raw p :
  context_ok p → context_ok (out_state (render_then f raw p)).
Proof.
  intros Hok. unfold VarAxis.render_then.
  set (data := map (convert UTCoffset (map_keys xOptions)) raw).
  pose proof (createScales_context data (f_xMin f) (f_xMax f) (f_yMin f) (f_yMax f) p Hok)
    as Hcs.
  unfold bind at 1. destruct (createScales data _ _ _ _ p) as [lim p1|e p1]; simpl in *;
    [|done].
  unfold bind, modify, get. simpl.
  destruct (shown_points _ _ _ _ _) as [e|shown]; [done|].
  assert (context_ok (with_limits (Some lim) p1)) as Hl by done.
  destruct (dataXDefault p1) as [ax|].
  - by apply (context_kept (on_sel _)); [apply kc_on_sel|].
  - destruct shown; [|done]. by apply (context_kept (on_sel _)); [apply kc_on_sel|].
Qed.

Lemma step_context p e :
  possible compounds xOptions yOptions e → context_ok p → context_ok (step p e).
Proof.
  intros Hposs Hok. unfold VarAxis.step.
  destruct e as [c|k|k|x1 x2 y1 y2| | | | | | |d|ds alt|x0 x1 y0 y1|i]; simpl.
  - apply context_kept; [|done]. apply kc_bind; [by intros q|]. intros _. apply kc_on_change.
  - (* SelectX *)
    unfold on_xSelect, bind at 1, modify.
    apply (context_kept (bind (gets (fun q => previousCompound (sel q)))
                              (fun pc => render pc JNull JNull JNull JNull))).
    { apply kc_bind; [apply kc_gets|]. intros pc. apply kc_render. }
    destruct Hok as [Hf [_ Hy]]. split; [done|]. split; [|done]. simpl.
    destruct (option_get_named xOptions k Hposs) as (f & -> & Hs). done.
  - (* SelectY *)
    unfold on_ySelect, bind at 1, modify.
    apply (context_kept (bind (gets (fun q => previousCompound (sel q)))
                              (fun pc => render pc JNull JNull JNull JNull))).
    { apply kc_bind; [apply kc_gets|]. intros pc. apply kc_render. }
    destruct Hok as [Hf [Hx _]]. split; [done|]. split; [done|]. simpl.
    destruct (option_get_named yOptions k Hposs) as (f & -> & Hs). done.
  - apply context_kept; [apply kc_updateAxes|done].
  - apply context_kept; [|done]. apply kc_bind; [apply kc_gets|]. intros v. apply kc_on_sel.
  - apply context_kept; [|done]. unfold getJSONfile_commit.
    apply kc_bind; [apply kc_gets|]. intros v. apply kc_on_sel.
  - apply context_kept; [|done]. apply kc_bind; [apply kc_gets|]. intros v.
    unfold cleanPlot. apply kc_bind; [apply kc_on_sel|]. intros _. apply kc_render.
  - (* ClearAll *)
    unfold totalRefresh, VarAxis.initVars.
    set (p0 := with_zoomHistory fresh_history
                 (with_selector (default EmptyString (head compounds)) p)).
    apply (context_kept
      (bind (bind (on_sel (initVars_sets compounds))
                  (fun _ => render (head compounds) JNull JNull JNull JNull))
            (fun _ => bind (modify (with_selector (default EmptyString (head compounds))))
                        (fun _ => bind (gets selector) on_change))) p0).
    + apply kc_bind.
      * apply kc_bind; [apply kc_on_sel|]. intros _. apply kc_render.
      * intros _. apply kc_bind; [by intros q|]. intros _.
        apply kc_bind; [apply kc_gets|]. intros v. apply kc_on_change.
    + split; [apply full_fresh|]. by destruct Hok.
  - apply context_kept; [apply kc_updateAxes|done].
  - (* UndoZoom *)
    unfold VarAxis.undoZoom, bind at 1, get.
    destruct (previousCompound (sel p)) as [c|]; [|done].
    destruct (stack_of p c _) as [st|] eqn:Est; [|done].
    unfold bind at 1, modify.
    apply context_kept; [apply kc_updateAxes|].
    destruct Hok as [Hf Hn]. split; [by apply full_with_stack|done].
  - apply context_kept; [apply kc_on_sel|done].
  - apply context_kept; [|done]. unfold dragEnd_select. apply kc_for_of.
    intros d0. apply kc_on_sel.
  - apply context_kept; [|done]. unfold dragEnd_zoom.
    apply kc_bind; [apply kc_gets|].
    intros [lim|]; [|by intros q].
    destruct (zoom_range lim xZoomLimit x0 x1). apply kc_updateAxes.
  - (* FetchDone *)
    unfold fetch_done, bind, gets. destruct (pending p !! i) as [f|]; [|done].
    unfold modify. destruct (f_compound f) as [c|]; [|done].
    destruct (JSONFiles c) as [raw|]; [|done].
    by apply render_then_context.
Qed.

Lemma reachable_context p :
  is_Some (reverseKeyLookup xOptions (Some dataXDefault0)) →
  is_Some (reverseKeyLookup yOptions (Some dataYDefault0)) →
  reachable p → context_ok p.
Proof.
  intros Hx Hy Hr. induction Hr as [|p e Hr IH Hp].
  - unfold VarAxis.initial, VarAxis.initVars, bind at 1, modify. unfold bind at 1.
    apply (context_kept (bind (on_sel (initVars_sets compounds))
                              (fun _ => render (head compounds) JNull JNull JNull JNull))).
    + apply kc_bind; [apply kc_on_sel|]. intros _. apply kc_render.
    + split; [apply full_fresh|]. done.
  - by apply step_context.
Qed.

(** In a good state with a full history and named axes the stack on
    display exists. *)
Lemma context_stack p :
  good p → context_ok p → ∃ st, current_stack p = Some st.
Proof.
  intros Hg [Hf [[x Hx] [y Hy]]].
  unfold VarAxis.current_stack. rewrite (good_previous _ _ _ Hg). simpl.
  rewrite Hx, Hy.
  destruct (good_alias _ _ _ Hg) as (a & Ha & _).
  assert (selector p ∈ compounds) as Hc.
  { apply (wf_known _ _ (good_wf _ _ _ Hg)). by eexists. }
  destruct (Hf (selector p) x y Hc) as (sub & st & Hs & Hk).
  - by apply (reverseKeyLookup_key xOptions (dataXDefault p)).
  - by apply (reverseKeyLookup_key yOptions (dataYDefault p)).
  - exists st. unfold stack_of. by rewrite Hs.
Qed.

End Context.

(** X14.  When the two accessors the variable-axis page starts with are
    among its options, the zoom stack of the context on display exists in
    every state the page reaches, and the undo button returns. *)
Theorem stack_on_display_exists (B : Browser) (compounds : list string)
    (xOptions yOptions : list (string * VarAxis.Accessor))
    (dataXDefault0 dataYDefault0 : VarAxis.Accessor) (UTCoffset xZoomLimit : Q)
    (JSONFiles : string → option (list Raw)) (c0 : string) (rest : list string)
    (p : VarAxis.DataSelector) :
  compounds = c0 :: rest →
  is_Some (VarAxis.reverseKeyLookup xOptions (Some dataXDefault0)) →
  is_Some (VarAxis.reverseKeyLookup yOptions (Some dataYDefault0)) →
  VarAxis.reachable B compounds xOptions yOptions dataXDefault0 dataYDefault0
                    UTCoffset xZoomLimit JSONFiles p →
  (∃ st, VarAxis.current_stack xOptions yOptions p = Some st)
  ∧ (∃ p', VarAxis.handle B compounds xOptions yOptions dataXDefault0 UTCoffset xZoomLimit
                          JSONFiles VarAxis.UndoZoom p = Ok tt p').
Proof.
  intros Hcs Hx Hy Hr.
  pose proof (var_reachable_good B compounds xOptions yOptions dataXDefault0 dataYDefault0
                UTCoffset xZoomLimit JSONFiles c0 rest p Hcs Hr) as Hg.
  pose proof (reachable_context B compounds xOptions yOptions dataXDefault0 dataYDefault0
                UTCoffset xZoomLimit JSONFiles p Hx Hy Hr) as Hok.
  destruct (context_stack compounds xOptions yOptions p Hg Hok) as [st Hst].
  split; [by exists st|].
  destruct (var_undo_handler B compounds xOptions yOptions dataXDefault0 UTCoffset xZoomLimit
              JSONFiles p st Hg Hst) as (t & Hrun & _).
  eauto.
Qed.

Lemma stack_on_display_exists_witness :
  let p := var_run [VarAxis.FetchDone 0; VarAxis.SelectY "day"] in
  (∃ st, var_stack p = Some st) ∧ (∃ p', var_handle VarAxis.UndoZoom p = Ok tt p').
Proof.
  intros p.
  apply (stack_on_display_exists example_browser example_compounds example_xOptions
           example_yOptions example_dataXDefault example_dataYDefault
           example_UTCCorrection example_xZoomLimit example_files
           "ethane" (tail example_compounds)).
  - reflexivity.
  - vm_compute. by eexists.
  - vm_compute. by eexists.
  - apply var_page_reachable. repeat constructor.
Defined.

(** X15.  The choice of an x attribute, or of a y attribute, leaves every
    zoom stack as it is, asks for a render of the compound on display
    without limits, and, when no two options hold the same accessor, makes
    the stack of the chosen pair the one on display. *)
Theorem attribute_switches_stack (B : Browser) (compounds : list string)
    (xOptions yOptions : list (string * VarAxis.Accessor))
    (dataXDefault0 dataYDefault0 : VarAxis.Accessor) (UTCoffset xZoomLimit : Q)
    (JSONFiles : string → option (list Raw)) (c0 : string) (rest : list string)
    (p : VarAxis.DataSelector) (k : string) :
  compounds = c0 :: rest →
  VarAxis.reachable B compounds xOptions yOptions dataXDefault0 dataYDefault0
                    UTCoffset xZoomLimit JSONFiles p →
  (k ∈ map_keys xOptions →
   NoDup (map (fun kv => VarAxis.acc_id kv.2) xOptions) →
   let q := VarAxis.step B compounds xOptions yOptions dataXDefault0 UTCoffset xZoomLimit
                         JSONFiles p (VarAxis.SelectX k) in
   VarAxis.zoomHistory q = VarAxis.zoomHistory p
   ∧ VarAxis.sel q = VarAxis.sel p
   ∧ VarAxis.pending q
     = VarAxis.pending p ++ [mkFetch (Some (VarAxis.selector p)) JNull JNull JNull JNull]
   ∧ VarAxis.reverseKeyLookup xOptions (VarAxis.dataXDefault q) = Some k
   ∧ VarAxis.current_stack xOptions yOptions q
     = VarAxis.stack_of p (VarAxis.selector p)
         (VarAxis.joinXYStrings (Some k)
            (VarAxis.reverseKeyLookup yOptions (VarAxis.dataYDefault p))))
  ∧ (k ∈ map_keys yOptions →
     NoDup (map (fun kv => VarAxis.acc_id kv.2) yOptions) →
     let q := VarAxis.step B compounds xOptions yOptions dataXDefault0 UTCoffset xZoomLimit
                           JSONFiles p (VarAxis.SelectY k) in
     VarAxis.zoomHistory q = VarAxis.zoomHistory p
     ∧ VarAxis.sel q = VarAxis.sel p
     ∧ VarAxis.pending q
       = VarAxis.pending p ++ [mkFetch (Some (VarAxis.selector p)) JNull JNull JNull JNull]
     ∧ VarAxis.reverseKeyLookup yOptions (VarAxis.dataYDefault q) = Some k
     ∧ VarAxis.current_stack xOptions yOptions q
       = VarAxis.stack_of p (VarAxis.selector p)
           (VarAxis.joinXYStrings
              (VarAxis.reverseKeyLookup xOptions (VarAxis.dataXDefault p)) (Some k))).
Proof.
  intros Hcs Hr.
  pose proof (var_reachable_good B compounds xOptions yOptions dataXDefault0 dataYDefault0
                UTCoffset xZoomLimit JSONFiles c0 rest p Hcs Hr) as Hg.
  pose proof (good_previous _ _ _ Hg) as Hprev.
  split; intros Hk Hnd q.
  - pose proof (reverseKeyLookup_option_get xOptions k Hnd Hk) as Hrt.
    set (p1 := VarAxis.with_dataXDefault (VarAxis.option_get xOptions k) p).
    assert (q = VarAxis.with_pending
                  (VarAxis.pending p1
                   ++ [mkFetch (Some (VarAxis.selector p1)) JNull JNull JNull JNull]) p1)
      as ->.
    { unfold q, VarAxis.step. simpl. unfold VarAxis.on_xSelect, bind, modify, gets.
      fold p1. change (previousCompound (VarAxis.sel p1)) with (previousCompound (VarAxis.sel p)).
      rewrite Hprev. change (VarAxis.selector p) with (VarAxis.selector p1).
      by rewrite (var_render compounds p1). }
    simpl. do 3 (split; [done|]). split; [exact Hrt|].
    unfold VarAxis.current_stack. simpl. by rewrite Hprev, Hrt.
  - pose proof (reverseKeyLookup_option_get yOptions k Hnd Hk) as Hrt.
    set (p1 := VarAxis.with_dataYDefault (VarAxis.option_get yOptions k) p).
    assert (q = VarAxis.with_pending
                  (VarAxis.pending p1
                   ++ [mkFetch (Some (VarAxis.selector p1)) JNull JNull JNull JNull]) p1)
      as ->.
    { unfold q, VarAxis.step. simpl. unfold VarAxis.on_ySelect, bind, modify, gets.
      fold p1. change (previousCompound (VarAxis.sel p1)) with (previousCompound (VarAxis.sel p)).
      rewrite Hprev. change (VarAxis.selector p) with (VarAxis.selector p1).
      by rewrite (var_render compounds p1). }
    simpl. do 3 (split; [done|]). split; [exact Hrt|].
    unfold VarAxis.current_stack. simpl. by rewrite Hprev, Hrt.
Qed.

Lemma attribute_switches_stack_witness :
  let p := var_run [VarAxis.FetchDone 0] in
  let q := VarAxis.step example_browser example_compounds example_xOptions example_yOptions
             example_dataXDefault example_UTCCorrection example_xZoomLimit example_files
             p (VarAxis.SelectX "meas_date") in
  VarAxis.zoomHistory q = VarAxis.zoomHistory p
  ∧ var_stack q = VarAxis.stack_of p "ethane" "xmeas_date_yMR".
Proof.
  intros p q.
  destruct (attribute_switches_stack example_browser example_compounds example_xOptions
              example_yOptions example_dataXDefault example_dataYDefault
              example_UTCCorrection example_xZoomLimit example_files
              "ethane" (tail example_compounds) p "meas_date") as [Hx _].
  - reflexivity.
  - apply var_page_reachable. repeat constructor.
  - destruct Hx as (H1 & _ & _ & _ & H5).
    + right. left.
    + apply (bool_decide_unpack _). vm_compute. reflexivity.
    + split; [exact H1|exact H5].
Defined.

(** * Comparing limits, and what is on display *)

Lemma strict_eq_iff (a b : JsVal) :
  (∀ d, a ≠ JDate d) →
  strict_eq a b = true ↔ same_value a b ∧ a ≠ JNaN.
Proof.
  intros Hd.
  destruct a, b; simpl; try (by destruct (Hd d));
    try rewrite Qeq_bool_iff; try rewrite String.eqb_eq;
    (split; [intros H; split|intros [H Hn]]); try done; try congruence.
Qed.

Lemma strict_eq_trans (a b c : JsVal) :
  strict_eq a b = true → strict_eq b c = true → strict_eq a c = true.
Proof.
  destruct a, b, c; simpl; try done.
  - rewrite !Qeq_bool_iff. intros H1 H2. by rewrite H1.
  - rewrite !String.eqb_eq. congruence.
Qed.

(** X16.  [areLimitsEqual] is symmetric and transitive, and, on limits
    whose y bounds are not [Date] objects, it holds exactly when the four
    bounds are the same values and neither y bound of the first is [NaN]:
    limits with a [NaN] bound are not equal to themselves. *)
Theorem limits_equal_iff :
  (∀ a b, areLimitsEqual a b = areLimitsEqual b a)
  ∧ (∀ a b c, areLimitsEqual a b = true → areLimitsEqual b c = true →
              areLimitsEqual a c = true)
  ∧ (∀ a b, (∀ d, yMin a ≠ JDate d) → (∀ d, yMax a ≠ JDate d) →
       areLimitsEqual a b = true
       ↔ same_bounds a b ∧ yMin a ≠ JNaN ∧ yMax a ≠ JNaN).
Proof.
  split; [exact areLimitsEqual_sym|]. split.
  - intros a b c. unfold areLimitsEqual. rewrite !andb_true_iff, !Z.eqb_eq.
    intros [[[H1 H2] H3] H4] [[[G1 G2] G3] G4].
    repeat split; try congruence; by eapply strict_eq_trans.
  - intros a b Hlo Hhi. unfold areLimitsEqual, same_bounds.
    rewrite !andb_true_iff, !Z.eqb_eq, (strict_eq_iff _ _ Hlo), (strict_eq_iff _ _ Hhi).
    tauto.
Qed.

Lemma limits_equal_iff_witness :
  areLimitsEqual var_full var_full = true ∧ areLimitsEqual var_unknown var_unknown = false.
Proof.
  destruct limits_equal_iff as (_ & _ & Hiff). split.
  - apply Hiff; [done|done|]. repeat split; done.
  - destruct (areLimitsEqual var_unknown var_unknown) eqn:E; [|reflexivity].
    apply Hiff in E as (_ & Hn & _); [by destruct Hn|done|done].
Defined.

(** X19.  In every state either page reaches, the compound the selector
    shows is the one the widget remembers as the previous compound, the
    set on display is the set of that compound, every configured compound
    and no other has a set, and no two compounds share a set. *)
Theorem display_follows_selector :
  (∀ (B : Browser) (compounds : list string) (UTCoffset xZoomLimit yRound : Q)
     (JSONFiles : string → option (list Raw)) (c0 : string) (rest : list string)
     (p : FixedAxis.Plot),
     compounds = c0 :: rest →
     FixedAxis.reachable B compounds UTCoffset xZoomLimit yRound JSONFiles p →
     let s := FixedAxis.sel p in
     previousCompound s = Some (FixedAxis.selector p)
     ∧ FixedAxis.selector p ∈ compounds
     ∧ (∃ a, selectionsByCompound s !! FixedAxis.selector p = Some a
             ∧ selectedDates s = Some a)
     ∧ (∀ c, c ∈ compounds ↔ is_Some (selectionsByCompound s !! c))
     ∧ (∀ c1 c2 a, selectionsByCompound s !! c1 = Some a →
                   selectionsByCompound s !! c2 = Some a → c1 = c2))
  ∧ (∀ (B : Browser) (compounds : list string)
       (xOptions yOptions : list (string * VarAxis.Accessor))
       (dataXDefault0 dataYDefault0 : VarAxis.Accessor) (UTCoffset xZoomLimit : Q)
       (JSONFiles : string → option (list Raw)) (c0 : string) (rest : list string)
       (p : VarAxis.DataSelector),
       compounds = c0 :: rest →
       VarAxis.reachable B compounds xOptions yOptions dataXDefault0 dataYDefault0
                         UTCoffset xZoomLimit JSONFiles p →
       let s := VarAxis.sel p in
       previousCompound s = Some (VarAxis.selector p)
       ∧ VarAxis.selector p ∈ compounds
       ∧ (∃ a, selectionsByCompound s !! VarAxis.selector p = Some a
               ∧ selectedDates s = Some a)
       ∧ (∀ c, c ∈ compounds ↔ is_Some (selectionsByCompound s !! c))
       ∧ (∀ c1 c2 a, selectionsByCompound s !! c1 = Some a →
                     selectionsByCompound s !! c2 = Some a → c1 = c2)).
Proof.
  assert (∀ compounds cur s, sel_good compounds cur s →
            previousCompound s = Some cur
            ∧ cur ∈ compounds
            ∧ (∃ a, selectionsByCompound s !! cur = Some a ∧ selectedDates s = Some a)
            ∧ (∀ c, c ∈ compounds ↔ is_Some (selectionsByCompound s !! c))
            ∧ (∀ c1 c2 a, selectionsByCompound s !! c1 = Some a →
                          selectionsByCompound s !! c2 = Some a → c1 = c2)) as Hall.
  { intros compounds cur s [[Hb Hdist Hknown] Hprev (a & Ha & Hs) Hconf Hcm].
    split; [done|]. split; [apply Hknown; by eexists|]. split; [eauto|].
    split; [|exact Hdist]. intros c. split; [apply Hconf|apply Hknown]. }
  split.
  - intros B compounds UTCoffset xZoomLimit yRound JSONFiles c0 rest p Hcs Hr.
    apply Hall.
    by apply (fixed_reachable_good B compounds UTCoffset xZoomLimit yRound JSONFiles c0 rest).
  - intros B compounds xOptions yOptions dataXDefault0 dataYDefault0 UTCoffset xZoomLimit
      JSONFiles c0 rest p Hcs Hr.
    apply Hall.
    by apply (var_reachable_good B compounds xOptions yOptions dataXDefault0 dataYDefault0
                UTCoffset xZoomLimit JSONFiles c0 rest).
Qed.

Lemma display_follows_selector_witness :
  let p := fixed_run [FixedAxis.FetchDone 0; FixedAxis.SelectCompound "propane"] in
  previousCompound (FixedAxis.sel p) = Some (FixedAxis.selector p)
  ∧ FixedAxis.selector p ∈ example_compounds.
Proof.
  intros p. destruct display_follows_selector as [Hf _].
  destruct (Hf example_browser example_compounds example_UTCCorrection example_xZoomLimit
              example_yAxisRound example_files "ethane" (tail example_compounds) p)
    as (H1 & H2 & _).
  - reflexivity.
  - apply fixed_page_reachable. repeat constructor.
  - split; [exact H1|exact H2].
Defined.

(** * The reset button *)

Section FixedReset.
Variable B : Browser.
Variable compounds : list string.
Variable UTCoffset : Q.
Variable xZoomLimit : Q.
Variable yRound : Q.
Variable JSONFiles : string -> option (list Raw).

Import FixedAxis.

Local Abbreviation step := (FixedAxis.step B compounds UTCoffset xZoomLimit yRound JSONFiles).
Local Abbreviation run := (FixedAxis.run B compounds UTCoffset xZoomLimit yRound JSONFiles).
Local Abbreviation view := (fixed_view B compounds UTCoffset yRound JSONFiles).

Lemma fixed_reset_step raw L L0 p :
  view raw L p →
  createScales B yRound (map (convert UTCoffset ["date"]) raw) JNull JNull JNull JNull
  = inr L0 →
  view raw L0 (run [ResetAxes; FetchDone 0] p)
  ∧ zoomHistory (run [ResetAxes; FetchDone 0] p) = zoomHistory p.
Proof.
  intros (Hg & Hpend & Hraw & HL & Hst) Hdef.
  unfold FixedAxis.run. simpl.
  destruct (fixed_updateAxes compounds p JNull JNull JNull JNull Hg) as (t & Hu & Ht).
  assert (step p ResetAxes
          = with_pending [mkFetch (Some (selector p)) JNull JNull JNull JNull]
                         (with_sel t p)) as ->.
  { unfold FixedAxis.step. simpl. rewrite Hu. simpl. by rewrite Hpend. }
  destruct (fixed_answer B compounds UTCoffset xZoomLimit yRound JSONFiles raw L p t
              JNull JNull JNull JNull) as (L' & Hv & Hh' & Hs & Heq); try done.
  pose proof (Heq L0 Hdef) as ->. done.
Qed.

End FixedReset.

Section VarReset.
Variable B : Browser.
Variable compounds : list string.
Variable xOptions : list (string * VarAxis.Accessor).
Variable yOptions : list (string * VarAxis.Accessor).
Variable dataXDefault0 : VarAxis.Accessor.
Variable UTCoffset : Q.
Variable xZoomLimit : Q.
Variable JSONFiles : string -> option (list Raw).

Import VarAxis.

Local Abbreviation step :=
  (VarAxis.step B compounds xOptions yOptions dataXDefault0 UTCoffset xZoomLimit JSONFiles).
Local Abbreviation run :=
  (VarAxis.run B compounds xOptions yOptions dataXDefault0 UTCoffset xZoomLimit JSONFiles).
Local Abbreviation render_then := (VarAxis.render_then B xOptions yOptions dataXDefault0 UTCoffset).
Local Abbreviation createScales := (VarAxis.createScales B xOptions yOptions).
Local Abbreviation current_stack := (VarAxis.current_stack xOptions yOptions).
Local Abbreviation view := (var_view B compounds xOptions yOptions UTCoffset JSONFiles).
Local Abbreviation context_key p :=
  (joinXYStrings (reverseKeyLookup xOptions (dataXDefault p))
                 (reverseKeyLookup yOptions (dataYDefault p))).

Lemma var_reset_step raw st L p :
  view raw st L p → view raw st L (run [ResetAxes; FetchDone 0] p).
Proof.
  intros (Hg & Hpend & Hraw & HL & Hst & Hlast & Hall & Hext).
  pose proof (good_previous _ _ _ Hg) as Hprev.
  pose proof Hst as Hcur.
  unfold VarAxis.current_stack in Hst. rewrite Hprev in Hst. simpl in Hst.
  destruct (var_updateAxes compounds p JNull JNull JNull JNull Hg) as (t & Hu & Ht).
  set (f := mkFetch (Some (selector p)) JNull JNull JNull JNull).
  set (p1 := with_pending [f] (with_sel t p)).
  assert (step p ResetAxes = p1) as H1.
  { unfold VarAxis.step. simpl. rewrite Hu. simpl. by rewrite Hpend. }
  unfold VarAxis.run. simpl. rewrite H1.
  rewrite (var_answer_eq B compounds xOptions yOptions dataXDefault0 UTCoffset xZoomLimit
             JSONFiles raw p1 f) by done.
  set (p0 := with_pending [] p1) in *.
  assert (var_good compounds p0) as Hg0 by exact Ht.
  destruct (var_render_then_shape B compounds xOptions yOptions dataXDefault0 UTCoffset
              f raw p0 _ Hg0 eq_refl)
    as (Hg2 & Hp2 & Hs2 & Hdx2 & Hdy2 & Hpc2 & Hz2 & Hl2).
  set (p2 := out_state (render_then f raw p0)) in *.
  set (data := map (convert UTCoffset (map_keys xOptions)) raw) in *.
  assert (previousCompound (sel p0) = Some (selector p)) as Hprev0
    by apply (good_previous _ _ _ Ht).
  assert (stack_of p0 (selector p) (context_key p) = Some st) as Hst0 by exact Hst.
  destruct (stack_of_Some _ _ _ _ Hst0) as (sub & Hsub & Hkey).
  assert (var_stable B data (dataXDefault p) (dataYDefault p) L) as HA.
  { apply last_Some in Hlast as [st' ->]. apply Forall_app in Hall as [_ Hl].
    by apply Forall_singleton. }
  pose proof (createScales_peek B xOptions yOptions data p0 (selector p) sub st L
                Hprev0 Hsub Hkey Hlast HA) as Hcs.
  simpl in Hcs, Hz2, Hl2. rewrite Hcs in Hz2, Hl2. simpl in Hz2, Hl2.
  split; [done|]. split; [by rewrite Hp2|]. split; [by rewrite Hs2|].
  split; [done|]. split.
  { unfold VarAxis.current_stack. rewrite Hpc2. simpl. rewrite Hdx2, Hdy2.
    unfold stack_of. rewrite Hz2. exact Hst0. }
  split; [done|].
  split; [|by rewrite Hdy2].
  by rewrite Hdx2, Hdy2.
Qed.

End VarReset.

(** X20.  On the fixed-axis page the reset button, once its request is
    answered, shows the default limits of the data and leaves the zoom
    history as it is.  On the variable-axis page it shows the limits that
    were on display again, the top of the stack, and leaves the stack as
    it is: it undoes no zoom. *)
Theorem reset_axes_answer :
  (∀ (B : Browser) (compounds : list string) (UTCoffset xZoomLimit yRound : Q)
     (JSONFiles : string → option (list Raw)) (raw : list Raw) (L L0 : Limits)
     (p : FixedAxis.Plot),
     fixed_view B compounds UTCoffset yRound JSONFiles raw L p →
     FixedAxis.createScales B yRound (map (convert UTCoffset ["date"]) raw)
                            JNull JNull JNull JNull = inr L0 →
     let p' := FixedAxis.run B compounds UTCoffset xZoomLimit yRound JSONFiles
                             [FixedAxis.ResetAxes; FixedAxis.FetchDone 0] p in
     FixedAxis.limits p' = Some L0
     ∧ FixedAxis.zoomHistory p' = FixedAxis.zoomHistory p)
  ∧ (∀ (B : Browser) (compounds : list string)
       (xOptions yOptions : list (string * VarAxis.Accessor))
       (dataXDefault0 : VarAxis.Accessor) (UTCoffset xZoomLimit : Q)
       (JSONFiles : string → option (list Raw)) (raw : list Raw)
       (st : list Limits) (L : Limits) (p : VarAxis.DataSelector),
       var_view B compounds xOptions yOptions UTCoffset JSONFiles raw st L p →
       let p' := VarAxis.run B compounds xOptions yOptions dataXDefault0 UTCoffset
                             xZoomLimit JSONFiles
                             [VarAxis.ResetAxes; VarAxis.FetchDone 0] p in
       VarAxis.limits p' = Some L
       ∧ VarAxis.current_stack xOptions yOptions p' = Some st).
Proof.
  split.
  - intros B compounds UTCoffset xZoomLimit yRound JSONFiles raw L L0 p Hv Hdef p'.
    destruct (fixed_reset_step B compounds UTCoffset xZoomLimit yRound JSONFiles raw L L0 p
                Hv Hdef) as [(_ & _ & _ & Hl & _) Hh].
    done.
  - intros B compounds xOptions yOptions dataXDefault0 UTCoffset xZoomLimit JSONFiles
      raw st L p Hv p'.
    destruct (var_reset_step B compounds xOptions yOptions dataXDefault0 UTCoffset xZoomLimit
                JSONFiles raw st L p Hv) as (_ & _ & _ & Hl & Hst & _).
    done.
Qed.

Lemma reset_axes_answer_witness :
  let p := var_run [VarAxis.FetchDone 0;
                    VarAxis.DragZoom 1500000000000 1505000000000 100 200;
                    VarAxis.FetchDone 0;
                    VarAxis.DragZoom 1501000000000 1504000000000 120 180;
                    VarAxis.FetchDone 0] in
  let p' := VarAxis.run example_browser example_compounds example_xOptions example_yOptions
              example_dataXDefault example_UTCCorrection example_xZoomLimit example_files
              [VarAxis.ResetAxes; VarAxis.FetchDone 0] p in
  VarAxis.limits p' = Some zoomed_twice
  ∧ var_stack p' = Some ([var_full] ++ [zoomed_once; zoomed_twice]).
Proof.
  intros p p'. destruct reset_axes_answer as [_ Hv].
  apply (Hv example_browser example_compounds example_xOptions example_yOptions
            example_dataXDefault example_UTCCorrection example_xZoomLimit example_files
            example_data).
  exact var_second_view.
Defined.

(** * What changes the zoom history *)

Section FixedHistory.
Variable B : Browser.
Variable compounds : list string.
Variable UTCoffset : Q.
Variable xZoomLimit : Q.
Variable yRound : Q.
Variable JSONFiles : string -> option (list Raw).

Import FixedAxis.

Local Abbreviation step := (FixedAxis.step B compounds UTCoffset xZoomLimit yRound JSONFiles).

Lemma kz_on_sel {A} (m : M Sel A) : keeps_zoomHistory (on_sel m).
Proof. intros p. unfold on_sel, zoom_in. by destruct (m (sel p)). Qed.

Lemma kz_bind {A C} (m : M Plot A) (k : A → M Plot C) :
  keeps_zoomHistory m → (∀ a, keeps_zoomHistory (k a)) → keeps_zoomHistory (bind m k).
Proof.
  intros Hm Hk p. unfold bind. specialize (Hm p).
  destruct (m p) as [a p1|e p1]; simpl in *; [|done].
  by rewrite (Hk a p1).
Qed.

Lemma kz_gets {A} (f : Plot → A) : keeps_zoomHistory (gets f).
Proof. by intros p. Qed.

Lemma kz_for_of {A} (xs : list A) (body : A → M Plot unit) :
  (∀ x, keeps_zoomHistory (body x)) → keeps_zoomHistory (for_of xs body).
Proof.
  intros Hb. induction xs as [|x xs IH]; [by intros p|].
  simpl. apply kz_bind; auto.
Qed.

Lemma kz_render c a b c' d : keeps_zoomHistory (render c a b c' d).
Proof.
  unfold render. apply kz_bind; [apply kz_on_sel|]. intros _.
  apply kz_bind; [by intros p|]. intros _. apply kz_on_sel.
Qed.

Lemma kz_updateAxes a b c d : keeps_zoomHistory (updateAxes a b c d).
Proof.
  unfold updateAxes. apply kz_bind; [apply kz_gets|]. intros v.
  apply kz_bind; [apply kz_on_sel|]. intros _. apply kz_render.
Qed.

Lemma kz_on_change c : keeps_zoomHistory (on_change c).
Proof.
  unfold on_change. apply kz_bind; [apply kz_on_sel|]. intros _.
  apply kz_bind; [apply kz_render|]. intros _. apply kz_on_sel.
Qed.

Lemma kz_render_then f raw : keeps_zoomHistory (render_then B UTCoffset yRound f raw).
Proof.
  intros p. unfold FixedAxis.render_then.
  destruct (createScales B yRound _ _ _ _ _) as [e|lim]; [done|].
  apply (kz_bind (modify (with_limits (Some lim)))); [by intros q|].
  intros _. apply kz_on_sel.
Qed.

Lemma fixed_step_history p e :
  fixed_zooming e = false → zoomHistory (step p e) = zoomHistory p.
Proof.
  intros He. unfold FixedAxis.step.
  destruct e as [c|x1 x2 y1 y2| | | | | | |d|ds alt|x0 x1 y0 y1|i]; simpl; try done.
  - apply (kz_bind (modify (with_selector c))); [by intros q|]. intros _. apply kz_on_change.
  - apply kz_updateAxes.
  - apply (kz_bind (gets selector)); [apply kz_gets|]. intros v. apply kz_on_sel.
  - unfold getJSONfile_commit.
    apply (kz_bind (gets selector)); [apply kz_gets|]. intros v. apply kz_on_sel.
  - apply (kz_bind (gets selector)); [apply kz_gets|]. intros v.
    unfold cleanPlot. apply kz_bind; [apply kz_on_sel|]. intros _. apply kz_render.
  - unfold totalRefresh. apply kz_bind.
    + unfold initVars. apply kz_bind; [by intros q|]. intros _.
      apply kz_bind; [apply kz_on_sel|]. intros _. apply kz_render.
    + intros _. apply kz_bind; [by intros q|]. intros _.
      apply kz_bind; [apply kz_gets|]. intros v. apply kz_on_change.
  - apply kz_updateAxes.
  - apply kz_on_sel.
  - unfold dragEnd_select. apply kz_for_of. intros d0. apply kz_on_sel.
  - unfold fetch_done. apply (kz_bind (gets pending)); [apply kz_gets|]. intros q.
    destruct (q !! i) as [f|]; [|by intros ?].
    apply kz_bind; [by intros ?|]. intros _.
    destruct (f_compound f) as [c|]; [|by intros ?].
    destruct (JSONFiles c) as [raw|]; [|by intros ?].
    apply kz_render_then.
Qed.

End FixedHistory.

Section VarHistory.
Variable B : Browser.
Variable compounds : list string.
Variable xOptions : list (string * VarAxis.Accessor).
Variable yOptions : list (string * VarAxis.Accessor).
Variable dataXDefault0 : VarAxis.Accessor.
Variable UTCoffset : Q.
Variable xZoomLimit : Q.
Variable JSONFiles : string -> option (list Raw).

Import VarAxis.

Local Abbreviation step :=
  (VarAxis.step B compounds xOptions yOptions dataXDefault0 UTCoffset xZoomLimit JSONFiles).

Lemma var_step_history p e :
  var_zooming e = false → zoomHistory (step p e) = zoomHistory p.
Proof.
  intros He. unfold VarAxis.step.
  destruct e as [c|k|k|x1 x2 y1 y2| | | | | | |d|ds alt|x0 x1 y0 y1|i]; simpl; try done.
  - apply (keeps_bind (modify (with_selector c))); [by intros q|].
    intros _. apply keeps_on_change.
  - unfold on_xSelect.
    apply (keeps_bind (modify (with_dataXDefault (option_get xOptions k)))); [by intros q|].
    intros _. apply keeps_bind; [apply keeps_gets|]. intros pc. apply keeps_render.
  - unfold on_ySelect.
    apply (keeps_bind (modify (with_dataYDefault (option_get yOptions k)))); [by intros q|].
    intros _. apply keeps_bind; [apply keeps_gets|]. intros pc. apply keeps_render.
  - apply keeps_updateAxes.
  - apply (keeps_bind (gets selector)); [apply keeps_gets|]. intros v. apply keeps_on_sel.
  - unfold getJSONfile_commit.
    apply (keeps_bind (gets selector)); [apply keeps_gets|]. intros v. apply keeps_on_sel.
  - apply (keeps_bind (gets selector)); [apply keeps_gets|]. intros v.
    unfold cleanPlot. apply keeps_bind; [apply keeps_on_sel|]. intros _. apply keeps_render.
  - apply keeps_updateAxes.
  - apply keeps_on_sel.
  - unfold dragEnd_select. apply keeps_for_of. intros d0. apply keeps_on_sel.
  - unfold dragEnd_zoom. apply (keeps_bind (gets limits)); [apply keeps_gets|].
    intros [lim|]; [|by intros q].
    destruct (zoom_range lim xZoomLimit x0 x1). apply keeps_updateAxes.
Qed.

End VarHistory.

(** X22.  On the fixed-axis page only a shift-drag and the undo button
    change the zoom history: it is one list for the plot, and the choice
    of another compound, the clear buttons and the answers leave it as it
    is.  On the variable-axis page the zoom stacks change only when an
    answer arrives, on undo and on clear-all: a shift-drag itself, and the
    choice of a compound or an attribute, leave every stack as it is. *)
Theorem zoom_history_frame :
  (∀ (B : Browser) (compounds : list string) (UTCoffset xZoomLimit yRound : Q)
     (JSONFiles : string → option (list Raw)) (p : FixedAxis.Plot) (e : FixedAxis.Event),
     fixed_zooming e = false →
     FixedAxis.zoomHistory (FixedAxis.step B compounds UTCoffset xZoomLimit yRound
                                           JSONFiles p e)
     = FixedAxis.zoomHistory p)
  ∧ (∀ (B : Browser) (compounds : list string)
       (xOptions yOptions : list (string * VarAxis.Accessor))
       (dataXDefault0 : VarAxis.Accessor) (UTCoffset xZoomLimit : Q)
       (JSONFiles : string → option (list Raw)) (p : VarAxis.DataSelector)
       (e : VarAxis.Event),
       var_zooming e = false →
       VarAxis.zoomHistory (VarAxis.step B compounds xOptions yOptions dataXDefault0
                                         UTCoffset xZoomLimit JSONFiles p e)
       = VarAxis.zoomHistory p).
Proof.
  split.
  - intros. by apply fixed_step_history.
  - intros. by apply var_step_history.
Qed.

Lemma zoom_history_frame_witness :
  let p := fixed_run [FixedAxis.FetchDone 0;
                      FixedAxis.DragZoom 1500000000000 1505000000000 100 200;
                      FixedAxis.FetchDone 0] in
  FixedAxis.zoomHistory
    (FixedAxis.step example_browser example_compounds example_UTCCorrection
                    example_xZoomLimit example_yAxisRound example_files p
                    (FixedAxis.SelectCompound "propane"))
  = FixedAxis.zoomHistory p.
Proof.
  intros p. destruct zoom_history_frame as [Hf _]. apply Hf. reflexivity.
Defined.

(** * What an answer does to the selection of the variable-axis page *)

Section Grows.
Variable compounds : list string.

Lemma updateClicked_grows cur s date salt :
  sel_good compounds cur s →
  ∀ c k, selected s c k → selected (out_state (updateClicked date salt false s)) c k.
Proof.
  intros Hg c k Hsel.
  destruct (formatISODate date salt) as [e|key] eqn:Hkey.
  { unfold updateClicked. by rewrite Hkey. }
  destruct (good_alias _ _ _ Hg) as (a & Ha & _).
  destruct (updateClicked_effect compounds cur s date salt false key a Hg Hkey Ha)
    as (s' & -> & _ & Ec & Eo & Ea & _).
  simpl. destruct Hsel as (x & Hx & Hin). exists x. rewrite Ec. split; [done|].
  destruct (decide (x = a)) as [->|Hne]; [|by rewrite Eo].
  rewrite Ea. destruct (decide (key ∈ set_at a s)); [done|].
  apply elem_of_app. by left.
Qed.

Lemma reclick_grows cur s kd ks cd shown :
  sel_good compounds cur s →
  ∀ c k, selected s c k → selected (out_state (reclick kd ks cd shown s)) c k.
Proof.
  intros Hg. unfold reclick. destruct shown as [|d0 shown0]; [done|].
  unfold bind, gets. destruct (good_alias _ _ _ Hg) as (a & Ha & Hs). rewrite Hs.
  match goal with |- context [match ?t with inl _ => _ | inr _ => _ end] =>
    destruct t as [e|keep] end; [done|].
  apply (for_of_keeps _ (fun t => sel_good compounds cur t
                                  ∧ ∀ c k, selected s c k → selected t c k)); [done|].
  intros d t [Hgt Htt]. split.
  - by apply updateClicked_good.
  - intros c k Hsel. apply (updateClicked_grows cur); [done|]. by apply Htt.
Qed.

End Grows.

Section VarGrows.
Variable B : Browser.
Variable compounds : list string.
Variable xOptions : list (string * VarAxis.Accessor).
Variable yOptions : list (string * VarAxis.Accessor).
Variable dataXDefault0 : VarAxis.Accessor.
Variable UTCoffset : Q.
Variable xZoomLimit : Q.
Variable JSONFiles : string -> option (list Raw).

Import VarAxis.

Local Abbreviation step :=
  (VarAxis.step B compounds xOptions yOptions dataXDefault0 UTCoffset xZoomLimit JSONFiles).
Local Abbreviation render_then := (VarAxis.render_then B xOptions yOptions dataXDefault0 UTCoffset).
Local Abbreviation createScales := (VarAxis.createScales B xOptions yOptions).
Local Abbreviation good := (var_good compounds).

Lemma var_render_then_grows p f raw :
  good p →
  ∀ c k, selected (sel p) c k → selected (sel (out_state (render_then f raw p))) c k.
Proof.
  intros Hg.
  cut (∀ q, q = out_state (render_then f raw p) →
            ∀ c k, selected (sel p) c k → selected (sel q) c k).
  { intros H. by apply H. }
  intros q Hq. unfold VarAxis.render_then in Hq.
  set (data := map (convert UTCoffset (map_keys xOptions)) raw) in *.
  pose proof (var_createScales_frame B xOptions yOptions data
                (f_xMin f) (f_xMax f) (f_yMin f) (f_yMax f) p)
    as (Hs & Hv & _ & _ & Hdx & _).
  unfold bind at 1 in Hq.
  destruct (createScales data _ _ _ _ p) as [lim p1|e p1]; simpl in *.
  2:{ subst q. by rewrite Hs. }
  assert (good p1) as Hg1 by (unfold var_good; by rewrite Hs, Hv).
  unfold bind, modify, get in Hq. simpl in Hq.
  destruct (shown_points B dataXDefault0 lim (dataYDefault p1) data) as [e|shown].
  { subst q. simpl. by rewrite Hs. }
  destruct (dataXDefault p1) as [ax|] eqn:Ex.
  - unfold on_sel, zoom_in in Hq. simpl in Hq.
    pose proof (reclick_grows compounds (selector p1) (sel p1)
                  (fun d => getf d (acc_field ax)) (fun _ => None)
                  (fun d => getf d "date") shown Hg1) as Hrt.
    subst q. intros c k Hsel. rewrite <- Hs in Hsel. specialize (Hrt c k Hsel).
    destruct (reclick _ _ _ _ _); simpl in *; exact Hrt.
  - destruct shown as [|d0 shown]; subst q; simpl; by rewrite Hs.
Qed.

Lemma var_answer_grows p i :
  good p →
  ∀ c k, selected (sel p) c k → selected (sel (step p (FetchDone i))) c k.
Proof.
  intros Hg. unfold VarAxis.step. simpl. unfold fetch_done, bind, gets.
  destruct (pending p !! i) as [f|]; [|done].
  unfold modify. destruct (f_compound f) as [c|]; [|done].
  destruct (JSONFiles c) as [raw|]; [|done].
  by apply (var_render_then_grows (with_pending _ p) f raw Hg).
Qed.

End VarGrows.

(** X23.  On the variable-axis page the arrival of an answer never takes
    a date-key out of a selection, whatever the x attribute on display:
    what was selected under a compound stays selected, and stays in the
    ledger. *)
Theorem answer_never_deselects (B : Browser) (compounds : list string)
    (xOptions yOptions : list (string * VarAxis.Accessor))
    (dataXDefault0 dataYDefault0 : VarAxis.Accessor) (UTCoffset xZoomLimit : Q)
    (JSONFiles : string → option (list Raw)) (c0 : string) (rest : list string)
    (p : VarAxis.DataSelector) (i : nat) (c k : string) :
  compounds = c0 :: rest →
  VarAxis.reachable B compounds xOptions yOptions dataXDefault0 dataYDefault0
                    UTCoffset xZoomLimit JSONFiles p →
  let p' := VarAxis.step B compounds xOptions yOptions dataXDefault0 UTCoffset xZoomLimit
                         JSONFiles p (VarAxis.FetchDone i) in
  (selected (VarAxis.sel p) c k → selected (VarAxis.sel p') c k)
  ∧ (ledger_has (selectionsByDate (VarAxis.sel p)) k c
     → ledger_has (selectionsByDate (VarAxis.sel p')) k c).
Proof.
  intros Hcs Hr p'.
  pose proof (var_reachable_good B compounds xOptions yOptions dataXDefault0 dataYDefault0
                UTCoffset xZoomLimit JSONFiles c0 rest p Hcs Hr) as Hg.
  pose proof (var_reachable_tidy B compounds xOptions yOptions dataXDefault0 dataYDefault0
                UTCoffset xZoomLimit JSONFiles c0 rest p Hcs Hr) as [Hi _].
  assert (VarAxis.reachable B compounds xOptions yOptions dataXDefault0 dataYDefault0
            UTCoffset xZoomLimit JSONFiles p') as Hr' by (by constructor).
  pose proof (var_reachable_good B compounds xOptions yOptions dataXDefault0 dataYDefault0
                UTCoffset xZoomLimit JSONFiles c0 rest p' Hcs Hr') as Hg'.
  assert (selected (VarAxis.sel p) c k → selected (VarAxis.sel p') c k) as Hgrow
    by (by apply var_answer_grows).
  split; [exact Hgrow|].
  intros Hl. destruct (Hgrow (Hi k c Hl)) as (a & Ha & Hin).
  by apply (good_committed _ _ _ Hg' c a).
Qed.

Lemma answer_never_deselects_witness :
  let p := var_run [VarAxis.FetchDone 0;
                    VarAxis.Click (point_at 1500000000000 None);
                    VarAxis.SelectX "meas_date"] in
  let p' := VarAxis.step example_browser example_compounds example_xOptions example_yOptions
              example_dataXDefault example_UTCCorrection example_xZoomLimit example_files
              p (VarAxis.FetchDone 0) in
  selected (VarAxis.sel p) "ethane" "2017-07-14 02:40"
  → selected (VarAxis.sel p') "ethane" "2017-07-14 02:40".
Proof.
  intros p p'.
  apply (answer_never_deselects example_browser example_compounds example_xOptions
           example_yOptions example_dataXDefault example_dataYDefault
           example_UTCCorrection example_xZoomLimit example_files
           "ethane" (tail example_compounds) p 0%nat).
  - reflexivity.
  - apply var_page_reachable. repeat constructor.
Defined.
